(* ===== verification/_CoqProject ===== *)
-Q . S2P
Prelude.v
Types.v
Mem.v
Strbuf.v
Dialect.v
Hash.v
Float.v
CLib.v
ServerDsn.v
Model.v
Backend.v
Query.v
Builder.v
BuilderSpec.v
QuerySpec.v
Columns.v
QueryRefine.v
Sample.v
BaseProps.v
QueryProps.v
Tx.v
Driver.v
Result.v
ResultSpec.v
Exec.v
Rows.v
Batch.v
ExecSpec.v
ExecProps.v
BatchSpec.v
InsertSpec.v
BatchProps.v
Core.v
CoreProps.v
StmtCache.v
StmtCacheSpec.v
CacheProps.v
Pool.v
PoolSpec.v
PoolProps.v
Stdio.v
Migration.v
MigrationSpec.v
MigrationProps.v
Examples.v
DriverState.v
DriverSpec.v
Reading.v
Describe.v
Handles.v
Sqlite.v
SqliteSpec.v
SqliteExec.v
SqliteQuery.v
SqliteDescribe.v
SqliteLibrary.v
Engine.v
SqliteMigration.v
SqliteSession.v
SmallSql.v
SqliteProps.v
SqliteOrm.v
SqliteLists.v
ExamplesProps.v
Mysql.v
MysqlQuery.v
MysqlReuse.v
MysqlProps.v
MysqlExec.v
MysqlFetch.v
MysqlServer.v
SmallMysql.v
MysqlMigration.v
Postgres.v
PostgresProps.v
PostgresExec.v
PostgresMigration.v
TestSuite.v
TestPrograms.v
ProgramRuns.v
