(* ===== verification/Prelude.v ===== *)
(** * CORM: a verification library for the C database adapter

    CORM is an object-relational mapper in C: models describe the members of C
    structs, queries are built by calls, turned into SQL for SQLite, MySQL or
    PostgreSQL, sent to a driver behind a table of function pointers, and the
    rows are copied back into structs.  Around this core there are a
    prepared-statement cache, a connection pool, batches, transactions and an
    automatic migration.  This library models the core function by function, as
    executable definitions, and proves what it promises.

    ** How the program is modelled

    - Memory and effects ([Mem.v]).  The functions of the source are programs of
      the monad [M S]: they run in a [world] - a heap of typed blocks, an oracle
      that decides whether the next allocation succeeds, and a state [S] of
      whatever is behind the connection - and end with [Ret] or are [Stuck].
      [Stuck] is undefined behaviour: NULL and dangling pointers, double frees,
      accesses out of bounds.  Theorems that say "returns" therefore also say
      that none of these happens.  [plenty] is the hypothesis that allocations
      succeed; the theorems about exhausted memory do without it.
    - Pointers.  A pointer that may be NULL is an [option]; a function that
      changes an object returns the new object.  Objects that are shared (values
      bound to queries, result sets, records) live in the heap.
    - Integers.  [int] is wrapped to 32 bits, [size_t] and [int64_t] to 64 bits
      where the source computes ([Prelude.v]); [float] members are IEEE patterns
      ([Float.v]).
    - Loops with no structural argument have fuel: 64 doublings for the string
      buffer (after which a 64-bit capacity stays 0), the length of the text for
      the placeholder loop (each round consumes a character), the number of
      entries for the walks of the statement cache, the number of idle
      connections plus one for the pool's retries.  The theorems show that the
      fuel suffices: their conclusions name a result.
    - The loops over the rows of a result have the number of rows the library
      says are left ([sqlite3_rows], [mysql_res_rows], [mysql_stmt_rows]), plus
      one; that this bounds the rows is a law of the library's class.
    - Interfaces.  For the layers above, a driver is [Usable] (when its functions
      may be called), [SqlDriver] (a statement and its values act on the
      database), [Transactional] (what begin, commit and rollback promise),
      [ConnDriver] and [SchemaDriver] (what DDL statements do to a schema), and
      the statement cache is [CacheApi].  The three drivers implement all five, so
      that what is proved of the object-relational layer, of transactions and of
      the migration holds on each of them - on MySQL as long as no statement with
      parameters has failed, on PostgreSQL for values that are not NULL, both of
      which [sql_carries] says.  The libraries of the databases are not part of
      the source: each is a class of operations ([Sqlite3], [MySQL], [Libpq]) with
      classes of laws from its documentation ([SqliteSpec], [SqliteTx],
      [SqliteSchema], [MysqlSpec], [MysqlStmts], [MysqlFetch], [MysqlTx],
      [MysqlSchema], [LibpqSpec], [LibpqExec], [LibpqTx], [LibpqSchema]), and each
      class has an executable instance, on which the witnesses run.

    ** Files, source and theorems

    Shared data.  [Types.v]: the enumerations of [include/corm/].  [Dialect.v]:
    [src/dialect.c].  [Strbuf.v]: [internal/strbuf.h], byte by byte, and the
    predicate [writes] for code that appends to a buffer.  [Hash.v]:
    [internal/hash.h].  [Model.v]: [src/model.c], validation, registry and the
    transfer between struct members and values.  [Backend.v]: the driver table
    and [backend/backend.c].  [BaseProps.v] proves that string buffers are
    all-or-nothing under memory exhaustion, that the hash table is a map of
    stacks, what [corm_validate_model] accepts, that struct members round-trip,
    and that the last driver registered wins.

    Queries.  [Query.v] models the builder calls of [src/query.c], [Builder.v]
    the SQL generator [src/builder.c] with its specification [render];
    [BuilderSpec.v], [QuerySpec.v] and [QueryRefine.v] show that every call
    refines a step on plain strings and values.  [QueryProps.v]: any script of
    calls yields exactly the specified text, leaks nothing, never lets a value
    into the text, and binds one value per placeholder; out of memory the
    generator still reports success.  The values bound are readable and the blobs
    among them NULL or not empty ([bind_val]): of a blob of zero bytes the query
    keeps the caller's pointer and frees it (Example [empty_blob_frees_caller]).

    Execution.  [Exec.v] models the rest of [src/query.c], [Batch.v] its batches;
    [ExecSpec.v], [BatchSpec.v], [InsertSpec.v] say what reaches the driver.
    [ExecProps.v] and [BatchProps.v]: find, create and delete send exactly one
    statement - with a soft-delete field an UPDATE that binds the text "deleted"
    after the values of the conditions -; update and delete batches are atomic;
    create batches cut the records into groups.  [Columns.v]: the arrays of column descriptions that
    [describe_table] returns, and the heap around them.  [Rows.v]: what
    [map_row] does to a record, as a function on the cells of the row (members
    that own memory, [CORM_TEXT], are left out).  [Result.v], [ResultSpec.v]: [src/result.c], reference
    counts, bounds and iteration.  [Tx.v]: [corm_transaction] commits and
    reports what the commit reports, or restores and reports the callback's error.

    Connections.  [Core.v], [CoreProps.v]: [src/corm.c] - DSN, open and close,
    raw execution with error recording and logging, isolation, savepoints,
    [corm_init].  [StmtCache.v], [StmtCacheSpec.v], [CacheProps.v]:
    [internal/stmt_cache.c], pointer by pointer, refines a list in LRU order and
    frees everything.  [Pool.v], [PoolSpec.v], [PoolProps.v]:
    [internal/pool.c] as interleaved threads - capacity, exclusive lending, no
    lost wake-up - and a caller alone.  [Migration.v], [MigrationSpec.v],
    [MigrationProps.v]: [src/migration.c], the DDL texts, what they do to a
    schema, completeness and idempotence; the column descriptions are freed.

    Programs.  [Stdio.v]: the conversions of [printf] the examples use.
    [Examples.v] models the three programs of [examples/] for whatever drivers
    are registered; [ExamplesProps.v] runs [basic_main] on the SQLite driver:
    from [corm_open] to [corm_close] it is never stuck, frees what it allocated
    and leaves no connection, over every database that obeys [BasicDb] - whose
    tables of users have the columns of the model -, of which [SmallSql.v] is one.  [TestPrograms.v] models
    the test programs of [tests/] that use a database, [TestSuite.v] evaluates the
    assertions of the others.  [SmallSql.v] is a database that reads SQL - a
    lexer, a parser and an evaluator -, [SmallMysql.v] the same behind a MySQL
    server; in [ProgramRuns.v] the tests and the examples run on them, through
    all layers of the model: every assertion holds and nothing is left allocated.

    Drivers ([src/backend/]).  [CLib.v]: the functions of the C library they
    use - [strncpy], [strtoll], [atoi], [strtod], [%.15g].  [ServerDsn.v]: the
    DSN of [mysql_open] and [pg_open], byte by byte on the fixed buffers, which
    inverts the notation it reads.  [DriverState.v]: what the drivers share - the
    fields of [struct corm], the statement cache as the list that [CacheProps.v]
    proves it to be, copies of texts, result objects; [DriverSpec.v] and
    [Reading.v] are the reasoning about it (programs that leave the caller's heap
    alone, total-correctness triples, result objects under construction), and
    [Handles.v] the invariant of a cache of statements.  [Sqlite.v] models
    [sqlite3.c]; [SqliteSpec.v] and [SqliteExec.v]: executing through the cache
    is executing directly, for programs of which only the last statement delivers
    rows (the driver leaves it on its row); [SqliteQuery.v] and [SqliteProps.v]:
    results are well typed and hold the rows, no statement leaks and none is used
    after it was finalized.  A prepared statement keeps the columns it was compiled
    for until it is stepped in a changed schema, while the driver counts them
    before it steps: a result has the columns counted, and a cached statement must
    not have lost any ([wide_enough], [steady]; [up_to_date] when it has those of
    the database); [Describe.v] and
    [SqliteDescribe.v]: [describe_table] returns the columns the library lists;
    [SqliteMigration.v]: the migration on this driver; [SqliteSession.v]: what
    any calls between [corm_open] and [corm_close] keep; [SqliteOrm.v]: the
    layers put together - [corm_find_one] loads the first row of its SELECT into
    the record, and what [corm_create_one] stores [corm_find_one] gives back;
    [SqliteLists.v]: [corm_find_all] fills an array within its capacity,
    [corm_count] counts; [SqliteLibrary.v] implements the library over any
    database, of which [Engine.v] and [SmallSql.v] are those of the witnesses.  [Mysql.v] models
    [mysql.c]; [MysqlQuery.v], [MysqlReuse.v] and [MysqlProps.v]: a query without
    parameters returns the rows of the server, and a query with parameters leaves
    a closed statement in the cache, whose next use is undefined; [MysqlExec.v]:
    executing through the cache is executing directly, until a statement fails;
    [MysqlFetch.v]: a query with parameters returns the rows that were answered,
    byte by byte through the buffers of the columns, up to the first that does
    not fit; [MysqlServer.v]: a server on which the object-relational layer runs;
    [MysqlMigration.v]: the migration on this driver.
    [Postgres.v] models [postgres.c]; [PostgresProps.v]: a query returns what the server
    answered and clears the [PGresult] once; [PostgresExec.v]: so does executing,
    which keeps the counters of the answer; [PostgresMigration.v]: the migration
    and transactions on this driver.  [SqliteMigration.v] ends with the small DDL database on which the witnesses
    of the two server drivers migrate.

    [Sample.v] holds the concrete inputs of the witnesses; [Driver.v] the
    journalling driver.

    ** Not modelled

    - The libraries of the databases: what they do is assumed as far as their
      laws say, and the theorems hold for every instance of these.
    - [pthread] mutexes: the cache and the driver registry hold their lock from
      beginning to end of each function, so a call is one step; the pool is
      modelled at its critical sections.
    - Memory of the object structs themselves (a query, a pool or a connection is
      a value that its owner holds) and of the names of the columns of a result;
      addresses are abstract.
    - Build files. *)

From Stdlib Require Export ZArith Lia Ascii String.
From stdpp Require Export base gmap strings list pretty.

#[global] Open Scope Z_scope.

(** stdpp keeps [String.append] folded; here it computes on constructors. *)
#[global] Arguments String.append !_ _ / : simpl nomatch.

(** ** Machine integers

    [int] is 32 bits and [size_t]/[int64_t] are 64 bits wide.  A value is kept
    as a [Z] in its C range and every operation that can leave the range is
    wrapped where the source performs it. *)

Definition INT_MAX : Z := 2147483647.
Definition SIZE_BITS : Z := 64.

(** Unsigned 64-bit wrap-around ([size_t] arithmetic). *)
Definition wrap_u64 (z : Z) : Z := z mod 2 ^ 64.

(** Two's complement conversion to [n] bits (narrowing casts). *)
Definition wrap_signed (n z : Z) : Z :=
  let m := z mod 2 ^ n in if m <? 2 ^ (n - 1) then m else m - 2 ^ n.

Definition wrap_i32 (z : Z) : Z := wrap_signed 32 z.
Definition wrap_i64 (z : Z) : Z := wrap_signed 64 z.

Definition in_i32 (z : Z) : Prop := - 2 ^ 31 <= z < 2 ^ 31.
Definition in_i64 (z : Z) : Prop := - 2 ^ 63 <= z < 2 ^ 63.

Lemma wrap_u64_small z : 0 <= z < 2 ^ 64 -> wrap_u64 z = z.
Proof. intros. by apply Z.mod_small. Qed.

Lemma wrap_u64_bounds z : 0 <= wrap_u64 z < 2 ^ 64.
Proof. apply Z.mod_pos_bound. lia. Qed.

Lemma wrap_signed_id n z :
  0 < n -> - 2 ^ (n - 1) <= z < 2 ^ (n - 1) -> wrap_signed n z = z.
Proof.
  intros Hn Hz. unfold wrap_signed.
  assert (Hp : 2 ^ n = 2 * 2 ^ (n - 1)).
  { rewrite <- Z.pow_succ_r by lia. f_equal. lia. }
  destruct (decide (0 <= z)).
  - rewrite Z.mod_small by lia. destruct (Z.ltb_spec z (2 ^ (n - 1))); lia.
  - assert (z mod 2 ^ n = z + 2 ^ n) as ->.
    { symmetry. apply Z.mod_unique with (q := -1); lia. }
    destruct (Z.ltb_spec (z + 2 ^ n) (2 ^ (n - 1))); lia.
Qed.

Lemma wrap_i32_id z : in_i32 z -> wrap_i32 z = z.
Proof. unfold in_i32. intros. apply wrap_signed_id; lia. Qed.

Lemma wrap_i64_id z : in_i64 z -> wrap_i64 z = z.
Proof. unfold in_i64. intros. apply wrap_signed_id; lia. Qed.

Lemma wrap_signed_mod n z : 0 < n -> wrap_signed n z mod 2 ^ n = z mod 2 ^ n.
Proof.
  intros Hn. unfold wrap_signed. assert (2 ^ n <> 0) by (apply Z.pow_nonzero; lia).
  destruct (_ <? _); [by apply Z.mod_mod|].
  rewrite <- (Z_mod_plus _ 1) by (apply Z.lt_gt, Z.pow_pos_nonneg; lia).
  replace (z mod 2 ^ n - 2 ^ n + 1 * 2 ^ n) with (z mod 2 ^ n) by lia. by apply Z.mod_mod.
Qed.

(** Wrapping early or late is the same. *)
Lemma wrap_i32_add a b : wrap_i32 (wrap_i32 a + b) = wrap_i32 (a + b).
Proof.
  unfold wrap_i32. assert (E : (wrap_signed 32 a + b) mod 2 ^ 32 = (a + b) mod 2 ^ 32).
  { rewrite Z.add_mod, wrap_signed_mod, <- Z.add_mod by lia. done. }
  unfold wrap_signed at 1 3. by rewrite E.
Qed.

Lemma wrap_i32_range z : in_i32 (wrap_i32 z).
Proof.
  unfold wrap_i32, wrap_signed, in_i32. pose proof (Z.mod_pos_bound z (2 ^ 32) ltac:(lia)).
  destruct (Z.ltb_spec (z mod 2 ^ 32) (2 ^ (32 - 1))); lia.
Qed.

Lemma wrap_i32_sub a b : wrap_i32 (wrap_i32 a - b) = wrap_i32 (a - b).
Proof. apply (wrap_i32_add a (- b)). Qed.

(** ** C strings

    A C string is a [string] without the NUL character; the functions below
    keep the standard library's conventions. *)

Definition NUL : ascii := Ascii.zero.

(** The identifier quotes, written by code because a literal cannot hold one. *)
Definition dquote : string := String (ascii_of_nat 34) EmptyString.
Definition bquote : string := "`".

Definition slen (s : string) : Z := Z.of_nat (String.length s).

Fixpoint no_nul (s : string) : bool :=
  match s with
  | EmptyString => true
  | String c s' => negb (Ascii.eqb c NUL) && no_nul s'
  end.

(** [str_forallb p s]: every character of [s] satisfies [p]. *)
Fixpoint str_forallb (p : ascii -> bool) (s : string) : bool :=
  match s with
  | EmptyString => true
  | String c s' => p c && str_forallb p s'
  end.

(** The number of occurrences of [c]. *)
Fixpoint str_count (c : ascii) (s : string) : Z :=
  match s with
  | EmptyString => 0
  | String d s' => (if Ascii.eqb c d then 1 else 0) + str_count c s'
  end.

(** [strchr]: the text before the first [c] and the text after it. *)
Fixpoint split_at (c : ascii) (s : string) : option (string * string) :=
  match s with
  | EmptyString => None
  | String d s' =>
      if Ascii.eqb c d then Some (EmptyString, s')
      else '(l, r) ← split_at c s'; Some (String d l, r)
  end.

Fixpoint str_take (n : nat) (s : string) : string :=
  match n, s with
  | S n', String c s' => String c (str_take n' s')
  | _, _ => EmptyString
  end.

Fixpoint str_drop (n : nat) (s : string) : string :=
  match n, s with
  | S n', String _ s' => str_drop n' s'
  | O, _ => s
  | _, EmptyString => EmptyString
  end.

Lemma str_app_assoc (a b c : string) : a +:+ (b +:+ c) = (a +:+ b) +:+ c.
Proof. induction a as [|x a IH]; simpl; [done|]. by rewrite IH. Qed.

Lemma str_app_nil_r (a : string) : a +:+ "" = a.
Proof. induction a as [|x a IH]; simpl; [done|]. by rewrite IH. Qed.

Lemma str_length_app (a b : string) :
  String.length (a +:+ b) = (String.length a + String.length b)%nat.
Proof. induction a as [|x a IH]; simpl; [done|]. by rewrite IH. Qed.

Lemma slen_app (a b : string) : slen (a +:+ b) = slen a + slen b.
Proof. unfold slen. rewrite str_length_app. lia. Qed.

Lemma slen_nonneg (a : string) : 0 <= slen a.
Proof. unfold slen. lia. Qed.

Lemma no_nul_app (a b : string) : no_nul (a +:+ b) = no_nul a && no_nul b.
Proof.
  induction a as [|x a IH]; simpl; [done|]. by rewrite IH, andb_assoc.
Qed.

Lemma str_forallb_app p (a b : string) :
  str_forallb p (a +:+ b) = str_forallb p a && str_forallb p b.
Proof.
  induction a as [|x a IH]; simpl; [done|]. by rewrite IH, andb_assoc.
Qed.

Lemma str_count_app c (a b : string) :
  str_count c (a +:+ b) = str_count c a + str_count c b.
Proof. induction a as [|x a IH]; simpl; [done|]. rewrite IH. lia. Qed.

Lemma str_count_nonneg c (a : string) : 0 <= str_count c a.
Proof. induction a; simpl; [lia|]. destruct (Ascii.eqb _ _); lia. Qed.

Lemma split_at_app c (s l r : string) :
  split_at c s = Some (l, r) -> s = l +:+ String c r /\ str_count c l = 0.
Proof.
  revert l r. induction s as [|d s IH]; simpl; intros l r H; [done|].
  destruct (Ascii.eqb_spec c d) as [->|Hne].
  - by simplify_eq.
  - destruct (split_at c s) as [[l' r']|] eqn:E; simplify_eq/=.
    destruct (IH _ _ eq_refl) as [-> Hc]. split; [done|].
    destruct (Ascii.eqb_spec c d); [done|lia].
Qed.

Lemma split_at_None c (s : string) : split_at c s = None -> str_count c s = 0.
Proof.
  induction s as [|d s IH]; simpl; [done|].
  destruct (Ascii.eqb_spec c d); [done|].
  destruct (split_at c s) as [[??]|] eqn:E; simpl; [done|]. intros _.
  by rewrite IH.
Qed.

Lemma split_at_fresh c (l r : string) :
  str_count c l = 0 -> split_at c (l +:+ String c r) = Some (l, r).
Proof.
  induction l as [|d l IH]; simpl.
  - by rewrite Ascii.eqb_refl.
  - destruct (Ascii.eqb_spec c d).
    + pose proof (str_count_nonneg c l). lia.
    + intros H. rewrite IH by lia. done.
Qed.

Lemma split_at_none c (s : string) : str_count c s = 0 -> split_at c s = None.
Proof.
  induction s as [|d s IH]; simpl; [done|].
  destruct (Ascii.eqb_spec c d).
  - pose proof (str_count_nonneg c s). lia.
  - intros. by rewrite IH.
Qed.

Lemma str_take_drop n (s : string) : str_take n s +:+ str_drop n s = s.
Proof.
  revert s. induction n as [|n IH]; intros [|c s]; simpl; try done. by rewrite IH.
Qed.

Lemma str_take_all n (s : string) :
  (String.length s <= n)%nat -> str_take n s = s.
Proof.
  revert s. induction n as [|n IH]; intros [|c s]; simpl; try done; [lia|].
  intros. rewrite IH; [done|lia].
Qed.

Lemma str_take_length n (s : string) :
  String.length (str_take n s) = Nat.min n (String.length s).
Proof. revert s. induction n as [|n IH]; intros [|c s]; simpl; try done. by rewrite IH. Qed.

(** ** Formatted output

    The subset of [printf] the source uses: [%s], [%d] and [%zu].  [None] is an
    argument list that does not fit the format (undefined behaviour in C). *)

Inductive farg : Type :=
  | FS (s : string)
  | FD (z : Z)
  | FZU (z : Z).

Fixpoint c_format (fmt : string) (args : list farg) : option string :=
  match fmt with
  | EmptyString => Some EmptyString
  | String "%" (String "s" fmt') =>
      match args with
      | FS s :: args' => r ← c_format fmt' args'; Some (s +:+ r)
      | _ => None
      end
  | String "%" (String "d" fmt') =>
      match args with
      | FD z :: args' => r ← c_format fmt' args'; Some (pretty z +:+ r)
      | _ => None
      end
  | String "%" (String "z" (String "u" fmt')) =>
      match args with
      | FZU z :: args' => r ← c_format fmt' args'; Some (pretty z +:+ r)
      | _ => None
      end
  | String c fmt' => r ← c_format fmt' args; Some (String c r)
  end.

(** [snprintf(buf, n, ...)] keeps at most [n - 1] characters. *)
Definition c_snprintf (n : nat) (s : string) : string := str_take (n - 1) s.

Lemma c_snprintf_fits n (s : string) :
  (String.length s < n)%nat -> c_snprintf n s = s.
Proof. intros. apply str_take_all. lia. Qed.

(** *** Decimal notation *)

Definition is_digit (c : ascii) : bool :=
  (48 <=? N_of_ascii c)%N && (N_of_ascii c <=? 57)%N.

Lemma pretty_N_char_digit x : is_digit (pretty_N_char x) = true.
Proof. unfold pretty_N_char. by repeat case_match. Qed.

Lemma pretty_N_go_length (k : nat) : forall x s,
  (x < 10 ^ N.of_nat k)%N ->
  (String.length (pretty_N_go x s) <= k + String.length s)%nat.
Proof.
  induction k as [|k IH]; intros x s Hx.
  - assert (x = 0%N) as -> by (change (10 ^ N.of_nat 0)%N with 1%N in Hx; lia).
    rewrite pretty_N_go_0. lia.
  - destruct (decide (x = 0%N)) as [->|Hne]; [rewrite pretty_N_go_0; lia|].
    rewrite pretty_N_go_step by lia.
    rewrite Nat2N.inj_succ, N.pow_succ_r' in Hx.
    etrans; [apply IH, N.Div0.div_lt_upper_bound; lia|]. simpl. lia.
Qed.

Lemma pretty_N_go_digits x s :
  str_forallb is_digit s = true -> str_forallb is_digit (pretty_N_go x s) = true.
Proof.
  revert s. induction (N.lt_wf_0 x) as [x _ IH]; intros s Hs.
  assert (x = 0 \/ 0 < x)%N as [->|Hx] by lia; [by rewrite pretty_N_go_0|].
  rewrite pretty_N_go_step by done. apply IH; [by apply N.div_lt|].
  simpl. by rewrite pretty_N_char_digit.
Qed.

Lemma pretty_nonneg_length z (k : nat) :
  (0 < k)%nat -> 0 <= z < 10 ^ Z.of_nat k -> (String.length (pretty z) <= k)%nat.
Proof.
  intros Hk Hz. destruct z as [|p|p]; [simpl; lia| |lia].
  change (pretty (Z.pos p)) with (pretty_N_go (N.pos p) "").
  etrans; [apply (pretty_N_go_length k); lia|]. simpl. lia.
Qed.

Lemma pretty_nonneg_digits z : 0 <= z -> str_forallb is_digit (pretty z) = true.
Proof.
  intros Hz. destruct z as [|p|p]; [done| |lia].
  change (pretty (Z.pos p)) with (pretty_N_go (N.pos p) "").
  by apply pretty_N_go_digits.
Qed.

(** A character that no digit is does not occur in a number. *)
Lemma pretty_nonneg_count c z :
  is_digit c = false -> 0 <= z -> str_count c (pretty z) = 0.
Proof.
  intros Hc Hz. pose proof (pretty_nonneg_digits z Hz) as Hd.
  induction (pretty z) as [|d s IH]; simpl in *; [done|].
  apply andb_prop in Hd as [Hd Hs]. rewrite IH by done.
  destruct (Ascii.eqb_spec c d); [congruence|done].
Qed.

(** ** Finite sequences of steps *)

Section star.
Context {St : Type} (R : St -> St -> Prop).

Inductive star : St -> St -> Prop :=
  | star_nil s : star s s
  | star_snoc s s' s'' : star s s' -> R s' s'' -> star s s''.

(** The invariant rule: what holds initially and is kept by a step holds in
    every reachable state. *)
Lemma star_invariant (I : St -> Prop) s s' :
  (forall a b, I a -> R a b -> I b) -> star s s' -> I s -> I s'.
Proof. intros Hstep Hst HI. induction Hst; eauto. Qed.
End star.

(** ** Automation *)

(** Case analysis on the first stuck [match] of the goal or of [H]. *)
Ltac case_goal :=
  match goal with
  | |- context [match ?x with _ => _ end] => destruct x eqn:?
  end.
Ltac case_in H :=
  match type of H with
  | context [match ?x with _ => _ end] => destruct x eqn:?
  end.

Create HintDb corm discriminated.
Create Rewrite HintDb corm_str.
#[export] Hint Rewrite slen_app str_count_app no_nul_app str_app_nil_r : corm_str.
