(* ===== verification/Types.v ===== *)
(** * Fundamental types ([include/corm/types.h], [model.h], [query.h])

    Error codes, backend identifiers, field types and field flags. *)

From S2P Require Import Prelude.

(** ** Error codes *)

Inductive corm_err : Type :=
  | CORM_OK
  | CORM_ERR_GENERIC
  | CORM_ERR_NOMEM
  | CORM_ERR_NOTFOUND
  | CORM_ERR_DUP
  | CORM_ERR_BACKEND
  | CORM_ERR_TYPE
  | CORM_ERR_NULL
  | CORM_ERR_BOUNDS
  | CORM_ERR_MISMATCH.

#[export] Instance corm_err_eq_dec : EqDecision corm_err.
Proof. solve_decision. Defined.

Definition err_code (e : corm_err) : Z :=
  match e with
  | CORM_OK => 0
  | CORM_ERR_GENERIC => -1
  | CORM_ERR_NOMEM => -2
  | CORM_ERR_NOTFOUND => -3
  | CORM_ERR_DUP => -4
  | CORM_ERR_BACKEND => -5
  | CORM_ERR_TYPE => -6
  | CORM_ERR_NULL => -7
  | CORM_ERR_BOUNDS => -8
  | CORM_ERR_MISMATCH => -9
  end.

(** [if (err)] in C: the code is not zero. *)
Definition is_err (e : corm_err) : bool := negb (err_code e =? 0).

Lemma is_err_false e : is_err e = false <-> e = CORM_OK.
Proof. by destruct e. Qed.

(** ** Backends, field types, operations *)

Inductive corm_backend_type : Type :=
  | CORM_BACKEND_SQLITE
  | CORM_BACKEND_MYSQL
  | CORM_BACKEND_POSTGRES.

#[export] Instance corm_backend_type_eq_dec : EqDecision corm_backend_type.
Proof. solve_decision. Defined.

Inductive corm_field_type : Type :=
  | CORM_INT
  | CORM_INT64
  | CORM_FLOAT
  | CORM_DOUBLE
  | CORM_STRING
  | CORM_TEXT
  | CORM_BLOB
  | CORM_BOOL.

#[export] Instance corm_field_type_eq_dec : EqDecision corm_field_type.
Proof. solve_decision. Defined.

Inductive corm_isolation_level : Type :=
  | CORM_ISOLATION_READ_UNCOMMITTED
  | CORM_ISOLATION_READ_COMMITTED
  | CORM_ISOLATION_REPEATABLE_READ
  | CORM_ISOLATION_SERIALIZABLE.

Inductive corm_query_op_t : Type :=
  | CORM_OP_SELECT
  | CORM_OP_INSERT
  | CORM_OP_UPDATE
  | CORM_OP_DELETE.

#[export] Instance corm_query_op_t_eq_dec : EqDecision corm_query_op_t.
Proof. solve_decision. Defined.

(** ** Field flags: a bit mask *)

Definition CORM_FLAG_PRIMARY : Z := Z.shiftl 1 0.
Definition CORM_FLAG_AUTOINC : Z := Z.shiftl 1 1.
Definition CORM_FLAG_NOT_NULL : Z := Z.shiftl 1 2.
Definition CORM_FLAG_UNIQUE : Z := Z.shiftl 1 3.
Definition CORM_FLAG_SOFT_DELETE : Z := Z.shiftl 1 4.
Definition CORM_FLAG_INDEX : Z := Z.shiftl 1 5.

(** [f->flags & FLAG] as a condition. *)
Definition has_flag (flags flag : Z) : bool := negb (Z.land flags flag =? 0).

(** ** Identifiers ([src/internal/corm_internal.h]) *)

Definition in_range (lo hi c : ascii) : bool :=
  (N_of_ascii lo <=? N_of_ascii c)%N && (N_of_ascii c <=? N_of_ascii hi)%N.

Definition is_alnum (c : ascii) : bool :=
  in_range "a" "z" c || in_range "A" "Z" c || in_range "0" "9" c.

Definition ident_char (c : ascii) : bool :=
  is_alnum c || Ascii.eqb c "_" || Ascii.eqb c "." || Ascii.eqb c "*".

(** [corm_is_valid_identifier]: non-NULL, non-empty, only [[a-zA-Z0-9_.*]]. *)
Definition corm_is_valid_identifier (name : option string) : bool :=
  match name with
  | None => false
  | Some EmptyString => false
  | Some s => str_forallb ident_char s
  end.

#[global] Arguments corm_is_valid_identifier : simpl never.

Lemma valid_identifier_inv name :
  corm_is_valid_identifier name = true ->
  exists s, name = Some s /\ s <> EmptyString /\ str_forallb ident_char s = true.
Proof. destruct name as [[|c s]|]; [done| |done]. intros H. by exists (String c s). Qed.

(** An identifier holds none of the characters that are significant to the
    SQL text around it. *)
Lemma ident_char_not c d :
  ident_char d = false -> ident_char c = true -> Ascii.eqb d c = false.
Proof. intros Hd Hc. destruct (Ascii.eqb_spec d c); [congruence|done]. Qed.

Lemma ident_count_0 d (s : string) :
  ident_char d = false -> str_forallb ident_char s = true -> str_count d s = 0.
Proof.
  intros Hd. induction s as [|c s IH]; simpl; [done|].
  intros [Hc Hs]%andb_prop. rewrite (ident_char_not c d), IH by done. done.
Qed.

Lemma ident_no_nul (s : string) : str_forallb ident_char s = true -> no_nul s = true.
Proof.
  induction s as [|c s IH]; simpl; [done|]. intros [Hc Hs]%andb_prop.
  rewrite IH by done. rewrite andb_true_r.
  destruct (Ascii.eqb_spec c NUL) as [->|]; [by vm_compute in Hc|done].
Qed.

(** ** Configuration ([include/corm/config.h]) *)

Inductive corm_log_level : Type :=
  | CORM_LOG_DEBUG
  | CORM_LOG_INFO
  | CORM_LOG_WARN
  | CORM_LOG_ERROR.

Record corm_config : Type := Config {
  max_open_conns : Z;
  max_idle_conns : Z;
  conn_max_lifetime_ms : Z;
  timeout_ms : Z;
  verbose_logging : bool;
  stmt_cache_size : Z
}.

Definition CORM_DEFAULT_CONFIG : corm_config := Config 0 2 0 30000 false 0.
