(* ===== verification/Mem.v ===== *)
(** * The C memory and the execution monad

    Values ([corm_value_t]), result objects ([corm_result_t]) and records live
    in a heap of typed blocks.  Every allocation consults an oracle that says
    whether [malloc] succeeds, so the out-of-memory paths of the source are
    executions of the model.  Undefined behaviour (a double free, the
    dereference of a NULL or dangling pointer, an access out of bounds) is the
    outcome [Stuck]. *)

From S2P Require Import Prelude Types.

Abbreviation loc := positive (only parsing).

(** ** Pointers to character data

    [PHeap]: a block obtained from [malloc]/[strdup]; [PField]: the bytes of
    a struct member (record block, index of the record in it, offset of the
    member); [PLit]: a string literal. *)
Inductive cptr : Type :=
  | PNull
  | PHeap (l : loc)
  | PField (l : loc) (i : nat) (off : Z)
  | PLit (s : string).

#[export] Instance cptr_eq_dec : EqDecision cptr.
Proof. solve_decision. Defined.

(** ** [corm_value_t]: the union keeps the member last written *)

Inductive uval : Type :=
  | UInt (z : Z)                     (* .i, 64-bit signed *)
  | UDbl (bits : Z)                  (* .f, IEEE-754 bit pattern *)
  | UStr (p : cptr)                  (* .s *)
  | UBlob (p : cptr) (len : Z)       (* .blob *)
  | UBool (b : bool).                (* .b *)

Record corm_value : Type := Value {
  v_type : corm_field_type;
  v_is_null : bool;
  v_u : uval
}.

(** Zero-filled memory ([calloc]): type 0 is [CORM_INT]. *)
Definition value_zero : corm_value := Value CORM_INT false (UInt 0).

(** Reading a member of the union.  Reading another member than the one
    written is defined here where the C value is: the all-zero word reads as
    zero in every member, a double reads as its bit pattern, an integer as the
    double with this bit pattern, and the low byte of an integer as a [bool]
    when it is 0 or 1 (little-endian).  Everything else is [None]. *)
Definition u_as_i (u : uval) : option Z :=
  match u with
  | UInt z => Some z
  | UDbl b => Some (wrap_i64 b)
  | UStr PNull => Some 0
  | _ => None
  end.

Definition u_as_f (u : uval) : option Z :=
  match u with
  | UDbl b => Some b
  | UInt z => Some (wrap_u64 z)
  | UStr PNull => Some 0
  | _ => None
  end.

Definition u_as_s (u : uval) : option cptr :=
  match u with
  | UStr p => Some p
  | UBlob p _ => Some p
  | UInt z => if z =? 0 then Some PNull else None
  | UDbl b => if b =? 0 then Some PNull else None
  | UBool _ => None
  end.

Definition u_as_blob (u : uval) : option (cptr * Z) :=
  match u with
  | UBlob p n => Some (p, n)
  | UInt z => if z =? 0 then Some (PNull, 0) else None
  | _ => None
  end.

Definition u_as_b (u : uval) : option bool :=
  match u with
  | UBool b => Some b
  | UInt z =>
      let low := z mod 256 in
      if low =? 0 then Some false else if low =? 1 then Some true else None
  | UStr PNull => Some false
  | _ => None
  end.

(** ** [corm_result_t] *)

Record corm_result : Type := Result {
  r_column_count : Z;
  r_column_names : list (option string);
  r_column_types : list corm_field_type;
  r_rows : list (list corm_value);
  r_row_count : Z;
  r_current_row : Z;
  r_refcount : Z
}.

(** ** Records: the members of a user struct, by offset *)

Inductive cell : Type :=
  | CInt (z : Z)                     (* int *)
  | CInt64 (z : Z)                   (* int64_t *)
  | CFloat (bits : Z)                (* float *)
  | CDouble (bits : Z)               (* double *)
  | CChars (bs : list ascii)         (* char[n] *)
  | CPtr (p : cptr)                  (* char pointer *)
  | CBool (b : bool)                 (* bool *)
  | CBytes (bs : list ascii).        (* inline binary buffer *)

Abbreviation rec := (gmap Z cell) (only parsing).

(** A [void *record]: a block of records and an index in it. *)
Definition recptr : Type := loc * nat.

(** ** [corm_column_info_t] *)

Record corm_column_info : Type := ColumnInfo {
  ci_name : cptr;
  ci_type_name : cptr;
  ci_not_null : Z;
  ci_is_pk : Z;
  ci_default_value : cptr
}.

(** [BCols] is an array of column descriptions: the elements written so far. *)
Inductive block : Type :=
  | BStr (s : string)
  | BBytes (bs : list ascii)
  | BRecs (rs : list rec)
  | BResult (r : corm_result)
  | BCols (cols : list corm_column_info).

(** ** The world

    [w_db] is the state behind the connection handle: the database and the
    driver.  It is abstract for the query layer and concrete for a driver. *)
Record world (S : Type) : Type := World {
  w_oracle : list bool;              (* outcomes of the next allocations *)
  w_heap : gmap loc block;
  w_next : loc;                      (* addresses from here on are unused *)
  w_db : S
}.
Arguments World {S}.
Arguments w_oracle {S}.
Arguments w_heap {S}.
Arguments w_next {S}.
Arguments w_db {S}.

Definition set_heap {S} (h : gmap loc block) (w : world S) : world S :=
  World (w_oracle w) h (w_next w) (w_db w).
Definition set_db {S} (d : S) (w : world S) : world S :=
  World (w_oracle w) (w_heap w) (w_next w) d.

Inductive outcome (S A : Type) : Type :=
  | Ret (a : A) (w : world S)
  | Stuck.
Arguments Ret {S A}.
Arguments Stuck {S A}.

Definition M (S A : Type) : Type := world S -> outcome S A.

#[export] Instance M_ret {S} : MRet (M S) := fun A a w => Ret a w.
#[export] Instance M_bind {S} : MBind (M S) := fun A B k m w =>
  match m w with
  | Ret a w' => k a w'
  | Stuck => Stuck
  end.

Definition stuck {S A} : M S A := fun _ => Stuck.

(** Dereferencing something that may be NULL or out of range. *)
Definition deref {S A} (o : option A) : M S A :=
  match o with
  | Some a => mret a
  | None => stuck
  end.

(** A NULL pointer test. *)
Definition is_null {A} (o : option A) : bool :=
  match o with Some _ => false | None => true end.

Definition get_db {S} : M S S := fun w => Ret (w_db w) w.
Definition put_db {S} (d : S) : M S unit := fun w => Ret tt (set_db d w).

(** *** Allocation *)

(** Does the next allocation succeed?  A finished oracle means yes. *)
Definition malloc_ok {S} : M S bool := fun w =>
  match w_oracle w with
  | [] => Ret true w
  | b :: o => Ret b (World o (w_heap w) (w_next w) (w_db w))
  end.

(** Store a new block at an address never used before. *)
Definition new_block {S} (b : block) : M S loc := fun w =>
  Ret (w_next w)
      (World (w_oracle w) (<[w_next w := b]> (w_heap w)) (Pos.succ (w_next w)) (w_db w)).

(** [malloc] and initialisation; NULL on failure. *)
Definition malloc {S} (b : block) : M S (option loc) :=
  ok ← malloc_ok;
  if (ok : bool) then l ← new_block b; mret (Some l) else mret None.

Definition load {S} (l : loc) : M S block := fun w =>
  match w_heap w !! l with
  | Some b => Ret b w
  | None => Stuck
  end.

Definition store {S} (l : loc) (b : block) : M S unit := fun w =>
  match w_heap w !! l with
  | Some _ => Ret tt (set_heap (<[l := b]> (w_heap w)) w)
  | None => Stuck
  end.

Definition dealloc {S} (l : loc) : M S unit := fun w =>
  match w_heap w !! l with
  | Some _ => Ret tt (set_heap (delete l (w_heap w)) w)
  | None => Stuck
  end.

(** [free(p)]: only NULL or the start of a live block. *)
Definition free {S} (p : cptr) : M S unit :=
  match p with
  | PNull => mret tt
  | PHeap l => dealloc l
  | PField _ _ _ | PLit _ => stuck
  end.

(** *** Reading character data *)

(** The C string held by an array of bytes: up to the first NUL. *)
Fixpoint cstr_of_bytes (bs : list ascii) : option string :=
  match bs with
  | [] => None
  | c :: bs' =>
      if Ascii.eqb c NUL then Some EmptyString
      else s ← cstr_of_bytes bs'; Some (String c s)
  end.

Definition heap_rec (h : gmap loc block) (r : recptr) : option rec :=
  match h !! (fst r) with
  | Some (BRecs rs) => rs !! (snd r)
  | _ => None
  end.

(** [*p] as a C string ([None]: not readable as one). *)
Definition read_cstr (h : gmap loc block) (p : cptr) : option string :=
  match p with
  | PNull => None
  | PLit s => Some s
  | PHeap l => match h !! l with Some (BStr s) => Some s | _ => None end
  | PField l i off =>
      r ← heap_rec h (l, i);
      match r !! off with Some (CChars bs) => cstr_of_bytes bs | _ => None end
  end.

(** The first [n] bytes of an array; [n] is a [size_t]. *)
Definition take_bytes (n : Z) (bs : list ascii) : option (list ascii) :=
  if (0 <=? n) && (n <=? Z.of_nat (length bs)) then Some (take (Z.to_nat n) bs) else None.

(** The [n] bytes at [p]. *)
Definition read_bytes (h : gmap loc block) (p : cptr) (n : Z) : option (list ascii) :=
  match p with
  | PHeap l =>
      match h !! l with
      | Some (BBytes bs) => take_bytes n bs
      | _ => None
      end
  | PField l i off =>
      r ← heap_rec h (l, i);
      match r !! off with
      | Some (CBytes bs) => take_bytes n bs
      | _ => None
      end
  | _ => None
  end.

Definition get_heap {S} : M S (gmap loc block) := fun w => Ret (w_heap w) w.

Definition read_str {S} (p : cptr) : M S string := fun w =>
  match read_cstr (w_heap w) p with
  | Some s => Ret s w
  | None => Stuck
  end.

Definition read_blob {S} (p : cptr) (n : Z) : M S (list ascii) := fun w =>
  match read_bytes (w_heap w) p n with
  | Some bs => Ret bs w
  | None => Stuck
  end.

(** [strdup]. *)
Definition strdup {S} (p : cptr) : M S cptr :=
  s ← read_str p;
  r ← malloc (BStr s);
  mret (match r with Some l => PHeap l | None => PNull end).

(** *** The value a [corm_value_t] stands for *)

Inductive sqlval : Type :=
  | SNull
  | SInt (z : Z)
  | SDbl (bits : Z)
  | SText (s : string)
  | SBlob (bs : list ascii)
  | SBool (b : bool).

(** What a reader of the value sees in the heap [h]: the member selected by the
    type tag, NULL for a NULL pointer, [None] when it cannot be read. *)
Definition resolve (h : gmap loc block) (v : corm_value) : option sqlval :=
  if v_is_null v then Some SNull
  else
    match v_type v with
    | CORM_INT | CORM_INT64 => SInt <$> u_as_i (v_u v)
    | CORM_FLOAT | CORM_DOUBLE => SDbl <$> u_as_f (v_u v)
    | CORM_STRING | CORM_TEXT =>
        p ← u_as_s (v_u v);
        if decide (p = PNull) then Some SNull else SText <$> read_cstr h p
    | CORM_BLOB =>
        '(p, n) ← u_as_blob (v_u v);
        if decide (p = PNull) then Some SNull else SBlob <$> read_bytes h p n
    | CORM_BOOL => SBool <$> u_as_b (v_u v)
    end.

(** *** Loops *)

(** [for (x in xs) body]. *)
Fixpoint for_each {S A B} (xs : list A) (body : A -> B -> M S B) (b : B) : M S B :=
  match xs with
  | [] => mret b
  | x :: xs' => b' ← body x b; for_each xs' body b'
  end.

(** ** Weakest preconditions

    [wp m w Q]: [m] started in [w] is not stuck and ends with [Q]. *)
Definition wp {S A} (m : M S A) (w : world S) (Q : A -> world S -> Prop) : Prop :=
  match m w with
  | Ret a w' => Q a w'
  | Stuck => False
  end.

Section wp.
Context {S : Type}.
Implicit Types w : world S.

Lemma wp_ret {A} (a : A) w (Q : A -> world S -> Prop) : Q a w -> wp (mret a) w Q.
Proof. done. Qed.

Lemma wp_bind {A B} (m : M S A) (k : A -> M S B) w (Q : B -> world S -> Prop) :
  wp m w (fun a w' => wp (k a) w' Q) -> wp (m ≫= k) w Q.
Proof. unfold wp, mbind, M_bind. by destruct (m w). Qed.

Lemma wp_mono {A} (m : M S A) w (P Q : A -> world S -> Prop) :
  wp m w P -> (forall a w', P a w' -> Q a w') -> wp m w Q.
Proof. unfold wp. destruct (m w); eauto. Qed.

Lemma wp_eq {A} (m : M S A) w a w' (Q : A -> world S -> Prop) :
  m w = Ret a w' -> Q a w' -> wp m w Q.
Proof. unfold wp. by intros ->. Qed.

(** Computing through a bind whose first part is known. *)
Lemma bind_Ret {A B} (m : M S A) (k : A -> M S B) w a w' :
  m w = Ret a w' -> (m ≫= k) w = k a w'.
Proof. unfold mbind, M_bind. by intros ->. Qed.

Lemma bind_ret_l {A B} (a : A) (k : A -> M S B) : (mret a ≫= k) = k a.
Proof. done. Qed.

Lemma bind_deref_Some {A B} (a : A) (k : A -> M S B) : (deref (Some a) ≫= k) = k a.
Proof. done. Qed.

Lemma bind_inv {A B} (m : M S A) (k : A -> M S B) w b w'' :
  (m ≫= k) w = Ret b w'' -> exists a w', m w = Ret a w' /\ k a w' = Ret b w''.
Proof. unfold mbind, M_bind. destruct (m w); [eauto|done]. Qed.

Lemma bind_assoc {A B C} (m : M S A) (f : A -> M S B) (g : B -> M S C) w :
  ((m ≫= f) ≫= g) w = (m ≫= (fun a => f a ≫= g)) w.
Proof. unfold mbind, M_bind. by destruct (m w). Qed.

Lemma malloc_ok_plenty w : w_oracle w = [] -> malloc_ok w = Ret true w.
Proof. unfold malloc_ok. by intros ->. Qed.
End wp.

(** [run] steps through the binds whose first part is a value. *)
Create Rewrite HintDb corm_run.
#[export] Hint Rewrite @bind_ret_l @bind_deref_Some : corm_run.
Ltac run := repeat (simpl; autorewrite with corm_run).

Ltac run_in H := repeat (simpl in H; autorewrite with corm_run in H).

(** Step through a bind with the equation [H] of its first part. *)
Tactic Notation "run_with" constr(H) := rewrite (bind_Ret _ _ _ _ _ H); run.

(** Read the result off an equation [H : mret a w = Ret b w']. *)
Ltac ret_inv H := cbv [mret M_ret stuck] in H; simplify_eq/=.

(** ** Heap discipline *)

(** No live block at an address that is still to be handed out. *)
Definition heap_wf {S} (w : world S) : Prop :=
  forall l, is_Some (w_heap w !! l) -> (l < w_next w)%positive.

Lemma heap_wf_fresh {S} (w : world S) : heap_wf w -> w_heap w !! w_next w = None.
Proof.
  intros H. destruct (w_heap w !! w_next w) eqn:E; [|done].
  pose proof (H _ (mk_is_Some _ _ E)). lia.
Qed.

(** Memory does not run out: every allocation succeeds. *)
Definition plenty {S} (w : world S) : Prop := w_oracle w = [].
