(* ===== verification/Strbuf.v ===== *)
(** * Dynamic string buffer ([src/internal/strbuf.h])

    The buffer is modelled down to its bytes: an allocated array of cells of
    which some may be uninitialised, the string length and the capacity.
    [sb_repr sb s] says that [sb] is well formed and holds the string [s]. *)

From S2P Require Import Prelude Types Mem.

(** A byte of the buffer; [None]: never written. *)
Definition cells : Type := list (option ascii).

Record strbuf : Type := Strbuf {
  sb_buf : option cells;             (* NULL or the allocated array *)
  sb_len : Z;
  sb_cap : Z
}.

Fixpoint str_cells (s : string) : cells :=
  match s with
  | EmptyString => []
  | String c s' => Some c :: str_cells s'
  end.

(** Reading a C string from cells: stops at the NUL, [None] when an
    uninitialised byte or the end of the array is met first. *)
Fixpoint cstr_of_cells (bs : cells) : option string :=
  match bs with
  | Some c :: bs' =>
      if Ascii.eqb c NUL then Some EmptyString
      else s ← cstr_of_cells bs'; Some (String c s)
  | _ => None
  end.

(** A write of [src] at [off]; [None]: out of bounds. *)
Definition store_cells (bs : cells) (off : nat) (src : cells) : option cells :=
  if decide (off + length src <= length bs)%nat
  then Some (take off bs ++ src ++ drop (off + length src) bs)
  else None.

(** [realloc]: the old bytes are kept, the new ones are uninitialised. *)
Definition realloc_cells (bs : cells) (n : nat) : cells :=
  take n bs ++ replicate (n - length bs) None.

(** ** Operations *)

Definition corm_strbuf_init : strbuf := Strbuf None 0 0.

(** [while (new_cap < need) new_cap *= 2], in [size_t] arithmetic; [None] when
    the fuel runs out. *)
Fixpoint grow_loop (fuel : nat) (new_cap need : Z) : option Z :=
  if new_cap <? need then
    match fuel with
    | O => None
    | S fuel' => grow_loop fuel' (wrap_u64 (new_cap * 2)) need
    end
  else Some new_cap.

(** After 64 doublings a 64-bit capacity is 0 for ever, so this fuel separates
    the runs that end from those that do not. *)
Definition grow_fuel : nat := 64.

Definition corm_strbuf_grow {S} (sb : strbuf) (extra : Z) : M S (corm_err * strbuf) :=
  let need := wrap_u64 (sb_len sb + extra + 1) in
  if need <=? sb_cap sb then mret (CORM_OK, sb)
  else
    let start := if sb_cap sb =? 0 then 64 else wrap_u64 (sb_cap sb * 2) in
    new_cap ← deref (grow_loop grow_fuel start need);
    ok ← malloc_ok;
    if (ok : bool) then
      mret (CORM_OK,
            Strbuf (Some (realloc_cells (default [] (sb_buf sb)) (Z.to_nat new_cap)))
                   (sb_len sb) new_cap)
    else mret (CORM_ERR_NOMEM, sb).

(** The common tail of the append functions: copy [src] to [buf + len], add
    its length to [len] and write the terminator. *)
Definition put_bytes {S} (sb : strbuf) (src : cells) : M S strbuf :=
  buf ← deref (sb_buf sb);
  buf ← deref (store_cells buf (Z.to_nat (sb_len sb)) src);
  let len := sb_len sb + Z.of_nat (length src) in
  buf ← deref (store_cells buf (Z.to_nat len) [Some NUL]);
  mret (Strbuf (Some buf) len (sb_cap sb)).

Definition corm_strbuf_append {S} (sb : strbuf) (s : string) : M S (corm_err * strbuf) :=
  let n := slen s in
  '(err, sb') ← corm_strbuf_grow sb n;
  if is_err err then mret (err, sb')
  else sb'' ← put_bytes sb' (str_cells s); mret (CORM_OK, sb'').

(** [n] bytes of [s]; reading past its end is undefined. *)
Definition corm_strbuf_appendn {S} (sb : strbuf) (s : string) (n : Z) :
    M S (corm_err * strbuf) :=
  '(err, sb') ← corm_strbuf_grow sb n;
  if is_err err then mret (err, sb')
  else
    if n <=? slen s then
      sb'' ← put_bytes sb' (str_cells (str_take (Z.to_nat n) s)); mret (CORM_OK, sb'')
    else stuck.

(** [vsnprintf(NULL, 0, ...)] returns a negative number when the length does
    not fit an [int]. *)
Definition corm_strbuf_appendf {S} (sb : strbuf) (fmt : string) (args : list farg) :
    M S (corm_err * strbuf) :=
  text ← deref (c_format fmt args);
  let needed := slen text in
  if INT_MAX <? needed then mret (CORM_ERR_GENERIC, sb)
  else
    '(err, sb') ← corm_strbuf_grow sb needed;
    if is_err err then mret (err, sb')
    else sb'' ← put_bytes sb' (str_cells text); mret (CORM_OK, sb'').

Definition corm_strbuf_clear {S} (sb : strbuf) : M S strbuf :=
  match sb_buf sb with
  | None => mret (Strbuf None 0 (sb_cap sb))
  | Some buf =>
      buf' ← deref (store_cells buf 0 [Some NUL]);
      mret (Strbuf (Some buf') 0 (sb_cap sb))
  end.

Definition corm_strbuf_free (sb : strbuf) : strbuf := Strbuf None 0 0.

(** The C string a caller reads through the returned pointer. *)
Definition corm_strbuf_cstr {S} (sb : strbuf) : M S string :=
  match sb_buf sb with
  | None => mret EmptyString
  | Some buf => deref (cstr_of_cells buf)
  end.

(** ** Well-formed buffers *)

(** [sb] holds [s]: either nothing was ever allocated, or the array is [s],
    its terminator, and slack up to the capacity. *)
Definition sb_repr (sb : strbuf) (s : string) : Prop :=
  sb_len sb = slen s /\ 0 <= sb_cap sb < 2 ^ 64 /\
  match sb_buf sb with
  | None => s = EmptyString /\ sb_cap sb = 0
  | Some buf =>
      Z.of_nat (length buf) = sb_cap sb /\
      exists rest, buf = str_cells s ++ Some NUL :: rest
  end.

(** ** Lemmas on cells *)

Lemma str_cells_length (s : string) : length (str_cells s) = String.length s.
Proof. induction s; simpl; auto. Qed.

Lemma str_cells_app (a b : string) : str_cells (a +:+ b) = str_cells a ++ str_cells b.
Proof. induction a as [|x a IH]; simpl; [done|]. by rewrite IH. Qed.

Lemma cstr_of_cells_app (s : string) rest :
  no_nul s = true -> cstr_of_cells (str_cells s ++ Some NUL :: rest) = Some s.
Proof.
  induction s as [|c s IH]; simpl; [done|].
  intros [Hc Hs]%andb_prop. destruct (Ascii.eqb c NUL); [done|].
  by rewrite IH.
Qed.

Lemma store_cells_inv (bs : cells) off src bs' :
  store_cells bs off src = Some bs' -> length bs' = length bs.
Proof.
  unfold store_cells. case_decide; [|done]. intros [= <-].
  rewrite !length_app, length_take, length_drop. lia.
Qed.

Lemma store_cells_split (pre mid post src : cells) :
  length mid = length src ->
  store_cells (pre ++ mid ++ post) (length pre) src = Some (pre ++ src ++ post).
Proof.
  intros Hl. unfold store_cells. rewrite decide_True by (rewrite !length_app; lia).
  f_equal. rewrite take_app_length. f_equal. f_equal.
  rewrite <- Hl, app_assoc, <- length_app. apply drop_app_length.
Qed.

(** ** Growth *)

(** Doubling a positive capacity reaches [need] without wrapping, as long as
    [need] is at most 2^63. *)
Lemma grow_loop_spec fuel c need :
  0 < c < 2 ^ 64 -> need <= 2 ^ 63 -> need <= c * 2 ^ Z.of_nat fuel ->
  exists c', grow_loop fuel c need = Some c' /\ need <= c' /\ c <= c' < 2 ^ 64.
Proof.
  revert c. induction fuel as [|fuel IH]; intros c Hc Hn Hf; simpl grow_loop.
  - change (2 ^ Z.of_nat 0) with 1 in Hf.
    destruct (Z.ltb_spec c need); [lia|]. exists c. split; [done|lia].
  - destruct (Z.ltb_spec c need); [|exists c; split; [done|lia]].
    rewrite wrap_u64_small by lia.
    rewrite Nat2Z.inj_succ, Z.pow_succ_r in Hf by lia.
    destruct (IH (c * 2)) as (c' & ? & ? & ?); [lia..|].
    exists c'. split; [done|lia].
Qed.

Lemma realloc_cells_length bs n :
  (length bs <= n)%nat -> length (realloc_cells bs n) = n.
Proof.
  intros. unfold realloc_cells. rewrite length_app, length_take, length_replicate. lia.
Qed.

Lemma realloc_cells_app bs n :
  (length bs <= n)%nat ->
  realloc_cells bs n = bs ++ replicate (n - length bs) None.
Proof. intros. unfold realloc_cells. by rewrite take_ge by lia. Qed.

(** Room for [extra] more bytes and the terminator: what [grow] establishes.
    A buffer that never held anything has an array but no terminator yet. *)
Definition has_room (sb : strbuf) (s : string) (extra : Z) : Prop :=
  sb_len sb = slen s /\ 0 <= sb_cap sb < 2 ^ 64 /\ slen s + extra + 1 <= sb_cap sb /\
  exists buf rest, sb_buf sb = Some buf /\ Z.of_nat (length buf) = sb_cap sb /\
    buf = str_cells s ++ rest.

(** A string that still fits a buffer after growing. *)
Definition fits (s : string) : Prop := slen s + 1 <= 2 ^ 63.

(** Only the allocation oracle moves, and only when memory is scarce. *)
Definition alloc_only {S} (w w' : world S) : Prop :=
  w_heap w' = w_heap w /\ w_next w' = w_next w /\ w_db w' = w_db w /\
  (plenty w -> w' = w).

Lemma alloc_only_refl {S} (w : world S) : alloc_only w w.
Proof. done. Qed.

Lemma alloc_only_plenty {S} (w w' : world S) : alloc_only w w' -> plenty w -> w' = w.
Proof. intros (_ & _ & _ & H). exact H. Qed.

Lemma malloc_ok_cases {S} (w : world S) :
  exists b w', malloc_ok w = Ret b w' /\ alloc_only w w' /\ (plenty w -> b = true).
Proof.
  unfold malloc_ok, alloc_only, plenty. destruct w as [[|b o] h n d]; simpl.
  - by exists true, (World [] h n d).
  - by exists b, (World o h n d).
Qed.

Section strbuf.
Context {S : Type}.
Implicit Types w : world S.

Lemma sb_repr_init : sb_repr corm_strbuf_init EmptyString.
Proof. unfold sb_repr. simpl. done. Qed.

Lemma sb_repr_len sb s : sb_repr sb s -> sb_len sb = slen s.
Proof. by intros [-> _]. Qed.

Lemma sb_repr_room sb s extra :
  sb_repr sb s -> 0 <= extra -> slen s + extra + 1 <= sb_cap sb -> has_room sb s extra.
Proof.
  intros (Hl & Hc & Hb) ? Hroom. pose proof (slen_nonneg s).
  unfold has_room. destruct (sb_buf sb) as [buf|].
  - destruct Hb as (? & rest & ->). eauto 10.
  - lia.
Qed.

(** [corm_strbuf_grow] on a well-formed buffer: it terminates, and either
    makes room or reports CORM_ERR_NOMEM and leaves the buffer alone. *)
Lemma grow_spec sb s extra w :
  sb_repr sb s -> 0 <= extra -> slen s + extra + 1 <= 2 ^ 63 ->
  exists w', alloc_only w w' /\
    ((exists sb', corm_strbuf_grow sb extra w = Ret (CORM_OK, sb') w' /\
                  has_room sb' s extra) \/
     (corm_strbuf_grow sb extra w = Ret (CORM_ERR_NOMEM, sb) w' /\ ~ plenty w)).
Proof.
  intros Hr He Hn. pose proof Hr as (Hl & Hc & Hb). pose proof (slen_nonneg s).
  unfold corm_strbuf_grow. rewrite Hl, wrap_u64_small by lia.
  destruct (Z.leb_spec (slen s + extra + 1) (sb_cap sb)).
  { exists w. split; [done|]. left. exists sb. eauto using sb_repr_room. }
  set (start := if sb_cap sb =? 0 then 64 else wrap_u64 (sb_cap sb * 2)).
  assert (Hs : 0 < start < 2 ^ 64 /\ sb_cap sb <= start).
  { unfold start. destruct (Z.eqb_spec (sb_cap sb) 0); [lia|].
    rewrite wrap_u64_small by lia. lia. }
  destruct (grow_loop_spec grow_fuel start (slen s + extra + 1)) as (c & -> & ? & ?);
    [lia|lia|unfold grow_fuel; lia|].
  destruct (malloc_ok_cases w) as (b & w' & Hm & Ha & Hb').
  exists w'. split; [done|]. run. run_with Hm.
  destruct b; [left|right; split; [done|]; intros Hp; by apply Hb' in Hp].
  eexists. split; [done|]. unfold has_room; simpl.
  do 3 (split; [lia|]). destruct (sb_buf sb) as [buf|]; simpl.
  - destruct Hb as (Hlen & rest & ->). eexists _, _. split; [done|].
    rewrite realloc_cells_length, Z2Nat.id by lia. split; [done|].
    rewrite realloc_cells_app, <- app_assoc by lia. done.
  - destruct Hb as [-> ?]. eexists _, _. split; [done|].
    by rewrite realloc_cells_length, Z2Nat.id by (simpl; lia).
Qed.

(** Writing into a buffer with room never leaves the array. *)
Lemma put_bytes_spec sb s x w :
  has_room sb s (slen x) ->
  exists sb', put_bytes sb (str_cells x) w = Ret sb' w /\ sb_repr sb' (s +:+ x).
Proof.
  intros (Hl & Hc & Hroom & buf & rest & Hb & Hlen & ->).
  rewrite length_app, str_cells_length in Hlen.
  assert (Hsz : (String.length x < length rest)%nat) by (unfold slen in *; lia).
  pose proof (take_drop (String.length x) rest) as Hrest.
  set (r1 := take (String.length x) rest) in *.
  set (r2 := drop (String.length x) rest) in *.
  assert (length r1 = String.length x) by (unfold r1; rewrite length_take; lia).
  destruct r2 as [|c r2'] eqn:Er2.
  { apply (f_equal length) in Hrest. rewrite length_app in Hrest. simpl in Hrest. lia. }
  unfold put_bytes. rewrite Hb. run. rewrite Hl, <- Hrest.
  replace (Z.to_nat (slen s)) with (length (str_cells s))
    by (rewrite str_cells_length; unfold slen; lia).
  rewrite store_cells_split by (rewrite str_cells_length; lia). run.
  replace (Z.to_nat (slen s + Z.of_nat (length (str_cells x))))
    with (length (str_cells s ++ str_cells x))
    by (rewrite length_app, !str_cells_length; unfold slen; lia).
  rewrite app_assoc. change (c :: r2') with ([c] ++ r2').
  rewrite store_cells_split by done. run.
  eexists. split; [done|]. unfold sb_repr; simpl.
  rewrite slen_app, str_cells_app, str_cells_length.
  repeat split; [lia..| |eauto].
  rewrite !length_app, !str_cells_length. simpl.
  apply (f_equal length) in Hrest. rewrite length_app in Hrest. simpl in Hrest. lia.
Qed.

(** The append functions agree up to where their bytes come from. *)
Lemma append_tail_spec sb s x w :
  sb_repr sb s -> fits (s +:+ x) ->
  exists w', alloc_only w w' /\
    let r := ('(err, sb') ← corm_strbuf_grow sb (slen x);
              if is_err err then mret (err, sb')
              else sb'' ← put_bytes sb' (str_cells x); mret (CORM_OK, sb'')) w in
    ((exists sb', r = Ret (CORM_OK, sb') w' /\ sb_repr sb' (s +:+ x)) \/
     (r = Ret (CORM_ERR_NOMEM, sb) w' /\ ~ plenty w)).
Proof.
  unfold fits. rewrite slen_app. intros Hr Hf. pose proof (slen_nonneg x).
  destruct (grow_spec sb s (slen x) w Hr) as (w' & Ha & [(sb1 & Hg & Hroom)|[Hg Hp]]);
    [lia|lia| |]; exists w'; (split; [done|]).
  - left. run_with Hg. destruct (put_bytes_spec sb1 s x w' Hroom) as (sb2 & Hput & Hr2).
    exists sb2. by run_with Hput.
  - right. by run_with Hg.
Qed.

Lemma append_spec sb s x w :
  sb_repr sb s -> fits (s +:+ x) ->
  exists w', alloc_only w w' /\
    ((exists sb', corm_strbuf_append sb x w = Ret (CORM_OK, sb') w' /\
                  sb_repr sb' (s +:+ x)) \/
     (corm_strbuf_append sb x w = Ret (CORM_ERR_NOMEM, sb) w' /\ ~ plenty w)).
Proof. apply append_tail_spec. Qed.

Lemma appendn_spec sb s x n w :
  sb_repr sb s -> 0 <= n <= slen x -> fits (s +:+ str_take (Z.to_nat n) x) ->
  exists w', alloc_only w w' /\
    ((exists sb', corm_strbuf_appendn sb x n w = Ret (CORM_OK, sb') w' /\
                  sb_repr sb' (s +:+ str_take (Z.to_nat n) x)) \/
     (corm_strbuf_appendn sb x n w = Ret (CORM_ERR_NOMEM, sb) w' /\ ~ plenty w)).
Proof.
  intros Hr Hn Hf.
  assert (Hl : slen (str_take (Z.to_nat n) x) = n).
  { unfold slen in *. rewrite str_take_length. lia. }
  unfold corm_strbuf_appendn. destruct (Z.leb_spec n (slen x)); [|lia].
  pose proof (append_tail_spec sb s _ w Hr Hf) as Hap. by rewrite Hl in Hap.
Qed.

Lemma appendf_spec sb s fmt args x w :
  sb_repr sb s -> c_format fmt args = Some x -> slen x <= INT_MAX -> fits (s +:+ x) ->
  exists w', alloc_only w w' /\
    ((exists sb', corm_strbuf_appendf sb fmt args w = Ret (CORM_OK, sb') w' /\
                  sb_repr sb' (s +:+ x)) \/
     (corm_strbuf_appendf sb fmt args w = Ret (CORM_ERR_NOMEM, sb) w' /\ ~ plenty w)).
Proof.
  intros Hr Hx Hi Hf. unfold corm_strbuf_appendf. rewrite Hx. run.
  destruct (Z.ltb_spec INT_MAX (slen x)); [lia|]. by apply append_tail_spec.
Qed.

Lemma cstr_spec sb s w :
  sb_repr sb s -> no_nul s = true -> corm_strbuf_cstr sb w = Ret s w.
Proof.
  intros (_ & _ & Hb) Hs. unfold corm_strbuf_cstr. destruct (sb_buf sb) as [buf|].
  - destruct Hb as (_ & rest & ->). by rewrite cstr_of_cells_app.
  - by destruct Hb as [-> _].
Qed.

Lemma clear_spec sb s w :
  sb_repr sb s ->
  exists sb', corm_strbuf_clear sb w = Ret sb' w /\ sb_repr sb' EmptyString.
Proof.
  intros (Hl & Hc & Hb). unfold corm_strbuf_clear. destruct (sb_buf sb) as [buf|].
  - destruct Hb as (Hlen & rest & ->).
    destruct (str_cells s ++ Some NUL :: rest) as [|c bs] eqn:E.
    { by destruct (str_cells s). }
    change (c :: bs) with ([] ++ [c] ++ bs).
    change 0%nat with (length (@nil (option ascii))).
    rewrite store_cells_split by done. run. eexists. split; [done|].
    split; [done|]. split; [done|]. simpl. split; [done|]. by exists bs.
  - destruct Hb as [-> Hcap]. eexists. split; [done|]. by split.
Qed.
End strbuf.

(** ** Writers

    The builders of the source call the append functions for their effect and
    ignore the error code.  [writes m x]: run on a buffer holding [s], [m] is
    never stuck, leaves a well-formed buffer that still starts with [s], and
    when memory does not run out the buffer holds exactly [s] and then [x]. *)

Definition sb_add {S} (sb : strbuf) (s : string) : M S strbuf :=
  '(_, sb') ← corm_strbuf_append sb s; mret sb'.

Definition sb_addn {S} (sb : strbuf) (s : string) (n : Z) : M S strbuf :=
  '(_, sb') ← corm_strbuf_appendn sb s n; mret sb'.

Definition sb_addf {S} (sb : strbuf) (fmt : string) (args : list farg) : M S strbuf :=
  '(_, sb') ← corm_strbuf_appendf sb fmt args; mret sb'.

Definition writes {S} (m : strbuf -> M S strbuf) (x : string) : Prop :=
  forall sb s w, sb_repr sb s -> fits (s +:+ x) ->
    exists sb' y w', m sb w = Ret sb' w' /\ sb_repr sb' (s +:+ y) /\
      slen y <= slen x /\ alloc_only w w' /\ (plenty w -> y = x).

Lemma alloc_only_trans {S} (w1 w2 w3 : world S) :
  alloc_only w1 w2 -> alloc_only w2 w3 -> alloc_only w1 w3.
Proof.
  intros (H1 & H2 & H3 & H4) (G1 & G2 & G3 & G4).
  split; [congruence|]. split; [congruence|]. split; [congruence|].
  intros Hp. specialize (H4 Hp). subst. auto.
Qed.

Section writers.
Context {S : Type}.
Implicit Types (m : strbuf -> M S strbuf) (w : world S).

Lemma writes_nil : writes (S := S) (fun sb => mret sb) EmptyString.
Proof.
  intros sb s w Hr Hf. rewrite str_app_nil_r in Hf. exists sb, EmptyString, w.
  rewrite str_app_nil_r. done.
Qed.

Lemma writes_seq m1 m2 x y :
  writes m1 x -> writes m2 y -> writes (fun sb => sb' ← m1 sb; m2 sb') (x +:+ y).
Proof.
  intros H1 H2 sb s w Hr Hf.
  assert (Hf1 : fits (s +:+ x)).
  { unfold fits in *. rewrite !slen_app in *. pose proof (slen_nonneg y). lia. }
  destruct (H1 sb s w Hr Hf1) as (sb1 & x' & w1 & E1 & Hr1 & L1 & A1 & P1).
  assert (Hf2 : fits ((s +:+ x') +:+ y)).
  { unfold fits in *. rewrite !slen_app in *. lia. }
  destruct (H2 sb1 _ w1 Hr1 Hf2) as (sb2 & y' & w2 & E2 & Hr2 & L2 & A2 & P2).
  exists sb2, (x' +:+ y'), w2. rewrite str_app_assoc. run_with E1.
  split; [done|]. split; [done|]. split; [rewrite !slen_app; lia|].
  split; [by eapply alloc_only_trans|].
  intros Hp. rewrite P1 by done. rewrite P2; [done|].
  by rewrite (alloc_only_plenty _ _ A1 Hp).
Qed.

Lemma writes_ext m x y : x = y -> writes m x -> writes m y.
Proof. by intros ->. Qed.

Lemma writes_if (b : bool) m1 m2 x y :
  writes m1 x -> writes m2 y ->
  writes (fun sb => if b then m1 sb else m2 sb) (if b then x else y).
Proof. by destruct b. Qed.

Lemma writes_add x : writes (S := S) (fun sb => sb_add sb x) x.
Proof.
  intros sb s w Hr Hf. unfold sb_add.
  destruct (append_spec sb s x w Hr Hf) as (w' & Ha & [(sb' & E & Hr')|[E Hp]]);
    run_with E.
  - by exists sb', x, w'.
  - exists sb, EmptyString, w'. rewrite str_app_nil_r. pose proof (slen_nonneg x). done.
Qed.

Lemma writes_addn x n :
  0 <= n <= slen x -> writes (S := S) (fun sb => sb_addn sb x n) (str_take (Z.to_nat n) x).
Proof.
  intros Hn sb s w Hr Hf. unfold sb_addn.
  destruct (appendn_spec sb s x n w Hr Hn Hf) as (w' & Ha & [(sb' & E & Hr')|[E Hp]]);
    run_with E.
  - by exists sb', (str_take (Z.to_nat n) x), w'.
  - exists sb, EmptyString, w'. rewrite str_app_nil_r.
    pose proof (slen_nonneg (str_take (Z.to_nat n) x)). done.
Qed.

Lemma writes_addf fmt args x :
  c_format fmt args = Some x -> slen x <= INT_MAX ->
  writes (S := S) (fun sb => sb_addf sb fmt args) x.
Proof.
  intros Hx Hi sb s w Hr Hf. unfold sb_addf.
  destruct (appendf_spec sb s fmt args x w Hr Hx Hi Hf)
    as (w' & Ha & [(sb' & E & Hr')|[E Hp]]); run_with E.
  - by exists sb', x, w'.
  - exists sb, EmptyString, w'. rewrite str_app_nil_r. pose proof (slen_nonneg x). done.
Qed.

(** What a finished writer gives its caller. *)
Lemma writes_run m x sb w :
  writes m x -> sb_repr sb EmptyString -> fits x -> plenty w ->
  exists sb', m sb w = Ret sb' w /\ sb_repr sb' x.
Proof.
  intros Hm Hr Hf Hp. destruct (Hm sb EmptyString w Hr Hf) as (sb' & y & w' & E & Hr' & _ & Ha & Hy).
  rewrite (Hy Hp) in Hr'. rewrite (alloc_only_plenty _ _ Ha Hp) in E. eauto.
Qed.
End writers.

Create HintDb writers discriminated.
#[export] Hint Resolve writes_nil writes_add : writers.
