(* ===== verification/Dialect.v ===== *)
(** * SQL dialects ([src/dialect.c])

    Backend-specific SQL fragments.  The functions that fill a caller's buffer
    of [bufsz > 0] bytes are modelled by the C string left in it. *)

From S2P Require Import Prelude Types.

(** [strncpy(buf, s, bufsz)] followed by [buf[bufsz - 1] = '\0']. *)
Definition copy_to_buf (bufsz : nat) (s : string) : string := str_take (bufsz - 1) s.

Definition corm_dialect_placeholder_str (backend : corm_backend_type) (index : Z)
    (bufsz : nat) : string :=
  match backend with
  | CORM_BACKEND_POSTGRES => c_snprintf bufsz ("$" +:+ pretty (wrap_i32 (index + 1)))
  | CORM_BACKEND_MYSQL | CORM_BACKEND_SQLITE => copy_to_buf bufsz "?"
  end.

Definition corm_dialect_quote (backend : corm_backend_type) : string :=
  match backend with
  | CORM_BACKEND_POSTGRES => dquote
  | CORM_BACKEND_MYSQL => bquote
  | CORM_BACKEND_SQLITE => dquote
  end.

Definition corm_dialect_autoinc (backend : corm_backend_type) : string :=
  match backend with
  | CORM_BACKEND_SQLITE => "INTEGER PRIMARY KEY AUTOINCREMENT"
  | CORM_BACKEND_MYSQL => "INTEGER AUTO_INCREMENT"
  | CORM_BACKEND_POSTGRES => "SERIAL PRIMARY KEY"
  end.

Definition varchar_size (size : Z) : Z :=
  if (0 <? size) && (size <? 65535) then size else 255.

Definition varchar (bufsz : nat) (size : Z) : string :=
  c_snprintf bufsz ("VARCHAR(" +:+ (pretty (varchar_size size) +:+ ")")).

Definition corm_dialect_type_name_str (backend : corm_backend_type)
    (type : corm_field_type) (size : Z) (bufsz : nat) : string :=
  match backend with
  | CORM_BACKEND_SQLITE =>
      match type with
      | CORM_INT | CORM_INT64 => copy_to_buf bufsz "INTEGER"
      | CORM_FLOAT | CORM_DOUBLE => copy_to_buf bufsz "REAL"
      | CORM_STRING | CORM_TEXT => copy_to_buf bufsz "TEXT"
      | CORM_BLOB => copy_to_buf bufsz "BLOB"
      | CORM_BOOL => copy_to_buf bufsz "INTEGER"
      end
  | CORM_BACKEND_MYSQL =>
      match type with
      | CORM_INT => copy_to_buf bufsz "INT"
      | CORM_INT64 => copy_to_buf bufsz "BIGINT"
      | CORM_FLOAT => copy_to_buf bufsz "FLOAT"
      | CORM_DOUBLE => copy_to_buf bufsz "DOUBLE"
      | CORM_STRING => varchar bufsz size
      | CORM_TEXT => copy_to_buf bufsz "TEXT"
      | CORM_BLOB => copy_to_buf bufsz "BLOB"
      | CORM_BOOL => copy_to_buf bufsz "TINYINT(1)"
      end
  | CORM_BACKEND_POSTGRES =>
      match type with
      | CORM_INT => copy_to_buf bufsz "INTEGER"
      | CORM_INT64 => copy_to_buf bufsz "BIGINT"
      | CORM_FLOAT => copy_to_buf bufsz "REAL"
      | CORM_DOUBLE => copy_to_buf bufsz "DOUBLE PRECISION"
      | CORM_STRING => varchar bufsz size
      | CORM_TEXT => copy_to_buf bufsz "TEXT"
      | CORM_BLOB => copy_to_buf bufsz "BYTEA"
      | CORM_BOOL => copy_to_buf bufsz "BOOLEAN"
      end
  end.

Definition corm_dialect_if_not_exists (backend : corm_backend_type) : string :=
  "IF NOT EXISTS".

(** ** Lemmas *)

(** The buffers the callers use: [ph_buf[16]] and [type_buf[64]]. *)
Definition PH_BUF : nat := 16.
Definition TYPE_BUF : nat := 64.

(** The placeholder of parameter number [index], without a buffer. *)
Definition placeholder (backend : corm_backend_type) (index : Z) : string :=
  match backend with
  | CORM_BACKEND_POSTGRES => "$" +:+ pretty (index + 1)
  | _ => "?"
  end.

(** A parameter index the code can number: the increment does not overflow. *)
Definition ph_index (i : Z) : Prop := 0 <= i < INT_MAX.

Lemma placeholder_str_spec bt i :
  ph_index i -> corm_dialect_placeholder_str bt i PH_BUF = placeholder bt i.
Proof.
  unfold ph_index, INT_MAX. intros Hi. destruct bt; try done. simpl.
  rewrite wrap_i32_id by (unfold in_i32; lia).
  apply c_snprintf_fits. simpl.
  pose proof (pretty_nonneg_length (i + 1) 10 ltac:(lia) ltac:(lia)).
  unfold PH_BUF. lia.
Qed.

Lemma placeholder_no_nul bt i : 0 <= i -> no_nul (placeholder bt i) = true.
Proof.
  intros Hi. destruct bt; try done. simpl.
  assert (Hd : str_forallb is_digit (pretty (i + 1)) = true)
    by (apply pretty_nonneg_digits; lia).
  revert Hd. generalize (pretty (i + 1)). intros s. induction s as [|c s IH]; simpl; [done|].
  intros [Hc Hs]%andb_prop. rewrite IH by done.
  destruct (Ascii.eqb_spec c NUL) as [->|]; [by vm_compute in Hc|done].
Qed.

Lemma placeholder_length bt i : ph_index i -> slen (placeholder bt i) <= 11.
Proof.
  unfold ph_index, INT_MAX. intros Hi. destruct bt; try (vm_compute; discriminate).
  unfold slen. simpl. pose proof (pretty_nonneg_length (i + 1) 10 ltac:(lia) ltac:(lia)). lia.
Qed.

(** PostgreSQL placeholders hold no question mark, the others hold one. *)
Lemma placeholder_qmarks bt i :
  0 <= i ->
  str_count "?" (placeholder bt i) = if decide (bt = CORM_BACKEND_POSTGRES) then 0 else 1.
Proof.
  intros Hi. destruct bt; simpl; try done. by rewrite pretty_nonneg_count by (done || lia).
Qed.

(** Distinct parameters get distinct PostgreSQL placeholders. *)
Lemma placeholder_pg_inj i j :
  placeholder CORM_BACKEND_POSTGRES i = placeholder CORM_BACKEND_POSTGRES j -> i = j.
Proof. simpl. intros [= H]. apply (inj pretty) in H. lia. Qed.

Lemma quote_no_nul bt : no_nul (corm_dialect_quote bt) = true.
Proof. by destruct bt. Qed.

(** No identifier holds a quote character. *)
Lemma quote_not_ident bt c s :
  corm_dialect_quote bt = String c s -> ident_char c = false /\ s = EmptyString.
Proof. by destruct bt; intros [= <- <-]. Qed.

Lemma varchar_size_bounds size : 0 < varchar_size size < 65535.
Proof.
  unfold varchar_size.
  destruct (Z.ltb_spec 0 size), (Z.ltb_spec size 65535); simpl; lia.
Qed.

Lemma varchar_length size :
  (String.length ("VARCHAR(" +:+ (pretty (varchar_size size) +:+ ")")) <= 14)%nat.
Proof.
  pose proof (varchar_size_bounds size).
  rewrite !str_length_app. simpl.
  pose proof (pretty_nonneg_length (varchar_size size) 5 ltac:(lia) ltac:(lia)). lia.
Qed.
