(* ===== verification/Hash.v ===== *)
(** * String-keyed hash table ([src/internal/hash.h])

    Separate chaining: a bucket is the list of its entries, most recently
    inserted first.  The table does not look for an existing key on insertion,
    so a key owns a stack of values: insertion pushes, lookup reads the top and
    removal pops.  [stack_of] is this abstract view. *)

From S2P Require Import Prelude Types Mem.

Section hash.
Context {V : Type}.

Record hash : Type := Hash {
  ht_buckets : list (list (string * V));
  ht_size : Z;
  ht_count : Z
}.

Definition corm_hash_init {S} (initial_size : Z) (ht : hash) : M S (corm_err * hash) :=
  let n := if initial_size =? 0 then 32 else initial_size in
  ok ← malloc_ok;
  if (ok : bool) then mret (CORM_OK, Hash (replicate (Z.to_nat n) []) n 0)
  else mret (CORM_ERR_NOMEM, Hash [] (ht_size ht) (ht_count ht)).

(** djb2: [h = ((h << 5) + h) + c] in [size_t] arithmetic. *)
Fixpoint djb2 (h : Z) (key : string) : Z :=
  match key with
  | EmptyString => h
  | String c key' =>
      djb2 (wrap_u64 (wrap_u64 (Z.shiftl h 5) + h + Z.of_N (N_of_ascii c))) key'
  end.

(** [None]: the remainder by zero. *)
Definition corm_hash_str (key : string) (bucket_count : Z) : option Z :=
  if bucket_count =? 0 then None else Some (djb2 5381 key mod bucket_count).

Definition corm_hash_insert {S} (ht : hash) (key : string) (value : V) :
    M S (corm_err * hash) :=
  idx ← deref (corm_hash_str key (ht_size ht));
  ok ← malloc_ok;
  if negb ok then mret (CORM_ERR_NOMEM, ht)
  else
    ok ← malloc_ok;
    if negb ok then mret (CORM_ERR_NOMEM, ht)
    else
      chain ← deref (ht_buckets ht !! Z.to_nat idx);
      mret (CORM_OK,
            Hash (<[Z.to_nat idx := (key, value) :: chain]> (ht_buckets ht))
                 (ht_size ht) (ht_count ht + 1)).

Fixpoint chain_find (chain : list (string * V)) (key : string) : option V :=
  match chain with
  | [] => None
  | (k, v) :: chain' => if String.eqb k key then Some v else chain_find chain' key
  end.

Definition corm_hash_find {S} (ht : hash) (key : string) : M S (option V) :=
  idx ← deref (corm_hash_str key (ht_size ht));
  chain ← deref (ht_buckets ht !! Z.to_nat idx);
  mret (chain_find chain key).

(** The walk with the pointer-to-pointer: [None] when no entry matches. *)
Fixpoint chain_remove (chain : list (string * V)) (key : string) :
    option (list (string * V)) :=
  match chain with
  | [] => None
  | (k, v) :: chain' =>
      if String.eqb k key then Some chain'
      else rest ← chain_remove chain' key; Some ((k, v) :: rest)
  end.

Definition corm_hash_remove {S} (ht : hash) (key : string) : M S hash :=
  idx ← deref (corm_hash_str key (ht_size ht));
  chain ← deref (ht_buckets ht !! Z.to_nat idx);
  match chain_remove chain key with
  | None => mret ht
  | Some chain' =>
      mret (Hash (<[Z.to_nat idx := chain']> (ht_buckets ht))
                 (ht_size ht) (wrap_u64 (ht_count ht - 1)))
  end.

Definition corm_hash_free (ht : hash) : hash := Hash [] 0 0.

(** ** The abstract view *)

(** The values of [key] in a chain, most recent first. *)
Fixpoint chain_stack (chain : list (string * V)) (key : string) : list V :=
  match chain with
  | [] => []
  | (k, v) :: chain' =>
      if String.eqb k key then v :: chain_stack chain' key else chain_stack chain' key
  end.

Definition stack_of (ht : hash) (key : string) : list V :=
  match corm_hash_str key (ht_size ht) with
  | Some idx => chain_stack (default [] (ht_buckets ht !! Z.to_nat idx)) key
  | None => []
  end.

(** Every key sits in its bucket and the count is the number of entries. *)
Definition hash_wf (ht : hash) : Prop :=
  0 < ht_size ht /\ Z.of_nat (length (ht_buckets ht)) = ht_size ht /\
  ht_count ht = Z.of_nat (length (concat (ht_buckets ht))).

Lemma hash_str_bounds key n :
  0 < n -> exists i, corm_hash_str key n = Some i /\ 0 <= i < n.
Proof.
  intros Hn. unfold corm_hash_str. destruct (Z.eqb_spec n 0); [lia|].
  eexists. split; [done|]. by apply Z.mod_pos_bound.
Qed.

(** The bucket of a key exists. *)
Lemma wf_bucket ht key :
  hash_wf ht -> exists i chain, corm_hash_str key (ht_size ht) = Some (Z.of_nat i) /\
    ht_buckets ht !! i = Some chain.
Proof.
  intros (Hs & Hl & _). destruct (hash_str_bounds key _ Hs) as (i & Hi & Hb).
  destruct (lookup_lt_is_Some_2 (ht_buckets ht) (Z.to_nat i)) as [chain Hc]; [lia|].
  exists (Z.to_nat i), chain. by rewrite Z2Nat.id by lia.
Qed.

Lemma chain_find_stack chain key : chain_find chain key = head (chain_stack chain key).
Proof.
  induction chain as [|[k v] chain IH]; simpl; [done|]. by destruct (String.eqb k key).
Qed.

Lemma chain_remove_None chain key : chain_remove chain key = None -> chain_stack chain key = [].
Proof.
  induction chain as [|[k v] chain IH]; simpl; [done|].
  destruct (String.eqb k key); [done|]. destruct (chain_remove chain key); naive_solver.
Qed.

Lemma chain_remove_Some chain key chain' :
  chain_remove chain key = Some chain' ->
  chain_stack chain' key = tail (chain_stack chain key) /\
  (forall k, k <> key -> chain_stack chain' k = chain_stack chain k) /\
  length chain = S (length chain').
Proof.
  revert chain'. induction chain as [|[k v] chain IH]; simpl; intros chain' H; [done|].
  destruct (String.eqb_spec k key) as [->|Hne].
  - simplify_eq. split; [done|]. split; [|done]. intros k Hk. simpl.
    by destruct (String.eqb_spec key k) as [->|].
  - destruct (chain_remove chain key) as [rest|] eqn:E; simplify_eq/=.
    destruct (IH rest eq_refl) as (H1 & H2 & H3).
    destruct (String.eqb_spec k key); [done|].
    split; [done|]. split; [|lia]. intros k' Hk'. by rewrite (H2 k' Hk').
Qed.

Lemma concat_insert_length (bs : list (list (string * V))) i old new :
  bs !! i = Some old ->
  (length (concat (<[i := new]> bs)) + length old = length (concat bs) + length new)%nat.
Proof.
  revert i. induction bs as [|b bs IH]; intros [|i] H; simplify_eq/=.
  - rewrite !length_app. lia.
  - rewrite !length_app. specialize (IH i H). lia.
Qed.

(** Replacing the chain of [key]'s bucket changes only keys of that bucket. *)
Lemma stack_of_update ht key i chain new cnt k :
  hash_wf ht -> corm_hash_str key (ht_size ht) = Some (Z.of_nat i) ->
  ht_buckets ht !! i = Some chain ->
  (k <> key -> chain_stack new k = chain_stack chain k) ->
  stack_of (Hash (<[i := new]> (ht_buckets ht)) (ht_size ht) cnt) k =
    if decide (k = key) then chain_stack new key else stack_of ht k.
Proof.
  intros (Hs & Hl & _) Hi Hb Hne. unfold stack_of; simpl.
  pose proof (lookup_lt_Some _ _ _ Hb).
  destruct (hash_str_bounds k _ Hs) as (j & Hj & Hjb). rewrite Hj.
  destruct (decide (k = key)) as [->|Hk].
  - rewrite Hi in Hj. simplify_eq. rewrite Nat2Z.id.
    by rewrite list_lookup_insert_eq.
  - destruct (decide (Z.to_nat j = i)) as [<-|Hji].
    + rewrite list_lookup_insert_eq by done. rewrite Hb. simpl. auto.
    + by rewrite list_lookup_insert_ne by done.
Qed.

Lemma init_wf {S} n ht (w : world S) w' ht' :
  0 <= n -> corm_hash_init n ht w = Ret (CORM_OK, ht') w' ->
  hash_wf ht' /\ forall k, stack_of ht' k = [].
Proof.
  intros Hn. unfold corm_hash_init. intros H.
  apply bind_inv in H as (b & w1 & Hm & H). destruct b; ret_inv H.
  set (m := if n =? 0 then 32 else n).
  assert (0 < m) by (unfold m; destruct (Z.eqb_spec n 0); lia).
  split.
  - split; [simpl; lia|]. simpl. rewrite length_replicate. split; [lia|].
    generalize (Z.to_nat m). intros q. by induction q.
  - intros k. unfold stack_of; simpl. destruct (corm_hash_str k m) as [i|]; [|done].
    destruct (replicate (Z.to_nat m) [] !! Z.to_nat i) as [c|] eqn:E; [|done].
    by apply lookup_replicate in E as [-> _].
Qed.

Lemma insert_ok {S} ht key v (w : world S) :
  hash_wf ht -> plenty w ->
  exists ht', corm_hash_insert ht key v w = Ret (CORM_OK, ht') w /\ hash_wf ht' /\
    forall k, stack_of ht' k = if decide (k = key) then v :: stack_of ht key else stack_of ht k.
Proof.
  intros Hwf Hp. destruct (wf_bucket ht key Hwf) as (i & chain & Hi & Hb).
  unfold corm_hash_insert. rewrite Hi. run.
  run_with (malloc_ok_plenty w Hp). run_with (malloc_ok_plenty w Hp).
  rewrite Nat2Z.id, Hb. run. eexists. split; [done|]. split.
  - destruct Hwf as (? & ? & Hc). split; [done|]. simpl. rewrite length_insert.
    split; [done|]. pose proof (concat_insert_length _ _ _ ((key, v) :: chain) Hb).
    simpl in *. lia.
  - intros k. rewrite (stack_of_update ht key i chain) by
      (done || (simpl; intros; by destruct (String.eqb_spec key k))).
    simpl. rewrite String.eqb_refl. unfold stack_of. rewrite Hi, Nat2Z.id, Hb. done.
Qed.

Lemma find_ok {S} ht key (w : world S) :
  hash_wf ht -> corm_hash_find ht key w = Ret (head (stack_of ht key)) w.
Proof.
  intros Hwf. destruct (wf_bucket ht key Hwf) as (i & chain & Hi & Hb).
  unfold corm_hash_find, stack_of. rewrite Hi. run. rewrite Nat2Z.id, Hb. run.
  by rewrite chain_find_stack.
Qed.

Lemma remove_ok {S} ht key (w : world S) :
  hash_wf ht -> ht_count ht < 2 ^ 64 ->
  exists ht', corm_hash_remove ht key w = Ret ht' w /\ hash_wf ht' /\
    forall k, stack_of ht' k = if decide (k = key) then tail (stack_of ht key) else stack_of ht k.
Proof.
  intros Hwf Hcap. destruct (wf_bucket ht key Hwf) as (i & chain & Hi & Hb).
  unfold corm_hash_remove. rewrite Hi. run. rewrite Nat2Z.id, Hb. run.
  assert (Hst : stack_of ht key = chain_stack chain key).
  { unfold stack_of. by rewrite Hi, Nat2Z.id, Hb. }
  destruct (chain_remove chain key) as [chain'|] eqn:E.
  - apply chain_remove_Some in E as (E1 & E2 & E3).
    eexists. split; [done|]. split.
    + destruct Hwf as (? & ? & Hc). split; [done|]. simpl. rewrite length_insert.
      split; [done|]. pose proof (concat_insert_length _ _ _ chain' Hb).
      rewrite wrap_u64_small; lia.
    + intros k. rewrite (stack_of_update ht key i chain) by eauto.
      by rewrite E1, Hst.
  - exists ht. split; [done|]. split; [done|]. intros k.
    destruct (decide (k = key)) as [->|]; [|done].
    by rewrite Hst, (chain_remove_None _ _ E).
Qed.

Lemma insert_count {S} ht key v (w : world S) e ht' w' :
  corm_hash_insert ht key v w = Ret (e, ht') w' -> ht_count ht' <= ht_count ht + 1.
Proof.
  unfold corm_hash_insert. intros H. apply bind_inv in H as (i & w1 & _ & H).
  apply bind_inv in H as (b & w2 & _ & H). destruct b; simpl in H; [|ret_inv H; lia].
  apply bind_inv in H as (b & w3 & _ & H). destruct b; simpl in H; [|ret_inv H; lia].
  apply bind_inv in H as (c & w4 & _ & H). ret_inv H. lia.
Qed.

Lemma remove_count {S} ht key (w : world S) ht' w' :
  hash_wf ht -> ht_count ht < 2 ^ 64 -> corm_hash_remove ht key w = Ret ht' w' ->
  ht_count ht' <= ht_count ht.
Proof.
  intros Hwf Hcap. destruct (wf_bucket ht key Hwf) as (i & chain & Hi & Hb).
  unfold corm_hash_remove. rewrite Hi. run. rewrite Nat2Z.id, Hb. run.
  destruct (chain_remove chain key) as [chain'|] eqn:E; intros H; ret_inv H; [|lia].
  apply chain_remove_Some in E as (_ & _ & El). destruct Hwf as (_ & _ & Hc).
  pose proof (concat_insert_length _ _ _ chain' Hb). rewrite wrap_u64_small; lia.
Qed.

(** Out of memory: the table is as it was. *)
Lemma insert_fail {S} ht key v (w : world S) e ht' w' :
  hash_wf ht -> corm_hash_insert ht key v w = Ret (e, ht') w' -> e <> CORM_OK ->
  e = CORM_ERR_NOMEM /\ ht' = ht.
Proof.
  intros Hwf. destruct (wf_bucket ht key Hwf) as (i & chain & Hi & Hb).
  unfold corm_hash_insert. rewrite Hi. run. intros H He.
  apply bind_inv in H as (b & w1 & _ & H). destruct b; simpl in H; [|by ret_inv H].
  apply bind_inv in H as (b & w2 & _ & H). destruct b; simpl in H; [|by ret_inv H].
  rewrite Nat2Z.id, Hb in H. run_in H. by ret_inv H.
Qed.
End hash.
Arguments hash : clear implicits.
