(* ===== verification/Float.v ===== *)
(** * [float] and [double] conversions

    The source converts a struct member of type [float] to the [double] of a
    value and back ([src/model.c]).  Both are IEEE-754 numbers, kept as bit
    patterns; the conversions decode, round to nearest even with the standard
    library's [SpecFloat] and encode again.  A NaN becomes the quiet NaN
    without payload (C leaves the payload open). *)

From S2P Require Import Prelude.
From Stdlib Require Import SpecFloat.

(** A format: the exponent and mantissa field widths. *)
Record fformat : Type := FFormat { ff_ew : Z; ff_mw : Z }.

Definition binary32 : fformat := FFormat 8 23.
Definition binary64 : fformat := FFormat 11 52.

Definition ff_prec (f : fformat) : Z := ff_mw f + 1.
Definition ff_emax (f : fformat) : Z := 2 ^ (ff_ew f - 1).
Definition ff_bias (f : fformat) : Z := ff_emax f - 1.

Definition float_decode (f : fformat) (bits : Z) : spec_float :=
  let s := Z.testbit bits (ff_ew f + ff_mw f) in
  let e := Z.shiftr bits (ff_mw f) mod 2 ^ ff_ew f in
  let m := bits mod 2 ^ ff_mw f in
  if e =? 0 then
    match m with
    | Zpos p => S754_finite s p (1 - ff_bias f - ff_mw f)
    | _ => S754_zero s
    end
  else if e =? 2 ^ ff_ew f - 1 then
    if m =? 0 then S754_infinity s else S754_nan
  else S754_finite s (Z.to_pos (m + 2 ^ ff_mw f)) (e - ff_bias f - ff_mw f).

Definition float_encode (f : fformat) (x : spec_float) : Z :=
  let pack (s : bool) (e m : Z) :=
    (if s then 2 ^ (ff_ew f + ff_mw f) else 0) + Z.shiftl e (ff_mw f) + m in
  match x with
  | S754_zero s => pack s 0 0
  | S754_infinity s => pack s (2 ^ ff_ew f - 1) 0
  | S754_nan => pack false (2 ^ ff_ew f - 1) (2 ^ (ff_mw f - 1))
  | S754_finite s m e =>
      if Zpos m <? 2 ^ ff_mw f then pack s 0 (Zpos m)
      else pack s (e + ff_bias f + ff_mw f) (Zpos m - 2 ^ ff_mw f)
  end.

Definition float_convert (from to : fformat) (bits : Z) : Z :=
  float_encode to
    match float_decode from bits with
    | S754_finite s m e =>
        binary_normalize (ff_prec to) (ff_emax to)
          (if s then Zneg m else Zpos m) e s
    | x => x
    end.

(** [(double) x] for a [float] [x], and [(float) x] for a [double] [x]. *)
Definition f32_to_f64 (bits : Z) : Z := float_convert binary32 binary64 bits.
Definition f64_to_f32 (bits : Z) : Z := float_convert binary64 binary32 bits.

(** 1.5f, the smallest subnormal and -infinity survive the round trip. *)
Example f32_roundtrip_examples :
  map (fun b => f64_to_f32 (f32_to_f64 b)) [0x3fc00000; 1; 0xff800000; 0x80000000]
  = [0x3fc00000; 1; 0xff800000; 0x80000000].
Proof. vm_compute. reflexivity. Qed.

Example f32_to_f64_three_halves : f32_to_f64 0x3fc00000 = 0x3ff8000000000000.
Proof. vm_compute. reflexivity. Qed.

(** 0.1 as a double rounds to the nearest float. *)
Example f64_to_f32_tenth : f64_to_f32 0x3fb999999999999a = 0x3dcccccd.
Proof. vm_compute. reflexivity. Qed.
