(* ===== verification/CLib.v ===== *)
(** * Functions of the C library the drivers use

    [strncpy] and [strchr] on arrays whose bytes may be indeterminate, the
    conversions [strtoll], [atoi] and [strtod], and the conversion [%.15g] of
    [printf].  The locale is the C locale. *)

From S2P Require Import Prelude Types Mem Strbuf Float.
From Stdlib Require Import SpecFloat.

(** ** Character arrays *)

(** [char a[n] = "..."]: the rest of the array is zero. *)
Definition char_array (n : nat) (s : string) : cells :=
  str_cells s ++ replicate (n - String.length s) (Some NUL).

(** [char a[n];] *)
Definition char_array_uninit (n : nat) : cells := replicate n None.

(** [strncpy(dst, src, n)]: exactly [n] bytes are written, a shorter [src] is
    padded with NULs, a longer one leaves no NUL.  [None]: out of bounds. *)
Definition strncpy (dst : cells) (src : string) (n : nat) : option cells :=
  store_cells dst 0 (str_cells (str_take n src) ++ replicate (n - String.length src) (Some NUL)).

(** [dst[i] = '\0']. *)
Definition set_nul (dst : cells) (i : nat) : option cells := store_cells dst i [Some NUL].

(** ** Integers *)

Definition LLONG_MIN : Z := - 2 ^ 63.
Definition LLONG_MAX : Z := 2 ^ 63 - 1.

Definition is_space (c : ascii) : bool :=
  Ascii.eqb c " " || (9 <=? N_of_ascii c)%N && (N_of_ascii c <=? 13)%N.

Fixpoint skip_spaces (s : string) : string :=
  match s with
  | String c s' => if is_space c then skip_spaces s' else s
  | EmptyString => s
  end.

(** An optional sign: is it a minus, and the text after it. *)
Definition read_sign (s : string) : bool * string :=
  match s with
  | String "-" s' => (true, s')
  | String "+" s' => (false, s')
  | _ => (false, s)
  end.

Definition digit_val (c : ascii) : Z := Z.of_N (N_of_ascii c) - 48.

(** Decimal digits: the number they extend [acc] to, how many there are, and
    the text after them. *)
Fixpoint read_digits (s : string) (acc : Z) : Z * nat * string :=
  match s with
  | String c s' =>
      if is_digit c then
        let '(z, n, r) := read_digits s' (acc * 10 + digit_val c) in (z, S n, r)
      else (acc, O, s)
  | EmptyString => (acc, O, s)
  end.

(** The value the text starts with, before it is fitted to a type. *)
Definition read_int (s : string) : Z :=
  let '(neg, s) := read_sign (skip_spaces s) in
  let '(z, _, _) := read_digits s 0 in
  if (neg : bool) then - z else z.

(** [strtoll(s, NULL, 10)]. *)
Definition strtoll (s : string) : Z := Z.max LLONG_MIN (Z.min LLONG_MAX (read_int s)).

(** [atoi(s)]; [None]: the value is not an [int] (undefined behaviour). *)
Definition atoi (s : string) : option Z :=
  let z := read_int s in
  if (- 2 ^ 31 <=? z) && (z <? 2 ^ 31) then Some z else None.

(** *** Numbers in memory (little-endian) *)

Fixpoint le_value (bs : list ascii) : Z :=
  match bs with [] => 0 | c :: bs => Z.of_N (N_of_ascii c) + 256 * le_value bs end.

Fixpoint le_bytes (n : nat) (z : Z) : list ascii :=
  match n with
  | O => []
  | S n => ascii_of_N (Z.to_N (z mod 256)) :: le_bytes n (z / 256)
  end.

(** ** Floating point *)

(** The double nearest to [m * 10 ^ e]. *)
Definition double_of_decimal (neg : bool) (m e : Z) : spec_float :=
  match m with
  | Zpos p =>
      if 0 <=? e then
        binary_normalize 53 1024 ((if neg then Zneg p else Zpos p) * 10 ^ e) 0 neg
      else
        let '(q, e', l) := SFdiv_core_binary 53 1024 (Zpos p) 0 (10 ^ (- e)) 0 in
        binary_round_aux 53 1024 neg q e' l
  | _ => S754_zero neg
  end.

Definition lower (c : ascii) : ascii :=
  let n := N_of_ascii c in
  if (65 <=? n)%N && (n <=? 90)%N then ascii_of_N (n + 32) else c.

(** The text starts with [p], whatever the case of its letters. *)
Fixpoint starts_with_ci (p s : string) : bool :=
  match p, s with
  | EmptyString, _ => true
  | String c p', String d s' => Ascii.eqb c (lower d) && starts_with_ci p' s'
  | _, EmptyString => false
  end.

Definition hex_val (c : ascii) : option Z :=
  let l := lower c in
  if is_digit c then Some (digit_val c)
  else if (97 <=? N_of_ascii l)%N && (N_of_ascii l <=? 102)%N
  then Some (Z.of_N (N_of_ascii l) - 87) else None.

Fixpoint read_hex (s : string) (acc : Z) : Z * nat * string :=
  match s with
  | String c s' =>
      match hex_val c with
      | Some d => let '(z, n, r) := read_hex s' (acc * 16 + d) in (z, S n, r)
      | None => (acc, O, s)
      end
  | EmptyString => (acc, O, s)
  end.

(** A number [digits.digits] in the notation of [read]: its digits as one
    integer, how many follow the point, the text after it; [None]: no digit. *)
Definition read_fixed (read : string -> Z -> Z * nat * string) (s : string) :
    option (Z * nat * string) :=
  let '(m, n, r) := read s 0 in
  let '(m, frac, r) :=
    match r with
    | String "." r' => read r' m
    | _ => (m, O, r)
    end in
  match (n + frac)%nat with O => None | _ => Some (m, frac, r) end.

(** The exponent part introduced by [mark]; 0 when it is not complete. *)
Definition read_exponent (mark : ascii) (s : string) : Z :=
  match s with
  | String c s' =>
      if Ascii.eqb (lower c) mark then
        let '(neg, s') := read_sign s' in
        let '(z, n, _) := read_digits s' 0 in
        match n with O => 0 | _ => if (neg : bool) then - z else z end
      else 0
  | EmptyString => 0
  end.

(** [strtod(s, NULL)], as a bit pattern. *)
Definition strtod (s : string) : Z :=
  let '(neg, s) := read_sign (skip_spaces s) in
  float_encode binary64
    (if starts_with_ci "inf" s then S754_infinity neg
     else if starts_with_ci "nan" s then S754_nan
     else
       match
         (if starts_with_ci "0x" s then read_fixed read_hex (str_drop 2 s) else None)
       with
       | Some (m, frac, r) =>
           binary_normalize 53 1024 (if neg then - m else m)
             (read_exponent "p" r - 4 * Z.of_nat frac) neg
       | None =>
           match read_fixed read_digits s with
           | Some (m, frac, r) =>
               double_of_decimal neg m (read_exponent "e" r - Z.of_nat frac)
           | None => S754_zero false
           end
       end).

(** *** The conversion [%.15g] *)

(** The number of decimal digits of a positive integer. *)
Definition ndigits (z : Z) : Z := slen (pretty z).

(** [n / d] to the nearest integer, ties to even. *)
Definition div_even (n d : Z) : Z :=
  let q := n / d in
  let r := 2 * (n mod d) in
  if (d <? r) || (r =? d) && Z.odd q then q + 1 else q.

(** [num / den] as [d * 10 ^ (x - 14)] with [d] of fifteen digits. *)
Definition fifteen_digits (num den : Z) : Z * Z :=
  let x := if den <=? num then ndigits (num / den) - 1
           else - ndigits ((den + num - 1) / num - 1) in
  let d := if x <=? 14 then div_even (num * 10 ^ (14 - x)) den
           else div_even num (den * 10 ^ (x - 14)) in
  if d =? 10 ^ 15 then (10 ^ 14, x + 1) else (d, x).

Fixpoint strip_zeros (fuel : nat) (d : Z) (n : Z) : Z * Z :=
  match fuel with
  | O => (d, n)
  | S fuel => if d mod 10 =? 0 then strip_zeros fuel (d / 10) (n - 1) else (d, n)
  end.

Fixpoint zeros (n : nat) : string :=
  match n with O => "" | S n => String "0" (zeros n) end.

(** [n] digits [s] with the decimal point after the first [k]. *)
Definition with_point (k : nat) (s : string) : string :=
  if (String.length s <=? k)%nat then s +:+ zeros (k - String.length s)
  else str_take k s +:+ "." +:+ str_drop k s.

Definition format_g15 (bits : Z) : string :=
  let sign := if Z.testbit bits 63 then "-" else "" in
  sign +:+
  match float_decode binary64 bits with
  | S754_zero _ => "0"
  | S754_infinity _ => "inf"
  | S754_nan => "nan"
  | S754_finite _ m e =>
      let '(d, x) := if 0 <=? e then fifteen_digits (Zpos m * 2 ^ e) 1
                     else fifteen_digits (Zpos m) (2 ^ (- e)) in
      let '(d, _) := strip_zeros 14 d 15 in
      let s := pretty d in
      if (x <? -4) || (15 <=? x) then
        with_point 1 s +:+ "e" +:+ (if x <? 0 then "-" else "+") +:+
          (if Z.abs x <? 10 then "0" else "") +:+ pretty (Z.abs x)
      else if x <? 0 then "0." +:+ zeros (Z.to_nat (- x - 1)) +:+ s
      else with_point (Z.to_nat x + 1) s
  end.

Example strtod_examples :
  map strtod ["1.5"; " -0.1"; "1e22"; "0x1p-1074"; "1e400"; "-inf"; "abc"; "4.9406564584124654e-324"]
  = [0x3ff8000000000000; 0xbfb999999999999a; 0x4480f0cf064dd592; 1; 0x7ff0000000000000;
     0xfff0000000000000; 0; 1].
Proof. vm_compute. reflexivity. Qed.

Example format_g15_examples :
  map format_g15 [0x3ff8000000000000; 0xbfb999999999999a; 0x4480f0cf064dd592; 0; 0x8000000000000000;
    0x3fd5555555555555; 0x405edd3c07ee0b0b; 0x3f1a36e2eb1c432d; 0x3ee4f8b588e368f1; 0x430c6bf526340000;
    0x4024000000000000; 0x7ff0000000000000; 0x4341c37937e08000]
  = ["1.5"; "-0.1"; "1e+22"; "0"; "-0"; "0.333333333333333"; "123.456789"; "0.0001"; "1e-05";
     "1e+15"; "10"; "inf"; "1e+16"].
Proof. vm_compute. reflexivity. Qed.

(** ** Numbers are read back as they are printed *)

Lemma read_digits_go x : forall s, (read_digits (pretty_N_go x s) 0).1.1 = (read_digits s (Z.of_N x)).1.1.
Proof.
  induction (N.lt_wf_0 x) as [x _ IH]. intros s.
  assert (x = 0%N \/ (0 < x)%N) as [->|Hx] by lia; [by rewrite pretty_N_go_0|].
  rewrite pretty_N_go_step by done. rewrite IH by (by apply N.div_lt). cbn [read_digits].
  rewrite pretty_N_char_digit.
  assert (Hd : digit_val (pretty_N_char (x mod 10)) = Z.of_N (x mod 10)).
  { pose proof (N.mod_lt x 10 ltac:(lia)) as Hm. unfold digit_val, pretty_N_char.
    destruct (x mod 10)%N as [|p]; [done|]. do 4 (destruct p as [p|p|]; try done; try lia). }
  pose proof (N.div_mod x 10 ltac:(lia)) as Hdm.
  rewrite Hd. replace (Z.of_N (x / 10) * 10 + Z.of_N (x mod 10)) with (Z.of_N x) by lia.
  by destruct (read_digits s (Z.of_N x)) as [[??]?].
Qed.

Lemma digit_not_space c : is_digit c = true -> is_space c = false.
Proof.
  unfold is_digit, is_space. intros [H1%N.leb_le H2%N.leb_le]%andb_prop.
  destruct (Ascii.eqb_spec c " ") as [->|_]; [by cbn in H1|].
  destruct (N.leb_spec (N_of_ascii c) 13); [lia|]. by rewrite andb_false_r.
Qed.

Lemma read_int_unsigned c s :
  is_digit c = true -> read_int (String c s) = (read_digits (String c s) 0).1.1.
Proof.
  intros Hc. unfold read_int. cbn [skip_spaces]. rewrite digit_not_space by done.
  assert (Hs : read_sign (String c s) = (false, String c s)).
  { destruct c as [[] [] [] [] [] [] [] []]; try done; by vm_compute in Hc. }
  rewrite Hs. by destruct (read_digits (String c s) 0) as [[??]?].
Qed.

Lemma pretty_N_go_nonempty y : forall c s, pretty_N_go y (String c s) <> "".
Proof.
  induction (N.lt_wf_0 y) as [y _ IH]. intros c s.
  assert (y = 0%N \/ (0 < y)%N) as [->|Hy] by lia; [by rewrite pretty_N_go_0|].
  rewrite pretty_N_go_step by done. apply IH. by apply N.div_lt.
Qed.

Lemma pretty_pos_cons p : exists c s, pretty (Z.pos p) = String c s /\ is_digit c = true.
Proof.
  pose proof (pretty_nonneg_digits (Z.pos p) ltac:(lia)) as Hd.
  destruct (pretty (Z.pos p)) as [|c s] eqn:E.
  - exfalso. change (pretty (Z.pos p)) with (pretty_N_go (N.pos p) "") in E.
    rewrite pretty_N_go_step in E by lia. by apply pretty_N_go_nonempty in E.
  - exists c, s. split; [done|]. by apply andb_prop in Hd as [??].
Qed.

Lemma read_int_pretty z : read_int (pretty z) = z.
Proof.
  assert (Hpos : forall p, read_int (pretty (Z.pos p)) = Z.pos p).
  { intros p. destruct (pretty_pos_cons p) as (c & s & E & Hc).
    rewrite E, read_int_unsigned, <- E by done.
    change (pretty (Z.pos p)) with (pretty_N_go (N.pos p) ""). by rewrite read_digits_go. }
  destruct z as [|p|p]; [done|apply Hpos|].
  change (pretty (Z.neg p)) with (String "-" (pretty (Z.pos p))).
  specialize (Hpos p). destruct (pretty_pos_cons p) as (c & s & E & Hc). rewrite E in *.
  rewrite read_int_unsigned in Hpos by done. unfold read_int.
  change (skip_spaces (String "-" (String c s))) with (String "-" (String c s)).
  cbn [read_sign]. destruct (read_digits (String c s) 0) as [[z ?]?]. cbn in Hpos. by subst z.
Qed.

Lemma strtoll_pretty z : in_i64 z -> strtoll (pretty z) = z.
Proof. unfold strtoll, LLONG_MIN, LLONG_MAX, in_i64. rewrite read_int_pretty. lia. Qed.

Lemma atoi_pretty z : in_i32 z -> atoi (pretty z) = Some z.
Proof.
  unfold atoi, in_i32. rewrite read_int_pretty. intros Hz.
  destruct (Z.leb_spec (- 2 ^ 31) z), (Z.ltb_spec z (2 ^ 31)); (done || lia).
Qed.

(** Numbers survive memory. *)
Lemma le_value_bytes n z : le_value (le_bytes n z) = z mod 2 ^ (8 * Z.of_nat n).
Proof.
  revert z. induction n as [|n IH]; intros z; cbn [le_bytes le_value]; [by rewrite Z.mod_1_r|].
  rewrite IH, N_ascii_embedding, Z2N.id by (pose proof (Z.mod_pos_bound z 256); lia).
  replace (8 * Z.of_nat (S n)) with (8 + 8 * Z.of_nat n) by lia. rewrite Z.pow_add_r by lia.
  change (2 ^ 8) with 256. rewrite Z.rem_mul_r by lia. lia.
Qed.

Lemma length_le_bytes n z : length (le_bytes n z) = n.
Proof. revert z. induction n as [|n IH]; intros z; cbn; by rewrite ?IH. Qed.
