(* ===== verification/ServerDsn.v ===== *)
(** * The DSN of a server ([mysql_open], [pg_open])

    Both drivers cut [[user[:pass]@]host[:port][/dbname]] with [strchr] and
    [strncpy] into fixed buffers; they differ in what the buffers hold before.
    The parser is modelled on the buffers, byte by byte. *)

From S2P Require Import Prelude Types Mem Strbuf CLib.

(** What is passed on to the library. *)
Record server : Type := Server {
  sv_user : string;
  sv_pass : string;
  sv_host : string;
  sv_port : Z;
  sv_dbname : string
}.

Definition field_buf : nat := 256.
Definition dsn_buf : nat := 1024.

(** The user and password buffers after the part before the [@], [l]. *)
Definition copy_credentials (user pass : cells) (l : string) : option (cells * cells) :=
  match split_at ":" l with
  | Some (u, pw) =>
      user ← strncpy user l (String.length u);
      pass ← strncpy pass pw (field_buf - 1);
      Some (user, pass)
  | None => user ← strncpy user l (field_buf - 1); Some (user, pass)
  end.

(** [*strchr(host, ':') = '\0'] and the port after it. *)
Definition cut_port (host : cells) (port : Z) : option (cells * Z) :=
  text ← cstr_of_cells host;
  match split_at ":" text with
  | Some (h, pt) => host ← set_nul host (String.length h); port ← atoi pt; Some (host, port)
  | None => Some (host, port)
  end.

(** Host, port and database name out of [p]. *)
Definition copy_host (host : cells) (port : Z) (p : string) : option (cells * Z * cells) :=
  let dbname := char_array field_buf "" in
  match split_at "/" p with
  | Some (hp, db) =>
      dbname ← strncpy dbname db (field_buf - 1);
      let hostlen := String.length hp in
      host ← (if decide (0 < hostlen < field_buf)%nat
              then host ← strncpy host p hostlen; set_nul host hostlen
              else Some host);
      '(host, port) ← cut_port host port;
      Some (host, port, dbname)
  | None =>
      match split_at ":" p with
      | Some (h, pt) =>
          let hostlen := String.length h in
          host ← strncpy host p hostlen;
          host ← set_nul host hostlen;
          port ← atoi pt;
          Some (host, port, dbname)
      | None => host ← strncpy host p (field_buf - 1); Some (host, port, dbname)
      end
  end.

(** The whole parser; [None]: an access out of bounds, a text without its end or
    a port that is not an [int]. *)
Definition parse_server (user0 host0 : string) (port0 : Z) (dsn : string) : option server :=
  buf ← strncpy (char_array_uninit dsn_buf) dsn (dsn_buf - 1);
  text ← cstr_of_cells buf;
  let user := char_array field_buf user0 in
  let pass := char_array field_buf "" in
  '(user, pass, p) ←
    match split_at "@" text with
    | Some (l, r) => '(user, pass) ← copy_credentials user pass l; Some (user, pass, r)
    | None => Some (user, pass, text)
    end;
  '(host, port, dbname) ← copy_host (char_array field_buf host0) port0 p;
  user ← cstr_of_cells user;
  pass ← cstr_of_cells pass;
  host ← cstr_of_cells host;
  dbname ← cstr_of_cells dbname;
  Some (Server user pass host port dbname).

Definition mysql_parse : string -> option server := parse_server "root" "127.0.0.1" 3306.
Definition pg_parse : string -> option server := parse_server "" "localhost" 5432.

Example mysql_parse_full :
  mysql_parse "admin:s3cret@db.example.org:3307/shop" =
    Some (Server "admin" "s3cret" "db.example.org" 3307 "shop").
Proof. vm_compute. reflexivity. Qed.

(** The buffer of the user holds "root" before, and no end is written. *)
Example mysql_parse_short_user :
  mysql_parse "bob:pw@localhost/shop" = Some (Server "bobt" "pw" "localhost" 3306 "shop").
Proof. vm_compute. reflexivity. Qed.

Example mysql_parse_default :
  mysql_parse "/shop" = Some (Server "root" "" "127.0.0.1" 3306 "shop").
Proof. vm_compute. reflexivity. Qed.

(** ** Buffers that hold a text *)

Definition ends (b : cells) (s : string) : Prop := exists rest, b = str_cells s ++ Some NUL :: rest.

Lemma ends_read b s : no_nul s = true -> ends b s -> cstr_of_cells b = Some s.
Proof. intros Hs [rest ->]. by apply cstr_of_cells_app. Qed.

Lemma char_array_length n s : (String.length s <= n)%nat -> length (char_array n s) = n.
Proof. intros. unfold char_array. rewrite length_app, str_cells_length, length_replicate. lia. Qed.

Lemma replicate_NUL n : (0 < n)%nat -> exists rest, replicate n (Some NUL) = Some NUL :: rest.
Proof. destruct n as [|n]; [lia|]. intros _. by eexists. Qed.

Lemma char_array_ends n s : (String.length s < n)%nat -> ends (char_array n s) s.
Proof.
  intros Hl. unfold char_array, ends. destruct (replicate_NUL (n - String.length s)) as [r ->]; [lia|].
  by eexists.
Qed.

(** A text shorter than the count is copied with its end. *)
Lemma strncpy_pad dst s n :
  (String.length s < n)%nat -> (n <= length dst)%nat ->
  exists b, strncpy dst s n = Some b /\ ends b s /\ length b = length dst.
Proof.
  intros Hs Hn. unfold strncpy. rewrite str_take_all by lia.
  destruct (replicate_NUL (n - String.length s)) as [r Hr]; [lia|].
  assert (Hl : length (str_cells s ++ replicate (n - String.length s) (Some NUL)) = n).
  { rewrite length_app, str_cells_length, length_replicate. lia. }
  unfold store_cells. rewrite decide_True by (cbn; lia). rewrite Hl. eexists. split; [done|]. split.
  - rewrite Hr. cbn. exists (r ++ drop n dst). by rewrite <- app_assoc.
  - rewrite !length_app in *. rewrite length_take, length_drop. lia.
Qed.

(** Exactly [n] bytes of a longer text, without an end. *)
Lemma strncpy_cut dst s n :
  (n <= String.length s)%nat -> (n <= length dst)%nat ->
  strncpy dst s n = Some (str_cells (str_take n s) ++ drop n dst).
Proof.
  intros Hs Hn. unfold strncpy. replace (n - String.length s)%nat with O by lia.
  unfold store_cells. cbn [replicate]. rewrite app_nil_r.
  assert (Hl : length (str_cells (str_take n s)) = n)
    by (rewrite str_cells_length, str_take_length; lia).
  rewrite decide_True by (cbn; lia). by rewrite Hl.
Qed.

Lemma str_take_app_exact (l r : string) : str_take (String.length l) (l +:+ r) = l.
Proof. induction l as [|c l IH]; cbn; [by destruct r|by rewrite IH]. Qed.

Lemma set_nul_end x (b : cells) :
  (0 < length b)%nat -> exists b', set_nul (str_cells x ++ b) (String.length x) = Some b' /\
    ends b' x /\ length b' = length (str_cells x ++ b).
Proof.
  intros Hb. destruct b as [|c b]; [cbn in Hb; lia|]. unfold set_nul.
  rewrite <- (str_cells_length x). change (c :: b) with ([c] ++ b).
  rewrite (store_cells_split (str_cells x) [c] b [Some NUL]) by done.
  eexists. split; [done|]. split; [by exists b|]. by rewrite !length_app.
Qed.

(** [strncpy] of a prefix followed by a written end. *)
Lemma copy_prefix dst x r :
  (String.length x < length dst)%nat ->
  exists b1 b, strncpy dst (x +:+ r) (String.length x) = Some b1 /\
    set_nul b1 (String.length x) = Some b /\ ends b x.
Proof.
  intros Hl. rewrite strncpy_cut by (rewrite ?str_length_app; lia).
  rewrite str_take_app_exact. destruct (set_nul_end x (drop (String.length x) dst)) as (b & E & He & _).
  { rewrite length_drop. lia. }
  by eexists _, b.
Qed.

Lemma str_cells_drop n s : drop n (str_cells s) = str_cells (str_drop n s).
Proof.
  revert s. induction n as [|n IH]; intros s; [by destruct s|]. destruct s as [|c s]; [done|]. cbn. apply IH.
Qed.

(** The user is copied over what the buffer held, without an end. *)
Lemma copy_user user0 u r :
  (String.length u < field_buf)%nat -> (String.length user0 < field_buf)%nat ->
  exists b, strncpy (char_array field_buf user0) (u +:+ r) (String.length u) = Some b /\
    ends b (u +:+ str_drop (String.length u) user0).
Proof.
  intros Hu H0. rewrite strncpy_cut; [|rewrite str_length_app; lia|rewrite char_array_length; lia].
  rewrite str_take_app_exact. eexists. split; [done|]. unfold char_array, ends.
  rewrite drop_app, str_cells_drop, str_cells_length, str_cells_app.
  assert (Hr : exists rest, drop (String.length u - String.length user0)
    (replicate (field_buf - String.length user0) (Some NUL)) = Some NUL :: rest).
  { rewrite drop_replicate. apply replicate_NUL. lia. }
  destruct Hr as [rest ->]. exists rest. by rewrite <- app_assoc.
Qed.

(** A whole field; its last byte is never written. *)
Lemma copy_field x s :
  (String.length x < field_buf)%nat -> (String.length s < field_buf)%nat ->
  exists b, strncpy (char_array field_buf x) s (field_buf - 1) = Some b /\ ends b s /\
    length b = field_buf.
Proof.
  intros Hx Hs. assert (Hlx : length (char_array field_buf x) = field_buf)
    by (apply char_array_length; lia).
  destruct (decide (String.length s < field_buf - 1)%nat) as [Hlt|Hge].
  - destruct (strncpy_pad (char_array field_buf x) s (field_buf - 1) Hlt) as (b & E & He & Hb); [lia|].
    exists b. split; [done|]. split; [done|congruence].
  - assert (Hl : String.length s = (field_buf - 1)%nat) by lia.
    rewrite strncpy_cut, <- Hl, str_take_all by lia. eexists. split; [done|].
    assert (Hd : drop (String.length s) (char_array field_buf x) = [Some NUL]).
    { unfold char_array. rewrite drop_app_ge by (rewrite str_cells_length; lia).
      rewrite drop_replicate, str_cells_length.
      by replace (field_buf - String.length x - (String.length s - String.length x))%nat with 1%nat
        by (unfold field_buf in *; lia). }
    rewrite Hd. split; [by exists []|]. rewrite length_app, str_cells_length, Hl. done.
Qed.

(** ** The specification: a DSN and its parts *)

Record dsn_parts : Type := DsnParts {
  dp_auth : option (string * option string);
  dp_host : string;
  dp_port : option Z;
  dp_dbname : option string
}.

Definition show_auth (p : dsn_parts) : string :=
  match dp_auth p with
  | Some (u, Some pw) => u +:+ ":" +:+ pw +:+ "@"
  | Some (u, None) => u +:+ "@"
  | None => ""
  end.
Definition show_port (p : dsn_parts) : string :=
  match dp_port p with Some n => ":" +:+ pretty n | None => "" end.
Definition show_dbname (p : dsn_parts) : string :=
  match dp_dbname p with Some d => "/" +:+ d | None => "" end.

(** [[user[:pass]@]host[:port][/dbname]]. *)
Definition show_dsn (p : dsn_parts) : string :=
  show_auth p +:+ dp_host p +:+ show_port p +:+ show_dbname p.

Definition free_of (cs : list ascii) (s : string) : Prop :=
  Forall (fun c => str_count c s = 0) (NUL :: cs).

(** No part holds a separator that would be taken for another one's, and each
    fits its buffer. *)
Record parts_ok (p : dsn_parts) : Prop := {
  po_auth : match dp_auth p with
            | Some (u, opw) => free_of [":"; "@"]%char u /\ (String.length u < field_buf)%nat /\
                match opw with
                | Some pw => free_of ["@"%char] pw /\ (String.length pw < field_buf)%nat
                | None => True
                end
            | None => free_of ["@"%char] (dp_host p +:+ show_dbname p)
            end;
  po_host : free_of [":"; "/"]%char (dp_host p) /\ dp_host p <> "";
  po_hostport : (String.length (dp_host p +:+ show_port p) < field_buf)%nat;
  po_port : match dp_port p with Some n => 0 <= n < 2 ^ 31 | None => True end;
  po_dbname : match dp_dbname p with
              | Some d => free_of [] d /\ (String.length d < field_buf)%nat
              | None => True
              end;
  po_length : (String.length (show_dsn p) < dsn_buf - 1)%nat
}.

(** What a parser with these defaults is to find. *)
Definition expected (user0 : string) (port0 : Z) (p : dsn_parts) : server :=
  Server match dp_auth p with
         | Some (u, Some _) => u +:+ str_drop (String.length u) user0
         | Some (u, None) => u
         | None => user0
         end
         match dp_auth p with Some (_, Some pw) => pw | _ => "" end
         (dp_host p) (default port0 (dp_port p)) (default "" (dp_dbname p)).

Lemma no_nul_count s : str_count NUL s = 0 -> no_nul s = true.
Proof.
  induction s as [|c s IH]; [done|]. cbn [str_count no_nul]. destruct (Ascii.eqb_spec NUL c) as [<-|Hne].
  - pose proof (str_count_nonneg NUL s). lia.
  - intros Hs. rewrite IH by lia. by destruct (Ascii.eqb_spec c NUL).
Qed.

Lemma free_no_nul cs s : free_of cs s -> no_nul s = true.
Proof. intros Hf. apply no_nul_count. by inversion Hf. Qed.

Lemma free_count cs c s : free_of cs s -> c ∈ cs -> str_count c s = 0.
Proof.
  intros Hf Hc. unfold free_of in Hf. rewrite Forall_forall in Hf. apply Hf. by right.
Qed.

(** Membership in a list given by its elements. *)
Ltac listed := rewrite ?elem_of_cons; tauto.

Lemma port_digits p c :
  match dp_port p with Some n => 0 <= n < 2 ^ 31 | None => True end ->
  is_digit c = false -> c <> ":"%char -> str_count c (show_port p) = 0.
Proof.
  unfold show_port. destruct (dp_port p) as [n|]; [|done]. intros Hn Hc Hne. cbn [append String.append str_count].
  rewrite pretty_nonneg_count by (done || lia). destruct (Ascii.eqb_spec c ":"); [done|lia].
Qed.

(** *** The part before the [@] *)
Lemma copy_credentials_ok user0 u opw :
  (String.length user0 < field_buf)%nat -> free_of [":"; "@"]%char u ->
  (String.length u < field_buf)%nat ->
  match opw with
  | Some pw => free_of ["@"%char] pw /\ (String.length pw < field_buf)%nat
  | None => True
  end ->
  exists user pass,
    copy_credentials (char_array field_buf user0) (char_array field_buf "")
      match opw with Some pw => u +:+ ":" +:+ pw | None => u end = Some (user, pass) /\
    ends user match opw with Some _ => u +:+ str_drop (String.length u) user0 | None => u end /\
    ends pass (default "" opw).
Proof.
  intros H0 Hu Hlu Hpw. pose proof (free_count _ ":"%char _ Hu ltac:(by left)) as Hcu.
  unfold copy_credentials. destruct opw as [pw|].
  - destruct Hpw as [_ Hlp]. change (u +:+ ":" +:+ pw) with (u +:+ String ":" pw).
    rewrite split_at_fresh by done. destruct (copy_user user0 u (String ":" pw) Hlu H0) as (user & -> & Hus).
    cbn [mbind option_bind].
    destruct (copy_field "" pw ltac:(unfold field_buf; cbn; lia) Hlp) as (pass & -> & Hp & _).
    by exists user, pass.
  - rewrite split_at_none by done. destruct (copy_field user0 u H0 Hlu) as (user & -> & Hp & _).
    eexists _, _. split; [done|]. split; [done|]. apply char_array_ends. unfold field_buf. cbn. lia.
Qed.

(** *** Host, port and database *)
Definition port_text (o : option Z) : string :=
  match o with Some n => ":" +:+ pretty n | None => "" end.

Lemma cut_port_ok host hst op port0 :
  no_nul (hst +:+ port_text op) = true -> str_count ":" hst = 0 -> ends host (hst +:+ port_text op) ->
  match op with Some n => in_i32 n | None => True end ->
  exists host', cut_port host port0 = Some (host', default port0 op) /\ ends host' hst.
Proof.
  intros Hn Hc He Hp. unfold cut_port. rewrite (ends_read _ _ Hn He). cbn [mbind option_bind].
  destruct op as [n|]; cbn [port_text] in *.
  - change (hst +:+ ":" +:+ pretty n) with (hst +:+ String ":" (pretty n)) in *.
    rewrite split_at_fresh by done. destruct He as [rest ->]. rewrite str_cells_app, <- app_assoc.
    destruct (set_nul_end hst (str_cells (String ":" (pretty n)) ++ Some NUL :: rest)) as (b & -> & Hb & _).
    { rewrite length_app. cbn. lia. }
    exists b. rewrite atoi_pretty by done. by split.
  - rewrite str_app_nil_r in *. rewrite split_at_none by done. by exists host.
Qed.

Lemma copy_host_ok host0 port0 hst op odb :
  (String.length host0 < field_buf)%nat ->
  no_nul (hst +:+ port_text op) = true -> str_count ":" hst = 0 -> hst <> "" ->
  str_count "/" (hst +:+ port_text op) = 0 ->
  (String.length (hst +:+ port_text op) < field_buf)%nat ->
  match op with Some n => in_i32 n | None => True end ->
  match odb with Some d => (String.length d < field_buf)%nat | None => True end ->
  exists host dbname, copy_host (char_array field_buf host0) port0
      ((hst +:+ port_text op) +:+ match odb with Some d => "/" +:+ d | None => "" end) =
        Some (host, default port0 op, dbname) /\
    ends host hst /\ ends dbname (default "" odb).
Proof.
  intros H0 Hn Hc Hne Hsl Hlen Hp Hdb. unfold copy_host.
  assert (H0l : length (char_array field_buf host0) = field_buf) by (apply char_array_length; lia).
  assert (Hem : ends (char_array field_buf "") "") by (apply char_array_ends; unfold field_buf; cbn; lia).
  destruct odb as [d|].
  - change ("/" +:+ d) with (String "/" d). rewrite split_at_fresh by done.
    destruct (copy_field "" d ltac:(unfold field_buf; cbn; lia) Hdb) as (dbname & -> & Hd & _).
    cbn [mbind option_bind].
    assert (Hpos : (0 < String.length (hst +:+ port_text op))%nat)
      by (destruct hst; [done|cbn; lia]).
    rewrite decide_True by lia.
    destruct (copy_prefix (char_array field_buf host0) (hst +:+ port_text op) (String "/" d))
      as (b1 & b & -> & E2 & Hb); [lia|]. cbn [mbind option_bind]. rewrite E2. cbn [mbind option_bind].
    destruct (cut_port_ok b hst op port0 Hn Hc Hb Hp) as (host' & -> & He). by exists host', dbname.
  - rewrite str_app_nil_r, split_at_none by done. destruct op as [n|]; cbn [port_text] in *.
    + change (hst +:+ ":" +:+ pretty n) with (hst +:+ String ":" (pretty n)) in *.
      rewrite split_at_fresh by done.
      destruct (copy_prefix (char_array field_buf host0) hst (String ":" (pretty n)))
        as (b1 & b & -> & E2 & Hb); [rewrite str_length_app in Hlen; lia|].
      cbn [mbind option_bind]. rewrite E2. cbn [mbind option_bind]. rewrite atoi_pretty by done. by eexists _, _.
    + rewrite str_app_nil_r in *. rewrite split_at_none by done.
      destruct (copy_field host0 hst H0 Hlen) as (b & -> & Hb & _). by eexists _, _.
Qed.

(** The text splits at the [@], and the rest is host, port and database. *)
Definition show_tail (p : dsn_parts) : string := dp_host p +:+ show_port p +:+ show_dbname p.

Lemma show_tail_split p :
  show_tail p = (dp_host p +:+ port_text (dp_port p)) +:+
    match dp_dbname p with Some d => "/" +:+ d | None => "" end.
Proof. unfold show_tail. by rewrite str_app_assoc. Qed.

Lemma port_free p :
  match dp_port p with Some n => 0 <= n < 2 ^ 31 | None => True end ->
  free_of ["/"; "@"]%char (show_port p).
Proof. intros Hp. unfold free_of. rewrite !Forall_cons. repeat split; try done; by apply port_digits. Qed.

Lemma tail_no_nul p : parts_ok p -> no_nul (show_tail p) = true.
Proof.
  intros [_ [Hh _] _ Hp Hd _]. unfold show_tail. rewrite !no_nul_app, (free_no_nul _ _ Hh).
  rewrite (free_no_nul _ _ (port_free p Hp)). unfold show_dbname.
  destruct (dp_dbname p) as [d|]; [|done]. destruct Hd as [Hd _]. rewrite no_nul_app.
  by rewrite (free_no_nul _ _ Hd).
Qed.

Lemma dsn_no_nul p : parts_ok p -> no_nul (show_dsn p) = true.
Proof.
  intros Hok. change (show_dsn p) with (show_auth p +:+ show_tail p).
  rewrite no_nul_app, tail_no_nul by done. destruct Hok as [Ha _ _ _ _ _]. unfold show_auth.
  destruct (dp_auth p) as [[u [pw|]]|]; [| |done].
  - destruct Ha as (Hu & _ & Hpw & _).
    by rewrite !no_nul_app, (free_no_nul _ _ Hu), (free_no_nul _ _ Hpw).
  - destruct Ha as (Hu & _). by rewrite no_nul_app, (free_no_nul _ _ Hu).
Qed.

(** The whole of the part before the [@], when there is one. *)
Lemma split_auth user0 p :
  (String.length user0 < field_buf)%nat -> parts_ok p ->
  exists user pass,
    match split_at "@" (show_dsn p) with
    | Some (l, r) =>
        '(user, pass) ← copy_credentials (char_array field_buf user0) (char_array field_buf "") l;
        Some (user, pass, r)
    | None => Some (char_array field_buf user0, char_array field_buf "", show_dsn p)
    end = Some (user, pass, show_tail p) /\
    ends user match dp_auth p with
              | Some (u, Some _) => u +:+ str_drop (String.length u) user0
              | Some (u, None) => u
              | None => user0
              end /\
    ends pass match dp_auth p with Some (_, Some pw) => pw | _ => "" end.
Proof.
  intros H0 [Ha Hh _ Hp _ _]. change (show_dsn p) with (show_auth p +:+ show_tail p).
  unfold show_auth. destruct (dp_auth p) as [[u opw]|].
  - destruct Ha as (Hu & Hlu & Hpw). pose proof (free_count _ "@"%char _ Hu ltac:(listed)) as Hcu.
    destruct (copy_credentials_ok user0 u opw H0 Hu Hlu Hpw) as (user & pass & E & Hus & Hps).
    exists user, pass. split; [|by destruct opw].
    assert (Hs : match opw with Some pw => u +:+ ":" +:+ pw +:+ "@" | None => u +:+ "@" end +:+ show_tail p =
      match opw with Some pw => u +:+ ":" +:+ pw | None => u end +:+ String "@" (show_tail p)).
    { destruct opw as [pw|]; by rewrite <- !str_app_assoc. }
    rewrite Hs, split_at_fresh, E; [done|]. destruct opw as [pw|]; [|done]. destruct Hpw as [Hpw _].
    rewrite !str_count_app, Hcu, (free_count _ "@"%char _ Hpw) by listed. done.
  - exists (char_array field_buf user0), (char_array field_buf "").
    cbn [append String.append]. rewrite split_at_none.
    + split; [done|]. split; apply char_array_ends; [done|unfold field_buf; cbn; lia].
    + unfold show_tail. pose proof (free_count _ "@"%char _ Ha ltac:(listed)) as Hc.
      rewrite !str_count_app in *. rewrite (free_count _ "@"%char _ (port_free p Hp)) by listed.
      lia.
Qed.

Lemma no_nul_drop_end user0 u :
  no_nul u = true -> no_nul user0 = true -> no_nul (u +:+ str_drop (String.length u) user0) = true.
Proof.
  intros Hu H0. rewrite no_nul_app, Hu. cbn [andb]. generalize (String.length u) as n. clear Hu.
  induction user0 as [|c s IH]; intros n; [by destruct n|]. cbn in H0. apply andb_true_iff in H0 as [Hc H0].
  destruct n as [|n]; cbn; [by rewrite Hc, H0|by apply IH].
Qed.

(** C39: the DSN parsers of the MySQL and PostgreSQL drivers invert the notation
    [[user[:pass]@]host[:port][/dbname]]: whatever parts are given, and as long
    as they fit the fixed buffers, exactly these are found and the others take
    their defaults, without any access out of bounds.  A user given with a
    password is copied over the default user without an end, so what is longer
    of the default - "root" for MySQL - stays behind it. *)
Theorem server_dsn_roundtrip user0 host0 port0 p :
  (user0, host0, port0) ∈ [("root", "127.0.0.1", 3306); ("", "localhost", 5432)] ->
  parts_ok p -> parse_server user0 host0 port0 (show_dsn p) = Some (expected user0 port0 p).
Proof.
  intros Hin Hok.
  assert (Hd : (String.length user0 < field_buf)%nat /\ (String.length host0 < field_buf)%nat /\
    no_nul user0 = true).
  { rewrite !elem_of_cons, elem_of_nil in Hin. unfold field_buf.
    destruct Hin as [[= -> -> ->]|[[= -> -> ->]|[]]]; cbn; repeat split; lia. }
  destruct Hd as (Hlu & Hlh & Hnu). unfold parse_server.
  destruct (strncpy_pad (char_array_uninit dsn_buf) (show_dsn p) (dsn_buf - 1) (po_length p Hok))
    as (buf & -> & Hbuf & _); [unfold char_array_uninit; rewrite length_replicate; lia|].
  cbn [mbind option_bind]. rewrite (ends_read _ _ (dsn_no_nul p Hok) Hbuf). cbn [mbind option_bind].
  destruct (split_auth user0 p Hlu Hok) as (user & pass & -> & Hus & Hps). cbn [mbind option_bind].
  pose proof (tail_no_nul p Hok) as Htl. destruct Hok as [Ha [Hh Hne] Hlen Hp Hdb _].
  pose proof (port_free p Hp) as Hpf. change (show_port p) with (port_text (dp_port p)) in *.
  assert (Hnd : no_nul (default "" (dp_dbname p)) = true).
  { destruct (dp_dbname p) as [d|]; [|done]. exact (free_no_nul _ _ (proj1 Hdb)). }
  assert (Hsl : str_count "/" (dp_host p +:+ port_text (dp_port p)) = 0).
  { rewrite str_count_app, (free_count _ "/"%char _ Hh) by listed.
    by rewrite (free_count _ "/"%char _ Hpf) by listed. }
  rewrite show_tail_split in *. rewrite no_nul_app in Htl. apply andb_true_iff in Htl as [Hn _].
  destruct (copy_host_ok host0 port0 (dp_host p) (dp_port p) (dp_dbname p) Hlh Hn
    (free_count _ ":"%char _ Hh ltac:(listed)) Hne Hsl Hlen) as (host & dbname & -> & Hho & Hdn).
  { destruct (dp_port p); [unfold in_i32; lia|done]. }
  { destruct (dp_dbname p); [apply Hdb|done]. }
  cbn [mbind option_bind]. unfold expected.
  rewrite (ends_read _ _ Hnd Hdn), (ends_read _ _ (free_no_nul _ _ Hh) Hho).
  destruct (dp_auth p) as [[u [pw|]]|].
  - destruct Ha as (Hu & _ & Hpw & _).
    rewrite (ends_read _ _ (no_nul_drop_end user0 u (free_no_nul _ _ Hu) Hnu) Hus).
    by rewrite (ends_read _ _ (free_no_nul _ _ Hpw) Hps).
  - destruct Ha as (Hu & _). rewrite (ends_read _ _ (free_no_nul _ _ Hu) Hus).
    by rewrite (ends_read _ "" eq_refl Hps).
  - by rewrite (ends_read _ _ Hnu Hus), (ends_read _ "" eq_refl Hps).
Qed.

Lemma server_dsn_roundtrip_witness :
  let p := DsnParts (Some ("bob", Some "pw")) "localhost" (Some 3307) (Some "shop") in
  parts_ok p /\
  show_dsn p = "bob:pw@localhost:3307/shop" /\
  parse_server "root" "127.0.0.1" 3306 (show_dsn p) = Some (Server "bobt" "pw" "localhost" 3307 "shop").
Proof.
  intros p.
  assert (Hok : parts_ok p).
  { split; vm_compute; repeat split; try lia; try done; by repeat constructor. }
  split; [exact Hok|]. split; [vm_compute; reflexivity|].
  apply (server_dsn_roundtrip "root" "127.0.0.1" 3306 p); [by left|exact Hok].
Defined.
