(* ===== verification/Model.v ===== *)
(** * Models ([src/model.c], [include/corm/model.h])

    Field descriptors, model validation, the registry of models, and the
    transfer of values between a record and a [corm_value_t]. *)

From S2P Require Import Prelude Types Mem Hash Float.

(** ** Data *)

Record field : Type := Field {
  f_name : option string;
  f_type : corm_field_type;
  f_offset : Z;
  f_size : Z;
  f_flags : Z;
  f_default_value : option string;
  f_fk_ref : option string
}.

(** A hook gets the record (possibly NULL) and may change memory and the
    database. *)
Definition hook (S : Type) : Type := option recptr -> M S corm_err.

(** [corm_relation_type_t] and [corm_relation_t]; no function uses them yet. *)
Inductive corm_relation_type : Set :=
  | CORM_REL_HAS_ONE
  | CORM_REL_HAS_MANY
  | CORM_REL_BELONGS_TO.

Record corm_relation : Set := Relation {
  rel_name : option string;
  rel_type : corm_relation_type;
  rel_target_table : option string;
  rel_foreign_key : option string
}.

Record model (S : Type) : Type := Model {
  m_table_name : option string;
  m_struct_size : Z;
  m_fields : option (list field);
  m_field_count : Z;
  m_primary_key : option field;
  m_before_create : option (hook S);
  m_after_create : option (hook S);
  m_before_update : option (hook S);
  m_after_update : option (hook S);
  m_before_delete : option (hook S);
  m_after_delete : option (hook S);
  m_after_find : option (hook S)
}.
Arguments Model {S}.
Arguments m_table_name {S}.
Arguments m_struct_size {S}.
Arguments m_fields {S}.
Arguments m_field_count {S}.
Arguments m_primary_key {S}.
Arguments m_before_create {S}.
Arguments m_after_create {S}.
Arguments m_before_update {S}.
Arguments m_after_update {S}.
Arguments m_before_delete {S}.
Arguments m_after_delete {S}.
Arguments m_after_find {S}.

(** The descriptors [fields[0 .. field_count)] a loop visits; [None]: the array
    is shorter than [field_count] says. *)
Definition model_fields {S} (m : model S) : option (list field) :=
  if m_field_count m <=? 0 then Some []
  else
    fs ← m_fields m;
    if m_field_count m <=? Z.of_nat (length fs)
    then Some (take (Z.to_nat (m_field_count m)) fs) else None.

(** ** Validation *)

(** The inner loop: a later field of the same name. *)
Definition dup_after (name : string) (fs : list field) : bool :=
  existsb (fun f2 => match f_name f2 with
                     | Some n => String.eqb name n
                     | None => false
                     end) fs.

Fixpoint validate_fields (fs : list field) : corm_err :=
  match fs with
  | [] => CORM_OK
  | f1 :: fs' =>
      match f_name f1 with
      | Some n =>
          if negb (corm_is_valid_identifier (Some n)) then CORM_ERR_TYPE
          else if dup_after n fs' then CORM_ERR_DUP
          else validate_fields fs'
      | None => CORM_ERR_TYPE
      end
  end.

Definition corm_validate_model {S T} (mo : option (model S)) : M T corm_err :=
  match mo with
  | None => mret CORM_ERR_NULL
  | Some m =>
      if is_null (m_table_name m) || (m_field_count m <=? 0) || is_null (m_fields m)
      then mret CORM_ERR_NULL
      else if negb (corm_is_valid_identifier (m_table_name m)) then mret CORM_ERR_TYPE
      else if m_struct_size m =? 0 then mret CORM_ERR_BOUNDS
      else fs ← deref (model_fields m); mret (validate_fields fs)
  end.

(** ** The registry *)

Record registry (S : Type) : Type := Registry {
  models_by_table : hash (model S);
  models_by_name : hash (model S)
}.
Arguments Registry {S}.
Arguments models_by_table {S}.
Arguments models_by_name {S}.

Definition registry_zero {S} : registry S := Registry (Hash [] 0 0) (Hash [] 0 0).

Definition corm_model_registry_init {S T} (reg : registry S) :
    M T (corm_err * registry S) :=
  '(err, t) ← corm_hash_init 32 (models_by_table reg);
  if is_err err then mret (err, Registry t (models_by_name reg))
  else
    '(err, n) ← corm_hash_init 32 (models_by_name reg);
    if is_err err then mret (err, Registry (corm_hash_free t) n)
    else mret (CORM_OK, Registry t n).

Definition corm_model_registry_free {S} (reg : registry S) : registry S :=
  Registry (corm_hash_free (models_by_table reg)) (corm_hash_free (models_by_name reg)).

(** [db] is seen through its registry; [None] is a NULL handle. *)
Definition corm_register_model {S T} (db : option (registry S)) (mo : option (model S)) :
    M T (corm_err * option (registry S)) :=
  match db, mo with
  | Some reg, Some m =>
      err ← corm_validate_model mo;
      if is_err err then mret (err, db)
      else
        name ← deref (m_table_name m);
        '(err, t) ← corm_hash_insert (models_by_table reg) name m;
        mret (err, Some (Registry t (models_by_name reg)))
  | _, _ => mret (CORM_ERR_NULL, db)
  end.

Definition corm_find_model {S T} (db : registry S) (table_name : string) :
    M T (option (model S)) :=
  corm_hash_find (models_by_table db) table_name.

Fixpoint find_field_in {T} (fs : list field) (field_name : string) : M T (option field) :=
  match fs with
  | [] => mret None
  | f :: fs' =>
      n ← deref (f_name f);
      if String.eqb n field_name then mret (Some f) else find_field_in fs' field_name
  end.

Definition corm_find_field {S T} (m : model S) (field_name : string) : M T (option field) :=
  fs ← deref (model_fields m);
  find_field_in fs field_name.

(** ** Record access *)

(** [*(type * )((uint8_t * )record + off)]. *)
Definition load_cell {S} (r : recptr) (off : Z) : M S cell := fun w =>
  match heap_rec (w_heap w) r with
  | Some c => deref (c !! off) w
  | None => Stuck
  end.

Definition store_cell {S} (r : recptr) (off : Z) (c : cell) : M S unit := fun w =>
  match w_heap w !! (fst r) with
  | Some (BRecs rs) =>
      match rs !! (snd r) with
      | Some old =>
          match old !! off with
          | Some _ => store (fst r) (BRecs (<[snd r := <[off := c]> old]> rs)) w
          | None => Stuck
          end
      | None => Stuck
      end
  | _ => Stuck
  end.

Definition corm_field_get_value {S} (record : recptr) (f : field) : M S corm_value :=
  let val u := Value (f_type f) false u in
  match f_type f with
  | CORM_INT =>
      c ← load_cell record (f_offset f);
      match c with CInt z => mret (val (UInt z)) | _ => stuck end
  | CORM_INT64 =>
      c ← load_cell record (f_offset f);
      match c with CInt64 z => mret (val (UInt z)) | _ => stuck end
  | CORM_FLOAT =>
      c ← load_cell record (f_offset f);
      match c with CFloat b => mret (val (UDbl (f32_to_f64 b))) | _ => stuck end
  | CORM_DOUBLE =>
      c ← load_cell record (f_offset f);
      match c with CDouble b => mret (val (UDbl b)) | _ => stuck end
  | CORM_STRING => mret (val (UStr (PField (fst record) (snd record) (f_offset f))))
  | CORM_TEXT =>
      c ← load_cell record (f_offset f);
      match c with CPtr p => mret (val (UStr p)) | _ => stuck end
  | CORM_BOOL =>
      c ← load_cell record (f_offset f);
      match c with CBool b => mret (val (UBool b)) | _ => stuck end
  | CORM_BLOB =>
      mret (val (UBlob (PField (fst record) (snd record) (f_offset f)) (f_size f)))
  end.

(** [strncpy(dst, s, n)] on an array: [s] or its first [n] bytes, padded with
    NULs to [n]. *)
Definition strncpy_bytes (s : string) (n : nat) : list ascii :=
  let bs := take n (list_ascii_of_string s) in bs ++ replicate (n - length bs) NUL.

Definition corm_field_set_value {S} (record : recptr) (f : field) (v : corm_value) :
    M S unit :=
  let ptr := f_offset f in
  c ← load_cell record ptr;
  match f_type f, c with
  | CORM_INT, CInt _ =>
      i ← deref (u_as_i (v_u v)); store_cell record ptr (CInt (wrap_i32 i))
  | CORM_INT64, CInt64 _ =>
      i ← deref (u_as_i (v_u v)); store_cell record ptr (CInt64 i)
  | CORM_FLOAT, CFloat _ =>
      b ← deref (u_as_f (v_u v)); store_cell record ptr (CFloat (f64_to_f32 b))
  | CORM_DOUBLE, CDouble _ =>
      b ← deref (u_as_f (v_u v)); store_cell record ptr (CDouble b)
  | CORM_STRING, CChars bs =>
      s ← deref (u_as_s (v_u v));
      if negb (bool_decide (s = PNull)) && (0 <? f_size f) then
        let n := Z.to_nat (f_size f) in
        if decide (n <= length bs)%nat then
          text ← read_str s;
          store_cell record ptr (CChars (strncpy_bytes text (n - 1) ++ [NUL] ++ drop n bs))
        else stuck
      else mret tt
  | CORM_TEXT, CPtr old =>
      s ← deref (u_as_s (v_u v));
      new ← (if bool_decide (s = PNull) then mret PNull else strdup s);
      store_cell record ptr (CPtr new);;
      free old
  | CORM_BOOL, CBool _ =>
      b ← deref (u_as_b (v_u v)); store_cell record ptr (CBool b)
  | CORM_BLOB, CBytes bs =>
      '(p, n) ← deref (u_as_blob (v_u v));
      if negb (bool_decide (p = PNull)) && (n <=? f_size f) then
        if decide (Z.to_nat n <= length bs)%nat then
          data ← read_blob p n;
          store_cell record ptr (CBytes (data ++ drop (Z.to_nat n) bs))
        else stuck
      else mret tt
  | _, _ => stuck
  end.

(** ** Validation: what an accepted model satisfies *)

Definition field_name_ok (f : field) : Prop :=
  corm_is_valid_identifier (f_name f) = true.

(** The fields are named by distinct identifiers. *)
Definition valid_fields (fs : list field) : Prop :=
  Forall field_name_ok fs /\ NoDup (map f_name fs).

Definition valid_model {S} (m : model S) : Prop :=
  corm_is_valid_identifier (m_table_name m) = true /\
  0 < m_field_count m /\ m_struct_size m <> 0 /\
  exists fs, model_fields m = Some fs /\ valid_fields fs.

Lemma dup_after_spec n fs : dup_after n fs = true <-> Some n ∈ map f_name fs.
Proof.
  unfold dup_after. rewrite existsb_exists. rewrite list_elem_of_In, in_map_iff. split.
  - intros (f & Hin & Hf). destruct (f_name f) as [m|] eqn:E; [|done].
    apply String.eqb_eq in Hf as ->. eauto.
  - intros (f & Hf & Hin). exists f. split; [done|]. rewrite Hf. apply String.eqb_refl.
Qed.

Lemma validate_fields_ok fs : validate_fields fs = CORM_OK <-> valid_fields fs.
Proof.
  unfold valid_fields. induction fs as [|f fs IH]; simpl.
  { split; [by repeat constructor|done]. }
  rewrite Forall_cons, NoDup_cons. unfold field_name_ok at 1.
  destruct (f_name f) as [n|]; [|split; [done|by intros [[? _] _]]].
  destruct (corm_is_valid_identifier (Some n)) eqn:Ev; cbn [negb];
    [|split; [done|by intros [[? _] _]]].
  pose proof (dup_after_spec n fs) as Hd. destruct (dup_after n fs).
  - split; [done|]. intros [_ [Hn _]]. by destruct Hn; apply Hd.
  - rewrite IH. split; [|tauto]. intros [? ?]. split; [tauto|]. split; [|done].
    by intros ?%Hd.
Qed.

Lemma model_fields_bound {S} (m : model S) fs :
  model_fields m = Some fs -> 0 < m_field_count m ->
  Z.of_nat (length fs) = m_field_count m /\ exists all, m_fields m = Some all.
Proof.
  unfold model_fields. destruct (Z.leb_spec (m_field_count m) 0); [lia|].
  destruct (m_fields m) as [all|]; simpl; [|done].
  destruct (Z.leb_spec (m_field_count m) (Z.of_nat (length all))); intros ? ?; simplify_eq.
  rewrite length_take. split; [lia|eauto].
Qed.

(** The array is at least as long as [field_count] says. *)
Definition fields_in_bounds {S} (m : model S) : Prop :=
  m_fields m = None \/ is_Some (model_fields m).

Lemma validate_spec {S T} (m : model S) (w : world T) :
  fields_in_bounds m ->
  exists e, corm_validate_model (Some m) w = Ret e w /\ (e = CORM_OK <-> valid_model m).
Proof.
  intros Hb. unfold corm_validate_model, valid_model.
  destruct (m_table_name m) as [tn|]; [|eexists; split; [done|]; by split; [|intros [? _]]].
  cbn [is_null orb].
  destruct (Z.leb_spec (m_field_count m) 0); cbn [orb].
  { eexists; split; [done|]. split; [done|]. intros (_ & ? & _). lia. }
  destruct (m_fields m) as [all|] eqn:Ef.
  2:{ eexists; split; [done|]. split; [done|]. intros (_ & ? & _ & fs & Hfs & _).
      unfold model_fields in Hfs. rewrite Ef in Hfs.
      destruct (Z.leb_spec (m_field_count m) 0); [lia|done]. }
  destruct Hb as [?|[fs Hfs]]; [congruence|].
  cbn [is_null orb].
  destruct (corm_is_valid_identifier (Some tn)) eqn:Et; cbn [negb];
    [|eexists; split; [done|]; by split; [|intros [? _]]].
  destruct (Z.eqb_spec (m_struct_size m) 0) as [Hz|].
  { eexists; split; [done|]. split; [done|]. by intros (_ & _ & ? & _). }
  rewrite Hfs. run. eexists; split; [done|].
  rewrite validate_fields_ok. split; [intros ?; eauto 10|].
  intros (_ & _ & _ & fs' & ? & ?). by simplify_eq.
Qed.

Lemma valid_model_fields {S} (m : model S) :
  valid_model m -> exists fs, model_fields m = Some fs /\ valid_fields fs /\ fs <> [].
Proof.
  intros (_ & Hc & _ & fs & Hfs & Hv). exists fs. split; [done|]. split; [done|].
  intros ->. destruct (model_fields_bound m [] Hfs Hc). simpl in *. lia.
Qed.

(** ** Lookup *)

Lemma find_field_in_spec {T} (fs : list field) n (w : world T) :
  Forall field_name_ok fs ->
  exists r, find_field_in fs n w = Ret r w /\
    match r with
    | Some f => f ∈ fs /\ f_name f = Some n
    | None => Some n ∉ map f_name fs
    end.
Proof.
  induction fs as [|f fs IH]; simpl; intros Hv.
  { exists None. split; [done|]. apply not_elem_of_nil. }
  apply Forall_cons in Hv as [Hf Hv].
  apply valid_identifier_inv in Hf as (s & Hs & _ & _). rewrite Hs. run.
  destruct (String.eqb_spec s n) as [->|Hne].
  - exists (Some f). split; [done|]. split; [apply list_elem_of_here|done].
  - destruct (IH Hv) as (r & -> & Hr). exists r. split; [done|].
    destruct r as [f'|].
    + destruct Hr. split; [by apply list_elem_of_further|done].
    + rewrite elem_of_cons. intros [[= ->]|?]; auto.
Qed.

(** ** Record access *)

Lemma load_cell_ok {S} r off rc c (w : world S) :
  heap_rec (w_heap w) r = Some rc -> rc !! off = Some c -> load_cell r off w = Ret c w.
Proof. unfold load_cell. by intros -> ->. Qed.

(** Writing a member: the record gets the new cell and nothing else moves. *)
Lemma store_cell_ok {S} r off rc old c (w : world S) :
  heap_rec (w_heap w) r = Some rc -> rc !! off = Some old ->
  exists w', store_cell r off c w = Ret tt w' /\
    heap_rec (w_heap w') r = Some (<[off := c]> rc) /\
    (forall l, l <> fst r -> w_heap w' !! l = w_heap w !! l) /\
    w_oracle w' = w_oracle w /\ w_next w' = w_next w /\ w_db w' = w_db w.
Proof.
  unfold heap_rec, store_cell, store. intros Hr Hc.
  destruct (w_heap w !! fst r) as [[]|] eqn:E; try done.
  rewrite Hr, Hc. eexists. split; [done|]. simpl.
  rewrite lookup_insert_eq. split.
  { apply list_lookup_insert_eq. by eapply lookup_lt_Some. }
  split; [|done]. intros l Hl. by rewrite lookup_insert_ne.
Qed.

Lemma cstr_of_strncpy s n rest :
  no_nul s = true ->
  cstr_of_bytes (strncpy_bytes s n ++ NUL :: rest) = Some (str_take n s).
Proof.
  unfold strncpy_bytes. revert s. induction n as [|n IH]; intros s Hs; simpl; [done|].
  destruct s as [|c s]; simpl in *; [done|].
  apply andb_prop in Hs as [Hc Hs]. destruct (Ascii.eqb c NUL); [done|].
  specialize (IH s Hs). simpl in IH. by rewrite IH.
Qed.

Lemma strncpy_bytes_length s n : length (strncpy_bytes s n) = n.
Proof.
  unfold strncpy_bytes. rewrite length_app, length_replicate, length_take. lia.
Qed.

(** The union member a type selects. *)
Inductive umember : Type := MInt | MDbl | MStr | MBlob | MBool.

Definition member_of (t : corm_field_type) : umember :=
  match t with
  | CORM_INT | CORM_INT64 => MInt
  | CORM_FLOAT | CORM_DOUBLE => MDbl
  | CORM_STRING | CORM_TEXT => MStr
  | CORM_BLOB => MBlob
  | CORM_BOOL => MBool
  end.

(** The struct member behind a descriptor has the declared type and size; a
    [char *] member is NULL or owns a heap block. *)
Definition cell_fits (h : gmap loc block) (r : recptr) (f : field) (c : cell) : Prop :=
  match f_type f, c with
  | CORM_INT, CInt _ | CORM_INT64, CInt64 _ | CORM_FLOAT, CFloat _
  | CORM_DOUBLE, CDouble _ | CORM_BOOL, CBool _ => True
  | CORM_STRING, CChars bs => 0 < f_size f /\ Z.of_nat (length bs) = f_size f
  | CORM_TEXT, CPtr p =>
      p = PNull \/ exists l, p = PHeap l /\ is_Some (h !! l) /\ l <> fst r
  | CORM_BLOB, CBytes bs => Z.of_nat (length bs) = f_size f
  | _, _ => False
  end.

(** What the member holds after [x] was stored in it; [None]: [x] does not fit
    (a BLOB must have the member's size to be read back as it is). *)
Definition coerce (f : field) (x : sqlval) : option sqlval :=
  match f_type f, x with
  | CORM_INT, SInt z => Some (SInt (wrap_i32 z))
  | CORM_INT64, SInt z => Some (SInt z)
  | CORM_FLOAT, SDbl b => Some (SDbl (f32_to_f64 (f64_to_f32 b)))
  | CORM_DOUBLE, SDbl b => Some (SDbl b)
  | CORM_STRING, SText s =>
      if no_nul s then Some (SText (str_take (Z.to_nat (f_size f) - 1) s)) else None
  | CORM_TEXT, SText s => Some (SText s)
  | CORM_BOOL, SBool b => Some (SBool b)
  | CORM_BLOB, SBlob bs =>
      if Z.of_nat (length bs) =? f_size f then Some (SBlob bs) else None
  | _, _ => None
  end.

(** The members other than [off] of record [r], and every other block except
    those the member owned. *)
Definition others_kept {S} (r : recptr) (off : Z) (rc : rec) (w w' : world S) : Prop :=
  (exists rc', heap_rec (w_heap w') r = Some rc' /\
     forall o, o <> off -> rc' !! o = rc !! o) /\ w_db w' = w_db w.

Section field_access.
Context {S : Type}.
Implicit Types w : world S.

(** Writing a scalar cell and reading the record back. *)
Lemma set_scalar r f rc old c x w :
  heap_rec (w_heap w) r = Some rc -> rc !! f_offset f = Some old ->
  (forall w', heap_rec (w_heap w') r = Some (<[f_offset f := c]> rc) ->
     exists v', corm_field_get_value r f w' = Ret v' w' /\ resolve (w_heap w') v' = Some x) ->
  exists w', store_cell r (f_offset f) c w = Ret tt w' /\
    others_kept r (f_offset f) rc w w' /\
    exists v', corm_field_get_value r f w' = Ret v' w' /\ resolve (w_heap w') v' = Some x.
Proof.
  intros Hr Ho Hget. destruct (store_cell_ok r _ rc old c w Hr Ho)
    as (w' & E & Hr' & _ & _ & _ & Hd).
  exists w'. split; [done|]. split; [|eauto]. split; [|done].
  eexists. split; [exact Hr'|]. intros o Hne. by rewrite lookup_insert_ne.
Qed.

Lemma read_blob_ok p n bs w :
  read_bytes (w_heap w) p n = Some bs -> read_blob p n w = Ret bs w.
Proof. unfold read_blob. by intros ->. Qed.

Lemma read_str_ok p s w :
  read_cstr (w_heap w) p = Some s -> read_str p w = Ret s w.
Proof. unfold read_str. by intros ->. Qed.

(** [strdup] with memory available: a new block holding the string. *)
Lemma strdup_ok p s w :
  plenty w -> heap_wf w -> read_cstr (w_heap w) p = Some s ->
  exists w', strdup p w = Ret (PHeap (w_next w)) w' /\ plenty w' /\ heap_wf w' /\
    w_heap w' = <[w_next w := BStr s]> (w_heap w) /\ w_next w' = Pos.succ (w_next w) /\
    w_db w' = w_db w.
Proof.
  intros Hp Hwf Hs. unfold strdup. run_with (read_str_ok p s w Hs).
  unfold malloc. rewrite bind_assoc. run_with (malloc_ok_plenty w Hp).
  eexists. split; [done|]. split; [done|]. split; [|done].
  intros l. simpl. destruct (decide (l = w_next w)) as [->|Hne]; [lia|].
  rewrite lookup_insert_ne by done. intros Hl. pose proof (Hwf l Hl). lia.
Qed.

Lemma take_bytes_all n bs : Z.of_nat (length bs) = n -> take_bytes n bs = Some bs.
Proof.
  intros <-. unfold take_bytes. rewrite Z.leb_refl, (proj2 (Z.leb_le 0 _)) by lia. simpl.
  by rewrite take_ge by lia.
Qed.

(** Reading back, for each kind of member whose value is in the cell. *)
Lemma get_after r f rc c w :
  heap_rec (w_heap w) r = Some rc -> rc !! f_offset f = Some c ->
  forall x,
    match f_type f, c with
    | CORM_INT, CInt z | CORM_INT64, CInt64 z => x = SInt z
    | CORM_FLOAT, CFloat b => x = SDbl (f32_to_f64 b)
    | CORM_DOUBLE, CDouble b => x = SDbl b
    | CORM_BOOL, CBool b => x = SBool b
    | CORM_STRING, CChars bs => exists s, cstr_of_bytes bs = Some s /\ x = SText s
    | CORM_TEXT, CPtr p =>
        exists s, p <> PNull /\ read_cstr (w_heap w) p = Some s /\ x = SText s
    | CORM_BLOB, CBytes bs => Z.of_nat (length bs) = f_size f /\ x = SBlob bs
    | _, _ => False
    end ->
    exists v', corm_field_get_value r f w = Ret v' w /\ resolve (w_heap w) v' = Some x.
Proof.
  intros Hr Hc x Hx. unfold corm_field_get_value, resolve.
  pose proof (load_cell_ok r _ rc c w Hr Hc) as Hl. destruct r as [l i].
  destruct (f_type f); destruct c; try done;
    try (run_with Hl; subst x; by eexists).
  - destruct Hx as (s & Hs & ->). eexists. split; [done|]. simpl.
    rewrite Hr. simpl. by rewrite Hc, Hs.
  - destruct Hx as (s & Hn & Hs & ->). run_with Hl. eexists. split; [done|].
    simpl. by rewrite decide_False, Hs.
  - destruct Hx as (Hn & ->). eexists. split; [done|]. simpl.
    rewrite Hr. simpl. by rewrite Hc, (take_bytes_all _ _ Hn).
Qed.

Lemma resolve_inv h v x :
  resolve h v = Some x -> x <> SNull ->
  match member_of (v_type v) with
  | MInt => exists z, u_as_i (v_u v) = Some z /\ x = SInt z
  | MDbl => exists b, u_as_f (v_u v) = Some b /\ x = SDbl b
  | MStr => exists p s, u_as_s (v_u v) = Some p /\ p <> PNull /\
              read_cstr h p = Some s /\ x = SText s
  | MBlob => exists p n bs, u_as_blob (v_u v) = Some (p, n) /\ p <> PNull /\
              read_bytes h p n = Some bs /\ x = SBlob bs
  | MBool => exists b, u_as_b (v_u v) = Some b /\ x = SBool b
  end.
Proof.
  unfold resolve. intros H Hn. destruct (v_is_null v); [congruence|].
  destruct (v_type v); simpl;
    try (destruct (u_as_i (v_u v)); simplify_eq/=; eauto; fail);
    try (destruct (u_as_f (v_u v)); simplify_eq/=; eauto; fail);
    try (destruct (u_as_b (v_u v)); simplify_eq/=; eauto; fail).
  1, 2: destruct (u_as_s (v_u v)) as [p|]; simplify_eq/=; case_decide; simplify_eq;
        destruct (read_cstr h p) as [s|] eqn:E; simplify_eq/=; eauto 10.
  destruct (u_as_blob (v_u v)) as [[p n]|]; simplify_eq/=; case_decide; simplify_eq.
  destruct (read_bytes h p n) as [bs|] eqn:E; simplify_eq/=; eauto 10.
Qed.

Lemma take_bytes_length n all bs : take_bytes n all = Some bs -> Z.of_nat (length bs) = n.
Proof.
  unfold take_bytes. destruct (_ && _) eqn:E; [|done]. intros [= <-].
  apply andb_prop in E as [?%Z.leb_le ?%Z.leb_le]. rewrite length_take. lia.
Qed.

(** The length of a blob is a [size_t]. *)
Lemma read_bytes_size h p n bs : read_bytes h p n = Some bs -> Z.of_nat (length bs) = n.
Proof.
  destruct p as [|l|l i off|]; simpl; try done.
  - destruct (h !! l) as [[]|]; try done. apply take_bytes_length.
  - unfold mbind, option_bind. destruct (heap_rec h (l, i)) as [rc|]; [|done].
    destruct (rc !! off) as [[]|]; try done. apply take_bytes_length.
Qed.

Lemma read_bytes_length h p n bs : read_bytes h p n = Some bs -> length bs = Z.to_nat n.
Proof. intros H%read_bytes_size. lia. Qed.

(** A string member keeps what fits its array, terminated. *)
Lemma set_string r f rc bs p s w :
  heap_rec (w_heap w) r = Some rc -> rc !! f_offset f = Some (CChars bs) ->
  f_type f = CORM_STRING -> 0 < f_size f -> Z.of_nat (length bs) = f_size f ->
  no_nul s = true -> read_cstr (w_heap w) p = Some s -> p <> PNull ->
  forall v, u_as_s (v_u v) = Some p ->
  exists w', corm_field_set_value r f v w = Ret tt w' /\
    others_kept r (f_offset f) rc w w' /\
    exists v', corm_field_get_value r f w' = Ret v' w' /\
      resolve (w_heap w') v' = Some (SText (str_take (Z.to_nat (f_size f) - 1) s)).
Proof.
  intros Hr Hc Ht Hsz Hlen Hs Hrd Hp v Hv. unfold corm_field_set_value.
  run_with (load_cell_ok r _ rc _ w Hr Hc). rewrite Ht, Hv. run.
  rewrite bool_decide_false by done. destruct (Z.ltb_spec 0 (f_size f)); [|lia]. simpl.
  rewrite decide_True by lia. run_with (read_str_ok p s w Hrd).
  eapply set_scalar; [done|done|]. intros w' Hr'.
  eapply get_after; [done|apply lookup_insert_eq|]. rewrite Ht.
  eexists. split; [by apply cstr_of_strncpy|done].
Qed.

(** A [char *] member takes a private copy and releases the old one. *)
Lemma set_text r f rc old p s w :
  plenty w -> heap_wf w ->
  heap_rec (w_heap w) r = Some rc -> rc !! f_offset f = Some (CPtr old) ->
  f_type f = CORM_TEXT -> cell_fits (w_heap w) r f (CPtr old) ->
  read_cstr (w_heap w) p = Some s -> p <> PNull ->
  forall v, u_as_s (v_u v) = Some p ->
  exists w', corm_field_set_value r f v w = Ret tt w' /\
    others_kept r (f_offset f) rc w w' /\
    exists v', corm_field_get_value r f w' = Ret v' w' /\
      resolve (w_heap w') v' = Some (SText s).
Proof.
  intros Hpl Hwf Hr Hc Ht Hfit Hrd Hp v Hv. unfold corm_field_set_value.
  run_with (load_cell_ok r _ rc _ w Hr Hc). rewrite Ht, Hv. run.
  rewrite bool_decide_false by done.
  destruct (strdup_ok p s w Hpl Hwf Hrd) as (w1 & E1 & _ & _ & Hh1 & _ & Hd1).
  run_with E1. pose proof (heap_wf_fresh w Hwf) as Hfr.
  assert (Hne : fst r <> w_next w).
  { intros E. unfold heap_rec in Hr. by rewrite E, Hfr in Hr. }
  assert (Hr1 : heap_rec (w_heap w1) r = Some rc).
  { unfold heap_rec in *. by rewrite Hh1, lookup_insert_ne by done. }
  destruct (store_cell_ok r _ rc _ (CPtr (PHeap (w_next w))) w1 Hr1 Hc)
    as (w2 & E2 & Hr2 & Hoth & _ & _ & Hd2). run_with E2.
  assert (Hnew : w_heap w2 !! w_next w = Some (BStr s)).
  { by rewrite Hoth, Hh1, lookup_insert_eq. }
  assert (Hfin : forall w3, heap_rec (w_heap w3) r = heap_rec (w_heap w2) r ->
    w_heap w3 !! w_next w = Some (BStr s) -> w_db w3 = w_db w2 ->
    others_kept r (f_offset f) rc w w3 /\
    exists v', corm_field_get_value r f w3 = Ret v' w3 /\
      resolve (w_heap w3) v' = Some (SText s)).
  { intros w3 Hr3 Hn3 Hd3. rewrite Hr2 in Hr3. split.
    - split; [|congruence]. eexists. split; [exact Hr3|]. intros o Ho.
      by rewrite lookup_insert_ne.
    - eapply get_after; [exact Hr3|apply lookup_insert_eq|]. rewrite Ht.
      exists s. simpl. by rewrite Hn3. }
  unfold cell_fits in Hfit. rewrite Ht in Hfit.
  destruct Hfit as [->|(l & -> & [b Hl] & Hlr)]; simpl.
  - exists w2. split; [done|]. by apply Hfin.
  - assert (l <> w_next w) by congruence. unfold dealloc.
    rewrite Hoth, Hh1, lookup_insert_ne, Hl by done.
    eexists. split; [done|]. apply Hfin; simpl; [|by rewrite lookup_delete_ne|done].
    unfold heap_rec. simpl. by rewrite lookup_delete_ne by done.
Qed.

Lemma set_blob r f rc old p n bs w :
  heap_rec (w_heap w) r = Some rc -> rc !! f_offset f = Some (CBytes old) ->
  f_type f = CORM_BLOB -> Z.of_nat (length old) = f_size f ->
  Z.of_nat (length bs) = f_size f ->
  read_bytes (w_heap w) p n = Some bs -> p <> PNull ->
  forall v, u_as_blob (v_u v) = Some (p, n) ->
  exists w', corm_field_set_value r f v w = Ret tt w' /\
    others_kept r (f_offset f) rc w w' /\
    exists v', corm_field_get_value r f w' = Ret v' w' /\
      resolve (w_heap w') v' = Some (SBlob bs).
Proof.
  intros Hr Hc Ht Hlo Hlb Hrd Hp v Hv. unfold corm_field_set_value.
  run_with (load_cell_ok r _ rc _ w Hr Hc). rewrite Ht, Hv. run.
  pose proof (read_bytes_length _ _ _ _ Hrd) as Hlen.
  rewrite bool_decide_false by done. destruct (Z.leb_spec n (f_size f)); [|lia]. simpl.
  rewrite decide_True by lia. run_with (read_blob_ok p n bs w Hrd).
  eapply set_scalar; [done|done|]. intros w' Hr'.
  eapply get_after; [done|apply lookup_insert_eq|]. rewrite Ht.
  rewrite drop_ge, app_nil_r by lia. done.
Qed.

(** Storing a value and loading the member gives the value back, up to the
    conversion of the member's type; the other members are untouched. *)
Lemma set_get r f rc c v x y w :
  plenty w -> heap_wf w ->
  heap_rec (w_heap w) r = Some rc -> rc !! f_offset f = Some c ->
  cell_fits (w_heap w) r f c -> member_of (v_type v) = member_of (f_type f) ->
  resolve (w_heap w) v = Some x -> coerce f x = Some y ->
  exists w', corm_field_set_value r f v w = Ret tt w' /\
    others_kept r (f_offset f) rc w w' /\
    exists v', corm_field_get_value r f w' = Ret v' w' /\
      resolve (w_heap w') v' = Some y.
Proof.
  intros Hpl Hwf Hr Hc Hfit Hm Hx Hy.
  assert (Hn : x <> SNull) by (intros ->; unfold coerce in Hy; by destruct (f_type f)).
  pose proof (resolve_inv _ _ _ Hx Hn) as Hi. rewrite Hm in Hi.
  destruct (f_type f) eqn:Ht; simpl in Hi; unfold cell_fits in Hfit; rewrite Ht in Hfit;
    unfold coerce in Hy; rewrite Ht in Hy; destruct c; try done.
  5:{ destruct Hi as (p & s & Hv & Hp & Hrd & ->). destruct Hfit.
      destruct (no_nul s) eqn:Hs; simplify_eq. by eapply set_string. }
  5:{ destruct Hi as (q & s & Hv & Hp & Hrd & ->). simplify_eq.
      eapply set_text; try done. unfold cell_fits. by rewrite Ht. }
  5:{ destruct Hi as (p & n & bs' & Hv & Hp & Hrd & ->).
      destruct (Z.eqb_spec (Z.of_nat (length bs')) (f_size f)); simplify_eq.
      by eapply set_blob. }
  all: destruct Hi as (q & Hv & ->); simplify_eq; unfold corm_field_set_value;
    run_with (load_cell_ok r _ rc _ w Hr Hc); rewrite Ht, Hv; run;
    (eapply set_scalar; [done|done|]); intros w' Hr';
    (eapply get_after; [done|apply lookup_insert_eq|]); by rewrite Ht.
Qed.
End field_access.
