(* ===== verification/Backend.v ===== *)
(** * Backends ([include/corm/backend.h], [src/backend/backend.c])

    The virtual table of a driver and the global registry of drivers.  A NULL
    function pointer (the stub drivers have them) is [None]; the connection
    handle is implicit in the world's [w_db]. *)

From S2P Require Import Prelude Types Mem.

(** [*out] of [query] is the address of a result object, [None] for NULL;
    [describe_table] leaves an array of column descriptions, NULL or not, in
    [*out] and its length in [*count], which hold NULL and 0 before the call.
    [escape_string] is told whether [dst] is not NULL and returns its number
    with the text it leaves in [dst]. *)
Record backend (S : Type) : Type := Backend {
  be_name : string;
  be_type : corm_backend_type;
  be_open : option (string -> M S corm_err);
  be_close : option (M S corm_err);
  be_ping : option (M S corm_err);
  be_exec : option (string -> list corm_value -> M S corm_err);
  be_query : option (string -> list corm_value -> M S (corm_err * option loc));
  be_begin : option (M S corm_err);
  be_commit : option (M S corm_err);
  be_rollback : option (M S corm_err);
  be_escape_string : option (bool -> string -> Z -> M S (Z * option string));
  be_last_insert_id : option (M S Z);
  be_rows_affected : option (M S Z);
  be_describe_table : option (string -> M S (corm_err * (option loc * Z)))
}.
Arguments Backend {S}.
Arguments be_name {S}.
Arguments be_type {S}.
Arguments be_open {S}.
Arguments be_close {S}.
Arguments be_ping {S}.
Arguments be_exec {S}.
Arguments be_query {S}.
Arguments be_begin {S}.
Arguments be_commit {S}.
Arguments be_rollback {S}.
Arguments be_escape_string {S}.
Arguments be_last_insert_id {S}.
Arguments be_rows_affected {S}.
Arguments be_describe_table {S}.

(** ** Column descriptions *)

Section columns.
Context {S : Type}.

Definition get_columns (l : loc) : M S (list corm_column_info) :=
  b ← load l;
  match b with BCols cols => mret cols | _ => stuck end.

(** [cols[i]]. *)
Definition column_at (l : loc) (i : nat) : M S corm_column_info :=
  cols ← get_columns l; deref (cols !! i).

(** The loop, from element [i] on. *)
Fixpoint free_columns (l : loc) (i n : nat) : M S unit :=
  match n with
  | O => mret tt
  | Datatypes.S n =>
      c ← column_at l i;
      free (ci_name c);;
      free (ci_type_name c);;
      free (ci_default_value c);;
      free_columns l (Datatypes.S i) n
  end.

Definition corm_column_info_free (cols : option loc) (count : Z) : M S unit :=
  match cols with
  | None => mret tt
  | Some l => free_columns l 0 (Z.to_nat count);; dealloc l
  end.
End columns.

(** ** The registry: [g_backends[0 .. g_backend_count)] *)

(** The states behind a connection in which the functions of a driver may be
    called (for instance: the connection is open). *)
Class Usable {S : Type} (b : backend S) : Type := usable : S -> Prop.
Arguments usable {S} b {_}.

Section registry.
Context {S : Type}.

Definition CORM_MAX_BACKENDS : nat := 8.

(** The loop that replaces the first backend of the given type. *)
Fixpoint replace_backend (g : list (backend S)) (type : corm_backend_type)
    (b : backend S) : option (list (backend S)) :=
  match g with
  | [] => None
  | b' :: g' =>
      if decide (be_type b' = type) then Some (b :: g')
      else r ← replace_backend g' type b; Some (b' :: r)
  end.

Definition corm_register_backend (g : list (backend S)) (type : corm_backend_type)
    (b : backend S) : corm_err * list (backend S) :=
  if decide (CORM_MAX_BACKENDS <= length g)%nat then (CORM_ERR_GENERIC, g)
  else
    match replace_backend g type b with
    | Some g' => (CORM_OK, g')
    | None => (CORM_OK, g ++ [b])
    end.

Fixpoint corm_get_backend (g : list (backend S)) (type : corm_backend_type) :
    option (backend S) :=
  match g with
  | [] => None
  | b :: g' => if decide (be_type b = type) then Some b else corm_get_backend g' type
  end.

(** Every driver registers itself under its own type. *)
Definition register_own (g : list (backend S)) (b : backend S) : list (backend S) :=
  snd (corm_register_backend g (be_type b) b).

(** At most one driver per type. *)
Definition backends_wf (g : list (backend S)) : Prop := NoDup (map be_type g).

Lemma backends_wf_length g : backends_wf g -> (length g <= 3)%nat.
Proof.
  intros H. rewrite <- (length_map be_type).
  assert (Hsub : map be_type g ⊆ [CORM_BACKEND_SQLITE; CORM_BACKEND_MYSQL; CORM_BACKEND_POSTGRES]).
  { intros t _. destruct t; set_solver. }
  apply (submseteq_length _ _ (NoDup_submseteq _ _ H Hsub)).
Qed.

Lemma replace_backend_None g t b :
  replace_backend g t b = None <-> t ∉ map be_type g.
Proof.
  induction g as [|b' g IH]; simpl.
  { split; [intros _; apply not_elem_of_nil|done]. }
  rewrite not_elem_of_cons. case_decide.
  - split; [done|]. by intros [? _].
  - rewrite <- IH. destruct (replace_backend g t b); simpl; [|by split].
    split; [done|]. by intros [_ ?].
Qed.

Lemma replace_backend_Some g t b g' :
  replace_backend g t b = Some g' -> be_type b = t ->
  map be_type g' = map be_type g /\
  forall t', corm_get_backend g' t' = if decide (t' = t) then Some b else corm_get_backend g t'.
Proof.
  intros H <-. revert g' H. induction g as [|b' g IH]; simpl; intros g' H; [done|].
  case_decide as Hb.
  - simplify_eq/=. split; [congruence|]. intros t'.
    repeat case_decide; congruence.
  - destruct (replace_backend g (be_type b) b) as [r|] eqn:E; simplify_eq/=.
    destruct (IH r eq_refl) as [H1 H2]. split; [congruence|]. intros t'.
    rewrite H2. repeat case_decide; congruence.
Qed.

Lemma get_backend_None g t : t ∉ map be_type g -> corm_get_backend g t = None.
Proof.
  induction g as [|b g IH]; simpl; [done|]. intros [Ht Hg]%not_elem_of_cons.
  case_decide; [congruence|auto].
Qed.

Lemma get_backend_snoc g b t :
  corm_get_backend (g ++ [b]) t =
    match corm_get_backend g t with
    | Some b' => Some b'
    | None => if decide (be_type b = t) then Some b else None
    end.
Proof. induction g as [|b' g IH]; simpl; [done|]. by destruct (decide (be_type b' = t)). Qed.

Lemma register_own_spec g b :
  backends_wf g ->
  fst (corm_register_backend g (be_type b) b) = CORM_OK /\
  backends_wf (register_own g b) /\
  forall t, corm_get_backend (register_own g b) t =
    if decide (t = be_type b) then Some b else corm_get_backend g t.
Proof.
  intros Hwf. pose proof (backends_wf_length g Hwf) as Hlen.
  unfold register_own, corm_register_backend, CORM_MAX_BACKENDS.
  rewrite decide_False by lia.
  destruct (replace_backend g (be_type b) b) as [g'|] eqn:E; simpl; (split; [done|]).
  - apply replace_backend_Some in E as [H1 H2]; [|done]. split; [|done].
    unfold backends_wf. by rewrite H1.
  - apply replace_backend_None in E. split.
    + unfold backends_wf. rewrite map_app. apply NoDup_app. split; [done|].
      split; [|by apply NoDup_singleton]. intros t Ht ->%list_elem_of_singleton. done.
    + intros t. rewrite get_backend_snoc. case_decide as Ht.
      * subst. by rewrite get_backend_None, decide_True.
      * rewrite decide_False by congruence. by destruct (corm_get_backend g t).
Qed.

(** The backend a type resolves to: the last one registered for it. *)
Fixpoint last_of (bs : list (backend S)) (t : corm_backend_type) : option (backend S) :=
  match bs with
  | [] => None
  | b :: bs' =>
      match last_of bs' t with
      | Some b' => Some b'
      | None => if decide (be_type b = t) then Some b else None
      end
  end.
End registry.
