(* ===== verification/Query.v ===== *)
(** * The query builder ([src/query.c], [include/corm/query.h])

    The state of a query and its builder operations.  A [corm_query_t *] is an
    [option query]: the operations that test for NULL do so here, the others
    are stuck on it.  Every operation returns the pointer it was given. *)

From S2P Require Import Prelude Types Mem Strbuf Dialect Model Backend.

(** [params[0 .. param_count)] is a list and [param_cap] its allocated size;
    [db] is represented by the backend the connection uses. *)
Record query (S : Type) : Type := Query {
  q_db : option (backend S);
  q_model : option (model S);
  q_op : corm_query_op_t;
  q_select_cols : strbuf;
  q_where : strbuf;
  q_order : strbuf;
  q_group : strbuf;
  q_having : strbuf;
  q_joins : strbuf;
  q_set_clause : strbuf;
  q_params : list corm_value;
  q_param_cap : Z;
  q_limit : Z;
  q_offset : Z;
  q_unscoped : bool;
  q_distinct : bool;
  q_preload_rel : string
}.
Arguments Query {S}.
Arguments q_db {S}.
Arguments q_model {S}.
Arguments q_op {S}.
Arguments q_select_cols {S}.
Arguments q_where {S}.
Arguments q_order {S}.
Arguments q_group {S}.
Arguments q_having {S}.
Arguments q_joins {S}.
Arguments q_set_clause {S}.
Arguments q_params {S}.
Arguments q_param_cap {S}.
Arguments q_limit {S}.
Arguments q_offset {S}.
Arguments q_unscoped {S}.
Arguments q_distinct {S}.
Arguments q_preload_rel {S}.

Section setters.
Context {S : Type}.
Implicit Types q : query S.

Definition set_q_op op '(Query db m _ sc wh od gr hv jn st ps cap li off un di pr) : query S :=
  Query db m op sc wh od gr hv jn st ps cap li off un di pr.
Definition set_q_select sc '(Query db m op _ wh od gr hv jn st ps cap li off un di pr) : query S :=
  Query db m op sc wh od gr hv jn st ps cap li off un di pr.
Definition set_q_where wh '(Query db m op sc _ od gr hv jn st ps cap li off un di pr) : query S :=
  Query db m op sc wh od gr hv jn st ps cap li off un di pr.
Definition set_q_order od '(Query db m op sc wh _ gr hv jn st ps cap li off un di pr) : query S :=
  Query db m op sc wh od gr hv jn st ps cap li off un di pr.
Definition set_q_group gr '(Query db m op sc wh od _ hv jn st ps cap li off un di pr) : query S :=
  Query db m op sc wh od gr hv jn st ps cap li off un di pr.
Definition set_q_having hv '(Query db m op sc wh od gr _ jn st ps cap li off un di pr) : query S :=
  Query db m op sc wh od gr hv jn st ps cap li off un di pr.
Definition set_q_joins jn '(Query db m op sc wh od gr hv _ st ps cap li off un di pr) : query S :=
  Query db m op sc wh od gr hv jn st ps cap li off un di pr.
Definition set_q_set st '(Query db m op sc wh od gr hv jn _ ps cap li off un di pr) : query S :=
  Query db m op sc wh od gr hv jn st ps cap li off un di pr.
Definition set_q_params ps '(Query db m op sc wh od gr hv jn st _ cap li off un di pr) : query S :=
  Query db m op sc wh od gr hv jn st ps cap li off un di pr.
Definition set_q_cap cap '(Query db m op sc wh od gr hv jn st ps _ li off un di pr) : query S :=
  Query db m op sc wh od gr hv jn st ps cap li off un di pr.
Definition set_q_limit li '(Query db m op sc wh od gr hv jn st ps cap _ off un di pr) : query S :=
  Query db m op sc wh od gr hv jn st ps cap li off un di pr.
Definition set_q_offset off '(Query db m op sc wh od gr hv jn st ps cap li _ un di pr) : query S :=
  Query db m op sc wh od gr hv jn st ps cap li off un di pr.
Definition set_q_unscoped un '(Query db m op sc wh od gr hv jn st ps cap li off _ di pr) : query S :=
  Query db m op sc wh od gr hv jn st ps cap li off un di pr.
Definition set_q_distinct di '(Query db m op sc wh od gr hv jn st ps cap li off un _ pr) : query S :=
  Query db m op sc wh od gr hv jn st ps cap li off un di pr.
Definition set_q_preload pr '(Query db m op sc wh od gr hv jn st ps cap li off un di _) : query S :=
  Query db m op sc wh od gr hv jn st ps cap li off un di pr.
End setters.

Definition q_param_count {S} (q : query S) : Z := Z.of_nat (length (q_params q)).

(** [q->db ? q->db->backend->type : CORM_BACKEND_SQLITE]. *)
Definition query_bt {S} (q : query S) : corm_backend_type :=
  match q_db q with
  | Some b => be_type b
  | None => CORM_BACKEND_SQLITE
  end.

(** ** Bound values *)

Definition corm_param_deep_copy {S} (v : corm_value) : M S corm_value :=
  match v_type v with
  | CORM_TEXT | CORM_STRING =>
      s ← deref (u_as_s (v_u v));
      if decide (s = PNull) then mret v
      else p ← strdup s; mret (Value (v_type v) (v_is_null v) (UStr p))
  | CORM_BLOB =>
      '(p, n) ← deref (u_as_blob (v_u v));
      if negb (bool_decide (p = PNull)) && (0 <? n) then
        bs ← read_blob p n;
        copy ← malloc (BBytes bs);
        match copy with
        | Some l => mret (Value (v_type v) (v_is_null v) (UBlob (PHeap l) n))
        | None => mret v
        end
      else mret v
  | _ => mret v
  end.

Definition corm_param_free {S} (v : corm_value) : M S unit :=
  match v_type v with
  | CORM_TEXT | CORM_STRING => s ← deref (u_as_s (v_u v)); free s
  | CORM_BLOB => '(p, _) ← deref (u_as_blob (v_u v)); free p
  | _ => mret tt
  end.

Definition free_params {S} (ps : list corm_value) : M S unit :=
  for_each ps (fun v _ => corm_param_free v) tt.

Definition corm_query_bind {S} (qo : option (query S)) (val : corm_value) :
    M S (option (query S)) :=
  match qo with
  | None => mret None
  | Some q =>
      let room (q : query S) :=
        val ← corm_param_deep_copy val;
        if q_param_count q <? q_param_cap q
        then mret (Some (set_q_params (q_params q ++ [val]) q)) else stuck in
      if q_param_cap q <=? q_param_count q then
        let new_cap := if q_param_cap q =? 0 then 8 else wrap_i32 (q_param_cap q * 2) in
        ok ← malloc_ok;
        if (ok : bool) then room (set_q_cap new_cap q) else mret (Some q)
      else room q
  end.

(** ** Life cycle *)

Definition corm_query_new {S} (db : option (backend S)) (m : option (model S)) :
    M S (option (query S)) :=
  ok ← malloc_ok;
  if (ok : bool) then
    let sb := corm_strbuf_init in
    mret (Some (Query db m CORM_OP_SELECT sb sb sb sb sb sb sb [] 0 0 0 false false ""))
  else mret None.

Definition corm_query_free {S} (qo : option (query S)) : M S unit :=
  match qo with
  | None => mret tt
  | Some q => free_params (q_params q)
  end.

Definition corm_query_reset {S} (qo : option (query S)) : M S (option (query S)) :=
  match qo with
  | None => mret None
  | Some (Query db m _ sc wh od gr hv jn st ps cap _ _ un _ _) =>
      free_params ps;;
      sc ← corm_strbuf_clear sc;
      wh ← corm_strbuf_clear wh;
      od ← corm_strbuf_clear od;
      gr ← corm_strbuf_clear gr;
      hv ← corm_strbuf_clear hv;
      jn ← corm_strbuf_clear jn;
      st ← corm_strbuf_clear st;
      mret (Some (Query db m CORM_OP_SELECT sc wh od gr hv jn st [] cap 0 0 un false ""))
  end.

(** ** Clauses *)

Definition corm_query_op {S} (qo : option (query S)) (op : corm_query_op_t) :
    M S (option (query S)) :=
  q ← deref qo; mret (Some (set_q_op op q)).

Definition corm_query_select {S} (qo : option (query S)) (columns : option string) :
    M S (option (query S)) :=
  q ← deref qo;
  sb ← corm_strbuf_clear (q_select_cols q);
  columns ← deref columns;
  sb ← sb_add sb columns;
  mret (Some (set_q_select sb q)).

(** [if (sb.len > 0) append(sep)]. *)
Definition sb_sep {S} (sb : strbuf) (sep : string) : M S strbuf :=
  if 0 <? sb_len sb then sb_add sb sep else mret sb.

Definition corm_query_where {S} (qo : option (query S)) (condition : option string) :
    M S (option (query S)) :=
  q ← deref qo;
  sb ← sb_sep (q_where q) " AND ";
  condition ← deref condition;
  sb ← sb_add sb condition;
  mret (Some (set_q_where sb q)).

Definition corm_query_or_where {S} (qo : option (query S)) (condition : option string) :
    M S (option (query S)) :=
  q ← deref qo;
  sb ← sb_sep (q_where q) " OR ";
  condition ← deref condition;
  sb ← sb_add sb condition;
  mret (Some (set_q_where sb q)).

Definition corm_query_where_null {S} (qo : option (query S)) (field : option string) :
    M S (option (query S)) :=
  match qo, field with
  | Some q, Some f =>
      if negb (corm_is_valid_identifier field) then mret qo
      else
        sb ← sb_sep (q_where q) " AND ";
        sb ← sb_add sb f;
        sb ← sb_add sb " IS NULL";
        mret (Some (set_q_where sb q))
  | _, _ => mret qo
  end.

Definition corm_query_where_not_null {S} (qo : option (query S)) (field : option string) :
    M S (option (query S)) :=
  match qo, field with
  | Some q, Some f =>
      if negb (corm_is_valid_identifier field) then mret qo
      else
        sb ← sb_sep (q_where q) " AND ";
        sb ← sb_add sb f;
        sb ← sb_add sb " IS NOT NULL";
        mret (Some (set_q_where sb q))
  | _, _ => mret qo
  end.

(** Append the placeholder of the next parameter to the WHERE clause and bind
    the value (the result of the bind is ignored). *)
Definition where_param {S} (bt : corm_backend_type) (q : query S) (v : corm_value) :
    M S (query S) :=
  sb ← sb_add (q_where q) (corm_dialect_placeholder_str bt (q_param_count q) PH_BUF);
  q' ← corm_query_bind (Some (set_q_where sb q)) v;
  deref q'.

(** [for (i = 0; i < count; i++)] over [vals]; [None]: [vals] is too short. *)
Definition first_vals (vals : list corm_value) (count : Z) : option (list corm_value) :=
  if count <=? Z.of_nat (length vals) then Some (take (Z.to_nat count) vals) else None.

Definition corm_query_where_in {S} (qo : option (query S)) (field : option string)
    (vals : option (list corm_value)) (count : Z) : M S (option (query S)) :=
  match qo, field, vals with
  | Some q, Some f, Some vs =>
      if (count <=? 0) || negb (corm_is_valid_identifier field) then mret qo
      else
        sb ← sb_sep (q_where q) " AND ";
        sb ← sb_add sb f;
        sb ← sb_add sb " IN (";
        let q := set_q_where sb q in
        let bt := query_bt q in
        vs ← deref (first_vals vs count);
        '(q, _) ← for_each vs (fun v '(q, i) =>
          sb ← (if 0 <? (i : Z) then sb_add (q_where q) ", " else mret (q_where q));
          q ← where_param bt (set_q_where sb q) v;
          mret (q, i + 1)) (q, 0);
        sb ← sb_add (q_where q) ")";
        mret (Some (set_q_where sb q))
  | _, _, _ => mret qo
  end.

Definition corm_query_where_between {S} (qo : option (query S)) (field : option string)
    (min_val max_val : corm_value) : M S (option (query S)) :=
  match qo, field with
  | Some q, Some f =>
      if negb (corm_is_valid_identifier field) then mret qo
      else
        sb ← sb_sep (q_where q) " AND ";
        sb ← sb_add sb f;
        sb ← sb_add sb " BETWEEN ";
        let q := set_q_where sb q in
        let bt := query_bt q in
        q ← where_param bt q min_val;
        sb ← sb_add (q_where q) " AND ";
        q ← where_param bt (set_q_where sb q) max_val;
        mret (Some q)
  | _, _ => mret qo
  end.

Definition corm_query_join {S} (qo : option (query S)) (join_clause : option string) :
    M S (option (query S)) :=
  match qo, join_clause with
  | Some q, Some s => sb ← sb_add (q_joins q) s; mret (Some (set_q_joins sb q))
  | _, _ => mret qo
  end.

(** [corm_strbuf_clear] and then [corm_strbuf_append]. *)
Definition sb_assign {S} (sb : strbuf) (s : string) : M S strbuf :=
  sb ← corm_strbuf_clear sb; sb_add sb s.

Definition corm_query_order {S} (qo : option (query S)) (order : option string) :
    M S (option (query S)) :=
  match qo, order with
  | Some q, Some s => sb ← sb_assign (q_order q) s; mret (Some (set_q_order sb q))
  | _, _ => mret qo
  end.

Definition corm_query_group {S} (qo : option (query S)) (group : option string) :
    M S (option (query S)) :=
  match qo, group with
  | Some q, Some s => sb ← sb_assign (q_group q) s; mret (Some (set_q_group sb q))
  | _, _ => mret qo
  end.

Definition corm_query_having {S} (qo : option (query S)) (condition : option string) :
    M S (option (query S)) :=
  match qo, condition with
  | Some q, Some s => sb ← sb_assign (q_having q) s; mret (Some (set_q_having sb q))
  | _, _ => mret qo
  end.

Definition corm_query_limit {S} (qo : option (query S)) (limit : Z) :
    M S (option (query S)) :=
  mret (set_q_limit limit <$> qo).

Definition corm_query_offset {S} (qo : option (query S)) (offset : Z) :
    M S (option (query S)) :=
  mret (set_q_offset offset <$> qo).

Definition corm_query_set {S} (qo : option (query S)) (field : option string)
    (val : corm_value) : M S (option (query S)) :=
  match qo, field with
  | Some q, Some f =>
      if negb (corm_is_valid_identifier field) then mret qo
      else
        sb ← sb_sep (q_set_clause q) ", ";
        let bt := query_bt q in
        let qchar := corm_dialect_quote bt in
        sb ← sb_add sb qchar;
        sb ← sb_add sb f;
        sb ← sb_add sb qchar;
        sb ← sb_add sb " = ";
        sb ← sb_add sb (corm_dialect_placeholder_str bt (q_param_count q) PH_BUF);
        qo ← corm_query_bind (Some (set_q_set sb q)) val;
        q ← deref qo;
        mret (Some (set_q_op CORM_OP_UPDATE q))
  | _, _ => mret qo
  end.

Definition corm_query_set_raw {S} (qo : option (query S)) (clause : option string) :
    M S (option (query S)) :=
  q ← deref qo;
  sb ← corm_strbuf_clear (q_set_clause q);
  clause ← deref clause;
  sb ← sb_add sb clause;
  mret (Some (set_q_op CORM_OP_UPDATE (set_q_set sb q))).

Definition corm_query_unscoped {S} (qo : option (query S)) : M S (option (query S)) :=
  mret (set_q_unscoped true <$> qo).

Definition corm_query_distinct {S} (qo : option (query S)) : M S (option (query S)) :=
  mret (set_q_distinct true <$> qo).

(** [char preload_rel[64]]. *)
Definition corm_query_preload {S} (qo : option (query S)) (relation_name : option string) :
    M S (option (query S)) :=
  match qo, relation_name with
  | Some q, Some r =>
      if negb (corm_is_valid_identifier relation_name) then mret qo
      else mret (Some (set_q_preload (c_snprintf 64 r) q))
  | _, _ => mret qo
  end.
