(* ===== verification/Builder.v ===== *)
(** * The SQL builder ([src/builder.c])

    [corm_build_sql] translated statement by statement over the string buffer,
    its errors ignored as in the source, and [render], the SQL text it is meant
    to produce, as a function of the abstract query. *)

From S2P Require Import Prelude Types Mem Strbuf Dialect Model Backend Query.

(** ** The source's functions *)

Definition qident {S} (sql : strbuf) (bt : corm_backend_type) (name : string) : M S strbuf :=
  let q := corm_dialect_quote bt in
  sql ← sb_add sql q;
  sql ← sb_add sql name;
  sb_add sql q.

(** The [while] loop of [append_with_placeholders]; it consumes the text up to
    the next question mark in each round, so its length bounds the rounds. *)
Fixpoint append_ph_loop {S} (fuel : nat) (sql : strbuf) (bt : corm_backend_type)
    (text : string) (pi : Z) : M S (strbuf * Z) :=
  match fuel with
  | O => stuck
  | Datatypes.S fuel' =>
      match text with
      | EmptyString => mret (sql, pi)
      | _ =>
          match split_at "?" text with
          | Some (before, after) =>
              sql ← sb_addn sql text (slen before);
              sql ← sb_add sql (corm_dialect_placeholder_str bt pi PH_BUF);
              append_ph_loop fuel' sql bt after (pi + 1)
          | None => sql ← sb_add sql text; mret (sql, pi)
          end
      end
  end.

Definition append_with_placeholders {S} (sql : strbuf) (bt : corm_backend_type)
    (text : string) (start_index : Z) : M S (strbuf * Z) :=
  '(sql, pi) ← append_ph_loop (Datatypes.S (String.length text)) sql bt text start_index;
  mret (sql, pi - start_index).

(** A loop over the fields that skips some and counts the others, with a comma
    before each but the first. *)
Definition field_step {S} (skip : field -> bool) (body : field -> Z -> strbuf -> M S strbuf)
    (f : field) (st : strbuf * Z) : M S (strbuf * Z) :=
  let '(sql, count) := st in
  if skip f then mret (sql, count)
  else
    sql ← (if 0 <? count then sb_add sql ", " else mret sql);
    sql ← body f count sql;
    mret (sql, count + 1).

Definition sep_fields {S} (fs : list field) (skip : field -> bool)
    (body : field -> Z -> strbuf -> M S strbuf) (sql : strbuf) : M S strbuf :=
  '(sql, _) ← for_each fs (field_step skip body) (sql, 0);
  mret sql.

(** The loops of [corm_build_sql] skip the fields with [flag]. *)
Definition for_fields {S} (fs : list field) (flag : Z)
    (body : field -> Z -> strbuf -> M S strbuf) (sql : strbuf) : M S strbuf :=
  sep_fields fs (fun f => has_flag (f_flags f) flag) body sql.

(** [if (sb.len > 0) appendf(sql, fmt, cstr(sb))]. *)
Definition opt_clause {S} (sql sb : strbuf) (fmt : string) : M S strbuf :=
  if 0 <? sb_len sb then
    s ← corm_strbuf_cstr sb; sb_addf sql fmt [FS s]
  else mret sql.

(** The WHERE clause with its placeholders numbered from [start]. *)
Definition where_clause {S} (q : query S) (sql : strbuf) (bt : corm_backend_type)
    (start : Z) : M S strbuf :=
  sql ← sb_add sql " WHERE ";
  s ← corm_strbuf_cstr (q_where q);
  '(sql, _) ← append_with_placeholders sql bt s start;
  mret sql.

Definition build_select {S} (q : query S) (sql : strbuf) (bt : corm_backend_type) :
    M S strbuf :=
  sql ← sb_add sql "SELECT ";
  sql ← (if q_distinct q then sb_add sql "DISTINCT " else mret sql);
  sql ← (if 0 <? sb_len (q_select_cols q) then
           s ← corm_strbuf_cstr (q_select_cols q); sb_add sql s
         else sb_add sql "*");
  sql ← sb_add sql " FROM ";
  m ← deref (q_model q);
  name ← deref (m_table_name m);
  sql ← qident sql bt name;
  sql ← opt_clause sql (q_joins q) " %s";
  sql ← (if 0 <? sb_len (q_where q) then where_clause q sql bt 0 else mret sql);
  sql ← opt_clause sql (q_group q) " GROUP BY %s";
  sql ← opt_clause sql (q_having q) " HAVING %s";
  sql ← opt_clause sql (q_order q) " ORDER BY %s";
  if (0 <? q_limit q) || (0 <? q_offset q) then
    sql ← sb_addf sql " LIMIT %d" [FD (q_limit q)];
    if 0 <? q_offset q then sb_addf sql " OFFSET %d" [FD (q_offset q)] else mret sql
  else mret sql.

Definition build_insert {S} (q : query S) (sql : strbuf) (bt : corm_backend_type) :
    M S strbuf :=
  sql ← sb_add sql "INSERT INTO ";
  m ← deref (q_model q);
  name ← deref (m_table_name m);
  sql ← qident sql bt name;
  sql ← sb_add sql " (";
  fs ← deref (model_fields m);
  sql ← for_fields fs CORM_FLAG_AUTOINC
    (fun f _ sql => n ← deref (f_name f); qident sql bt n) sql;
  sql ← sb_add sql ") VALUES (";
  sql ← for_fields fs CORM_FLAG_AUTOINC
    (fun f j sql => sb_add sql (corm_dialect_placeholder_str bt j PH_BUF)) sql;
  sql ← sb_add sql ")";
  match bt, m_primary_key m with
  | CORM_BACKEND_POSTGRES, Some pk =>
      sql ← sb_add sql " RETURNING ";
      n ← deref (f_name pk);
      qident sql bt n
  | _, _ => mret sql
  end.

Definition build_update {S} (q : query S) (sql : strbuf) (bt : corm_backend_type) :
    M S strbuf :=
  sql ← sb_add sql "UPDATE ";
  m ← deref (q_model q);
  name ← deref (m_table_name m);
  sql ← qident sql bt name;
  sql ← sb_add sql " SET ";
  sql ← (if 0 <? sb_len (q_set_clause q) then
           s ← corm_strbuf_cstr (q_set_clause q);
           '(sql, _) ← append_with_placeholders sql bt s 0;
           mret sql
         else
           fs ← deref (model_fields m);
           for_fields fs CORM_FLAG_PRIMARY
             (fun f count sql =>
                n ← deref (f_name f);
                sql ← qident sql bt n;
                sql ← sb_add sql " = ";
                sb_add sql (corm_dialect_placeholder_str bt count PH_BUF)) sql);
  if 0 <? sb_len (q_where q) then
    where_offset ← (if 0 <? sb_len (q_set_clause q) then
                      s ← corm_strbuf_cstr (q_set_clause q); mret (str_count "?" s)
                    else
                      fs ← deref (model_fields m);
                      mret (Z.of_nat (length
                        (filter (fun f => has_flag (f_flags f) CORM_FLAG_PRIMARY = false) fs))));
    where_clause q sql bt where_offset
  else mret sql.

Definition build_delete {S} (q : query S) (sql : strbuf) (bt : corm_backend_type) :
    M S strbuf :=
  sql ← sb_add sql "DELETE FROM ";
  m ← deref (q_model q);
  name ← deref (m_table_name m);
  sql ← qident sql bt name;
  if 0 <? sb_len (q_where q) then where_clause q sql bt 0 else mret sql.

Definition corm_build_sql {S} (q : query S) (sql : strbuf) (bt : corm_backend_type) :
    M S (corm_err * strbuf) :=
  sql ← match q_op q with
        | CORM_OP_SELECT => build_select q sql bt
        | CORM_OP_INSERT => build_insert q sql bt
        | CORM_OP_UPDATE => build_update q sql bt
        | CORM_OP_DELETE => build_delete q sql bt
        end;
  mret (CORM_OK, sql).

(** ** The abstract query and the text it stands for *)

Record aquery : Type := AQuery {
  a_op : corm_query_op_t;
  a_select : string;
  a_where : string;
  a_order : string;
  a_group : string;
  a_having : string;
  a_joins : string;
  a_set : string;
  a_params : list sqlval;
  a_limit : Z;
  a_offset : Z;
  a_unscoped : bool;
  a_distinct : bool;
  a_preload : string
}.

(** The [n]-th question mark becomes the placeholder of parameter [k + n]. *)
Fixpoint number_qmarks (bt : corm_backend_type) (k : Z) (s : string) : string :=
  match s with
  | EmptyString => EmptyString
  | String c s' =>
      if Ascii.eqb "?" c then placeholder bt k +:+ number_qmarks bt (k + 1) s'
      else String c (number_qmarks bt k s')
  end.

Definition quoted (bt : corm_backend_type) (name : string) : string :=
  corm_dialect_quote bt +:+ (name +:+ corm_dialect_quote bt).

(** Comma-separated list. *)
Fixpoint commas (xs : list string) : string :=
  match xs with
  | [] => EmptyString
  | x :: [] => x
  | x :: xs' => x +:+ (", " +:+ commas xs')
  end.

Definition fname (f : field) : string := default EmptyString (f_name f).

(** The fields without [flag]. *)
Definition fields_without (flag : Z) (fs : list field) : list field :=
  filter (fun f => has_flag (f_flags f) flag = false) fs.

Definition when (b : bool) (s : string) : string := if b then s else EmptyString.

Definition nonempty (s : string) : bool := negb (String.eqb s EmptyString).

Definition render_where (bt : corm_backend_type) (k : Z) (s : string) : string :=
  when (nonempty s) (" WHERE " +:+ number_qmarks bt k s).

Definition render_clause (kw s : string) : string := when (nonempty s) (kw +:+ s).

Definition render_select (bt : corm_backend_type) (table : string) (a : aquery) : string :=
  "SELECT " +:+ (when (a_distinct a) "DISTINCT " +:+
  ((if nonempty (a_select a) then a_select a else "*") +:+
  (" FROM " +:+ (quoted bt table +:+
  (render_clause " " (a_joins a) +:+
  (render_where bt 0 (a_where a) +:+
  (render_clause " GROUP BY " (a_group a) +:+
  (render_clause " HAVING " (a_having a) +:+
  (render_clause " ORDER BY " (a_order a) +:+
  (when ((0 <? a_limit a) || (0 <? a_offset a))
     (" LIMIT " +:+ (pretty (a_limit a) +:+
      when (0 <? a_offset a) (" OFFSET " +:+ pretty (a_offset a)))))))))))))).

Definition render_insert (bt : corm_backend_type) (table : string) (fs : list field)
    (pk : option field) : string :=
  let cols := fields_without CORM_FLAG_AUTOINC fs in
  "INSERT INTO " +:+ (quoted bt table +:+ (" (" +:+
  (commas (map (fun f => quoted bt (fname f)) cols) +:+ (") VALUES (" +:+
  (commas (imap (fun j _ => placeholder bt (Z.of_nat j)) cols) +:+ (")" +:+
  match bt, pk with
  | CORM_BACKEND_POSTGRES, Some pk => " RETURNING " +:+ quoted bt (fname pk)
  | _, _ => EmptyString
  end)))))).

Definition render_update (bt : corm_backend_type) (table : string) (fs : list field)
    (a : aquery) : string :=
  let cols := fields_without CORM_FLAG_PRIMARY fs in
  "UPDATE " +:+ (quoted bt table +:+ (" SET " +:+
  ((if nonempty (a_set a) then number_qmarks bt 0 (a_set a)
    else commas (imap (fun j f =>
           quoted bt (fname f) +:+ (" = " +:+ placeholder bt (Z.of_nat j))) cols)) +:+
   render_where bt (if nonempty (a_set a) then str_count "?" (a_set a)
                    else Z.of_nat (length cols)) (a_where a)))).

Definition render_delete (bt : corm_backend_type) (table : string) (a : aquery) : string :=
  "DELETE FROM " +:+ (quoted bt table +:+ render_where bt 0 (a_where a)).

Definition render {S} (bt : corm_backend_type) (m : model S) (fs : list field) (a : aquery) :
    string :=
  let table := default EmptyString (m_table_name m) in
  match a_op a with
  | CORM_OP_SELECT => render_select bt table a
  | CORM_OP_INSERT => render_insert bt table fs (m_primary_key m)
  | CORM_OP_UPDATE => render_update bt table fs a
  | CORM_OP_DELETE => render_delete bt table a
  end.
