(* ===== verification/BuilderSpec.v ===== *)
(** * The builder produces the rendered text

    [corm_build_sql] refines [render]: on a query whose buffers hold the
    clauses of an abstract query, the buffer ends up holding exactly the
    rendered statement, whatever the dialect and the operation. *)

From S2P Require Import Prelude Types Mem Strbuf Dialect Model Backend Query Builder.

(** ** Small facts *)

Lemma nonempty_slen s : nonempty s = (0 <? slen s).
Proof. unfold nonempty, slen. by destruct s. Qed.

Lemma str_count_slen c s : str_count c s <= slen s.
Proof.
  unfold slen. induction s as [|d s IH]; simpl; [lia|]. destruct (Ascii.eqb c d); lia.
Qed.

Lemma number_qmarks_app bt k l r :
  number_qmarks bt k (l +:+ r) =
    number_qmarks bt k l +:+ number_qmarks bt (k + str_count "?" l) r.
Proof.
  revert k. induction l as [|c l IH]; intros k.
  - simpl. by rewrite Z.add_0_r.
  - cbn [number_qmarks str_count]. change (String c l +:+ r) with (String c (l +:+ r)).
    cbn [number_qmarks]. destruct (Ascii.eqb "?" c).
    + rewrite IH, str_app_assoc, Z.add_assoc. done.
    + rewrite IH, Z.add_0_l. done.
Qed.

Lemma number_qmarks_none bt k s : str_count "?" s = 0 -> number_qmarks bt k s = s.
Proof.
  revert k. induction s as [|c s IH]; intros k; cbn [number_qmarks str_count]; [done|].
  destruct (Ascii.eqb "?" c); intros H.
  - pose proof (str_count_nonneg "?" s). lia.
  - by rewrite IH.
Qed.

Lemma i32_pretty_length z : in_i32 z -> slen (pretty z) <= 11.
Proof.
  unfold in_i32, slen. intros Hz. destruct z as [|p|p]; [simpl; lia| |].
  - pose proof (pretty_nonneg_length (Zpos p) 10 ltac:(lia) ltac:(lia)). lia.
  - change (pretty (Zneg p)) with ("-" +:+ pretty (Zpos p)). rewrite str_length_app.
    pose proof (pretty_nonneg_length (Zpos p) 10 ltac:(lia) ltac:(lia)). simpl. lia.
Qed.

(** ** Writer lemmas for the source's idioms *)

Section writers.
Context {S : Type}.
Implicit Types m : strbuf -> M S strbuf.

Lemma writes_cstr (X : strbuf) s (k : string -> strbuf -> M S strbuf) x :
  sb_repr X s -> no_nul s = true -> writes (k s) x ->
  writes (fun sb => s ← corm_strbuf_cstr X; k s sb) x.
Proof.
  intros Hr Hs Hk sb t w Ht Hf. destruct (Hk sb t w Ht Hf) as (sb' & y & w' & E & H).
  exists sb', y, w'. by run_with (cstr_spec X s w Hr Hs).
Qed.

Lemma writes_deref {A} (o : option A) a (k : A -> strbuf -> M S strbuf) x :
  o = Some a -> writes (k a) x -> writes (fun sb => a ← deref o; k a sb) x.
Proof. by intros ->. Qed.

Lemma writes_qident bt name :
  writes (S := S) (fun sql => qident sql bt name) (quoted bt name).
Proof. unfold qident, quoted. do 2 (eapply writes_seq; [apply writes_add|]). apply writes_add. Qed.

Lemma writes_when (b : bool) m x :
  writes m x -> writes (fun sb => if b then m sb else mret sb) (when b x).
Proof. intros H. unfold when. destruct b; [done|apply writes_nil]. Qed.

Lemma writes_opt_clause (X : strbuf) s fmt x :
  sb_repr X s -> no_nul s = true ->
  c_format fmt [FS s] = Some x -> slen x <= INT_MAX ->
  writes (S := S) (fun sql => opt_clause sql X fmt) (when (nonempty s) x).
Proof.
  intros Hr Hs Hx Hi. unfold opt_clause. rewrite nonempty_slen, (sb_repr_len _ _ Hr).
  apply (writes_when (0 <? slen s)).
  eapply (writes_cstr X s (fun s sql => sb_addf sql fmt [FS s])); [done..|].
  by apply writes_addf.
Qed.

(** *** Placeholder rewriting *)

Lemma append_ph_loop_spec fuel bt text pi :
  (String.length text < fuel)%nat -> 0 <= pi -> pi + str_count "?" text <= INT_MAX ->
  forall sb s (w : world S), sb_repr sb s -> fits (s +:+ number_qmarks bt pi text) ->
  exists sb' y w', append_ph_loop fuel sb bt text pi w =
      Ret (sb', pi + str_count "?" text) w' /\
    sb_repr sb' (s +:+ y) /\ slen y <= slen (number_qmarks bt pi text) /\
    alloc_only w w' /\ (plenty w -> y = number_qmarks bt pi text).
Proof.
  revert text pi. induction fuel as [|fuel IH]; intros text pi Hfuel Hpi Hmax sb s w Hr Hf;
    [lia|].
  cbn [append_ph_loop]. destruct text as [|c text'].
  { exists sb, EmptyString, w. rewrite str_app_nil_r. cbn [str_count number_qmarks].
    by rewrite Z.add_0_r. }
  set (text := String c text') in *.
  destruct (split_at "?" text) as [[before after]|] eqn:E.
  - pose proof (split_at_app _ _ _ _ E) as [Ht Hb]. clearbody text. subst text.
    rewrite str_count_app in Hmax |- *. cbn [str_count] in Hmax |- *.
    rewrite Ascii.eqb_refl in Hmax |- *. rewrite Hb in Hmax |- *.
    rewrite str_length_app in Hfuel. simpl in Hfuel.
    rewrite number_qmarks_app, (number_qmarks_none bt pi before Hb), Hb, Z.add_0_r in Hf |- *.
    cbn [number_qmarks] in Hf |- *. rewrite Ascii.eqb_refl in Hf |- *.
    pose proof (str_count_nonneg "?" after).
    assert (Htk : str_take (Z.to_nat (slen before)) (before +:+ String "?" after) = before).
    { unfold slen. rewrite Nat2Z.id. clear. induction before; simpl; [done|congruence]. }
    rewrite placeholder_str_spec by (unfold ph_index; lia).
    set (m12 := fun sb : strbuf => sql ← sb_addn (S := S) sb (before +:+ String "?" after) (slen before);
                  sb_add sql (placeholder bt pi)).
    assert (Hw : writes m12 (before +:+ placeholder bt pi)).
    { unfold m12. apply (writes_seq (fun sb => sb_addn sb _ _) (fun sb => sb_add sb _)).
      - eapply writes_ext; [exact Htk|]. apply writes_addn. rewrite slen_app.
        pose proof (slen_nonneg before). pose proof (slen_nonneg (String "?" after)). lia.
      - apply writes_add. }
    rewrite str_app_assoc in Hf.
    destruct (Hw sb s w Hr) as (sb1 & y1 & w1 & E1 & Hr1 & L1 & A1 & P1).
    { unfold fits in *. rewrite !slen_app in *.
      pose proof (slen_nonneg (number_qmarks bt (pi + 1) after)). lia. }
    destruct (IH after (pi + 1)) with (sb := sb1) (s := s +:+ y1) (w := w1)
      as (sb2 & y2 & w2 & E2 & Hr2 & L2 & A2 & P2); [lia|lia|lia|done| |].
    { unfold fits in *. rewrite !slen_app in *. lia. }
    exists sb2, (y1 +:+ y2), w2.
    split.
    { unfold m12 in E1. apply bind_inv in E1 as (sba & wa & Ea & Eb).
      run_with Ea. run_with Eb. rewrite E2. do 2 f_equal. lia. }
    split; [by rewrite str_app_assoc|].
    split; [rewrite !slen_app in *; lia|]. split; [by eapply alloc_only_trans|].
    intros Hp. rewrite P1, P2; [by rewrite str_app_assoc| |done].
    by rewrite (alloc_only_plenty _ _ A1 Hp).
  - pose proof (split_at_None _ _ E) as Hz. rewrite Hz, Z.add_0_r.
    rewrite number_qmarks_none in Hf |- * by done.
    destruct (writes_add text sb s w Hr Hf) as (sb' & y & w' & E' & H').
    exists sb', y, w'. by run_with E'.
Qed.

Lemma writes_placeholders bt text k :
  0 <= k -> k + str_count "?" text <= INT_MAX ->
  writes (S := S) (fun sql => '(sql, _) ← append_with_placeholders sql bt text k; mret sql)
    (number_qmarks bt k text).
Proof.
  intros Hk Hm sb s w Hr Hf.
  destruct (append_ph_loop_spec (Datatypes.S (String.length text)) bt text k
    ltac:(lia) Hk Hm sb s w Hr Hf) as (sb' & y & w' & E & H).
  exists sb', y, w'. unfold append_with_placeholders. rewrite bind_assoc. by run_with E.
Qed.
End writers.

(** ** Field lists *)

(** The texts of a list of fields, the first one numbered [c]. *)
Definition texts_from (txt : Z -> field -> string) (c : Z) (fs : list field) : list string :=
  imap (fun j f => txt (c + Z.of_nat j) f) fs.

Lemma texts_from_cons txt c f fs :
  texts_from txt c (f :: fs) = txt c f :: texts_from txt (c + 1) fs.
Proof.
  unfold texts_from. rewrite imap_cons, Z.add_0_r. f_equal.
  apply imap_ext. intros i g _. simpl. f_equal. lia.
Qed.

(** The text a field loop appends when [c] fields were written before. *)
Fixpoint sep_concat (txt : Z -> field -> string) (c : Z) (fs : list field) : string :=
  match fs with
  | [] => EmptyString
  | f :: fs' => when (0 <? c) ", " +:+ (txt c f +:+ sep_concat txt (c + 1) fs')
  end.

Lemma sep_concat_commas txt c fs :
  0 <= c ->
  sep_concat txt c fs =
    when ((0 <? c) && negb (bool_decide (fs = []))) ", " +:+ commas (texts_from txt c fs).
Proof.
  revert c. induction fs as [|f fs IH]; intros c Hc; cbn [sep_concat].
  - unfold when. by destruct (0 <? c).
  - rewrite bool_decide_false by done. rewrite andb_true_r. f_equal.
    rewrite texts_from_cons, IH by lia. destruct (Z.ltb_spec 0 (c + 1)); [|lia].
    destruct fs as [|f' fs]; [by rewrite str_app_nil_r|].
    by rewrite bool_decide_false, texts_from_cons by done.
Qed.

Section fields.
Context {S : Type}.

Lemma writes_pointwise (m m' : strbuf -> M S strbuf) x :
  (forall sb w, m sb w = m' sb w) -> writes m' x -> writes m x.
Proof. intros H Hw sb s w. rewrite H. apply Hw. Qed.

Lemma writes_sep_fields fs skip (body : field -> Z -> strbuf -> M S strbuf) txt :
  (forall f i, f ∈ fs -> 0 <= i < Z.of_nat (length fs) -> writes (body f i) (txt i f)) ->
  writes (sep_fields fs skip body)
    (commas (texts_from txt 0 (filter (fun f => skip f = false) fs))).
Proof.
  intros Hb. eapply writes_ext; [exact (sep_concat_commas txt 0 _ ltac:(lia))|].
  unfold sep_fields. set (N := Z.of_nat (length fs)) in *.
  assert (Hgen : forall c, c + Z.of_nat (length fs) <= N -> 0 <= c ->
    writes (fun sql => '(sql, _) ← for_each fs (field_step skip body) (sql, c); mret sql)
      (sep_concat txt c (filter (fun f => skip f = false) fs))); [|apply Hgen; lia].
  clearbody N. induction fs as [|f fs IH]; intros c Hn Hc; [apply writes_nil|].
  cbn [length] in Hn. rewrite Nat2Z.inj_succ in Hn.
  specialize (IH (fun g i Hg => Hb g i (list_elem_of_further _ _ _ Hg))).
  rewrite filter_cons. cbn [for_each].
  destruct (skip f) eqn:Hf.
  - rewrite decide_False by congruence.
    eapply writes_pointwise; [|apply IH; lia]. intros sb w. cbn [field_step].
    by rewrite Hf.
  - rewrite decide_True by done. cbn [sep_concat].
    set (loop := fun sb : strbuf => '(sql, _) ← for_each fs (field_step skip body) (sb, c + 1);
                             mret sql).
    apply writes_pointwise with
      (m' := fun sb => sql ← (if 0 <? c then sb_add sb ", " else mret sb);
                       sql ← body f c sql; loop sql).
    { intros sb w. cbn [field_step]. rewrite Hf. unfold loop, mbind, M_bind, mret, M_ret.
      destruct ((if 0 <? c then sb_add sb ", " else fun w => Ret sb w) w) as [sb1 w1|];
        [|done]. by destruct (body f c sb1 w1). }
    apply (writes_seq (fun sb => if 0 <? c then sb_add sb ", " else mret sb)).
    { apply (writes_when (0 <? c) (fun sb => sb_add sb ", ")), writes_add. }
    apply writes_seq; [apply Hb; [apply list_elem_of_here|lia]|]. apply IH; lia.
Qed.

Lemma writes_for_fields fs flag (body : field -> Z -> strbuf -> M S strbuf) txt :
  (forall f i, f ∈ fs -> 0 <= i < Z.of_nat (length fs) -> writes (body f i) (txt i f)) ->
  writes (for_fields fs flag body) (commas (texts_from txt 0 (fields_without flag fs))).
Proof. exact (writes_sep_fields fs (fun f => has_flag (f_flags f) flag) body txt). Qed.
End fields.

(** ** The statements *)

(** A clause text the builder can copy: a C string of moderate length. *)
Definition clause_ok (s : string) : Prop := no_nul s = true /\ slen s <= 2 ^ 29.

Record aquery_ok (a : aquery) : Prop := {
  ao_select : clause_ok (a_select a);
  ao_where : clause_ok (a_where a);
  ao_order : clause_ok (a_order a);
  ao_group : clause_ok (a_group a);
  ao_having : clause_ok (a_having a);
  ao_joins : clause_ok (a_joins a);
  ao_set : clause_ok (a_set a);
  ao_limit : in_i32 (a_limit a);
  ao_offset : in_i32 (a_offset a)
}.

(** The clause buffers of [q] hold the clauses of [a]. *)
Record clauses_repr {S} (q : query S) (a : aquery) : Prop := {
  cr_op : q_op q = a_op a;
  cr_select : sb_repr (q_select_cols q) (a_select a);
  cr_where : sb_repr (q_where q) (a_where a);
  cr_order : sb_repr (q_order q) (a_order a);
  cr_group : sb_repr (q_group q) (a_group a);
  cr_having : sb_repr (q_having q) (a_having a);
  cr_joins : sb_repr (q_joins q) (a_joins a);
  cr_set : sb_repr (q_set_clause q) (a_set a);
  cr_limit : q_limit q = a_limit a;
  cr_offset : q_offset q = a_offset a;
  cr_unscoped : q_unscoped q = a_unscoped a;
  cr_distinct : q_distinct q = a_distinct a;
  cr_preload : q_preload_rel q = a_preload a
}.

(** A model the builder accepts, with the fields its loops visit. *)
Record model_ok {S} (m : model S) (fs : list field) : Prop := {
  mo_valid : valid_model m;
  mo_fields : model_fields m = Some fs;
  mo_count : m_field_count m <= 2 ^ 29;
  mo_pk : match m_primary_key m with Some pk => pk ∈ fs | None => True end
}.

Section statements.
Context {S : Type}.
Context (q : query S) (a : aquery) (bt : corm_backend_type) (m : model S) (fs : list field).
Context (Hrep : clauses_repr q a) (Hok : aquery_ok a).
Context (Hq : q_model q = Some m) (Hm : model_ok m fs).

Let table := default EmptyString (m_table_name m).

Lemma table_name_eq : m_table_name m = Some table.
Proof.
  destruct Hm as [(Ht & _) _ _ _]. apply valid_identifier_inv in Ht as (s & Hs & _).
  unfold table. by rewrite Hs.
Qed.

Lemma field_names f : f ∈ fs -> f_name f = Some (fname f).
Proof.
  destruct Hm as [(_ & _ & _ & fs' & Hf & Hv & _) Hfs _ _]. simplify_eq.
  rewrite Forall_forall in Hv. intros Hin. apply Hv, valid_identifier_inv in Hin as (s & Hs & _).
  unfold fname. by rewrite Hs.
Qed.

Lemma field_count_bound : Z.of_nat (length fs) <= 2 ^ 29.
Proof.
  destruct Hm as [(_ & Hc & _) Hfs Hb _]. by destruct (model_fields_bound m fs Hfs Hc) as [-> _].
Qed.

(** Every statement names the table right after its first keyword. *)
Lemma writes_table kw (k : model S -> strbuf -> M S strbuf) x :
  writes (k m) x ->
  writes (fun sql => sql ← sb_add sql kw; m ← deref (q_model q); name ← deref (m_table_name m);
                     sql ← qident sql bt name; k m sql)
    (kw +:+ (quoted bt table +:+ x)).
Proof.
  intros Hk. apply (writes_seq (fun sql => sb_add sql kw)); [apply writes_add|].
  eapply (writes_deref (q_model q) m (fun m sql => name ← deref (m_table_name m); _));
    [exact Hq|].
  eapply (writes_deref (m_table_name m) table (fun name sql => sql ← qident sql bt name; _));
    [apply table_name_eq|].
  apply (writes_seq (fun sql => qident sql bt table)); [apply writes_qident|done].
Qed.

Lemma writes_where k :
  0 <= k <= 2 ^ 29 ->
  writes (fun sql => if 0 <? sb_len (q_where q) then where_clause q sql bt k else mret sql)
    (render_where bt k (a_where a)).
Proof.
  intros Hk. destruct Hok as [_ [Hn Hl] _ _ _ _ _ _ _].
  rewrite (sb_repr_len _ _ (cr_where _ _ Hrep)). unfold render_where. rewrite nonempty_slen.
  apply (writes_when (0 <? slen (a_where a)) (fun sql => where_clause q sql bt k)).
  unfold where_clause. apply (writes_seq (fun sql => sb_add sql " WHERE ")); [apply writes_add|].
  eapply (writes_cstr (q_where q) (a_where a)
    (fun s sql => '(sql, _) ← append_with_placeholders sql bt s k; mret sql));
    [apply Hrep|done|].
  apply writes_placeholders; [lia|].
  pose proof (str_count_slen "?" (a_where a)). unfold INT_MAX. lia.
Qed.

Lemma writes_clause (X : strbuf) s fmt kw :
  sb_repr X s -> clause_ok s -> c_format fmt [FS s] = Some (kw +:+ (s +:+ "")) ->
  slen kw <= 100 ->
  writes (S := S) (fun sql => opt_clause sql X fmt) (render_clause kw s).
Proof.
  intros Hr [Hn Hl] Hf Hk. rewrite str_app_nil_r in Hf. unfold render_clause.
  apply writes_opt_clause; try done. rewrite slen_app. unfold INT_MAX. lia.
Qed.

Lemma writes_limit :
  writes (fun sql =>
      if (0 <? q_limit q) || (0 <? q_offset q) then
        sql ← sb_addf (S := S) sql " LIMIT %d" [FD (q_limit q)];
        if 0 <? q_offset q then sb_addf sql " OFFSET %d" [FD (q_offset q)] else mret sql
      else mret sql)
    (when ((0 <? a_limit a) || (0 <? a_offset a))
       (" LIMIT " +:+ (pretty (a_limit a) +:+
        when (0 <? a_offset a) (" OFFSET " +:+ pretty (a_offset a))))).
Proof.
  destruct Hok as [_ _ _ _ _ _ _ Hli Hof].
  rewrite (cr_limit _ _ Hrep), (cr_offset _ _ Hrep).
  apply i32_pretty_length in Hli, Hof.
  apply (writes_when ((0 <? a_limit a) || (0 <? a_offset a))
    (fun sql => sql ← sb_addf sql " LIMIT %d" [FD (a_limit a)]; _)).
  rewrite str_app_assoc.
  apply (writes_seq (fun sql => sb_addf sql " LIMIT %d" [FD (a_limit a)])).
  - apply writes_addf; [simpl; by rewrite str_app_nil_r|].
    rewrite slen_app. unfold INT_MAX. change (slen " LIMIT ") with 7. lia.
  - apply (writes_when (0 <? a_offset a) (fun sql => sb_addf sql " OFFSET %d" _)).
    apply writes_addf; [simpl; by rewrite str_app_nil_r|].
    rewrite slen_app. unfold INT_MAX. change (slen " OFFSET ") with 8. lia.
Qed.

Lemma writes_select : writes (fun sql => build_select q sql bt) (render_select bt table a).
Proof.
  unfold build_select, render_select.
  apply (writes_seq (fun sql => sb_add sql "SELECT ")); [apply writes_add|].
  rewrite (cr_distinct _ _ Hrep).
  apply (writes_seq (fun sql => if a_distinct a then sb_add sql "DISTINCT " else mret sql)).
  { apply (writes_when (a_distinct a) (fun sql => sb_add sql "DISTINCT ")), writes_add. }
  rewrite (sb_repr_len _ _ (cr_select _ _ Hrep)), <- nonempty_slen.
  apply (writes_seq (fun sql => if nonempty (a_select a) then
    s ← corm_strbuf_cstr (q_select_cols q); sb_add sql s else sb_add sql "*")).
  { apply (writes_if (nonempty (a_select a))
      (fun sql => s ← corm_strbuf_cstr (q_select_cols q); sb_add sql s)
      (fun sql => sb_add sql "*")); [|apply writes_add].
    eapply (writes_cstr (q_select_cols q) (a_select a) (fun s sql => sb_add sql s));
      [apply Hrep|apply Hok|apply writes_add]. }
  apply (writes_table " FROM ").
  apply (writes_seq (fun sql => opt_clause sql (q_joins q) " %s")).
  { apply writes_clause; [apply Hrep|apply Hok|done|done]. }
  apply (writes_seq (fun sql => if 0 <? sb_len (q_where q) then where_clause q sql bt 0 else mret sql)).
  { apply writes_where. lia. }
  apply (writes_seq (fun sql => opt_clause sql (q_group q) " GROUP BY %s")).
  { apply writes_clause; [apply Hrep|apply Hok|done|done]. }
  apply (writes_seq (fun sql => opt_clause sql (q_having q) " HAVING %s")).
  { apply writes_clause; [apply Hrep|apply Hok|done|done]. }
  apply (writes_seq (fun sql => opt_clause sql (q_order q) " ORDER BY %s")).
  { apply writes_clause; [apply Hrep|apply Hok|done|done]. }
  apply writes_limit.
Qed.

Lemma texts_from_0 txt l : texts_from txt 0 l = imap (fun j f => txt (Z.of_nat j) f) l.
Proof. done. Qed.

Lemma writes_names :
  writes (for_fields fs CORM_FLAG_AUTOINC
            (fun f _ sql => n ← deref (f_name f); qident (S := S) sql bt n))
    (commas (map (fun f => quoted bt (fname f)) (fields_without CORM_FLAG_AUTOINC fs))).
Proof.
  eapply writes_ext; [|eapply (writes_for_fields fs _ _ (fun _ f => quoted bt (fname f)))].
  - f_equal. unfold texts_from. apply imap_const.
  - intros f i Hf _. eapply (writes_deref (f_name f) (fname f) (fun n sql => qident sql bt n));
      [by apply field_names|apply writes_qident].
Qed.

Lemma writes_insert :
  writes (fun sql => build_insert q sql bt) (render_insert bt table fs (m_primary_key m)).
Proof.
  unfold build_insert, render_insert.
  apply (writes_table "INSERT INTO ").
  apply (writes_seq (fun sql => sb_add sql " (")); [apply writes_add|].
  eapply writes_deref; [apply Hm|]. eapply writes_seq; [apply writes_names|].
  apply (writes_seq (fun sql => sb_add sql ") VALUES (")); [apply writes_add|].
  apply (writes_seq (fun sql => for_fields fs CORM_FLAG_AUTOINC _ sql)).
  { apply (writes_for_fields fs _ _ (fun j _ => placeholder bt j)). intros f j _ Hj.
    pose proof field_count_bound.
    rewrite placeholder_str_spec by (unfold ph_index, INT_MAX; lia). apply writes_add. }
  apply (writes_seq (fun sql => sb_add sql ")")); [apply writes_add|].
  destruct bt; try apply writes_nil.
  pose proof (mo_pk _ _ Hm) as Hpk. destruct (m_primary_key m) as [pk|]; [|apply writes_nil].
  apply (writes_seq (fun sql => sb_add sql " RETURNING ")); [apply writes_add|].
  rewrite (field_names pk Hpk). apply (writes_qident CORM_BACKEND_POSTGRES (fname pk)).
Qed.

Lemma writes_set_all :
  writes (for_fields fs CORM_FLAG_PRIMARY
      (fun f count sql =>
         n ← deref (f_name f);
         sql ← qident (S := S) sql bt n;
         sql ← sb_add sql " = ";
         sb_add sql (corm_dialect_placeholder_str bt count PH_BUF)))
    (commas (imap (fun j f => quoted bt (fname f) +:+ (" = " +:+ placeholder bt (Z.of_nat j)))
       (fields_without CORM_FLAG_PRIMARY fs))).
Proof.
  apply (writes_for_fields fs _ _
    (fun j f => quoted bt (fname f) +:+ (" = " +:+ placeholder bt j))).
  intros f j Hf Hj. eapply writes_deref; [by apply field_names|].
  eapply writes_seq; [apply writes_qident|]. eapply writes_seq; [apply writes_add|].
  pose proof field_count_bound.
  rewrite placeholder_str_spec by (unfold ph_index, INT_MAX; lia). apply writes_add.
Qed.

Lemma cols_bound flag : 0 <= Z.of_nat (length (fields_without flag fs)) <= 2 ^ 29.
Proof.
  pose proof field_count_bound. unfold fields_without.
  pose proof (length_filter (fun f => has_flag (f_flags f) flag = false) fs). lia.
Qed.

Lemma writes_update : writes (fun sql => build_update q sql bt) (render_update bt table fs a).
Proof.
  unfold build_update, render_update. destruct Hok as [_ _ _ _ _ _ [Hsn Hsl] _ _].
  apply (writes_table "UPDATE "). eapply writes_seq; [apply writes_add|].
  rewrite (sb_repr_len _ _ (cr_set _ _ Hrep)), <- nonempty_slen.
  apply writes_seq.
  { apply (writes_if (nonempty (a_set a))).
    - eapply (writes_cstr _ _ (fun s sql =>
        '(sql, _) ← append_with_placeholders sql bt s 0; mret sql));
        [apply Hrep|done|].
      apply writes_placeholders; [lia|].
      pose proof (str_count_slen "?" (a_set a)). unfold INT_MAX. lia.
    - eapply writes_deref; [apply Hm|apply writes_set_all]. }
  destruct (nonempty (a_set a)).
  - pose proof (str_count_slen "?" (a_set a)). pose proof (str_count_nonneg "?" (a_set a)).
    eapply writes_pointwise; [|apply (writes_where (str_count "?" (a_set a))); lia].
    intros sb w. destruct (0 <? sb_len (q_where q)); [|done].
    rewrite bind_assoc. by run_with (cstr_spec _ _ w (cr_set _ _ Hrep) Hsn).
  - pose proof (cols_bound CORM_FLAG_PRIMARY).
    eapply writes_pointwise; [|apply writes_where; done].
    intros sb w. destruct (0 <? sb_len (q_where q)); [|done].
    rewrite bind_assoc, (mo_fields _ _ Hm). done.
Qed.

Lemma writes_delete : writes (fun sql => build_delete q sql bt) (render_delete bt table a).
Proof. apply (writes_table "DELETE FROM "), writes_where. lia. Qed.

Lemma writes_build_sql :
  writes (fun sql => '(_, sql) ← corm_build_sql q sql bt; mret sql) (render bt m fs a).
Proof.
  unfold corm_build_sql, render. rewrite (cr_op _ _ Hrep).
  eapply writes_pointwise with (m' := fun sql =>
    match a_op a with
    | CORM_OP_SELECT => build_select q sql bt
    | CORM_OP_INSERT => build_insert q sql bt
    | CORM_OP_UPDATE => build_update q sql bt
    | CORM_OP_DELETE => build_delete q sql bt
    end).
  { intros sb w. rewrite bind_assoc. unfold mbind, M_bind.
    by destruct (match a_op a with
      | CORM_OP_SELECT => build_select q sb bt
      | CORM_OP_INSERT => build_insert q sb bt
      | CORM_OP_UPDATE => build_update q sb bt
      | CORM_OP_DELETE => build_delete q sb bt
      end w). }
  destruct (a_op a);
    [apply writes_select|apply writes_insert|apply writes_update|apply writes_delete].
Qed.

(** The builder never fails: even out of memory it reports success. *)
Lemma build_sql_code sb w e sb' w' :
  corm_build_sql q sb bt w = Ret (e, sb') w' -> e = CORM_OK.
Proof.
  unfold corm_build_sql. intros H. apply bind_inv in H as (sb1 & w1 & _ & H). by ret_inv H.
Qed.

Lemma build_sql_ok w :
  plenty w -> fits (render bt m fs a) ->
  exists sb, corm_build_sql q corm_strbuf_init bt w = Ret (CORM_OK, sb) w /\
    sb_repr sb (render bt m fs a).
Proof.
  intros Hp Hf.
  destruct (writes_run _ _ corm_strbuf_init w writes_build_sql sb_repr_init Hf Hp)
    as (sb & E & Hr).
  apply bind_inv in E as ([e sb1] & w1 & E & H). ret_inv H.
  rewrite (build_sql_code _ _ _ _ _ E) in E. eauto.
Qed.
End statements.
