(* ===== verification/QuerySpec.v ===== *)
(** * The query builder refines an abstract query

    [astep] is the effect of each builder call on an [aquery]: plain strings and
    plain parameter values.  The theorems of this file show that the calls of
    [Query.v] implement it and that a query owns exactly the heap blocks of its
    bound parameters. *)

From S2P Require Import Prelude Types Mem Strbuf Dialect Model Backend Query Builder BuilderSpec.

(** ** Heap extension *)

Definition heap_le (h h' : gmap loc block) : Prop :=
  forall l b, h !! l = Some b -> h' !! l = Some b.

Lemma heap_le_refl h : heap_le h h.
Proof. by intros l b. Qed.

Lemma heap_le_trans h1 h2 h3 : heap_le h1 h2 -> heap_le h2 h3 -> heap_le h1 h3.
Proof. intros H1 H2 l b H. auto. Qed.

Lemma heap_rec_mono h h' r rc : heap_le h h' -> heap_rec h r = Some rc -> heap_rec h' r = Some rc.
Proof.
  unfold heap_rec. intros Hle. destruct (h !! fst r) as [b|] eqn:E; [|done].
  by rewrite (Hle _ _ E).
Qed.

Lemma read_cstr_mono h h' p s : heap_le h h' -> read_cstr h p = Some s -> read_cstr h' p = Some s.
Proof.
  intros Hle. destruct p as [|l|l i off|]; simpl; try done.
  - destruct (h !! l) as [b|] eqn:E; [|done]. by rewrite (Hle _ _ E).
  - unfold mbind, option_bind. destruct (heap_rec h (l, i)) as [rc|] eqn:E; [|done].
    by rewrite (heap_rec_mono _ _ _ _ Hle E).
Qed.

Lemma read_bytes_mono h h' p n bs :
  heap_le h h' -> read_bytes h p n = Some bs -> read_bytes h' p n = Some bs.
Proof.
  intros Hle. destruct p as [|l|l i off|]; simpl; try done.
  - destruct (h !! l) as [b|] eqn:E; [|done]. by rewrite (Hle _ _ E).
  - unfold mbind, option_bind. destruct (heap_rec h (l, i)) as [rc|] eqn:E; [|done].
    by rewrite (heap_rec_mono _ _ _ _ Hle E).
Qed.

Lemma resolve_mono h h' v x : heap_le h h' -> resolve h v = Some x -> resolve h' v = Some x.
Proof.
  intros Hle. unfold resolve. destruct (v_is_null v); [done|].
  destruct (v_type v); try done; unfold mbind, option_bind.
  1, 2: destruct (u_as_s (v_u v)) as [p|]; [|done]; case_decide; [done|];
    destruct (read_cstr h p) as [s|] eqn:E; [|done]; by rewrite (read_cstr_mono _ _ _ _ Hle E).
  destruct (u_as_blob (v_u v)) as [[p n]|]; [|done]; case_decide; [done|].
  destruct (read_bytes h p n) as [s|] eqn:E; [|done]. by rewrite (read_bytes_mono _ _ _ _ _ Hle E).
Qed.

(** ** Ownership of parameters *)

(** The blocks a bound parameter owns. *)
Definition owned_of (v : corm_value) : list loc :=
  match v_type v with
  | CORM_TEXT | CORM_STRING =>
      match u_as_s (v_u v) with Some (PHeap l) => [l] | _ => [] end
  | CORM_BLOB =>
      match u_as_blob (v_u v) with Some (PHeap l, _) => [l] | _ => [] end
  | _ => []
  end.

Definition owned (ps : list corm_value) : list loc := concat (map owned_of ps).

(** A bound parameter's pointer is NULL or owned. *)
Definition param_wf (v : corm_value) : Prop :=
  match v_type v with
  | CORM_TEXT | CORM_STRING =>
      exists p, u_as_s (v_u v) = Some p /\ (p = PNull \/ exists l, p = PHeap l)
  | CORM_BLOB =>
      exists p n, u_as_blob (v_u v) = Some (p, n) /\ (p = PNull \/ exists l, p = PHeap l)
  | _ => True
  end.

(** A value the caller may bind: its pointer is NULL or readable, and a blob
    with a pointer is not empty. *)
Definition bindable (h : gmap loc block) (v : corm_value) : Prop :=
  match v_type v with
  | CORM_TEXT | CORM_STRING =>
      exists p, u_as_s (v_u v) = Some p /\ (p = PNull \/ is_Some (read_cstr h p))
  | CORM_BLOB =>
      exists p n, u_as_blob (v_u v) = Some (p, n) /\
        (p = PNull \/ 0 < n /\ is_Some (read_bytes h p n))
  | _ => True
  end.

(** The heap is the caller's part [base] and the blocks in [ls]. *)
Definition heap_split (h base : gmap loc block) (ls : list loc) : Prop :=
  NoDup ls /\ (forall l, l ∈ ls -> is_Some (h !! l)) /\
  forall l, base !! l = if decide (l ∈ ls) then None else h !! l.

Lemma heap_split_le h base ls : heap_split h base ls -> heap_le base h.
Proof. intros (_ & _ & H) l b. rewrite H. by case_decide. Qed.

Lemma heap_split_new h base ls l b :
  heap_split h base ls -> h !! l = None -> heap_split (<[l := b]> h) base (ls ++ [l]).
Proof.
  intros (Hn & Hin & Hb) Hl.
  assert (Hni : l ∉ ls) by (intros [? ?]%Hin; congruence).
  split; [|split].
  - apply NoDup_app. split; [done|]. split; [|apply NoDup_singleton].
    intros k Hk ->%list_elem_of_singleton. done.
  - intros k [Hk| ->%list_elem_of_singleton]%elem_of_app.
    + rewrite lookup_insert_ne by congruence. auto.
    + rewrite lookup_insert_eq. eauto.
  - intros k. rewrite Hb. destruct (decide (k = l)) as [->|Hne].
    + rewrite !decide_False by done. rewrite decide_True by (apply elem_of_app; right; apply list_elem_of_here). done.
    + rewrite lookup_insert_ne by done.
      assert (k ∈ ls ++ [l] <-> k ∈ ls).
      { rewrite elem_of_app, list_elem_of_singleton. split; [by intros [?|?]|by left]. }
      destruct (decide (k ∈ ls)), (decide (k ∈ ls ++ [l])); tauto.
Qed.

Section spec.
Context {S : Type}.
Implicit Types (w : world S) (q : query S).

(** *** Binding *)

(** Deep copy with memory available: the value is unchanged, what it points to
    is a private block. *)
Lemma deep_copy_spec v x base ls w :
  plenty w -> heap_wf w -> heap_split (w_heap w) base ls ->
  bindable base v -> resolve base v = Some x ->
  exists v' w', corm_param_deep_copy v w = Ret v' w' /\
    plenty w' /\ heap_wf w' /\ w_db w' = w_db w /\ heap_le (w_heap w) (w_heap w') /\
    heap_split (w_heap w') base (ls ++ owned_of v') /\ param_wf v' /\
    resolve (w_heap w') v' = Some x.
Proof.
  intros Hp Hwf Hsp Hb Hx. pose proof (heap_split_le _ _ _ Hsp) as Hle.
  pose proof (heap_wf_fresh w Hwf) as Hfr.
  pose proof (resolve_mono _ _ _ _ Hle Hx) as Hxw.
  assert (Hid : forall v', v' = v -> owned_of v = [] -> param_wf v ->
    exists v'' w', Ret v' w = Ret v'' w' /\
    plenty w' /\ heap_wf w' /\ w_db w' = w_db w /\ heap_le (w_heap w) (w_heap w') /\
    heap_split (w_heap w') base (ls ++ owned_of v'') /\ param_wf v'' /\
    resolve (w_heap w') v'' = Some x).
  { intros v' -> Ho Hw. exists v, w. rewrite Ho, app_nil_r. do 4 (split; [done|]).
    by split; [apply heap_le_refl|]. }
  assert (Hnew : forall b,
    heap_wf (World (w_oracle w) (<[w_next w := b]> (w_heap w)) (Pos.succ (w_next w)) (w_db w)) /\
    heap_le (w_heap w) (<[w_next w := b]> (w_heap w)) /\
    heap_split (<[w_next w := b]> (w_heap w)) base (ls ++ [w_next w])).
  { intros b. split; [|split].
    - intros l. simpl. destruct (decide (l = w_next w)) as [->|Hne]; [lia|].
      rewrite lookup_insert_ne by done. intros Hl. pose proof (Hwf l Hl). lia.
    - intros l b' Hl. rewrite lookup_insert_ne; [done|]. intros <-. congruence.
    - by apply heap_split_new. }
  unfold corm_param_deep_copy, bindable, owned_of, param_wf in *. unfold resolve in Hx.
  destruct (v_type v) eqn:Et; try (by apply Hid).
  1, 2: destruct Hb as (p & Hs & Hb); rewrite Hs; run; case_decide as Hpn;
    [subst p; apply Hid; [done|by rewrite Hs|eauto]|];
    destruct Hb as [->|[s Hrd]]; [done|];
    pose proof (read_cstr_mono _ _ _ _ Hle Hrd) as Hrw;
    destruct (strdup_ok p s w Hp Hwf Hrw) as (w' & E & Hp' & Hwf' & Hh & Hn & Hd);
    run_with E; eexists _, w'; (split; [done|]); simpl; rewrite Hh;
    destruct (Hnew (BStr s)) as (_ & ? & ?);
    repeat (split; [done|]); (split; [eauto|]);
    unfold resolve; simpl; rewrite Hs in Hx; simpl in Hx;
    (destruct (v_is_null v); [done|]); rewrite decide_False in Hx by done;
    rewrite Hrd in Hx; simpl in *; by rewrite lookup_insert_eq.
  destruct Hb as (p & n & Hs & Hb). rewrite Hs. run.
  destruct Hb as [->|[Hn [bs Hrd]]].
  { rewrite bool_decide_true by done. simpl. apply Hid; [done|by rewrite Hs|eauto]. }
  destruct (decide (p = PNull)) as [->|Hpn]; [done|].
  rewrite bool_decide_false by done. destruct (Z.ltb_spec 0 n); [|lia]. simpl.
  pose proof (read_bytes_mono _ _ _ _ _ Hle Hrd) as Hrw.
  run_with (read_blob_ok p n bs w Hrw). unfold malloc. rewrite bind_assoc.
  run_with (malloc_ok_plenty w Hp). eexists _, _. split; [done|].
  destruct (Hnew (BBytes bs)) as (? & ? & ?).
  repeat (split; [done|]). split; [eexists _, _; split; [done|eauto]|].
  unfold resolve; simpl. rewrite Hs in Hx. simpl in Hx. destruct (v_is_null v); [done|].
  rewrite decide_False in Hx by done. rewrite Hrd in Hx. simpl.
  rewrite lookup_insert_eq. simpl in *.
  by rewrite (take_bytes_all _ _ (read_bytes_size _ _ _ _ Hrd)).
Qed.

(** *** Releasing *)

Lemma heap_split_free h base ls l :
  heap_split h base (l :: ls) -> heap_split (delete l h) base ls.
Proof.
  intros (Hn & Hin & Hb). apply NoDup_cons in Hn as [Hl Hn]. split; [done|]. split.
  - intros k Hk. rewrite lookup_delete_ne by congruence.
    apply Hin. by apply list_elem_of_further.
  - intros k. rewrite Hb. destruct (decide (k = l)) as [->|Hne].
    + rewrite decide_True by apply list_elem_of_here. rewrite decide_False by done.
      by rewrite lookup_delete_eq.
    + rewrite lookup_delete_ne by done.
      assert (k ∈ l :: ls <-> k ∈ ls).
      { rewrite elem_of_cons. split; [by intros [?|?]|by right]. }
      destruct (decide (k ∈ ls)), (decide (k ∈ l :: ls)); tauto.
Qed.

Lemma heap_split_nil h base : heap_split h base [] -> h = base.
Proof.
  intros (_ & _ & Hb). apply map_eq. intros l. rewrite Hb.
  by rewrite decide_False by apply not_elem_of_nil.
Qed.

Lemma param_free_spec v base ls w :
  param_wf v -> heap_split (w_heap w) base (owned_of v ++ ls) ->
  exists h, corm_param_free v w = Ret tt (set_heap h w) /\ heap_split h base ls.
Proof.
  unfold param_wf, owned_of, corm_param_free. intros Hw Hs.
  assert (Hid : heap_split (w_heap w) base ls ->
    exists h, Ret tt w = Ret tt (set_heap h w) /\ heap_split h base ls).
  { intros H. exists (w_heap w). split; [by destruct w|done]. }
  assert (Hde : forall l, heap_split (w_heap w) base (l :: ls) ->
    exists h, dealloc l w = Ret tt (set_heap h w) /\ heap_split h base ls).
  { intros l H. unfold dealloc. destruct H as (Hn & Hin & Hb).
    destruct (Hin l (list_elem_of_here _ _)) as [b Hl]. rewrite Hl.
    eexists. split; [done|]. by apply heap_split_free. }
  destruct (v_type v); try (by apply Hid).
  3: destruct Hw as (p & n & Hp & Hw).
  1, 2: destruct Hw as (p & Hp & Hw).
  all: rewrite Hp in Hs |- *; destruct Hw as [->|[l ->]]; run; [by apply Hid|by apply Hde].
Qed.

(** Freeing the parameters gives back exactly the caller's heap. *)
Lemma free_params_spec ps base w :
  Forall param_wf ps -> heap_split (w_heap w) base (owned ps) ->
  free_params ps w = Ret tt (set_heap base w).
Proof.
  unfold free_params. revert w. induction ps as [|v ps IH]; intros w Hw Hs.
  - apply heap_split_nil in Hs as <-. by destruct w.
  - apply Forall_cons in Hw as [Hv Hw]. cbn [for_each].
    destruct (param_free_spec v base (owned ps) w Hv Hs) as (h & E & Hs').
    run_with E. by rewrite (IH (set_heap h w)).
Qed.

(** ** Queries *)

(** [q] in world [w] stands for [a]; [base] is the part of the heap that is
    not the query's. *)
Record q_repr q w (base : gmap loc block) (a : aquery) : Prop := {
  qr_clauses : clauses_repr q a;
  qr_split : heap_split (w_heap w) base (owned (q_params q));
  qr_wf : Forall param_wf (q_params q);
  qr_vals : Forall2 (fun v x => resolve (w_heap w) v = Some x) (q_params q) (a_params a);
  qr_cap : Z.of_nat (length (q_params q)) <= q_param_cap q <= 2 ^ 30;
  qr_heap : heap_wf w
}.

(** Number of parameters the code can count and number. *)
Definition params_ok (a : aquery) : Prop := Z.of_nat (length (a_params a)) <= 2 ^ 29.

Lemma qr_count q w base a : q_repr q w base a -> q_param_count q = Z.of_nat (length (a_params a)).
Proof. intros [_ _ _ Hv _ _]. unfold q_param_count. by rewrite (Forall2_length _ _ _ Hv). Qed.

Definition add_param (x : sqlval) (a : aquery) : aquery :=
  AQuery (a_op a) (a_select a) (a_where a) (a_order a) (a_group a) (a_having a) (a_joins a)
    (a_set a) (a_params a ++ [x]) (a_limit a) (a_offset a) (a_unscoped a) (a_distinct a)
    (a_preload a).

Lemma clauses_set_params q a ps : clauses_repr q a -> clauses_repr (set_q_params ps q) a.
Proof. by destruct q; intros []; constructor. Qed.

Lemma clauses_set_cap q a c : clauses_repr q a -> clauses_repr (set_q_cap c q) a.
Proof. by destruct q; intros []; constructor. Qed.

Lemma clauses_add_param q a x : clauses_repr q a -> clauses_repr q (add_param x a).
Proof. by intros []; constructor. Qed.

Lemma bind_spec q v x base a w :
  plenty w -> q_repr q w base a -> bindable base v -> resolve base v = Some x ->
  params_ok (add_param x a) ->
  exists q' w', corm_query_bind (Some q) v w = Ret (Some q') w' /\
    q_repr q' w' base (add_param x a) /\ plenty w' /\ w_db w' = w_db w /\
    q_db q' = q_db q /\ q_model q' = q_model q.
Proof.
  intros Hp [Hc Hs Hw Hv Hcap Hwf] Hb Hx Hn.
  unfold params_ok in Hn. simpl in Hn. rewrite length_app in Hn. simpl in Hn.
  rewrite <- (Forall2_length _ _ _ Hv) in Hn.
  destruct (deep_copy_spec v x base _ w Hp Hwf Hs Hb Hx)
    as (v' & w' & E & Hp' & Hwf' & Hd & Hle & Hs' & Hpw & Hx').
  unfold corm_query_bind. cbn zeta.
  assert (Hroom : forall c, Z.of_nat (length (q_params q)) < c <= 2 ^ 30 ->
    exists q'' w'', (val ← corm_param_deep_copy v;
       if q_param_count (set_q_cap c q) <? q_param_cap (set_q_cap c q)
       then mret (Some (set_q_params (q_params (set_q_cap c q) ++ [val]) (set_q_cap c q)))
       else stuck) w = Ret (Some q'') w'' /\
    q_repr q'' w'' base (add_param x a) /\ plenty w'' /\ w_db w'' = w_db w /\
    q_db q'' = q_db q /\ q_model q'' = q_model q).
  { intros c Hcc. run_with E.
    assert (q_param_count (set_q_cap c q) = Z.of_nat (length (q_params q)) /\
            q_param_cap (set_q_cap c q) = c /\ q_params (set_q_cap c q) = q_params q)
      as (-> & -> & ->) by by destruct q.
    destruct (Z.ltb_spec (Z.of_nat (length (q_params q))) c); [|lia].
    eexists _, w'. split; [done|].
    split; [|repeat (split; [done|]); by destruct q].
    assert (q_params (set_q_params (q_params q ++ [v']) (set_q_cap c q)) = q_params q ++ [v'] /\
            q_param_cap (set_q_params (q_params q ++ [v']) (set_q_cap c q)) = c)
      as [Ep Ec] by by destruct q.
    constructor; rewrite ?Ep, ?Ec; [| | | | |done].
    - by apply clauses_add_param, clauses_set_params, clauses_set_cap.
    - unfold owned. rewrite map_app, concat_app. simpl. by rewrite app_nil_r.
    - apply Forall_app. split; [done|]. by apply Forall_singleton.
    - apply Forall2_app; [|by apply Forall2_cons].
      eapply Forall2_impl; [exact Hv|]. intros u y Hu. by eapply resolve_mono.
    - rewrite length_app. simpl. lia. }
  unfold q_param_count in Hroom |- *.
  destruct (Z.leb_spec (q_param_cap q) (Z.of_nat (length (q_params q)))).
  - run_with (malloc_ok_plenty w Hp). apply Hroom.
    destruct (Z.eqb_spec (q_param_cap q) 0); [lia|].
    rewrite wrap_i32_id by (unfold in_i32; lia). lia.
  - destruct (Hroom (q_param_cap q)) as (q'' & w'' & E' & H'); [lia|].
    exists q'', w''. split; [|done]. rewrite <- E'. by destruct q.
Qed.
End spec.

(** ** Scripts of builder calls *)

Inductive qop : Type :=
  | QOp (op : corm_query_op_t)
  | QSelect (columns : string)
  | QWhere (condition : string)
  | QOrWhere (condition : string)
  | QWhereNull (field : string)
  | QWhereNotNull (field : string)
  | QWhereIn (field : string) (vals : list corm_value) (count : Z)
  | QBetween (field : string) (lo hi : corm_value)
  | QJoin (clause : string)
  | QOrder (clause : string)
  | QGroup (clause : string)
  | QHaving (clause : string)
  | QLimit (n : Z)
  | QOffset (n : Z)
  | QBind (v : corm_value)
  | QSet (field : string) (v : corm_value)
  | QSetRaw (clause : string)
  | QUnscoped
  | QDistinct
  | QPreload (relation : string)
  | QReset.

Definition exec_qop {S} (o : qop) (q : option (query S)) : M S (option (query S)) :=
  match o with
  | QOp op => corm_query_op q op
  | QSelect c => corm_query_select q (Some c)
  | QWhere c => corm_query_where q (Some c)
  | QOrWhere c => corm_query_or_where q (Some c)
  | QWhereNull f => corm_query_where_null q (Some f)
  | QWhereNotNull f => corm_query_where_not_null q (Some f)
  | QWhereIn f vs n => corm_query_where_in q (Some f) (Some vs) n
  | QBetween f lo hi => corm_query_where_between q (Some f) lo hi
  | QJoin c => corm_query_join q (Some c)
  | QOrder c => corm_query_order q (Some c)
  | QGroup c => corm_query_group q (Some c)
  | QHaving c => corm_query_having q (Some c)
  | QLimit n => corm_query_limit q n
  | QOffset n => corm_query_offset q n
  | QBind v => corm_query_bind q v
  | QSet f v => corm_query_set q (Some f) v
  | QSetRaw c => corm_query_set_raw q (Some c)
  | QUnscoped => corm_query_unscoped q
  | QDistinct => corm_query_distinct q
  | QPreload r => corm_query_preload q (Some r)
  | QReset => corm_query_reset q
  end.

Fixpoint exec_qops {S} (os : list qop) (q : option (query S)) : M S (option (query S)) :=
  match os with
  | [] => mret q
  | o :: os' => q ← exec_qop o q; exec_qops os' q
  end.

(** *** The abstract effect *)

Section asetters.
Definition a_set_op op '(AQuery _ sc wh od gr hv jn st ps li off un di pr) :=
  AQuery op sc wh od gr hv jn st ps li off un di pr.
Definition a_set_select sc '(AQuery op _ wh od gr hv jn st ps li off un di pr) :=
  AQuery op sc wh od gr hv jn st ps li off un di pr.
Definition a_set_where wh '(AQuery op sc _ od gr hv jn st ps li off un di pr) :=
  AQuery op sc wh od gr hv jn st ps li off un di pr.
Definition a_set_order od '(AQuery op sc wh _ gr hv jn st ps li off un di pr) :=
  AQuery op sc wh od gr hv jn st ps li off un di pr.
Definition a_set_group gr '(AQuery op sc wh od _ hv jn st ps li off un di pr) :=
  AQuery op sc wh od gr hv jn st ps li off un di pr.
Definition a_set_having hv '(AQuery op sc wh od gr _ jn st ps li off un di pr) :=
  AQuery op sc wh od gr hv jn st ps li off un di pr.
Definition a_set_joins jn '(AQuery op sc wh od gr hv _ st ps li off un di pr) :=
  AQuery op sc wh od gr hv jn st ps li off un di pr.
Definition a_set_set st '(AQuery op sc wh od gr hv jn _ ps li off un di pr) :=
  AQuery op sc wh od gr hv jn st ps li off un di pr.
Definition a_set_limit li '(AQuery op sc wh od gr hv jn st ps _ off un di pr) :=
  AQuery op sc wh od gr hv jn st ps li off un di pr.
Definition a_set_offset off '(AQuery op sc wh od gr hv jn st ps li _ un di pr) :=
  AQuery op sc wh od gr hv jn st ps li off un di pr.
Definition a_set_unscoped un '(AQuery op sc wh od gr hv jn st ps li off _ di pr) :=
  AQuery op sc wh od gr hv jn st ps li off un di pr.
Definition a_set_distinct di '(AQuery op sc wh od gr hv jn st ps li off un _ pr) :=
  AQuery op sc wh od gr hv jn st ps li off un di pr.
Definition a_set_preload pr '(AQuery op sc wh od gr hv jn st ps li off un di _) :=
  AQuery op sc wh od gr hv jn st ps li off un di pr.
End asetters.

Definition aquery_empty : aquery :=
  AQuery CORM_OP_SELECT "" "" "" "" "" "" "" [] 0 0 false false "".

(** [sep] between what is there and what is added. *)
Definition joined (sep old new : string) : string := old +:+ (when (nonempty old) sep +:+ new).

(** The value a bound [v] contributes; [None]: not a value the caller may bind. *)
Definition bind_val (h : gmap loc block) (v : corm_value) : option sqlval :=
  match v_type v with
  | CORM_TEXT | CORM_STRING =>
      p ← u_as_s (v_u v);
      if decide (p = PNull) then resolve h v
      else _ ← read_cstr h p; resolve h v
  | CORM_BLOB =>
      '(p, n) ← u_as_blob (v_u v);
      if decide (p = PNull) then resolve h v
      else if 0 <? n then _ ← read_bytes h p n; resolve h v else None
  | _ => resolve h v
  end.

(** One more value in the WHERE clause, written as the next placeholder. *)
Definition awhere_param (bt : corm_backend_type) (x : sqlval) (a : aquery) : aquery :=
  add_param x (a_set_where
    (a_where a +:+ placeholder bt (Z.of_nat (length (a_params a)))) a).

Fixpoint awhere_list (bt : corm_backend_type) (first : bool) (xs : list sqlval) (a : aquery) :
    aquery :=
  match xs with
  | [] => a
  | x :: xs' =>
      let a := a_set_where (a_where a +:+ when (negb first) ", ") a in
      awhere_list bt false xs' (awhere_param bt x a)
  end.

Definition astep (h : gmap loc block) (bt : corm_backend_type) (o : qop) (a : aquery) :
    option aquery :=
  match o with
  | QOp op => Some (a_set_op op a)
  | QSelect c => Some (a_set_select c a)
  | QWhere c => Some (a_set_where (joined " AND " (a_where a) c) a)
  | QOrWhere c => Some (a_set_where (joined " OR " (a_where a) c) a)
  | QWhereNull f =>
      if corm_is_valid_identifier (Some f)
      then Some (a_set_where (joined " AND " (a_where a) (f +:+ " IS NULL")) a) else Some a
  | QWhereNotNull f =>
      if corm_is_valid_identifier (Some f)
      then Some (a_set_where (joined " AND " (a_where a) (f +:+ " IS NOT NULL")) a) else Some a
  | QWhereIn f vs n =>
      if (n <=? 0) || negb (corm_is_valid_identifier (Some f)) then Some a
      else
        vs ← first_vals vs n;
        xs ← mapM (bind_val h) vs;
        let a := a_set_where (joined " AND " (a_where a) (f +:+ " IN (")) a in
        let a := awhere_list bt true xs a in
        Some (a_set_where (a_where a +:+ ")") a)
  | QBetween f lo hi =>
      if corm_is_valid_identifier (Some f) then
        x ← bind_val h lo;
        y ← bind_val h hi;
        let a := a_set_where (joined " AND " (a_where a) (f +:+ " BETWEEN ")) a in
        let a := awhere_param bt x a in
        let a := a_set_where (a_where a +:+ " AND ") a in
        Some (awhere_param bt y a)
      else Some a
  | QJoin c => Some (a_set_joins (a_joins a +:+ c) a)
  | QOrder c => Some (a_set_order c a)
  | QGroup c => Some (a_set_group c a)
  | QHaving c => Some (a_set_having c a)
  | QLimit n => Some (a_set_limit n a)
  | QOffset n => Some (a_set_offset n a)
  | QBind v => x ← bind_val h v; Some (add_param x a)
  | QSet f v =>
      if corm_is_valid_identifier (Some f) then
        x ← bind_val h v;
        let st := joined ", " (a_set a)
          (quoted bt f +:+ (" = " +:+ placeholder bt (Z.of_nat (length (a_params a))))) in
        Some (a_set_op CORM_OP_UPDATE (add_param x (a_set_set st a)))
      else Some a
  | QSetRaw c => Some (a_set_op CORM_OP_UPDATE (a_set_set c a))
  | QUnscoped => Some (a_set_unscoped true a)
  | QDistinct => Some (a_set_distinct true a)
  | QPreload r =>
      if corm_is_valid_identifier (Some r)
      then Some (a_set_preload (c_snprintf 64 r) a) else Some a
  | QReset => Some (a_set_unscoped (a_unscoped a) aquery_empty)
  end.

(** *** Size limits, as a test *)

Definition clause_okb (s : string) : bool := no_nul s && (slen s <=? 2 ^ 29).

Definition aquery_okb (a : aquery) : bool :=
  clause_okb (a_select a) && clause_okb (a_where a) && clause_okb (a_order a) &&
  clause_okb (a_group a) && clause_okb (a_having a) && clause_okb (a_joins a) &&
  clause_okb (a_set a) &&
  ((- 2 ^ 31 <=? a_limit a) && (a_limit a <? 2 ^ 31)) &&
  ((- 2 ^ 31 <=? a_offset a) && (a_offset a <? 2 ^ 31)) &&
  (Z.of_nat (length (a_params a)) <=? 2 ^ 29).

(** Run a script; [None]: a value is not readable or a size limit is passed. *)
Fixpoint asteps (h : gmap loc block) (bt : corm_backend_type) (os : list qop) (a : aquery) :
    option aquery :=
  match os with
  | [] => Some a
  | o :: os' =>
      a' ← astep h bt o a;
      if aquery_okb a' then asteps h bt os' a' else None
  end.

Lemma clause_okb_spec s : clause_okb s = true -> clause_ok s.
Proof. intros [H1 H2]%andb_prop. apply Z.leb_le in H2. by split. Qed.

Lemma aquery_okb_spec a : aquery_okb a = true -> aquery_ok a /\ params_ok a.
Proof.
  unfold aquery_okb, params_ok. rewrite !andb_true_iff, !Z.leb_le, !Z.ltb_lt. intros H.
  destruct_and!. split; [|done].
  constructor; try (by apply clause_okb_spec); by split.
Qed.

Lemma bind_val_spec h v x : bind_val h v = Some x -> bindable h v /\ resolve h v = Some x.
Proof.
  unfold bind_val, bindable. intros Hb. destruct (v_type v); try done.
  1, 2: destruct (u_as_s (v_u v)) as [p|]; [|done]; simpl in Hb;
    destruct (decide (p = PNull)) as [->|]; [by eauto|];
    destruct (read_cstr h p) as [s|] eqn:E; [|done]; simpl in Hb;
    split; [exists p; split; [done|]; right; by rewrite E|done].
  destruct (u_as_blob (v_u v)) as [[p n]|]; [|done]. simpl in Hb.
  destruct (decide (p = PNull)) as [->|]; [by eauto 10|].
  destruct (Z.ltb_spec 0 n); [|done].
  destruct (read_bytes h p n) as [bs|] eqn:E; [|done]. simpl in Hb.
  split; [exists p, n; split; [done|]; right; by rewrite E|done].
Qed.
