(* ===== verification/Columns.v ===== *)
(** * Arrays of column descriptions ([corm_column_info_t])

    Who owns what in the array that [describe_table] hands out, and that
    [corm_column_info_free] gives all of it back. *)

From S2P Require Import Prelude Types Mem Backend Query QuerySpec.

(** ** Owned texts *)

(** A member that [free] accepts: NULL or a block. *)
Definition owned_ptr (p : cptr) : Prop := p = PNull \/ exists l, p = PHeap l.

Definition ptr_blocks (p : cptr) : list loc := match p with PHeap l => [l] | _ => [] end.

Definition column_ptrs (c : corm_column_info) : list cptr :=
  [ci_name c; ci_type_name c; ci_default_value c].

Definition column_blocks (c : corm_column_info) : list loc := concat (map ptr_blocks (column_ptrs c)).

Definition columns_blocks (cols : list corm_column_info) : list loc :=
  concat (map column_blocks cols).

Definition column_wf (c : corm_column_info) : Prop := Forall owned_ptr (column_ptrs c).

(** [l] holds the array [cols]; the rest of the heap is [base] and the texts of
    the columns. *)
Record columns_at (hp : gmap loc block) (l : loc) (cols : list corm_column_info)
    (base : gmap loc block) : Prop := {
  ca_load : hp !! l = Some (BCols cols);
  ca_split : heap_split hp base (columns_blocks cols ++ [l]);
  ca_wf : Forall column_wf cols
}.

(** The columns are called [names]. *)
Definition columns_named (hp : gmap loc block) (cols : list corm_column_info) (names : list string) :
    Prop := Forall2 (fun c n => read_cstr hp (ci_name c) = Some n) cols names.

Section spec.
Context {S : Type}.
Implicit Types (w : world S).

Lemma get_columns_ok l cols w :
  w_heap w !! l = Some (BCols cols) -> get_columns l w = Ret cols w.
Proof. intros Hl. unfold get_columns, load, mbind, M_bind. by rewrite Hl. Qed.

Lemma column_at_ok l cols i c w :
  w_heap w !! l = Some (BCols cols) -> cols !! i = Some c -> column_at l i w = Ret c w.
Proof. intros Hl Hc. unfold column_at. run_with (get_columns_ok l cols w Hl). by rewrite Hc. Qed.

(** ** Freeing *)

Lemma free_owned p base ls w :
  owned_ptr p -> heap_split (w_heap w) base (ptr_blocks p ++ ls) ->
  exists h, free p w = Ret tt (set_heap h w) /\ heap_split h base ls /\
    forall k, k ∈ ls -> h !! k = w_heap w !! k.
Proof.
  intros [->|[lo ->]] Hs; cbn in *.
  - exists (w_heap w). by destruct w.
  - pose proof Hs as (Hn & Hin & _). destruct (Hin lo (list_elem_of_here _ _)) as [b Hb].
    exists (delete lo (w_heap w)). unfold dealloc. rewrite Hb. split; [done|].
    split; [by apply heap_split_free|]. intros k Hk. apply lookup_delete_ne. intros <-.
    by apply NoDup_cons in Hn as [Hn _].
Qed.

Lemma free_columns_ok l cols i base ls w :
  w_heap w !! l = Some (BCols cols) -> l ∈ ls -> Forall column_wf cols ->
  heap_split (w_heap w) base (columns_blocks (drop i cols) ++ ls) ->
  exists h, free_columns l i (length (drop i cols)) w = Ret tt (set_heap h w) /\ heap_split h base ls.
Proof.
  intros Hl Hin Hwf. remember (drop i cols) as todo eqn:Ht. revert i Ht w Hl.
  induction todo as [|c todo IH]; intros i Ht w Hl Hs.
  { exists (w_heap w). split; [by destruct w|done]. }
  assert (Hc : cols !! i = Some c) by by rewrite <- (Nat.add_0_r i), <- lookup_drop, <- Ht.
  cbn [length free_columns]. run_with (column_at_ok l cols i c w Hl Hc).
  rewrite Forall_forall in Hwf. pose proof (Hwf c (list_elem_of_lookup_2 _ _ _ Hc)) as Hcw.
  apply Forall_cons in Hcw as [H1 [H2 [H3 _]%Forall_cons]%Forall_cons].
  unfold columns_blocks in Hs. cbn [map concat] in Hs. unfold column_blocks at 1 in Hs.
  cbn [column_ptrs map concat] in Hs. rewrite app_nil_r, <- !app_assoc in Hs.
  destruct (free_owned (ci_name c) base _ w H1 Hs) as (h1 & E1 & Hs1 & K1). run_with E1.
  destruct (free_owned (ci_type_name c) base _ (set_heap h1 w) H2 Hs1) as (h2 & E2 & Hs2 & K2).
  run_with E2.
  destruct (free_owned (ci_default_value c) base _ (set_heap h2 (set_heap h1 w)) H3 Hs2)
    as (h3 & E3 & Hs3 & K3). run_with E3.
  destruct (IH (Datatypes.S i)) with (w := set_heap h3 w) as (h4 & E4 & Hs4); [| |exact Hs3|by exists h4].
  - rewrite (drop_S _ _ _ Hc) in Ht. by injection Ht.
  - cbn in *. rewrite K3, K2, K1; [done|..]; rewrite ?elem_of_app; auto 6.
Qed.

(** [corm_column_info_free] of an array gives everything back. *)
Lemma column_info_free_ok l cols base w :
  columns_at (w_heap w) l cols base ->
  corm_column_info_free (Some l) (Z.of_nat (length cols)) w = Ret tt (set_heap base w).
Proof.
  intros [Hl Hs Hwf]. unfold corm_column_info_free. rewrite Nat2Z.id.
  destruct (free_columns_ok l cols 0 base [l] w) as (h & E & Hh); [done|set_solver|done|done|].
  run_with E. unfold dealloc. pose proof Hh as (_ & Hin & _).
  destruct (Hin l (list_elem_of_here _ _)) as [b Hb]. cbn. rewrite Hb.
  apply heap_split_free in Hh. apply heap_split_nil in Hh. cbn in Hh. by rewrite <- Hh.
Qed.
End spec.
