(* ===== verification/QueryRefine.v ===== *)
(** * Builder calls refine the abstract steps

    For every builder call: with memory available, the call returns the query
    pointer, and the query stands for the result of [astep]. *)

From S2P Require Import Prelude Types Mem Strbuf Dialect Model Backend Query Builder BuilderSpec.
From S2P Require Import QuerySpec.

(** Close a size side condition: the pieces of a text are not longer than it. *)
Ltac fits_arith :=
  unfold fits, clause_ok, joined in *;
  rewrite ?slen_app in *;
  repeat match goal with
  | |- context [slen ?s] =>
      lazymatch goal with
      | _ : 0 <= slen s |- _ => fail
      | _ => pose proof (slen_nonneg s)
      end
  | _ : context [slen ?s] |- _ =>
      lazymatch goal with
      | _ : 0 <= slen s |- _ => fail
      | _ => pose proof (slen_nonneg s)
      end
  end; lia.
Ltac fits_tac := first [fits_arith | cbn; fits_arith].

Section setters.
Context {S : Type}.
Implicit Types (q : query S).

Ltac solve_setter q := destruct q; intros []; constructor; simpl in *; auto.

Lemma cs_op q a op : clauses_repr q a -> clauses_repr (set_q_op op q) (a_set_op op a).
Proof. destruct a; solve_setter q. Qed.
Lemma cs_select q a sb s :
  clauses_repr q a -> sb_repr sb s -> clauses_repr (set_q_select sb q) (a_set_select s a).
Proof. destruct a; solve_setter q. Qed.
Lemma cs_where q a sb s :
  clauses_repr q a -> sb_repr sb s -> clauses_repr (set_q_where sb q) (a_set_where s a).
Proof. destruct a; solve_setter q. Qed.
Lemma cs_order q a sb s :
  clauses_repr q a -> sb_repr sb s -> clauses_repr (set_q_order sb q) (a_set_order s a).
Proof. destruct a; solve_setter q. Qed.
Lemma cs_group q a sb s :
  clauses_repr q a -> sb_repr sb s -> clauses_repr (set_q_group sb q) (a_set_group s a).
Proof. destruct a; solve_setter q. Qed.
Lemma cs_having q a sb s :
  clauses_repr q a -> sb_repr sb s -> clauses_repr (set_q_having sb q) (a_set_having s a).
Proof. destruct a; solve_setter q. Qed.
Lemma cs_joins q a sb s :
  clauses_repr q a -> sb_repr sb s -> clauses_repr (set_q_joins sb q) (a_set_joins s a).
Proof. destruct a; solve_setter q. Qed.
Lemma cs_set q a sb s :
  clauses_repr q a -> sb_repr sb s -> clauses_repr (set_q_set sb q) (a_set_set s a).
Proof. destruct a; solve_setter q. Qed.
Lemma cs_limit q a n : clauses_repr q a -> clauses_repr (set_q_limit n q) (a_set_limit n a).
Proof. destruct a; solve_setter q. Qed.
Lemma cs_offset q a n : clauses_repr q a -> clauses_repr (set_q_offset n q) (a_set_offset n a).
Proof. destruct a; solve_setter q. Qed.
Lemma cs_unscoped q a b :
  clauses_repr q a -> clauses_repr (set_q_unscoped b q) (a_set_unscoped b a).
Proof. destruct a; solve_setter q. Qed.
Lemma cs_distinct q a b :
  clauses_repr q a -> clauses_repr (set_q_distinct b q) (a_set_distinct b a).
Proof. destruct a; solve_setter q. Qed.
Lemma cs_preload q a r :
  clauses_repr q a -> clauses_repr (set_q_preload r q) (a_set_preload r a).
Proof. destruct a; solve_setter q. Qed.

(** Same parameters and the same connection. *)
Definition same_params q q' : Prop :=
  q_params q' = q_params q /\ q_param_cap q' = q_param_cap q /\
  q_db q' = q_db q /\ q_model q' = q_model q.

Lemma q_repr_update q q' w base a a' :
  q_repr q w base a -> clauses_repr q' a' -> same_params q q' -> a_params a' = a_params a ->
  q_repr q' w base a'.
Proof.
  intros [] Hc (Hp & Hcap & _) Ha. constructor; rewrite ?Hp, ?Hcap, ?Ha; done.
Qed.
End setters.

Create HintDb setters discriminated.
#[export] Hint Resolve cs_op cs_select cs_where cs_order cs_group cs_having cs_joins cs_set
  cs_limit cs_offset cs_unscoped cs_distinct cs_preload : setters.

Section steps.
Context {S : Type}.
Implicit Types (q : query S) (w : world S).

(** [q'] in [w'] stands for [a'] and shares the connection of [q]. *)
Definition post q w base a' q' w' : Prop :=
  q_repr q' w' base a' /\ plenty w' /\ w_db w' = w_db w /\
  q_db q' = q_db q /\ q_model q' = q_model q.

(** [m] succeeds in [w] and its result stands for [a']. *)
Definition step_ok (m : M S (option (query S))) q w base a' : Prop :=
  exists q' w', m w = Ret (Some q') w' /\ post q w base a' q' w'.

Lemma post_trans q w base a1 q1 w1 a2 q2 w2 :
  post q w base a1 q1 w1 -> post q1 w1 base a2 q2 w2 -> post q w base a2 q2 w2.
Proof. intros (? & ? & ? & ? & ?) (? & ? & ? & ? & ?). unfold post. split_and!; try done; congruence. Qed.

Lemma step_bind {A} (m : M S A) (k : A -> M S (option (query S))) x q w base a1 q1 w1 a2 :
  m w = Ret x w1 -> post q w base a1 q1 w1 -> step_ok (k x) q1 w1 base a2 ->
  step_ok (m ≫= k) q w base a2.
Proof.
  intros E H (q2 & w2 & E2 & H2). exists q2, w2. split; [by run_with E|].
  by eapply post_trans.
Qed.

Lemma writes_at (m : strbuf -> M S strbuf) x sb s w :
  writes m x -> plenty w -> sb_repr sb s -> fits (s +:+ x) ->
  exists sb', m sb w = Ret sb' w /\ sb_repr sb' (s +:+ x).
Proof.
  intros Hm Hp Hr Hf. destruct (Hm sb s w Hr Hf) as (sb' & y & w' & E & Hr' & _ & Ha & Hy).
  rewrite (Hy Hp) in Hr'. rewrite (alloc_only_plenty _ _ Ha Hp) in E. eauto.
Qed.

Lemma sb_sep_at sep sb s w :
  plenty w -> sb_repr sb s -> fits (s +:+ when (nonempty s) sep) ->
  exists sb', sb_sep sb sep w = Ret sb' w /\ sb_repr sb' (s +:+ when (nonempty s) sep).
Proof.
  intros Hp Hr Hf. unfold sb_sep. rewrite (sb_repr_len _ _ Hr), <- nonempty_slen.
  unfold when in *. destruct (nonempty s).
  - by apply (writes_at (fun sb => sb_add sb sep)); [apply writes_add|..].
  - rewrite str_app_nil_r. eauto.
Qed.

(** Separator, then a text written by [m]. *)
Lemma joined_at (m : strbuf -> M S strbuf) x sep sb s w :
  writes m x -> plenty w -> sb_repr sb s -> fits (joined sep s x) ->
  exists sb', (sb ← sb_sep sb sep; m sb) w = Ret sb' w /\ sb_repr sb' (joined sep s x).
Proof.
  intros Hm Hp Hr Hf. unfold joined in *. rewrite str_app_assoc in Hf |- *.
  destruct (sb_sep_at sep sb s w Hp Hr) as (sb1 & E1 & Hr1); [fits_tac|].
  run_with E1. by apply writes_at.
Qed.

Lemma assign_at x sb s w :
  plenty w -> sb_repr sb s -> fits x ->
  exists sb', sb_assign sb x w = Ret sb' w /\ sb_repr sb' x.
Proof.
  intros Hp Hr Hf. unfold sb_assign.
  destruct (clear_spec sb s w Hr) as (sb1 & E1 & Hr1). run_with E1.
  by apply (writes_at (fun sb => sb_add sb x) x sb1 EmptyString w (writes_add x)).
Qed.

Lemma step_pure m q q' w base a a' :
  m w = Ret (Some q') w -> q_repr q w base a -> plenty w -> clauses_repr q' a' ->
  same_params q q' -> a_params a' = a_params a -> step_ok m q w base a'.
Proof.
  intros E Hq Hp Hc Hs Ha. exists q', w. split; [done|].
  split; [by eapply q_repr_update|]. by destruct Hs as (_ & _ & ? & ?).
Qed.

(** A call that changes one clause buffer. *)
Lemma step_clause (build : strbuf -> M S strbuf) (get : query S -> strbuf)
    (put : strbuf -> query S -> query S) q w base a a' s' :
  q_repr q w base a -> plenty w ->
  (exists sb', build (get q) w = Ret sb' w /\ sb_repr sb' s') ->
  (forall sb, sb_repr sb s' -> clauses_repr (put sb q) a') ->
  (forall sb, same_params q (put sb q)) -> a_params a' = a_params a ->
  step_ok (sb ← build (get q); mret (Some (put sb q))) q w base a'.
Proof.
  intros Hq Hp (sb' & E & Hr) Hput Hsame Ha.
  eapply step_pure; [by run_with E|done|done|by apply Hput|apply Hsame|done].
Qed.

Lemma same_params_where q sb : same_params q (set_q_where sb q).
Proof. by destruct q. Qed.
Lemma same_params_set q sb : same_params q (set_q_set sb q).
Proof. by destruct q. Qed.

(** Replacing the text of the WHERE clause. *)
Lemma post_where q w base a sb s :
  q_repr q w base a -> plenty w -> sb_repr sb s ->
  post q w base (a_set_where s a) (set_q_where sb q) w.
Proof.
  intros Hq Hp Hr. split; [|by destruct q].
  eapply q_repr_update; [done|by eapply cs_where; [apply Hq|]|by destruct q|by destruct a].
Qed.

Lemma post_set q w base a sb s :
  q_repr q w base a -> plenty w -> sb_repr sb s ->
  post q w base (a_set_set s a) (set_q_set sb q) w.
Proof.
  intros Hq Hp Hr. split; [|by destruct q].
  eapply q_repr_update; [done|by eapply cs_set; [apply Hq|]|by destruct q|by destruct a].
Qed.

Lemma next_placeholder bt q w base a :
  q_repr q w base a -> params_ok a ->
  corm_dialect_placeholder_str bt (q_param_count q) PH_BUF =
    placeholder bt (Z.of_nat (length (a_params a))).
Proof.
  intros Hq Hn. rewrite (qr_count _ _ _ _ Hq). apply placeholder_str_spec.
  unfold ph_index, params_ok, INT_MAX in *. lia.
Qed.

Lemma params_ok_add x a : params_ok (add_param x a) -> params_ok a.
Proof. unfold params_ok. simpl. rewrite length_app. simpl. lia. Qed.

Lemma where_param_spec bt q v x w base a :
  q_repr q w base a -> plenty w -> bind_val base v = Some x ->
  params_ok (add_param x a) -> slen (a_where (awhere_param bt x a)) <= 2 ^ 29 ->
  exists q' w', where_param bt q v w = Ret q' w' /\ post q w base (awhere_param bt x a) q' w'.
Proof.
  intros Hq Hp [Hb Hx]%bind_val_spec Hn Hl. unfold where_param, awhere_param in *.
  rewrite (next_placeholder bt q w base a Hq (params_ok_add _ _ Hn)).
  set (ph := placeholder bt _) in *.
  assert (a_where (add_param x (a_set_where (a_where a +:+ ph) a)) = a_where a +:+ ph) as E0
    by by destruct a. rewrite E0 in Hl.
  destruct (writes_at (fun sb => sb_add sb ph) ph (q_where q) (a_where a) w (writes_add ph) Hp
    (cr_where _ _ (qr_clauses _ _ _ _ Hq))) as (sb & E & Hr); [unfold fits; lia|].
  run_with E. pose proof (post_where q w base a sb _ Hq Hp Hr) as H1.
  destruct (bind_spec (set_q_where sb q) v x base (a_set_where (a_where a +:+ ph) a) w)
    as (q' & w' & E' & H2); [done|apply H1|done|done|by destruct a|].
  run_with E'. eexists q', w'. split; [done|]. by eapply post_trans.
Qed.
End steps.

(** ** One lemma per call *)

Section calls.
Context {S : Type}.
Implicit Types (q : query S) (w : world S).

Lemma awhere_list_grows bt first xs a :
  slen (a_where a) <= slen (a_where (awhere_list bt first xs a)) /\
  (length (a_params a) <= length (a_params (awhere_list bt first xs a)))%nat.
Proof.
  revert first a. induction xs as [|x xs IH]; intros first a; simpl; [lia|].
  destruct (IH false (awhere_param bt x (a_set_where (a_where a +:+ when (negb first) ", ") a)))
    as [H1 H2]. destruct a; simpl in *. rewrite !slen_app, length_app in *. simpl in *.
  pose proof (slen_nonneg (placeholder bt (Z.of_nat (length a_params)))).
  pose proof (slen_nonneg (when (negb first) ", ")). lia.
Qed.

Definition in_body bt (v : corm_value) '((q, i) : query S * Z) : M S (query S * Z) :=
  sb ← (if 0 <? (i : Z) then sb_add (q_where q) ", " else mret (q_where q));
  q ← where_param bt (set_q_where sb q) v;
  mret (q, i + 1).

Lemma where_list_spec bt vs xs q w base a i :
  q_repr q w base a -> plenty w -> mapM (bind_val base) vs = Some xs -> 0 <= i ->
  params_ok (awhere_list bt (i =? 0) xs a) ->
  slen (a_where (awhere_list bt (i =? 0) xs a)) <= 2 ^ 29 ->
  exists q' i' w', for_each vs (in_body bt) (q, i) w = Ret (q', i') w' /\
    post q w base (awhere_list bt (i =? 0) xs a) q' w'.
Proof.
  revert xs q w a i. induction vs as [|v vs IH]; intros xs q w a i Hq Hp Hm Hi Hn Hl.
  { injection Hm as <-. exists q, i, w. split; [done|]. by split. }
  simpl in Hm. destruct (bind_val base v) as [x|] eqn:Hx; [|done]. simpl in Hm.
  destruct (mapM (bind_val base) vs) as [xs'|] eqn:Hxs; [|done]. injection Hm as <-.
  simpl in Hn, Hl. set (a1 := a_set_where (a_where a +:+ when (negb (i =? 0)) ", ") a) in *.
  destruct (awhere_list_grows bt false xs' (awhere_param bt x a1)) as [G1 G2].
  assert (E1 : a_where (awhere_param bt x a1) = a_where a1 +:+
    placeholder bt (Z.of_nat (length (a_params a1)))) by by destruct a1.
  assert (Ew : a_where a1 = a_where a +:+ when (negb (i =? 0)) ", ") by by destruct a.
  assert (Hadd : params_ok (add_param x a1)).
  { assert (Ep : a_params (awhere_param bt x a1) = a_params (add_param x a1)) by by destruct a1.
    unfold params_ok in *. rewrite Ep in G2. lia. }
  assert (Hb : (0 <? i) = negb (i =? 0)) by (destruct (Z.ltb_spec 0 i), (Z.eqb_spec i 0); simpl; lia).
  cbn [for_each]. unfold in_body at 2. rewrite Hb.
  destruct (writes_at (fun sb => if negb (i =? 0) then sb_add sb ", " else mret sb)
    (when (negb (i =? 0)) ", ") (q_where q) (a_where a) w) as (sb & E & Hr);
    [apply writes_when, writes_add|done|apply Hq| |].
  { rewrite E1, slen_app, Ew in G1. pose proof (slen_nonneg (placeholder bt (Z.of_nat (length (a_params a1))))).
    unfold fits. lia. }
  rewrite bind_assoc. run_with E. pose proof (post_where q w base a sb _ Hq Hp Hr) as H1.
  destruct (where_param_spec bt (set_q_where sb q) v x w base a1) as (q2 & w2 & E2 & H2);
    [apply H1|done|done|done|lia|].
  rewrite bind_assoc. run_with E2.
  destruct (IH xs' q2 w2 (awhere_param bt x a1) (i + 1)) as (q3 & i3 & w3 & E3 & H3);
    rewrite ?(proj2 (Z.eqb_neq (i + 1) 0)) by lia; [apply H2|apply H2|done|lia|done|done|].
  rewrite (proj2 (Z.eqb_neq (i + 1) 0)) in H3 by lia.
  exists q3, i3, w3. split; [done|]. eapply post_trans, post_trans; eassumption.
Qed.
Lemma post_refl q w base a : q_repr q w base a -> plenty w -> post q w base a q w.
Proof. by split. Qed.

Lemma step_done q' q w base a' :
  post q w base a' q' w -> step_ok (mret (Some q')) q w base a'.
Proof. intros H. by exists q', w. Qed.

(** Writing to a buffer before anything else happens to the query. *)
Lemma step_write (m : strbuf -> M S strbuf) x sb s (k : strbuf -> M S (option (query S)))
    q w base a a' :
  writes m x -> q_repr q w base a -> plenty w -> sb_repr sb s -> fits (s +:+ x) ->
  (forall sb', sb_repr sb' (s +:+ x) -> step_ok (k sb') q w base a') ->
  step_ok (m sb ≫= k) q w base a'.
Proof.
  intros Hm Hq Hp Hr Hf Hk. destruct (writes_at m x sb s w Hm Hp Hr Hf) as (sb' & E & Hr').
  eapply step_bind; [exact E|by apply post_refl|by apply Hk].
Qed.

Lemma writes_sep_len sep sb s :
  sb_repr sb s ->
  sb_sep (S := S) sb sep = (if nonempty s then sb_add sb sep else mret sb).
Proof. intros Hr. unfold sb_sep. by rewrite (sb_repr_len _ _ Hr), <- nonempty_slen. Qed.

Lemma step_sep sep sb s (k : strbuf -> M S (option (query S))) q w base a a' :
  q_repr q w base a -> plenty w -> sb_repr sb s -> fits (s +:+ when (nonempty s) sep) ->
  (forall sb', sb_repr sb' (s +:+ when (nonempty s) sep) -> step_ok (k sb') q w base a') ->
  step_ok (sb_sep sb sep ≫= k) q w base a'.
Proof.
  intros Hq Hp Hr. rewrite (writes_sep_len sep sb s Hr).
  intros Hf Hk.
  by apply (step_write (fun sb => if nonempty s then sb_add sb sep else mret sb) _ sb s k q w base a
    a' (writes_when _ _ _ (writes_add sep))).
Qed.

Lemma step_add x sb s (k : strbuf -> M S (option (query S))) q w base a a' :
  q_repr q w base a -> plenty w -> sb_repr sb s -> fits (s +:+ x) ->
  (forall sb', sb_repr sb' (s +:+ x) -> step_ok (k sb') q w base a') ->
  step_ok (sb_add sb x ≫= k) q w base a'.
Proof. apply (step_write (fun sb => sb_add sb x)), writes_add. Qed.

(** Clearing a buffer and writing to it. *)
Lemma step_assign x sb s (k : strbuf -> M S (option (query S))) q w base a a' :
  q_repr q w base a -> plenty w -> sb_repr sb s -> fits x ->
  (forall sb', sb_repr sb' x -> step_ok (k sb') q w base a') ->
  step_ok (corm_strbuf_clear sb ≫= fun sb => sb_add sb x ≫= k) q w base a'.
Proof.
  intros Hq Hp Hr Hf Hk. destruct (clear_spec sb s w Hr) as (sb1 & E & Hr1).
  eapply step_bind; [exact E|by apply post_refl|]. by apply (step_add x sb1 "" k q w base a).
Qed.

Lemma step_sb_assign x sb s (k : strbuf -> M S (option (query S))) q w base a a' :
  q_repr q w base a -> plenty w -> sb_repr sb s -> fits x ->
  (forall sb', sb_repr sb' x -> step_ok (k sb') q w base a') ->
  step_ok (sb_assign sb x ≫= k) q w base a'.
Proof.
  intros Hq Hp Hr Hf Hk. destruct (assign_at x sb s w Hp Hr Hf) as (sb' & E & Hr').
  eapply step_bind; [exact E|by apply post_refl|by apply Hk].
Qed.

(** A final update of one field of the query. *)
Lemma step_update q' q w base a a' :
  q_repr q w base a -> plenty w -> clauses_repr q' a' -> same_params q q' ->
  a_params a' = a_params a -> step_ok (mret (Some q')) q w base a'.
Proof. intros Hq Hp Hc Hs Ha. by eapply step_pure. Qed.

(** After the query has changed. *)
Lemma step_from m q1 q w w1 base a1 a2 :
  post q w base a1 q1 w1 -> step_ok m q1 w1 base a2 ->
  m w1 = m w -> step_ok m q w base a2.
Proof.
  intros H (q2 & w2 & E & H2) Em. exists q2, w2. rewrite <- Em. split; [done|].
  by eapply post_trans.
Qed.

Lemma bind_val_bindable base v x :
  bind_val base v = Some x -> bindable base v /\ resolve base v = Some x.
Proof. apply bind_val_spec. Qed.
End calls.

(** The size limits of the result, one hypothesis per clause. *)
Ltac ok_in H :=
  apply aquery_okb_spec in H as [H ?]; destruct H as [[] [] [] [] [] [] [] ? ?];
  cbn in *.

Section refinement.
Context {S : Type}.
Implicit Types (q : query S) (w : world S).

(** The invariant a call starts from, and what its abstract step promises. *)
Definition refines (o : qop) : Prop := forall q w base a a',
  q_repr q w base a -> plenty w -> astep base (query_bt q) o a = Some a' ->
  aquery_okb a' = true -> step_ok (exec_qop o (Some q)) q w base a'.

(** Calls that only set a field of the struct. *)
Lemma refines_flags o :
  match o with QOp _ | QLimit _ | QOffset _ | QUnscoped | QDistinct | QPreload _ => True
             | _ => False end -> refines o.
Proof.
  intros Ho q w base a a' Hq Hp Ha _. pose proof (qr_clauses _ _ _ _ Hq).
  destruct o; try done; simpl in Ha; [..|destruct (corm_is_valid_identifier _) eqn:Ev];
    injection Ha as <-; unfold exec_qop, corm_query_op, corm_query_limit, corm_query_offset,
      corm_query_unscoped, corm_query_distinct, corm_query_preload; rewrite ?Ev; run;
    try (by apply step_done, post_refl);
    (eapply step_update; [done|done|by eauto with setters|by destruct q|by destruct a]).
Qed.

(** Calls that write one clause. *)
Lemma refines_where o :
  match o with QWhere _ | QOrWhere _ | QWhereNull _ | QWhereNotNull _ => True
             | _ => False end -> refines o.
Proof.
  intros Ho q w base a a' Hq Hp Ha Hok. pose proof (cr_where _ _ (qr_clauses _ _ _ _ Hq)) as Hr.
  destruct o; try done; simpl in Ha;
    [..|destruct (corm_is_valid_identifier _) eqn:Ev|destruct (corm_is_valid_identifier _) eqn:Ev];
    injection Ha as <-; unfold exec_qop, corm_query_where, corm_query_or_where,
      corm_query_where_null, corm_query_where_not_null; rewrite ?Ev; run;
    try (by apply step_done, post_refl).
  all: destruct a; ok_in Hok; unfold joined in *.
  all: eapply step_sep; [done..|fits_tac|intros sb1 Hr1];
    (eapply step_add; [done..|fits_tac|intros sb2 Hr2]).
  3, 4: eapply step_add; [done..|fits_tac|intros sb3 Hr3].
  all: apply step_done.
  all: rewrite <- !str_app_assoc in *; eapply (post_where _ _ _ (AQuery _ _ _ _ _ _ _ _ _ _ _ _ _ _)); eauto.
Qed.

Lemma refines_clause o :
  match o with QSelect _ | QJoin _ | QOrder _ | QGroup _ | QHaving _ | QSetRaw _ => True
             | _ => False end -> refines o.
Proof.
  intros Ho q w base a a' Hq Hp Ha Hok. pose proof (qr_clauses _ _ _ _ Hq) as Hc.
  destruct o; try done; simpl in Ha; injection Ha as <-;
    unfold exec_qop, corm_query_select, corm_query_join, corm_query_order, corm_query_group,
      corm_query_having, corm_query_set_raw; run; destruct a; ok_in Hok.
  all: (eapply step_assign || eapply step_sb_assign || eapply step_add);
    [done|done|apply Hc|fits_tac|intros sb Hr].
  all: eapply step_update; [done|done| |by destruct q|done].
  all: destruct q, Hc; cbn in *; constructor; done.
Qed.

Lemma refines_bind v : refines (QBind v).
Proof.
  intros q w base a a' Hq Hp Ha Hok. simpl in Ha.
  destruct (bind_val base v) as [x|] eqn:Hx; [|done]. injection Ha as <-.
  apply bind_val_spec in Hx as [Hb Hx]. apply aquery_okb_spec in Hok as [_ Hn].
  destruct (bind_spec q v x base a w) as (q' & w' & E & H); try done.
  by exists q', w'.
Qed.

Lemma refines_reset : refines QReset.
Proof.
  intros q w base a a' Hq Hp Ha _. injection Ha as <-.
  pose proof Hq as [[] Hs Hw Hv Hcap Hwf]. destruct q. cbn in *.
  unfold step_ok, corm_query_reset.
  assert (Hwb : heap_wf (set_heap base w)).
  { intros l [b Hl]. apply Hwf. rewrite (heap_split_le _ _ _ Hs _ _ Hl). by eexists. }
  repeat match goal with
  | Hr : sb_repr ?sb ?s |- context [corm_strbuf_clear ?sb] =>
      let sb' := fresh "sb" in let E := fresh "E" in let Hr' := fresh "R" in
      destruct (clear_spec sb s (set_heap base w) Hr) as (sb' & E & Hr'); clear Hr
  end.
  eexists _, (set_heap base w). split.
  { run_with (free_params_spec _ _ _ Hw Hs).
    repeat match goal with E : corm_strbuf_clear _ _ = _ |- _ => run_with E; clear E end. done. }
  split; [|done]. constructor; try done.
  - split; [apply NoDup_nil; done|]. split; [by intros l ?%not_elem_of_nil|].
    intros l. by rewrite decide_False by apply not_elem_of_nil.
  - simpl. lia.
Qed.

Lemma query_bt_post q w base a q' w' : post q w base a q' w' -> query_bt q' = query_bt q.
Proof. intros (_ & _ & _ & E & _). unfold query_bt. by rewrite E. Qed.

Lemma refines_set f v : refines (QSet f v).
Proof.
  intros q w base a a' Hq Hp Ha Hok. simpl in Ha.
  unfold exec_qop, corm_query_set.
  destruct (corm_is_valid_identifier (Some f)) eqn:Ev;
    [|injection Ha as <-; rewrite ?Ev; by apply step_done, post_refl].
  destruct (bind_val base v) as [x|] eqn:Hx; [|done]. injection Ha as <-.
  set (ph := placeholder _ _) in *. cbn [negb].
  assert (Hn : params_ok (add_param x a)).
  { apply aquery_okb_spec in Hok as [_ Hn]. by destruct a. }
  assert (Hl : slen (joined ", " (a_set a) (quoted (query_bt q) f +:+ (" = " +:+ ph))) <= 2 ^ 29).
  { apply aquery_okb_spec in Hok as [[_ _ _ _ _ _ [_ Hl] _ _] _]. by destruct a. }
  assert (Hnp : corm_dialect_placeholder_str (query_bt q) (q_param_count q) PH_BUF = ph)
    by (eapply next_placeholder; [done|by eapply params_ok_add]).
  unfold joined, quoted in *.
  eapply step_sep; [done|done|apply Hq|fits_tac|intros sb0 Hr0].
  do 5 (eapply step_add; [done|done|done|rewrite ?Hnp; fits_tac|intros ? ?]).
  rewrite Hnp, <- !str_app_assoc in *.
  match goal with Hr : sb_repr ?sb _ |- context [set_q_set ?sb q] =>
    pose proof (post_set q w base a sb _ Hq Hp Hr) as Hpost; clear Hr;
    set (q1 := set_q_set sb q) in * end.
  match type of Hpost with post _ _ _ (a_set_set ?st _) _ _ => set (s1 := st) in * end.
  apply bind_val_spec in Hx as [Hb Hx].
  destruct (bind_spec q1 v x base (a_set_set s1 a) w) as (q2 & w2 & E & Hpost2);
    [done|apply Hpost|done|done|by destruct a|].
  eapply step_bind; [exact E|eapply post_trans; eassumption|]. run.
  eapply step_update; [apply Hpost2|apply Hpost2| |by destruct q2|by destruct a].
  apply (cs_op _ (add_param x (a_set_set s1 a))), Hpost2.
Qed.

Lemma where_of s a : a_where (a_set_where s a) = s.
Proof. by destruct a. Qed.

Lemma refines_where_in f vs n : refines (QWhereIn f vs n).
Proof.
  intros q w base a a' Hq Hp Ha Hok. cbn [astep] in Ha. unfold exec_qop, corm_query_where_in.
  destruct ((n <=? 0) || negb (corm_is_valid_identifier (Some f))) eqn:Ev;
    [injection Ha as <-; by apply step_done, post_refl|].
  destruct (first_vals vs n) as [vs'|] eqn:Hvs; [|done]. cbn [mbind option_bind] in Ha.
  destruct (mapM (bind_val base) vs') as [xs|] eqn:Hxs; [|done]. cbn [mbind option_bind] in Ha.
  injection Ha as <-. set (bt := query_bt q) in *.
  set (a1 := a_set_where (joined " AND " (a_where a) (f +:+ " IN (")) a) in *.
  set (a2 := awhere_list bt true xs a1) in *.
  apply aquery_okb_spec in Hok as [[_ [_ Hl] _ _ _ _ _ _ _] Hn]. rewrite where_of, slen_app in Hl.
  pose proof (slen_nonneg ")") as Hs.
  assert (Hn2 : params_ok a2) by (by destruct a2).
  destruct (awhere_list_grows bt true xs a1) as [G _]. fold a2 in G.
  assert (Hl1 : slen (joined " AND " (a_where a) (f +:+ " IN (")) <= 2 ^ 29).
  { unfold a1 in G. rewrite where_of in G. lia. }
  unfold joined in Hl1. eapply step_sep; [done|done|apply Hq|fits_tac|intros sb0 Hr0].
  do 2 (eapply step_add; [done|done|done|fits_tac|intros ? ?]).
  match goal with Hr : sb_repr ?sb _ |- context [set_q_where ?sb q] =>
    rewrite <- !str_app_assoc in Hr;
    pose proof (post_where q w base a sb _ Hq Hp Hr : post q w base a1 _ w) as Hpost;
    set (q1 := set_q_where sb q) in * end.
  assert (Hbt : query_bt q1 = bt) by (by apply (query_bt_post _ _ _ _ _ _ Hpost)).
  cbv zeta. rewrite Hbt. run.
  destruct (where_list_spec bt vs' xs q1 w base a1 0) as (q2 & i2 & w2 & E & Hpost2);
    [apply Hpost|apply Hpost|done|done|done|change (slen (a_where a2) <= 2 ^ 29); lia|].
  change (awhere_list bt (0 =? 0) xs a1) with a2 in Hpost2. eapply step_bind; [exact E|eapply post_trans; eassumption|]. cbv beta iota.
  eapply step_add; [apply Hpost2|apply Hpost2|apply Hpost2|fits_tac|intros sb3 Hr3].
  apply step_done. apply post_where; [apply Hpost2|apply Hpost2|exact Hr3].
Qed.

Lemma awhere_one bt x a : awhere_list bt true [x] a = awhere_param bt x a.
Proof. destruct a. unfold awhere_list, when. cbn. by rewrite str_app_nil_r. Qed.

Lemma refines_between f lo hi : refines (QBetween f lo hi).
Proof.
  intros q w base a a' Hq Hp Ha Hok. cbn [astep] in Ha. unfold exec_qop, corm_query_where_between.
  destruct (corm_is_valid_identifier (Some f)) eqn:Ev;
    [|injection Ha as <-; by apply step_done, post_refl].
  destruct (bind_val base lo) as [x|] eqn:Hx; [|done]. cbn [mbind option_bind] in Ha.
  destruct (bind_val base hi) as [y|] eqn:Hy; [|done]. cbn [mbind option_bind] in Ha.
  injection Ha as <-. set (bt := query_bt q) in *.
  set (a1 := a_set_where (joined " AND " (a_where a) (f +:+ " BETWEEN ")) a) in *.
  set (a2 := awhere_param bt x a1) in *. set (a3 := a_set_where (a_where a2 +:+ " AND ") a2) in *.
  destruct (awhere_list_grows bt true [x] a1) as [G1 _].
  destruct (awhere_list_grows bt true [y] a3) as [G3 P3].
  rewrite awhere_one in G1, G3, P3. fold a2 in G1.
  apply aquery_okb_spec in Hok as [[_ [_ Hl] _ _ _ _ _ _ _] Hn].
  change (slen (a_where (awhere_param bt y a3)) <= 2 ^ 29) in Hl.
  change (params_ok (awhere_param bt y a3)) in Hn.
  assert (Hl3 : slen (a_where a2 +:+ " AND ") <= 2 ^ 29) by (unfold a3 at 1 in G3; rewrite where_of in G3; lia).
  assert (Hl2 : slen (a_where a2) <= 2 ^ 29)
    by (rewrite slen_app in Hl3; pose proof (slen_nonneg " AND "); lia).
  assert (Hn2 : params_ok (add_param x a1)).
  { unfold params_ok in *. assert (a_params (add_param x a1) = a_params a3) as -> by (unfold a3, a2; by destruct a1). lia. }
  assert (Hl1 : slen (joined " AND " (a_where a) (f +:+ " BETWEEN ")) <= 2 ^ 29).
  { unfold a1 at 1 in G1. rewrite where_of in G1. lia. }
  unfold joined in Hl1. eapply step_sep; [done|done|apply Hq|fits_tac|intros sb0 Hr0].
  do 2 (eapply step_add; [done|done|done|fits_tac|intros ? ?]).
  match goal with Hr : sb_repr ?sb _ |- context [set_q_where ?sb q] =>
    rewrite <- !str_app_assoc in Hr;
    pose proof (post_where q w base a sb _ Hq Hp Hr : post q w base a1 _ w) as Hpost;
    set (q1 := set_q_where sb q) in * end.
  assert (Hbt : query_bt q1 = bt) by (by apply (query_bt_post _ _ _ _ _ _ Hpost)).
  cbv zeta. rewrite Hbt.
  destruct (where_param_spec bt q1 lo x w base a1) as (q2 & w2 & E & Hpost2);
    [apply Hpost|apply Hpost|done|done|done|].
  eapply step_bind; [exact E|eapply post_trans; eassumption|].
  eapply step_add; [apply Hpost2|apply Hpost2|apply Hpost2|fold a2; fits_tac|intros sb3 Hr3].
  pose proof (post_where q2 w2 base a2 sb3 _ ltac:(apply Hpost2) ltac:(apply Hpost2) Hr3
    : post q2 w2 base a3 _ w2) as Hpost3.
  destruct (where_param_spec bt (set_q_where sb3 q2) hi y w2 base a3) as (q4 & w4 & E4 & Hpost4);
    [apply Hpost3|apply Hpost3|done|by unfold a3, a2 in *; destruct a1|done|].
  eapply step_bind; [exact E4|eapply post_trans; eassumption|].
  apply step_done, post_refl; apply Hpost4.
Qed.

(** Every builder call implements its abstract step. *)
Lemma refines_all o : refines o.
Proof.
  destruct o; first
    [ by apply refines_flags | by apply refines_where | by apply refines_clause
    | apply refines_where_in | apply refines_between | apply refines_bind
    | apply refines_set | apply refines_reset ].
Qed.

(** Scripts, by induction. *)
Lemma refines_script os q w base a a' :
  q_repr q w base a -> plenty w -> asteps base (query_bt q) os a = Some a' ->
  step_ok (exec_qops os (Some q)) q w base a'.
Proof.
  revert q w a. induction os as [|o os IH]; intros q w a Hq Hp Ha.
  { injection Ha as <-. by apply step_done, post_refl. }
  simpl in Ha. destruct (astep base (query_bt q) o a) as [a1|] eqn:E1; [|done]. simpl in Ha.
  destruct (aquery_okb a1) eqn:Hok; [|done].
  destruct (refines_all o q w base a a1 Hq Hp E1 Hok) as (q1 & w1 & E & H1).
  eapply step_bind; [exact E|exact H1|]. cbn [exec_qops].
  apply (IH q1 w1 a1); [apply H1|apply H1|]. by rewrite (query_bt_post _ _ _ _ _ _ H1).
Qed.
End refinement.
