(* ===== verification/Sample.v ===== *)
(** * Concrete inputs

    A small schema, drivers without functions and worlds, on which the
    properties of the development are evaluated. *)

From S2P Require Import Prelude Types Mem Strbuf Dialect Model Backend Query.
From S2P Require Import Builder BuilderSpec QuerySpec.

Definition field_id : field :=
  Field (Some "id") CORM_INT 0 4 (Z.lor CORM_FLAG_PRIMARY CORM_FLAG_AUTOINC) None None.
Definition field_name : field := Field (Some "name") CORM_STRING 4 16 CORM_FLAG_NOT_NULL None None.
Definition field_age : field := Field (Some "age") CORM_INT 20 4 0 None None.

Definition user_fields : list field := [field_id; field_name; field_age].

Definition user_model {S} : model S :=
  Model (Some "users") 24 (Some user_fields) 3 (Some field_id)
    None None None None None None None.

(** A model whose rows are marked instead of deleted. *)
Definition field_deleted : field :=
  Field (Some "deleted") CORM_TEXT 24 8 CORM_FLAG_SOFT_DELETE None None.

Definition note_fields : list field := [field_id; field_name; field_deleted].

Definition note_model {S} : model S :=
  Model (Some "notes") 32 (Some note_fields) 3 (Some field_id)
    None None None None None None None.

(** A driver that has no functions, only a type. *)
Definition bare_backend (S : Type) (bt : corm_backend_type) : backend S :=
  Backend "bare" bt None None None None None None None None None None None None.

(** A driver whose queries return no result object. *)
Definition mute_backend (S : Type) (bt : corm_backend_type) : backend S :=
  Backend "mute" bt None None None None (Some (fun _ _ => mret (CORM_OK, None)))
    None None None None None None None.

Definition empty_world : world unit := World [] ∅ 1%positive tt.

(** Every allocation fails. *)
Definition starved_world : world unit := World (replicate 64 false) ∅ 1%positive tt.

Definition int_val (z : Z) : corm_value := Value CORM_INT false (UInt z).
Definition text_val (s : string) : corm_value := Value CORM_STRING false (UStr (PLit s)).

Lemma user_model_ok {S} : model_ok (@user_model S) user_fields.
Proof.
  constructor.
  - split; [done|]. split; [done|]. split; [done|]. exists user_fields. split; [done|].
    split; [by repeat constructor|]. apply (bool_decide_unpack _). by vm_compute.
  - done.
  - done.
  - apply list_elem_of_here.
Defined.

Lemma note_model_ok {S} : model_ok (@note_model S) note_fields.
Proof.
  constructor.
  - split; [done|]. split; [done|]. split; [done|]. exists note_fields. split; [done|].
    split; [by repeat constructor|]. apply (bool_decide_unpack _). by vm_compute.
  - done.
  - done.
  - apply list_elem_of_here.
Defined.

(** Records of [user_model] in memory. *)
Definition user_rec (id : Z) (name : string) (age : Z) : rec :=
  {[0 := CInt id; 4 := CChars (strncpy_bytes name 16); 20 := CInt age]}.

Lemma empty_world_wf : heap_wf empty_world.
Proof. intros l [b H]. simpl in H. by rewrite lookup_empty in H. Defined.

Definition sample_select : list qop :=
  [QSelect "id, name"; QWhereIn "id" [int_val 1; int_val 2] 2; QWhere "name IS NOT NULL";
   QBetween "age" (int_val 18) (int_val 30); QOrder "id DESC"; QLimit 10].

(** The same calls with other values. *)
Definition sample_select' : list qop :=
  [QSelect "id, name"; QWhereIn "id" [int_val 7; text_val "x' OR '1'='1"] 2;
   QWhere "name IS NOT NULL";
   QBetween "age" (int_val 0) (int_val 99); QOrder "id DESC"; QLimit 10].

Definition sample_update : list qop :=
  [QSet "name" (text_val "bob"); QSet "age" (int_val 41); QWhereIn "id" [int_val 3] 1].

(** [l] as the result of [asteps], for witnesses. *)
Definition asteps_get (bt : corm_backend_type) (os : list qop) : aquery :=
  default aquery_empty (asteps ∅ bt os aquery_empty).
