(* ===== verification/BaseProps.v ===== *)
(** * Properties of the shared components

    String buffers, hash tables, models, records and the driver registry. *)

From S2P Require Import Prelude Types Mem Strbuf Dialect Hash Float Model Backend Sample.

(** ** String buffers *)

Inductive sop : Type :=
  | SAppend (s : string)
  | SAppendN (s : string) (n : Z)
  | SAppendF (fmt : string) (args : list farg)
  | SClear.

Section buffers.
Context {S : Type}.
Implicit Types w : world S.

(** An operation and its error code. *)
Definition exec_sop (o : sop) (sb : strbuf) : M S (corm_err * strbuf) :=
  match o with
  | SAppend s => corm_strbuf_append sb s
  | SAppendN s n => corm_strbuf_appendn sb s n
  | SAppendF fmt args => corm_strbuf_appendf sb fmt args
  | SClear => sb ← corm_strbuf_clear sb; mret (CORM_OK, sb)
  end.

Fixpoint exec_sops (os : list sop) (sb : strbuf) : M S (list corm_err * strbuf) :=
  match os with
  | [] => mret ([], sb)
  | o :: os' =>
      '(e, sb) ← exec_sop o sb; '(es, sb) ← exec_sops os' sb; mret (e :: es, sb)
  end.

(** The effect on the text; [None]: not a legal call. *)
Definition sop_text (o : sop) (s : string) : option string :=
  match o with
  | SAppend x => Some (s +:+ x)
  | SAppendN x n =>
      if (0 <=? n) && (n <=? slen x) then Some (s +:+ str_take (Z.to_nat n) x) else None
  | SAppendF fmt args =>
      x ← c_format fmt args;
      if slen x <=? INT_MAX then Some (s +:+ x) else None
  | SClear => Some EmptyString
  end.

(** The text after a run that returned [es]: only the calls that report
    success have an effect; [None] also when the text would pass 2^62 bytes. *)
Fixpoint sops_text (os : list sop) (es : list corm_err) (s : string) : option string :=
  match os, es with
  | [], [] => Some s
  | o :: os', e :: es' =>
      s' ← sop_text o s;
      if slen s' <? 2 ^ 62 then
        if decide (e = CORM_OK) then sops_text os' es' s'
        else if decide (e = CORM_ERR_NOMEM) then sops_text os' es' s else None
      else None
  | _, _ => None
  end.

(** The calls are legal whatever succeeds. *)
Fixpoint sops_legal (os : list sop) (size : Z) : Prop :=
  match os with
  | [] => size < 2 ^ 62
  | o :: os' =>
      match o with
      | SAppend x => sops_legal os' (size + slen x)
      | SAppendN x n => 0 <= n <= slen x /\ sops_legal os' (size + n)
      | SAppendF fmt args =>
          exists x, c_format fmt args = Some x /\ slen x <= INT_MAX /\
            sops_legal os' (size + slen x)
      | SClear => sops_legal os' size
      end
  end.

Lemma sops_legal_mono os n n' : n <= n' -> sops_legal os n' -> sops_legal os n.
Proof.
  revert n n'. induction os as [|o os IH]; intros n n' Hn; simpl; [lia|].
  destruct o as [s|s k|f a|].
  - apply IH. lia.
  - intros [? H]. split; [done|]. eapply IH; [|exact H]. lia.
  - intros (x & ? & ? & H). exists x. split_and!; [done..|]. eapply IH; [|exact H]. lia.
  - by apply IH.
Qed.

Lemma sops_legal_size os n : sops_legal os n -> n < 2 ^ 62.
Proof.
  revert n. induction os as [|o os IH]; intros n; simpl; [done|].
  destruct o as [s|s k|f a|].
  - intros H. apply IH in H. pose proof (slen_nonneg s). lia.
  - intros [? H]. apply IH in H. lia.
  - intros (x & ? & ? & H). apply IH in H. pose proof (slen_nonneg x). lia.
  - apply IH.
Qed.

(** What one legal call does. *)
Lemma exec_sop_spec o os sb s w :
  sb_repr sb s -> sops_legal (o :: os) (slen s) ->
  exists e sb' w' s' x, exec_sop o sb w = Ret (e, sb') w' /\ alloc_only w w' /\
    sop_text o s = Some x /\ slen x < 2 ^ 62 /\ sb_repr sb' s' /\ sops_legal os (slen s') /\
    ((e = CORM_OK /\ s' = x) \/ (e = CORM_ERR_NOMEM /\ s' = s /\ ~ plenty w)).
Proof.
  intros Hr Hl. destruct o as [x|x n|f args|]; simpl in Hl.
  - pose proof (sops_legal_size _ _ Hl). assert (Hf : fits (s +:+ x)).
    { unfold fits. rewrite slen_app. lia. }
    destruct (append_spec sb s x w Hr Hf) as (w' & Ha & [(sb' & E & Hr')|[E Hp]]).
    + exists CORM_OK, sb', w', (s +:+ x), (s +:+ x). rewrite slen_app. split_and!; eauto.
    + exists CORM_ERR_NOMEM, sb, w', s, (s +:+ x). rewrite slen_app. split_and!; eauto.
      eapply sops_legal_mono; [|exact Hl]. pose proof (slen_nonneg x). lia.
  - destruct Hl as [Hn Hl]. pose proof (sops_legal_size _ _ Hl).
    set (y := str_take (Z.to_nat n) x).
    assert (Hy : slen y = n) by (unfold y, slen in *; rewrite str_take_length; lia).
    assert (Ht : sop_text (SAppendN x n) s = Some (s +:+ y)).
    { simpl. destruct (Z.leb_spec 0 n), (Z.leb_spec n (slen x)); simpl; (done || lia). }
    assert (Hf : fits (s +:+ y)) by (unfold fits; rewrite slen_app; lia).
    destruct (appendn_spec sb s x n w Hr Hn Hf) as (w' & Ha & [(sb' & E & Hr')|[E Hp]]).
    + exists CORM_OK, sb', w', (s +:+ y), (s +:+ y). rewrite slen_app, Hy. split_and!; eauto.
    + exists CORM_ERR_NOMEM, sb, w', s, (s +:+ y). rewrite slen_app, Hy. split_and!; eauto.
      eapply sops_legal_mono; [|exact Hl]. lia.
  - destruct Hl as (x & Hx & Hi & Hl). pose proof (sops_legal_size _ _ Hl).
    assert (Ht : sop_text (SAppendF f args) s = Some (s +:+ x)).
    { simpl. rewrite Hx. simpl. destruct (Z.leb_spec (slen x) INT_MAX); (done || lia). }
    assert (Hf : fits (s +:+ x)) by (unfold fits; rewrite slen_app; lia).
    destruct (appendf_spec sb s f args x w Hr Hx Hi Hf) as (w' & Ha & [(sb' & E & Hr')|[E Hp]]).
    + exists CORM_OK, sb', w', (s +:+ x), (s +:+ x). rewrite slen_app. split_and!; eauto.
    + exists CORM_ERR_NOMEM, sb, w', s, (s +:+ x). rewrite slen_app. split_and!; eauto.
      eapply sops_legal_mono; [|exact Hl]. pose proof (slen_nonneg x). lia.
  - destruct (clear_spec sb s w Hr) as (sb' & E & Hr'). cbn [exec_sop].
    exists CORM_OK, sb', w, EmptyString, EmptyString. run_with E.
    split_and!; try done; [|by left].
    eapply sops_legal_mono; [|exact Hl]. apply slen_nonneg.
Qed.

Lemma exec_sops_spec os sb s w :
  sb_repr sb s -> sops_legal os (slen s) ->
  exists es sb' w' s', exec_sops os sb w = Ret (es, sb') w' /\ alloc_only w w' /\
    sb_repr sb' s' /\ sops_text os es s = Some s' /\
    (plenty w -> es = map (fun _ => CORM_OK) os).
Proof.
  revert sb s w. induction os as [|o os IH]; intros sb s w Hr Hl.
  - by exists [], sb, w, s.
  - destruct (exec_sop_spec o os sb s w Hr Hl) as
      (e & sb1 & w1 & s1 & x & E & Ha & Hx & Hxl & Hr1 & Hl1 & Hcase).
    destruct (IH sb1 s1 w1 Hr1 Hl1) as (es & sb2 & w2 & s2 & E2 & Ha2 & Hr2 & Ht2 & Hp2).
    exists (e :: es), sb2, w2, s2. cbn [exec_sops sops_text]. run_with E. run_with E2.
    split; [done|]. split; [by eapply alloc_only_trans|]. split; [done|].
    rewrite Hx. simpl. destruct (Z.ltb_spec (slen x) (2 ^ 62)); [|lia].
    destruct Hcase as [[-> ->]|(-> & -> & Hnp)].
    + split; [done|]. intros Hp. rewrite (alloc_only_plenty _ _ Ha Hp) in Hp2. by rewrite Hp2.
    + split; [done|]. by intros ?.
Qed.
End buffers.

(** ** Hash tables *)

Inductive hop (V : Type) : Type :=
  | HInsert (key : string) (v : V)
  | HFind (key : string)
  | HRemove (key : string).
Arguments HInsert {V}.
Arguments HFind {V}.
Arguments HRemove {V}.

Section tables.
Context {S V : Type}.
Implicit Types (ht : @hash V) (w : world S).

(** An operation; lookups return a value. *)
Definition exec_hop (o : hop V) ht : M S (option V * @hash V) :=
  match o with
  | HInsert k v => '(_, ht) ← corm_hash_insert ht k v; mret (None, ht)
  | HFind k => v ← corm_hash_find ht k; mret (v, ht)
  | HRemove k => ht ← corm_hash_remove ht k; mret (None, ht)
  end.

Fixpoint exec_hops (os : list (hop V)) ht : M S (list (option V) * @hash V) :=
  match os with
  | [] => mret ([], ht)
  | o :: os' => '(r, ht) ← exec_hop o ht; '(rs, ht) ← exec_hops os' ht; mret (r :: rs, ht)
  end.

(** The specification: a stack of values per key. *)
Definition hop_step (o : hop V) (st : string -> list V) : option V * (string -> list V) :=
  match o with
  | HInsert k v => (None, fun k' => if decide (k' = k) then v :: st k else st k')
  | HFind k => (head (st k), st)
  | HRemove k => (None, fun k' => if decide (k' = k) then tail (st k) else st k')
  end.

Fixpoint hops_results (os : list (hop V)) (st : string -> list V) : list (option V) :=
  match os with
  | [] => []
  | o :: os' => fst (hop_step o st) :: hops_results os' (snd (hop_step o st))
  end.

Lemma hops_results_ext os st st' :
  (forall k, st k = st' k) -> hops_results os st = hops_results os st'.
Proof.
  revert st st'. induction os as [|o os IH]; intros st st' H; [done|]. simpl.
  assert (E : fst (hop_step o st) = fst (hop_step o st')) by (destruct o; simpl; by rewrite ?H).
  rewrite E. f_equal. apply IH. intros k. destruct o; simpl; rewrite ?H; done.
Qed.

Lemma exec_hops_spec os ht w :
  hash_wf ht -> plenty w -> ht_count ht + Z.of_nat (length os) < 2 ^ 64 ->
  exists ht', exec_hops os ht w = Ret (hops_results os (stack_of ht), ht') w.
Proof.
  revert ht. induction os as [|o os IH]; intros ht Hwf Hp Hc; [by exists ht|].
  cbn [exec_hops hops_results length] in *.
  assert (exists ht1, exec_hop o ht w = Ret (fst (hop_step o (stack_of ht)), ht1) w /\
    hash_wf ht1 /\ ht_count ht1 <= ht_count ht + 1 /\
    forall k, stack_of ht1 k = snd (hop_step o (stack_of ht)) k) as (ht1 & E & Hwf1 & Hc1 & Hs1).
  { destruct o as [k v|k|k]; cbn [exec_hop hop_step fst snd].
    - destruct (insert_ok ht k v w Hwf Hp) as (ht1 & E & Hwf1 & Hs). run_with E.
      exists ht1. split_and!; [done|done|by eapply insert_count|done].
    - run_with (find_ok ht k w Hwf). exists ht. split_and!; [done|done|lia|done].
    - destruct (remove_ok ht k w Hwf) as (ht1 & E & Hwf1 & Hs); [lia|]. run_with E.
      exists ht1. split_and!; [done|done| |done].
      pose proof (remove_count ht k w ht1 w Hwf ltac:(lia) E). lia. }
  destruct (IH ht1 Hwf1 Hp) as (ht2 & E2); [lia|]. exists ht2. run_with E. run_with E2.
  by rewrite (hops_results_ext os _ _ Hs1).
Qed.
End tables.

(** ** The properties *)

Section properties.
Context {S : Type}.
Implicit Types w : world S.

(** C6: whatever allocations fail, a sequence of buffer operations is never
    stuck (no write out of bounds, no read of an unwritten byte), each error
    code tells the truth - a call that fails with CORM_ERR_NOMEM leaves the
    text as it was, the others have their full effect - and what
    [corm_strbuf_cstr] returns in the end is exactly that text.  With memory
    available every call succeeds. *)
Theorem strbuf_all_or_nothing os w :
  sops_legal os 0 ->
  exists es sb w' s, exec_sops os corm_strbuf_init w = Ret (es, sb) w' /\
    sops_text os es EmptyString = Some s /\
    (no_nul s = true -> corm_strbuf_cstr sb w' = Ret s w') /\
    w_heap w' = w_heap w /\ (plenty w -> es = map (fun _ => CORM_OK) os).
Proof.
  intros Hl. destruct (exec_sops_spec os corm_strbuf_init EmptyString w sb_repr_init Hl)
    as (es & sb & w' & s & E & (Hh & _) & Hr & Ht & Hp).
  exists es, sb, w', s. split_and!; try done. intros Hn. by apply cstr_spec.
Qed.

(** C7: a hash table created by [corm_hash_init] behaves like a stack of
    values per key: an insertion shadows the older values of the key, a
    lookup returns the newest, a removal uncovers the one before. *)
Theorem hash_is_stack_map {V} n (os : list (hop V)) ht0 w :
  0 <= n -> plenty w -> Z.of_nat (length os) < 2 ^ 64 ->
  exists ht ht', corm_hash_init n ht0 w = Ret (CORM_OK, ht) w /\
    exec_hops os ht w = Ret (hops_results os (fun _ => []), ht') w.
Proof.
  intros Hn Hp Hc. unfold corm_hash_init.
  destruct (init_wf n ht0 w w (Hash (replicate (Z.to_nat (if n =? 0 then 32 else n)) [])
    (if n =? 0 then 32 else n) 0) Hn) as [Hwf Hs].
  { unfold corm_hash_init. by run_with (malloc_ok_plenty w Hp). }
  eexists. destruct (exec_hops_spec os _ w Hwf Hp) as (ht' & E); [done|].
  exists ht'. run_with (malloc_ok_plenty w Hp). split; [done|]. rewrite E.
  by rewrite (hops_results_ext os _ _ Hs).
Qed.

(** C8: [corm_validate_model] accepts a model exactly when it is well formed:
    a table name and field names that are identifiers, at least one field, a
    non-zero record size and no two fields of the same name. *)
Theorem validate_model_correct {T} (m : model T) w :
  fields_in_bounds m ->
  exists e, corm_validate_model (Some m) w = Ret e w /\ (e = CORM_OK <-> valid_model m).
Proof. apply validate_spec. Qed.

(** C9: storing a value in a record member and loading the member gives the
    value back, up to the conversion of the member's type (32-bit
    wrap-around, single precision, truncation of a character array); the other
    members of the record are untouched. *)
Theorem field_round_trip r f rc c v x y w :
  plenty w -> heap_wf w ->
  heap_rec (w_heap w) r = Some rc -> rc !! f_offset f = Some c ->
  cell_fits (w_heap w) r f c -> member_of (v_type v) = member_of (f_type f) ->
  resolve (w_heap w) v = Some x -> coerce f x = Some y ->
  exists w' v', corm_field_set_value r f v w = Ret tt w' /\
    others_kept r (f_offset f) rc w w' /\
    corm_field_get_value r f w' = Ret v' w' /\ resolve (w_heap w') v' = Some y.
Proof.
  intros. edestruct (set_get (S := S)) as (w' & E & Hk & v' & E' & Hr); [eassumption..|].
  by exists w', v'.
Qed.

(** After the drivers in [bs] have registered themselves, in this order,
    the registry never overflows and a type resolves to the driver that
    registered last for it. *)
Theorem registry_last_wins (bs : list (backend S)) t :
  corm_get_backend (fold_left register_own bs []) t = last_of bs t /\
  (length (fold_left register_own bs []) <= 3)%nat.
Proof.
  assert (G : forall g, backends_wf g ->
    backends_wf (fold_left register_own bs g) /\
    corm_get_backend (fold_left register_own bs g) t =
      match last_of bs t with Some b => Some b | None => corm_get_backend g t end).
  { induction bs as [|b bs IH]; intros g Hg; [done|]. simpl.
    destruct (register_own_spec g b Hg) as (_ & Hg' & Hget).
    destruct (IH _ Hg') as [H1 H2]. split; [done|]. rewrite H2, Hget.
    destruct (last_of bs t); [done|]. destruct (decide (be_type b = t)) as [<-|Hne].
    - by rewrite decide_True.
    - by rewrite decide_False by congruence. }
  destruct (G []) as [Hwf Hg]; [apply NoDup_nil_2|].
  split; [rewrite Hg; by destruct (last_of bs t)|by apply backends_wf_length].
Qed.
End properties.

(** ** The properties at concrete inputs *)

Definition sample_sops : list sop :=
  [SAppend "SELECT "; SAppendF "%d of %s" [FD 3; FS "x"]; SAppendN "abcdef" 2; SClear;
   SAppend "done"].

Lemma strbuf_all_or_nothing_witness :
  exists es sb w' s, exec_sops sample_sops corm_strbuf_init starved_world = Ret (es, sb) w' /\
    sops_text sample_sops es EmptyString = Some s /\
    (no_nul s = true -> corm_strbuf_cstr sb w' = Ret s w') /\
    w_heap w' = w_heap starved_world /\
    (plenty starved_world -> es = map (fun _ => CORM_OK) sample_sops).
Proof.
  apply (strbuf_all_or_nothing sample_sops starved_world). cbn.
  exists "3 of x". split; [vm_compute; reflexivity|]. split; [vm_compute; discriminate|].
  split; [split; [discriminate|vm_compute; discriminate]|]. vm_compute. reflexivity.
Defined.

Definition sample_hops : list (hop Z) :=
  [HInsert "a" 1; HInsert "a" 2; HInsert "b" 3; HFind "a"; HRemove "a"; HFind "a"; HFind "c"].

Lemma hash_is_stack_map_witness :
  exists ht ht', corm_hash_init 2 (Hash [] 0 0) empty_world = Ret (CORM_OK, ht) empty_world /\
    exec_hops sample_hops ht empty_world =
      Ret ([None; None; None; Some 2; None; Some 1; None], ht') empty_world.
Proof.
  apply (hash_is_stack_map 2 sample_hops (Hash [] 0 0) empty_world).
  - discriminate.
  - reflexivity.
  - reflexivity.
Defined.

Lemma validate_model_correct_witness :
  exists e, corm_validate_model (Some (@user_model unit)) empty_world = Ret e empty_world /\
    (e = CORM_OK <-> valid_model (@user_model unit)).
Proof. apply validate_model_correct. right. by eexists. Defined.

(** A record of the sample schema in memory. *)
Definition sample_rec : rec :=
  <[0 := CInt 5]> (<[4 := CChars (replicate 16 NUL)]> (<[20 := CInt 0]> ∅)).
Definition record_world : world unit := World [] {[1%positive := BRecs [sample_rec]]} 2%positive tt.

Lemma field_round_trip_witness :
  exists w' v', corm_field_set_value (1%positive, O) field_name (text_val "a name too long for it")
      record_world = Ret tt w' /\
    others_kept (1%positive, O) 4 sample_rec record_world w' /\
    corm_field_get_value (1%positive, O) field_name w' = Ret v' w' /\
    resolve (w_heap w') v' = Some (SText "a name too long").
Proof.
  apply (field_round_trip (1%positive, O) field_name sample_rec (CChars (replicate 16 NUL))
    (text_val "a name too long for it") (SText "a name too long for it")).
  - reflexivity.
  - intros l [b Hl]. cbn in Hl. apply lookup_singleton_Some in Hl as [<- _]. reflexivity.
  - reflexivity.
  - reflexivity.
  - split; reflexivity.
  - reflexivity.
  - reflexivity.
  - reflexivity.
Defined.
