(* ===== verification/QueryProps.v ===== *)
(** * Properties of the query builder and the SQL generator *)

From S2P Require Import Prelude Types Mem Strbuf Dialect Model Backend Query Builder BuilderSpec.
From S2P Require Import QuerySpec QueryRefine Sample.

(** ** Programs that use the builder *)

Section programs.
Context {S : Type}.
Implicit Types (w : world S) (m : model S) (b : backend S).

(** [q = corm_query_new(db, model); script; corm_build_sql(q, &sql, bt)]. *)
Definition script_sql (b : backend S) m (os : list qop) :
    M S (option (query S) * corm_err * strbuf) :=
  q ← corm_query_new (Some b) (Some m);
  q ← exec_qops os q;
  q' ← deref q;
  '(err, sql) ← corm_build_sql q' corm_strbuf_init (be_type b);
  mret (q, err, sql).

Lemma query_new_spec b m w :
  plenty w -> heap_wf w ->
  exists q, corm_query_new (Some b) (Some m) w = Ret (Some q) w /\
    q_repr q w (w_heap w) aquery_empty /\ q_db q = Some b /\ q_model q = Some m.
Proof.
  intros Hp Hwf. unfold corm_query_new. rewrite (bind_Ret _ _ _ _ _ (malloc_ok_plenty w Hp)).
  eexists. split; [done|]. split; [|done]. constructor; simpl; try done.
  - split; [apply NoDup_nil_2|]. split; [by intros l ?%not_elem_of_nil|].
    intros l. by rewrite decide_False by apply not_elem_of_nil.
Qed.

Lemma empty_ok : aquery_ok aquery_empty.
Proof. by apply aquery_okb_spec. Qed.

Lemma asteps_ok h bt os a a' : aquery_ok a -> asteps h bt os a = Some a' -> aquery_ok a'.
Proof.
  revert a. induction os as [|o os IH]; intros a Hok H; simpl in H; [by simplify_eq|].
  destruct (astep h bt o a) as [a1|]; [|done]. simpl in H.
  destruct (aquery_okb a1) eqn:E; [|done]. by apply (IH a1); [apply aquery_okb_spec|].
Qed.

(** A script, up to the query it builds. *)
Lemma script_spec b m os w a :
  plenty w -> heap_wf w -> asteps (w_heap w) (be_type b) os aquery_empty = Some a ->
  exists q w', (q ← corm_query_new (Some b) (Some m); exec_qops os q) w = Ret (Some q) w' /\
    q_repr q w' (w_heap w) a /\ aquery_ok a /\ plenty w' /\ w_db w' = w_db w /\
    q_db q = Some b /\ q_model q = Some m.
Proof.
  intros Hp Hwf Ha. destruct (query_new_spec b m w Hp Hwf) as (q0 & E0 & Hq0 & Hd0 & Hm0).
  assert (Hbt : query_bt q0 = be_type b) by (unfold query_bt; by rewrite Hd0).
  destruct (refines_script os q0 w (w_heap w) aquery_empty a) as (q & w' & E & Hpost);
    [done|done|by rewrite Hbt|].
  destruct Hpost as (Hq & Hp' & Hdb & Hd & Hm). exists q, w'.
  rewrite (bind_Ret _ _ _ _ _ E0). split; [done|]. split; [done|].
  split; [by eapply asteps_ok; [apply empty_ok|]|]. split_and!; congruence.
Qed.

Lemma script_sql_spec b m fs os w a :
  plenty w -> heap_wf w -> model_ok m fs ->
  asteps (w_heap w) (be_type b) os aquery_empty = Some a ->
  fits (render (be_type b) m fs a) ->
  exists q sql w', script_sql b m os w = Ret (Some q, CORM_OK, sql) w' /\
    sb_repr sql (render (be_type b) m fs a) /\ q_repr q w' (w_heap w) a /\ plenty w'.
Proof.
  intros Hp Hwf Hm Ha Hf. destruct (script_spec b m os w a Hp Hwf Ha)
    as (q & w' & E & Hq & Hok & Hp' & _ & _ & Hqm).
  destruct (build_sql_ok q a (be_type b) m fs (qr_clauses _ _ _ _ Hq) Hok Hqm Hm w' Hp' Hf)
    as (sql & Es & Hs).
  exists q, sql, w'. unfold script_sql.
  rewrite <- bind_assoc. run_with E. by run_with Es.
Qed.
End programs.

(** ** Values do not reach the text *)

(** The same call up to the values it binds. *)
Definition same_shape (o o' : qop) : Prop :=
  match o, o' with
  | QWhereIn f _ n, QWhereIn f' _ n' => f = f' /\ n = n'
  | QBetween f _ _, QBetween f' _ _ => f = f'
  | QBind _, QBind _ => True
  | QSet f _, QSet f' _ => f = f'
  | _, _ => o = o'
  end.

(** Equal texts and equally many values. *)
Record same_text (a a' : aquery) : Prop := {
  st_op : a_op a = a_op a';
  st_select : a_select a = a_select a';
  st_where : a_where a = a_where a';
  st_order : a_order a = a_order a';
  st_group : a_group a = a_group a';
  st_having : a_having a = a_having a';
  st_joins : a_joins a = a_joins a';
  st_set : a_set a = a_set a';
  st_count : length (a_params a) = length (a_params a');
  st_limit : a_limit a = a_limit a';
  st_offset : a_offset a = a_offset a';
  st_distinct : a_distinct a = a_distinct a'
}.

Lemma same_text_add x x' a a' : same_text a a' -> same_text (add_param x a) (add_param x' a').
Proof. intros []. constructor; try done. simpl. rewrite !length_app. simpl. congruence. Qed.

Lemma same_text_where s s' a a' :
  s = s' -> same_text a a' -> same_text (a_set_where s a) (a_set_where s' a').
Proof. intros -> []. destruct a, a'. by constructor. Qed.

Lemma same_text_where_param bt x x' a a' :
  same_text a a' -> same_text (awhere_param bt x a) (awhere_param bt x' a').
Proof.
  intros H. apply same_text_add, same_text_where; [|done]. by rewrite (st_where _ _ H), (st_count _ _ H).
Qed.

Lemma same_text_where_list bt first xs xs' a a' :
  length xs = length xs' -> same_text a a' ->
  same_text (awhere_list bt first xs a) (awhere_list bt first xs' a').
Proof.
  revert xs' first a a'. induction xs as [|x xs IH]; intros [|x' xs'] first a a' Hl H; try done.
  simpl. apply IH; [by injection Hl|]. apply same_text_where_param, same_text_where; [|done].
  by rewrite (st_where _ _ H).
Qed.

Lemma first_vals_length vs n vs' : first_vals vs n = Some vs' -> length vs' = Z.to_nat n.
Proof.
  unfold first_vals. destruct (Z.leb_spec n (Z.of_nat (length vs))); [|done]. intros [= <-].
  rewrite length_take. lia.
Qed.

Lemma astep_same_text h h' bt o o' a a' a1 a1' :
  same_shape o o' -> same_text a a' -> astep h bt o a = Some a1 -> astep h' bt o' a' = Some a1' ->
  same_text a1 a1'.
Proof.
  intros Hs H E E'.
  destruct o; destruct o'; try (simpl in Hs; discriminate Hs); simpl in Hs;
    try (injection Hs as ->); cbn [astep] in E, E'.
  all: try (injection E as <-; injection E' as <-; destruct H, a, a'; constructor; cbn in *; congruence).
  all: try (destruct (corm_is_valid_identifier _) in E, E'; injection E as <-; injection E' as <-;
            [|done]; destruct H, a, a'; constructor; cbn in *; congruence).
  - destruct Hs as [-> ->]. destruct (_ || _) in E, E'; [by simplify_eq|].
    destruct (first_vals vals _) as [vs|] eqn:Ev; [|done]. cbn [mbind option_bind] in E.
    destruct (mapM (bind_val h) vs) as [xs|] eqn:Ex; [|done]. cbn [mbind option_bind] in E.
    destruct (first_vals vals0 _) as [vs'|] eqn:Ev'; [|done]. cbn [mbind option_bind] in E'.
    destruct (mapM (bind_val h') vs') as [xs'|] eqn:Ex'; [|done]. cbn [mbind option_bind] in E'.
    injection E as <-. injection E' as <-.
    assert (length xs = length xs').
    { apply length_mapM in Ex, Ex'. apply first_vals_length in Ev, Ev'. lia. }
    assert (HL : same_text
      (awhere_list bt true xs (a_set_where (joined " AND " (a_where a) (field0 +:+ " IN (")) a))
      (awhere_list bt true xs' (a_set_where (joined " AND " (a_where a') (field0 +:+ " IN (")) a'))).
    { apply same_text_where_list; [done|]. apply same_text_where; [|done]. by rewrite (st_where _ _ H). }
    apply same_text_where; [|done]. by rewrite (st_where _ _ HL).
  - subst. destruct (corm_is_valid_identifier _) in E, E'; [|by simplify_eq].
    destruct (bind_val h lo) as [x|]; [|done]. destruct (bind_val h hi) as [y|]; [|done].
    destruct (bind_val h' lo0) as [x'|]; [|done]. destruct (bind_val h' hi0) as [y'|]; [|done].
    apply (inj Some) in E as <-. apply (inj Some) in E' as <-.
    match goal with |- same_text (awhere_param _ _ (a_set_where (a_where ?p +:+ _) ?p))
      (awhere_param _ _ (a_set_where (a_where ?p' +:+ _) ?p')) =>
      assert (HL : same_text p p') end.
    { apply same_text_where_param, same_text_where; [|done]. by rewrite (st_where _ _ H). }
    apply same_text_where_param, same_text_where; [|done]. by rewrite (st_where _ _ HL).
  - destruct (bind_val h v) as [x|]; [|done]. destruct (bind_val h' v0) as [x'|]; [|done].
    injection E as <-. injection E' as <-. by apply same_text_add.
  - subst. destruct (corm_is_valid_identifier _) in E, E'; [|by simplify_eq].
    destruct (bind_val h v) as [x|]; [|done]. destruct (bind_val h' v0) as [x'|]; [|done].
    injection E as <-. injection E' as <-. destruct H, a, a'.
    constructor; cbn in *; rewrite ?length_app; cbn; congruence.
Qed.

Lemma asteps_same_text h h' bt os os' a a' a1 a1' :
  Forall2 same_shape os os' -> same_text a a' ->
  asteps h bt os a = Some a1 -> asteps h' bt os' a' = Some a1' -> same_text a1 a1'.
Proof.
  intros Hs. revert a a'. induction Hs as [|o o' os os' Ho _ IH]; intros a a' H E E';
    simpl in E, E'; [by simplify_eq|].
  destruct (astep h bt o a) as [a2|] eqn:E2; [|done].
  destruct (astep h' bt o' a') as [a2'|] eqn:E2'; [|done]. simpl in E, E'.
  destruct (aquery_okb a2); [|done]. destruct (aquery_okb a2'); [|done].
  apply (IH a2 a2'); [|done..]. by eapply (astep_same_text h h').
Qed.

Lemma render_same_text {S} bt (m : model S) fs a a' :
  same_text a a' -> render bt m fs a = render bt m fs a'.
Proof.
  intros []. unfold render, render_select, render_insert, render_update, render_delete.
  rewrite st_op0, st_select0, st_where0, st_order0, st_group0, st_having0, st_joins0, st_set0,
    st_limit0, st_offset0, st_distinct0. done.
Qed.

(** ** Every placeholder has its value *)

(** Question marks in the clauses that values are bound to. *)
Definition marks (a : aquery) : Z := str_count "?" (a_set a) + str_count "?" (a_where a).

Definition balanced (a : aquery) : Prop := marks a = Z.of_nat (length (a_params a)).

(** Calls that leave placeholders to the library. *)
Definition structured (o : qop) : Prop :=
  match o with
  | QWhere c | QOrWhere c => str_count "?" c = 0
  | QBind _ | QSetRaw _ => False
  | _ => True
  end.

Lemma count_when c b s : str_count c s = 0 -> str_count c (when b s) = 0.
Proof. by destruct b. Qed.

Lemma count_ident c f :
  ident_char c = false -> corm_is_valid_identifier (Some f) = true -> str_count c f = 0.
Proof.
  intros Hc Hv. apply valid_identifier_inv in Hv as (s & Hs & _ & Hf). simplify_eq.
  by apply ident_count_0.
Qed.

Lemma balanced_where_param bt x a :
  bt <> CORM_BACKEND_POSTGRES -> balanced a -> balanced (awhere_param bt x a).
Proof.
  intros Hbt H. unfold balanced, marks in *. destruct a. cbn in *.
  rewrite str_count_app, length_app, placeholder_qmarks, decide_False by (done || lia). cbn. lia.
Qed.

Lemma balanced_where_list bt first xs a :
  bt <> CORM_BACKEND_POSTGRES -> balanced a -> balanced (awhere_list bt first xs a).
Proof.
  intros Hbt. revert first a. induction xs as [|x xs IH]; intros first a H; [done|]. simpl.
  apply IH, balanced_where_param; [done|]. unfold balanced, marks in *. destruct a. cbn in *.
  rewrite str_count_app, (count_when _ _ ", ") by done. lia.
Qed.

Lemma balanced_append s a :
  str_count "?" s = 0 -> balanced a -> balanced (a_set_where (a_where a +:+ s) a).
Proof. intros Hs H. unfold balanced, marks in *. destruct a. cbn in *. rewrite str_count_app. lia. Qed.

Lemma balanced_joined sep s a :
  str_count "?" sep = 0 -> str_count "?" s = 0 -> balanced a ->
  balanced (a_set_where (joined sep (a_where a) s) a).
Proof.
  intros H1 H2. unfold joined. apply balanced_append. by rewrite str_count_app, count_when.
Qed.

Lemma astep_balanced h bt o a a' :
  bt <> CORM_BACKEND_POSTGRES -> structured o -> balanced a -> astep h bt o a = Some a' ->
  balanced a'.
Proof.
  intros Hbt Ho H E. destruct o; try (by destruct Ho); cbn [astep structured] in *;
    try (apply (inj Some) in E as <-; destruct a; done);
    try (destruct (corm_is_valid_identifier (Some _)) eqn:Ev;
         [|by apply (inj Some) in E as <-]).
  - apply (inj Some) in E as <-. by apply balanced_joined.
  - apply (inj Some) in E as <-. by apply balanced_joined.
  - apply (inj Some) in E as <-. apply balanced_joined; [done| |done].
    by rewrite str_count_app, (count_ident "?" field).
  - apply (inj Some) in E as <-. apply balanced_joined; [done| |done].
    by rewrite str_count_app, (count_ident "?" field).
  - destruct (_ || _) eqn:Ev in E; [by apply (inj Some) in E as <-|].
    apply orb_false_elim in Ev as [_ Ev]. apply negb_false_iff in Ev.
    destruct (first_vals vals count) as [vs|]; [|done]. cbn [mbind option_bind] in E.
    destruct (mapM (bind_val h) vs) as [xs|]; [|done]. cbn [mbind option_bind] in E.
    apply (inj Some) in E as <-. apply balanced_append, balanced_where_list; [done..|].
    apply balanced_joined; [done| |done]. by rewrite str_count_app, (count_ident "?" field).
  - destruct (bind_val h lo) as [x|]; [|done]. destruct (bind_val h hi) as [y|]; [|done].
    apply (inj Some) in E as <-. apply balanced_where_param, balanced_append,
      balanced_where_param, balanced_joined; try done.
    by rewrite str_count_app, (count_ident "?" field).
  - destruct (bind_val h v) as [x|]; [|done]. apply (inj Some) in E as <-.
    unfold balanced, marks, joined, quoted in *. destruct a. cbn in *.
    rewrite !str_count_app, (count_when _ _ ", "), (count_ident "?" field), length_app by done.
    assert (Hq : str_count "?" (corm_dialect_quote bt) = 0) by (by destruct bt).
    cbn. rewrite Hq, placeholder_qmarks, decide_False by (done || lia). cbn. lia.
  - apply (inj Some) in E as <-. by destruct a.
Qed.

Lemma asteps_balanced h bt os a a' :
  bt <> CORM_BACKEND_POSTGRES -> Forall structured os -> balanced a ->
  asteps h bt os a = Some a' -> balanced a'.
Proof.
  intros Hbt Hs. revert a. induction Hs as [|o os Ho _ IH]; intros a H E; simpl in E; [by simplify_eq|].
  destruct (astep h bt o a) as [a1|] eqn:E1; [|done]. simpl in E.
  destruct (aquery_okb a1); [|done]. apply (IH a1); [by eapply astep_balanced|done].
Qed.

(** ** The properties *)

Section properties.
Context {S : Type}.

(** C1: a script of builder calls followed by [corm_build_sql] succeeds and
    leaves in the SQL buffer exactly the text that the specification renders
    for the script ([asteps] and [render] work on plain strings and values).
    The size limits in [asteps] are 2^29 bytes per clause. *)
Theorem query_script_renders (b : backend S) (m : model S) fs os w a :
  plenty w -> heap_wf w -> model_ok m fs ->
  asteps (w_heap w) (be_type b) os aquery_empty = Some a ->
  fits (render (be_type b) m fs a) ->
  exists q sql w', script_sql b m os w = Ret (Some q, CORM_OK, sql) w' /\
    sb_repr sql (render (be_type b) m fs a) /\
    Forall2 (fun v x => resolve (w_heap w') v = Some x) (q_params q) (a_params a).
Proof.
  intros Hp Hwf Hm Ha Hf.
  destruct (script_sql_spec b m fs os w a Hp Hwf Hm Ha Hf) as (q & sql & w' & E & Hs & Hq & _).
  exists q, sql, w'. split_and!; [done|done|apply Hq].
Qed.

(** C2: a query owns its parameters: building one with a script whose bound texts
    and blobs can be read - a blob being NULL or not empty - and freeing it gives
    back exactly the heap it started from, so no copy of a parameter leaks, nothing
    is freed twice and no memory of the caller is touched.  A blob of length zero
    that is not NULL is not copied: freeing the query frees the memory of the caller
    (Example [empty_blob_frees_caller]). *)
Theorem query_no_leak (b : backend S) (m : model S) os w a :
  plenty w -> heap_wf w ->
  asteps (w_heap w) (be_type b) os aquery_empty = Some a ->
  exists w', (q ← corm_query_new (Some b) (Some m);
              q ← exec_qops os q; corm_query_free q) w = Ret tt w' /\
    w_heap w' = w_heap w /\ w_db w' = w_db w.
Proof.
  intros Hp Hwf Ha. destruct (script_spec b m os w a Hp Hwf Ha)
    as (q & w' & E & Hq & _ & _ & Hd & _).
  exists (set_heap (w_heap w) w'). rewrite <- bind_assoc.
  run_with E. by rewrite (free_params_spec _ _ _ (qr_wf _ _ _ _ Hq) (qr_split _ _ _ _ Hq)).
Qed.

(** C3: no injection: two scripts that differ only in the values they bind
    (and may run in different memories) produce the same SQL text and the
    same number of parameters. *)
Theorem values_never_in_sql (b : backend S) (m : model S) fs os os' w w' a a' :
  plenty w -> heap_wf w -> plenty w' -> heap_wf w' -> model_ok m fs ->
  Forall2 same_shape os os' ->
  asteps (w_heap w) (be_type b) os aquery_empty = Some a ->
  asteps (w_heap w') (be_type b) os' aquery_empty = Some a' ->
  fits (render (be_type b) m fs a) ->
  exists q q' sql sql' w1 w1' text,
    script_sql b m os w = Ret (Some q, CORM_OK, sql) w1 /\
    script_sql b m os' w' = Ret (Some q', CORM_OK, sql') w1' /\
    sb_repr sql text /\ sb_repr sql' text /\ q_param_count q = q_param_count q'.
Proof.
  intros Hp Hwf Hp' Hwf' Hm Hs Ha Ha' Hf.
  assert (Ht : same_text a a') by (eapply asteps_same_text; [exact Hs| |exact Ha|exact Ha']; by constructor).
  pose proof (render_same_text (be_type b) m fs a a' Ht) as Hr.
  destruct (script_sql_spec b m fs os w a Hp Hwf Hm Ha Hf) as (q & sql & w1 & E & Hsb & Hq & _).
  rewrite Hr in Hf.
  destruct (script_sql_spec b m fs os' w' a' Hp' Hwf' Hm Ha' Hf) as (q' & sql' & w1' & E' & Hsb' & Hq' & _).
  exists q, q', sql, sql', w1, w1', (render (be_type b) m fs a).
  rewrite (qr_count _ _ _ _ Hq), (qr_count _ _ _ _ Hq'), (st_count _ _ Ht), Hr in *.
  by split_and!.
Qed.

(** C4: on SQLite and MySQL a script that leaves the placeholders to the
    library binds exactly one value per question mark of the SET and WHERE
    clauses. *)
Theorem placeholders_match_params (b : backend S) (m : model S) os w a :
  plenty w -> heap_wf w -> be_type b <> CORM_BACKEND_POSTGRES -> Forall structured os ->
  asteps (w_heap w) (be_type b) os aquery_empty = Some a ->
  exists q w' set_text where_text,
    (q ← corm_query_new (Some b) (Some m); exec_qops os q) w = Ret (Some q) w' /\
    sb_repr (q_set_clause q) set_text /\ sb_repr (q_where q) where_text /\
    q_param_count q = str_count "?" set_text + str_count "?" where_text.
Proof.
  intros Hp Hwf Hb Hs Ha. destruct (script_spec b m os w a Hp Hwf Ha)
    as (q & w' & E & Hq & _).
  assert (Hbal : balanced a) by (eapply asteps_balanced; [exact Hb|exact Hs| |exact Ha]; done).
  exists q, w', (a_set a), (a_where a). rewrite (qr_count _ _ _ _ Hq).
  split_and!; [done|apply Hq|apply Hq|done].
Qed.

(** C5: the generator ignores out-of-memory conditions of the text buffer: on
    a query in good state it is never stuck, reports success, leaves the heap
    and the database alone, and the buffer is well formed but may hold less
    than the statement. *)
Theorem build_sql_out_of_memory (q : query S) a bt m fs w :
  clauses_repr q a -> aquery_ok a -> q_model q = Some m -> model_ok m fs ->
  fits (render bt m fs a) ->
  exists sql w' text, corm_build_sql q corm_strbuf_init bt w = Ret (CORM_OK, sql) w' /\
    sb_repr sql text /\ slen text <= slen (render bt m fs a) /\
    w_heap w' = w_heap w /\ w_db w' = w_db w.
Proof.
  intros Hr Hok Hq Hm Hf.
  destruct (writes_build_sql q a bt m fs Hr Hok Hq Hm corm_strbuf_init EmptyString w
    sb_repr_init Hf) as (sb & y & w' & E & Hs & Hl & (Hh & _ & Hd & _) & _).
  apply bind_inv in E as ([e sb1] & w1 & E & H). ret_inv H.
  rewrite (build_sql_code _ _ _ _ _ _ _ E) in E. eauto 10.
Qed.
End properties.

(** ** The properties at concrete inputs *)

Lemma query_script_renders_witness :
  exists q sql w',
    script_sql (bare_backend unit CORM_BACKEND_POSTGRES) user_model sample_select empty_world =
      Ret (Some q, CORM_OK, sql) w' /\
    sb_repr sql (render CORM_BACKEND_POSTGRES (@user_model unit) user_fields
                   (asteps_get CORM_BACKEND_POSTGRES sample_select)) /\
    Forall2 (fun v x => resolve (w_heap w') v = Some x) (q_params q)
      [SInt 1; SInt 2; SInt 18; SInt 30].
Proof.
  apply (query_script_renders (bare_backend unit CORM_BACKEND_POSTGRES) user_model user_fields
    sample_select empty_world (asteps_get CORM_BACKEND_POSTGRES sample_select)).
  - reflexivity.
  - exact empty_world_wf.
  - exact user_model_ok.
  - vm_compute. reflexivity.
  - unfold fits. vm_compute. discriminate.
Defined.

Lemma query_no_leak_witness :
  exists w', (q ← corm_query_new (Some (bare_backend unit CORM_BACKEND_MYSQL)) (Some user_model);
              q ← exec_qops sample_update q; corm_query_free q) empty_world = Ret tt w' /\
    w_heap w' = w_heap empty_world /\ w_db w' = tt.
Proof.
  apply (query_no_leak (bare_backend unit CORM_BACKEND_MYSQL) user_model sample_update empty_world
    (asteps_get CORM_BACKEND_MYSQL sample_update)).
  - reflexivity.
  - exact empty_world_wf.
  - vm_compute. reflexivity.
Defined.

Lemma values_never_in_sql_witness :
  exists q q' sql sql' w1 w1' text,
    script_sql (bare_backend unit CORM_BACKEND_SQLITE) user_model sample_select empty_world =
      Ret (Some q, CORM_OK, sql) w1 /\
    script_sql (bare_backend unit CORM_BACKEND_SQLITE) user_model sample_select' empty_world =
      Ret (Some q', CORM_OK, sql') w1' /\
    sb_repr sql text /\ sb_repr sql' text /\ q_param_count q = q_param_count q'.
Proof.
  apply (values_never_in_sql (bare_backend unit CORM_BACKEND_SQLITE) user_model user_fields
    sample_select sample_select' empty_world empty_world
    (asteps_get CORM_BACKEND_SQLITE sample_select) (asteps_get CORM_BACKEND_SQLITE sample_select')).
  - reflexivity.
  - exact empty_world_wf.
  - reflexivity.
  - exact empty_world_wf.
  - exact user_model_ok.
  - repeat constructor.
  - vm_compute. reflexivity.
  - vm_compute. reflexivity.
  - unfold fits. vm_compute. discriminate.
Defined.

Lemma placeholders_match_params_witness :
  exists q w' set_text where_text,
    (q ← corm_query_new (Some (bare_backend unit CORM_BACKEND_MYSQL)) (Some user_model);
     exec_qops sample_update q) empty_world = Ret (Some q) w' /\
    sb_repr (q_set_clause q) set_text /\ sb_repr (q_where q) where_text /\
    q_param_count q = str_count "?" set_text + str_count "?" where_text.
Proof.
  apply (placeholders_match_params (bare_backend unit CORM_BACKEND_MYSQL) user_model sample_update
    empty_world (asteps_get CORM_BACKEND_MYSQL sample_update)).
  - reflexivity.
  - exact empty_world_wf.
  - discriminate.
  - repeat constructor.
  - vm_compute. reflexivity.
Defined.

Lemma build_sql_out_of_memory_witness :
  exists sql w' text,
    corm_build_sql (Query (S := unit) None (Some user_model) CORM_OP_DELETE corm_strbuf_init
        corm_strbuf_init corm_strbuf_init corm_strbuf_init corm_strbuf_init corm_strbuf_init
        corm_strbuf_init [] 0 0 0 false false "")
      corm_strbuf_init CORM_BACKEND_SQLITE starved_world = Ret (CORM_OK, sql) w' /\
    sb_repr sql text /\
    slen text <= slen (render CORM_BACKEND_SQLITE (@user_model unit) user_fields
                         (a_set_op CORM_OP_DELETE aquery_empty)) /\
    w_heap w' = w_heap starved_world /\ w_db w' = w_db starved_world.
Proof.
  apply (build_sql_out_of_memory _ (a_set_op CORM_OP_DELETE aquery_empty) CORM_BACKEND_SQLITE
    user_model user_fields starved_world).
  - constructor; try reflexivity; apply sb_repr_init.
  - apply aquery_okb_spec. reflexivity.
  - reflexivity.
  - exact user_model_ok.
  - unfold fits. vm_compute. discriminate.
Defined.

(** What the sample scripts render to. *)
Example sample_select_text :
  render CORM_BACKEND_POSTGRES (@user_model unit) user_fields
    (asteps_get CORM_BACKEND_POSTGRES sample_select) =
  "SELECT id, name FROM " +:+ dquote +:+ "users" +:+ dquote +:+
  " WHERE id IN ($1, $2) AND name IS NOT NULL AND age BETWEEN $3 AND $4 ORDER BY id DESC LIMIT 10".
Proof. vm_compute. reflexivity. Qed.

(** On PostgreSQL the placeholders of [corm_query_set] hold no question mark, so
    a condition of the caller is numbered from [$1] again. *)
Example update_numbering_postgres :
  render CORM_BACKEND_POSTGRES (@user_model unit) user_fields
    (asteps_get CORM_BACKEND_POSTGRES [QSet "name" (text_val "bob"); QWhere "id = ?"; QBind (int_val 3)]) =
  "UPDATE " +:+ dquote +:+ "users" +:+ dquote +:+ " SET " +:+ dquote +:+ "name" +:+ dquote +:+
  " = $1 WHERE id = $1".
Proof. vm_compute. reflexivity. Qed.

(** A blob of length zero is not copied, but freed with the query. *)
Example empty_blob_frees_caller :
  let w := World [] {[1%positive := BBytes []]} 2%positive tt in
  match (q ← corm_query_new (Some (bare_backend unit CORM_BACKEND_SQLITE)) (Some user_model);
         q ← exec_qops [QBind (Value CORM_BLOB false (UBlob (PHeap 1) 0))] q; corm_query_free q) w with
  | Ret _ w' => Some (w_heap w')
  | Stuck => None
  end = Some ∅.
Proof. vm_compute. reflexivity. Qed.

(** An OFFSET without a LIMIT selects nothing: the limit is written as 0. *)
Example offset_without_limit :
  render CORM_BACKEND_SQLITE (@user_model unit) user_fields
    (asteps_get CORM_BACKEND_SQLITE [QOffset 20]) =
  "SELECT * FROM " +:+ dquote +:+ "users" +:+ dquote +:+ " LIMIT 0 OFFSET 20".
Proof. vm_compute. reflexivity. Qed.
