(* ===== verification/Tx.v ===== *)
(** * Transactions ([src/corm.c], transaction API)

    The functions only dispatch to the driver.  A [corm_t *] is seen as the
    driver it uses; [None]: the handle or its [backend] is NULL.

    [Transactional] is the interface a transactional driver offers: what its
    [begin] and [rollback] promise about the content of the database. *)

From S2P Require Import Prelude Types Mem Strbuf Backend.

Section tx.
Context {S : Type}.
Implicit Types (w : world S) (b : backend S).

Definition corm_ping (db : option (backend S)) : M S corm_err :=
  match db with
  | None => mret CORM_ERR_NULL
  | Some b => f ← deref (be_ping b); f
  end.

Definition corm_begin (db : option (backend S)) : M S corm_err :=
  match db with
  | None => mret CORM_ERR_NULL
  | Some b => f ← deref (be_begin b); f
  end.

Definition corm_commit (db : option (backend S)) : M S corm_err :=
  match db with
  | None => mret CORM_ERR_NULL
  | Some b => f ← deref (be_commit b); f
  end.

Definition corm_rollback (db : option (backend S)) : M S corm_err :=
  match db with
  | None => mret CORM_ERR_NULL
  | Some b => f ← deref (be_rollback b); f
  end.

Definition corm_transaction (db : option (backend S)) (fn : option (M S corm_err)) :
    M S corm_err :=
  match db, fn with
  | Some _, Some fn =>
      err ← corm_begin db;
      if decide (err = CORM_OK) then
        err ← fn;
        if decide (err = CORM_OK) then
          cerr ← corm_commit db; mret (if decide (cerr = CORM_OK) then CORM_OK else cerr)
        else corm_rollback db;; mret err
      else mret err
  | _, _ => mret CORM_ERR_NULL
  end.
End tx.

(** ** What a transactional driver promises

    [content] is what is stored in the database, [saved] what a rollback would
    restore ([None] outside a transaction), and where [tx_free] holds a begin that
    succeeds starts a transaction of its own (on PostgreSQL it succeeds inside a
    transaction too, and then joins it).  The three functions return; they may
    allocate, but touch nothing else than the state behind the connection. *)
Class Transactional {S K : Type} (b : backend S) `{!Usable b} : Type := {
  content : S -> K;
  saved : S -> option K;
  tx_free : S -> Prop;
  tx_begin : M S corm_err;
  tx_commit : M S corm_err;
  tx_rollback : M S corm_err;
  tx_begin_eq : be_begin b = Some tx_begin;
  tx_commit_eq : be_commit b = Some tx_commit;
  tx_rollback_eq : be_rollback b = Some tx_rollback;
  tx_begin_law : forall w, usable b (w_db w) -> tx_free (w_db w) ->
    exists e d w1, tx_begin w = Ret e (set_db d w1) /\ alloc_only w w1 /\ usable b d /\
    content d = content (w_db w) /\
    (e = CORM_OK -> saved d = Some (content (w_db w)));
  tx_commit_law : forall w, usable b (w_db w) ->
    exists e d w1, tx_commit w = Ret e (set_db d w1) /\ alloc_only w w1 /\ usable b d /\
    (e = CORM_OK -> content d = content (w_db w));
  tx_rollback_law : forall w k, usable b (w_db w) -> saved (w_db w) = Some k ->
    exists e d w1, tx_rollback w = Ret e (set_db d w1) /\ alloc_only w w1 /\ usable b d /\
    content d = k
}.
Arguments content {S K} b {_ _}.
Arguments saved {S K} b {_ _}.
Arguments tx_free {S K} b {_ _}.

(** [m] does not end the transaction it runs in: what a rollback would restore
    stays the same. *)
Definition keeps_saved {S K A} (b : backend S) `{!Usable b} `{!Transactional (K := K) b}
    (m : M S A) : Prop :=
  forall w a w', m w = Ret a w' -> saved b (w_db w') = saved b (w_db w).

Section keeps.
Context {S K : Type} (b : backend S) `{!Usable b} `{!Transactional (K := K) b}.

Lemma keeps_ret {A} (a : A) : keeps_saved b (mret a : M S A).
Proof. intros w x w' H. by ret_inv H. Qed.

Lemma keeps_stuck {A} : keeps_saved b (stuck : M S A).
Proof. by intros w x w' H. Qed.

Lemma keeps_bind {A B} (m : M S A) (k : A -> M S B) :
  keeps_saved b m -> (forall a, keeps_saved b (k a)) -> keeps_saved b (m ≫= k).
Proof.
  intros Hm Hk w x w' H. apply bind_inv in H as (a & w1 & E & H).
  by rewrite (Hk a w1 x w' H), (Hm w a w1 E).
Qed.

(** What does not touch the database at all. *)
Lemma keeps_const {A} (m : M S A) :
  (forall w a w', m w = Ret a w' -> w_db w' = w_db w) -> keeps_saved b m.
Proof. intros Hm w a w' H. by rewrite (Hm w a w' H). Qed.

Lemma keeps_deref {A} (o : option A) : keeps_saved b (deref o : M S A).
Proof. destruct o; [apply keeps_ret|apply keeps_stuck]. Qed.

Lemma keeps_for_each {A B} (xs : list A) (body : A -> B -> M S B) (z : B) :
  (forall x y, keeps_saved b (body x y)) -> keeps_saved b (for_each xs body z).
Proof.
  intros Hb. revert z. induction xs as [|x xs IH]; intros z; [apply keeps_ret|].
  cbn [for_each]. apply keeps_bind; [apply Hb|done].
Qed.
End keeps.

(** ** The property *)

Section properties.
Context {S K : Type} (b : backend S) `{!Usable b} `{!Transactional (K := K) b}.

(** C21: atomicity: on a transactional driver, [corm_transaction] around a
    callback that returns from the transaction just started, leaves the
    connection usable and does not end the transaction itself, called where a
    transaction can start, returns too.  A transaction that cannot be started is
    reported with the driver's error, without calling the callback and with the
    database as it was.  When the callback succeeds the transaction is committed
    and the result of the commit is reported: when this is success the database
    holds what the callback left.  When the callback fails the transaction is
    rolled back, the error of the callback is reported whatever the rollback
    reports, and the database holds what it held before. *)
Theorem transaction_atomic (fn : M S corm_err) w :
  usable b (w_db w) -> tx_free b (w_db w) ->
  (forall w', corm_begin (Some b) w = Ret CORM_OK w' ->
     exists e w'', fn w' = Ret e w'' /\ usable b (w_db w'')) -> keeps_saved b fn ->
  exists e w' e1 w1, corm_transaction (Some b) (Some fn) w = Ret e w' /\
    corm_begin (Some b) w = Ret e1 w1 /\
    if decide (e1 = CORM_OK) then
      exists e2 w2, fn w1 = Ret e2 w2 /\
        if decide (e2 = CORM_OK) then
          corm_commit (Some b) w2 = Ret e w' /\
          (e = CORM_OK -> content b (w_db w') = content b (w_db w2))
        else
          e = e2 /\ (exists e3, corm_rollback (Some b) w2 = Ret e3 w') /\
          content b (w_db w') = content b (w_db w)
    else e = e1 /\ w' = w1 /\ content b (w_db w') = content b (w_db w).
Proof.
  intros Hu Hf Hfn Hk. unfold corm_transaction, corm_begin, corm_commit, corm_rollback.
  unfold corm_begin in Hfn. rewrite ?tx_begin_eq, ?bind_deref_Some in *. rewrite tx_commit_eq, tx_rollback_eq. run.
  destruct (tx_begin_law w Hu Hf) as (e1 & d1 & wa & E1 & _ & Hu1 & Hc1 & Hs1). run_with E1.
  set (w1 := set_db d1 wa) in *.
  destruct (decide (e1 = CORM_OK)) as [->|He1].
  2: { exists e1, w1, e1, w1. by rewrite decide_False. }
  destruct (Hfn w1 E1) as (e2 & w2 & E2 & Hu2). run_with E2.
  destruct (decide (e2 = CORM_OK)) as [->|He2].
  - destruct (tx_commit_law w2 Hu2) as (e3 & d3 & wb & E3 & _ & _ & Hc3). run_with E3.
    exists e3, (set_db d3 wb), CORM_OK, w1. split; [by destruct (decide (e3 = CORM_OK)) as [->|]|].
    split; [done|]. rewrite decide_True by done. exists CORM_OK, w2. by rewrite decide_True.
  - assert (Hs2 : saved b (w_db w2) = Some (content b (w_db w)))
      by (rewrite (Hk _ _ _ E2); by apply Hs1).
    destruct (tx_rollback_law w2 _ Hu2 Hs2) as (e3 & d3 & wb & E3 & _ & _ & Hc3). run_with E3.
    exists e2, (set_db d3 wb), CORM_OK, w1. split; [done|]. split; [done|]. rewrite decide_True by done.
    exists e2, w2. rewrite decide_False by done. split; [done|]. split; [done|]. split; [by exists e3|done].
Qed.
End properties.

(** ** A concrete transactional driver

    The database is a number; the state holds it with the saved copy. *)

Definition counter_db : Type := Z * option Z.

Definition counter_backend : backend counter_db :=
  Backend "counter" CORM_BACKEND_SQLITE None None None None None
    (Some ('(v, _) ← get_db; put_db (v, Some v);; mret CORM_OK))
    (Some ('(v, _) ← get_db; put_db (v, None);; mret CORM_OK))
    (Some ('(v, s) ← get_db; put_db (default v s, None);; mret CORM_OK))
    None None None None.

#[export] Instance counter_usable : Usable counter_backend := fun _ => True.

#[export] Instance counter_transactional : Transactional (K := Z) counter_backend.
Proof.
  refine {| content := fst; saved := snd; tx_free := fun _ => True;
            tx_begin := ('(v, _) ← get_db; put_db (v, Some v);; mret CORM_OK);
            tx_commit := ('(v, _) ← get_db; put_db (v, None);; mret CORM_OK);
            tx_rollback := ('(v, s) ← get_db; put_db (default v s, None);; mret CORM_OK) |}.
  - reflexivity.
  - reflexivity.
  - reflexivity.
  - intros [o h n [v s]] _ _. eexists _, _, _. split; [reflexivity|]. by split; [apply alloc_only_refl|].
  - intros [o h n [v s]] _. eexists _, _, _. split; [reflexivity|]. by split; [apply alloc_only_refl|].
  - intros [o h n [v s]] k _ Hs. simpl in Hs. subst s. eexists _, _, _. split; [reflexivity|].
    by split; [apply alloc_only_refl|].
Defined.

(** A callback that adds to the counter and then fails. *)
Definition failing_increment : M counter_db corm_err :=
  '(v, s) ← get_db; put_db (v + 1, s);; mret CORM_ERR_DUP.

(** A callback that adds to the counter and succeeds. *)
Definition increment : M counter_db corm_err :=
  '(v, s) ← get_db; put_db (v + 1, s);; mret CORM_OK.

Definition five : world counter_db := World [] ∅ 1%positive (5, None).

(** One commits and leaves 6, the other reports its error and leaves 5. *)
Lemma transaction_atomic_witness :
  (exists w', corm_transaction (Some counter_backend) (Some increment) five = Ret CORM_OK w' /\
     content counter_backend (w_db w') = 6) /\
  (exists w', corm_transaction (Some counter_backend) (Some failing_increment) five = Ret CORM_ERR_DUP w' /\
     content counter_backend (w_db w') = 5).
Proof.
  split.
  - unshelve epose proof (transaction_atomic counter_backend increment five _ _ _ _) as H; [exact I..| | |].
    { intros [o h n [v s]] _. eexists _, _. split; [reflexivity|exact I]. }
    { intros [o h n [v s]] a w' H. injection H as <- <-. reflexivity. }
    destruct H as (e & w' & e1 & w1 & E & E1 & Hrest). injection E1 as <- <-.
    destruct Hrest as (e2 & w2 & E2 & Hrest). injection E2 as <- <-.
    destruct Hrest as [E3 Hc]. injection E3 as <- <-. eexists. split; [exact E|]. by apply Hc.
  - unshelve epose proof (transaction_atomic counter_backend failing_increment five _ _ _ _) as H; [exact I..| | |].
    { intros [o h n [v s]] _. eexists _, _. split; [reflexivity|exact I]. }
    { intros [o h n [v s]] a w' H. injection H as <- <-. reflexivity. }
    destruct H as (e & w' & e1 & w1 & E & E1 & Hrest). injection E1 as <- <-.
    destruct Hrest as (e2 & w2 & E2 & Hrest). injection E2 as <- <-.
    destruct Hrest as (-> & _ & Hc). exists w'. by split.
Defined.
