(* ===== verification/Driver.v ===== *)
(** * What the query layer expects of a driver

    [SqlDriver] is the interface of the [exec] side of the virtual table: a
    statement and the values bound to it act on the database behind the
    connection, and the caller's memory stays as it is.  [sql_carries] holds of
    the statements and values that the driver can execute as it stands (on MySQL
    a failed statement spoils the statement cache); the statements that succeed
    keep it.  [journal_backend] is a
    concrete driver that satisfies it; its database is the list of the
    statements executed. *)

From S2P Require Import Prelude Types Mem Strbuf Backend Tx.

Class SqlDriver {S : Type} (b : backend S) `{!Usable b} : Type := {
  sql_carries : string -> list sqlval -> S -> Prop;
  sql_exec : string -> list sqlval -> S -> corm_err * S;
  sql_affected : S -> Z;
  sql_last_id : S -> Z;
  drv_exec : string -> list corm_value -> M S corm_err;
  drv_exec_eq : be_exec b = Some drv_exec;
  drv_affected : M S Z;
  drv_affected_eq : be_rows_affected b = Some drv_affected;
  drv_affected_law : forall w, usable b (w_db w) ->
    drv_affected w = Ret (sql_affected (w_db w)) w;
  drv_last_id : M S Z;
  drv_last_id_eq : be_last_insert_id b = Some drv_last_id;
  drv_last_id_law : forall w, usable b (w_db w) -> drv_last_id w = Ret (sql_last_id (w_db w)) w;
  drv_exec_usable : forall text xs d, usable b d -> sql_carries text xs d ->
    usable b (sql_exec text xs d).2;
  drv_exec_carries : forall text xs d text' xs', usable b d -> sql_carries text xs d ->
    (sql_exec text xs d).1 = CORM_OK -> sql_carries text' xs' d ->
    sql_carries text' xs' (sql_exec text xs d).2;
  drv_exec_law : forall w text ps xs, plenty w -> usable b (w_db w) ->
    sql_carries text xs (w_db w) ->
    Forall2 (fun v x => resolve (w_heap w) v = Some x) ps xs ->
    drv_exec text ps w =
      Ret (sql_exec text xs (w_db w)).1 (set_db (sql_exec text xs (w_db w)).2 w)
}.
Arguments sql_carries {S} b {_ _}.
Arguments sql_exec {S} b {_ _}.
Arguments sql_affected {S} b {_ _}.
Arguments sql_last_id {S} b {_ _}.
Arguments drv_affected {S} b {_ _}.
Arguments drv_last_id {S} b {_ _}.

(** The driver can execute these statements. *)
Definition carried {S} (b : backend S) `{!Usable b} `{!SqlDriver b}
    (stmts : list (string * list sqlval)) (d : S) : Prop :=
  Forall (fun s => sql_carries b (fst s) (snd s) d) stmts.

Lemma carried_step {S} (b : backend S) `{!Usable b} `{!SqlDriver b} text xs stmts d :
  usable b d -> sql_carries b text xs d -> (sql_exec b text xs d).1 = CORM_OK ->
  carried b stmts d -> carried b stmts (sql_exec b text xs d).2.
Proof.
  intros Hu Hc He Hs. eapply Forall_impl; [exact Hs|]. intros s. by apply drv_exec_carries.
Qed.

(** ** The journal *)

Record journal : Type := Journal {
  j_sent : list (string * list sqlval);        (* what was executed *)
  j_saved : option (list (string * list sqlval));
  j_errors : list corm_err                     (* outcomes of the next calls *)
}.

Definition journal_exec (text : string) (xs : list sqlval) (j : journal) : corm_err * journal :=
  match j_errors j with
  | [] => (CORM_OK, Journal (j_sent j ++ [(text, xs)]) (j_saved j) [])
  | e :: es =>
      (e, Journal (if decide (e = CORM_OK) then j_sent j ++ [(text, xs)] else j_sent j)
            (j_saved j) es)
  end.

(** Look the values up in memory, then execute. *)
Definition journal_run (text : string) (ps : list corm_value) : M journal corm_err :=
  h ← get_heap;
  xs ← deref (mapM (resolve h) ps);
  j ← get_db;
  let '(e, j') := journal_exec text xs j in
  put_db j';; mret e.

Definition journal_backend (bt : corm_backend_type) : backend journal :=
  Backend "journal" bt None None None (Some journal_run) None
    (Some (j ← get_db; put_db (Journal (j_sent j) (Some (j_sent j)) (j_errors j));; mret CORM_OK))
    (Some (j ← get_db; put_db (Journal (j_sent j) None (j_errors j));; mret CORM_OK))
    (Some (j ← get_db; put_db (Journal (default (j_sent j) (j_saved j)) None (j_errors j));;
           mret CORM_OK))
    None
    (Some (j ← get_db; mret (Z.of_nat (length (j_sent j)))))
    (Some (j ← get_db; mret 1))
    None.

#[export] Instance journal_usable bt : Usable (journal_backend bt) := fun _ => True.

#[export] Instance journal_sql bt : SqlDriver (journal_backend bt).
Proof.
  refine {| sql_carries := fun _ _ _ => True; sql_exec := journal_exec; sql_affected := fun _ => 1;
            sql_last_id := fun j => Z.of_nat (length (j_sent j)); drv_exec := journal_run;
            drv_affected := (j ← get_db; mret 1);
            drv_last_id := (j ← get_db; mret (Z.of_nat (length (j_sent j)))) |}; try done.
  intros w text ps xs _ _ _ H. assert (mapM (resolve (w_heap w)) ps = Some xs) as E by by apply mapM_Some.
  unfold journal_run, get_heap, get_db, put_db, mbind, M_bind, mret, M_ret. rewrite E. simpl.
  by destruct (journal_exec text xs (w_db w)).
Defined.

#[export] Instance journal_tx bt :
  Transactional (K := list (string * list sqlval)) (journal_backend bt).
Proof.
  refine {| content := j_sent; saved := j_saved; tx_free := fun _ => True;
    tx_begin := (j ← get_db; put_db (Journal (j_sent j) (Some (j_sent j)) (j_errors j));;
                 mret CORM_OK);
    tx_commit := (j ← get_db; put_db (Journal (j_sent j) None (j_errors j));; mret CORM_OK);
    tx_rollback := (j ← get_db;
      put_db (Journal (default (j_sent j) (j_saved j)) None (j_errors j));; mret CORM_OK) |}.
  - reflexivity.
  - reflexivity.
  - reflexivity.
  - intros [o h n [s sv es]] _ _. eexists _, _, _. split; [reflexivity|]. by split; [apply alloc_only_refl|].
  - intros [o h n [s sv es]] _. eexists _, _, _. split; [reflexivity|]. by split; [apply alloc_only_refl|].
  - intros [o h n [s sv es]] k _ Hs. simpl in Hs. subst sv. eexists _, _, _. split; [reflexivity|].
    by split; [apply alloc_only_refl|].
Defined.

(** Executing a statement does not end the transaction. *)
Lemma journal_keeps text xs j : j_saved (journal_exec text xs j).2 = j_saved j.
Proof. unfold journal_exec. by destruct (j_errors j). Qed.
