(* ===== verification/Result.v ===== *)
(** * Result sets ([src/result.c], [include/corm/result.h])

    A result object is one heap block: the struct with its arrays.  The texts
    and blobs in its rows are blocks of their own that the object owns.  A
    [corm_result_t *] is an [option loc]. *)

From S2P Require Import Prelude Types Mem.

Section result.
Context {S : Type}.

(** The row arrays, one [calloc] each; false when one fails. *)
Fixpoint alloc_rows (n : nat) : M S bool :=
  match n with
  | O => mret true
  | Datatypes.S n => ok ← malloc_ok; if (ok : bool) then alloc_rows n else mret false
  end.

(** [calloc((size_t)count, size)]: a negative count is a huge size. *)
Definition calloc_ok (count : Z) : M S bool :=
  if count <? 0 then mret false else malloc_ok.

Definition corm_result_new (column_count row_count : Z) : M S (option loc) :=
  ok ← malloc_ok;
  if negb ok then mret None
  else
    ok ← calloc_ok column_count;
    if negb ok then mret None
    else
      ok ← calloc_ok column_count;
      if negb ok then mret None
      else
        ok ← (if 0 <? row_count then
                ok ← malloc_ok;
                if (ok : bool) then alloc_rows (Z.to_nat row_count) else mret false
              else mret true);
        if negb ok then mret None
        else
          let cols := Z.to_nat column_count in
          l ← new_block (BResult (Result column_count (replicate cols None)
                (replicate cols CORM_INT)
                (replicate (Z.to_nat row_count) (replicate cols value_zero))
                row_count (-1) 1));
          mret (Some l).

(** [*r]; stuck on a NULL or dangling pointer. *)
Definition get_result (r : option loc) : M S corm_result :=
  l ← deref r;
  b ← load l;
  match b with BResult res => mret res | _ => stuck end.

Definition put_result (r : option loc) (res : corm_result) : M S unit :=
  l ← deref r; store l (BResult res).

Definition set_refcount (n : Z) '(Result cc cn ct rs rc cur _) : corm_result :=
  Result cc cn ct rs rc cur n.
Definition set_current (n : Z) '(Result cc cn ct rs rc _ rf) : corm_result :=
  Result cc cn ct rs rc n rf.

Definition corm_result_retain (r : option loc) : M S unit :=
  match r with
  | None => mret tt
  | Some _ => res ← get_result r; put_result r (set_refcount (wrap_i32 (r_refcount res + 1)) res)
  end.

(** What a cell of the result owns is freed. *)
Definition free_cell (v : corm_value) : M S unit :=
  (match v_type v with
   | CORM_TEXT | CORM_STRING => s ← deref (u_as_s (v_u v)); free s
   | _ => mret tt
   end);;
  match v_type v with
  | CORM_BLOB => '(p, _) ← deref (u_as_blob (v_u v)); free p
  | _ => mret tt
  end.

Definition free_cells (vs : list corm_value) : M S unit :=
  for_each vs (fun v _ => free_cell v) tt.

Definition corm_result_release (r : option loc) : M S unit :=
  match r with
  | None => mret tt
  | Some l =>
      res ← get_result r;
      let refcount := wrap_i32 (r_refcount res - 1) in
      if 0 <? refcount then put_result r (set_refcount refcount res)
      else
        for_each (r_rows res) (fun row _ => free_cells row) tt;;
        dealloc l
  end.

Definition corm_result_row_count (r : option loc) : M S Z :=
  res ← get_result r; mret (r_row_count res).
Definition corm_result_col_count (r : option loc) : M S Z :=
  res ← get_result r; mret (r_column_count res).

Definition corm_result_col_name (r : option loc) (col : Z) : M S (option string) :=
  res ← get_result r;
  if (col <? 0) || (r_column_count res <=? col) then mret None
  else deref (r_column_names res !! Z.to_nat col).

Definition corm_result_col_type (r : option loc) (col : Z) : M S corm_field_type :=
  res ← get_result r;
  if (col <? 0) || (r_column_count res <=? col) then mret CORM_TEXT
  else deref (r_column_types res !! Z.to_nat col).

(** [r->rows[row][col]]; [None]: outside the arrays. *)
Definition cell_at (res : corm_result) (row col : Z) : option corm_value :=
  vs ← r_rows res !! Z.to_nat row; vs !! Z.to_nat col.

(** The pointer the C function returns is read at once by every caller. *)
Definition corm_result_value (r : option loc) (row col : Z) : M S (option corm_value) :=
  res ← get_result r;
  if (row <? 0) || (r_row_count res <=? row) then mret None
  else if (col <? 0) || (r_column_count res <=? col) then mret None
  else v ← deref (cell_at res row col); mret (Some v).

Definition corm_result_next (r : option loc) : M S bool :=
  res ← get_result r;
  let res := set_current (wrap_i32 (r_current_row res + 1)) res in
  put_result r res;;
  mret (r_current_row res <? r_row_count res).

Definition corm_result_reset (r : option loc) : M S unit :=
  res ← get_result r; put_result r (set_current (-1) res).

Definition corm_result_int (r : option loc) (row col : Z) : M S Z :=
  v ← corm_result_value r row col;
  match v with
  | None => mret 0
  | Some v => if v_is_null v then mret 0 else deref (u_as_i (v_u v))
  end.

(** The bit pattern of the double; 0 is [0.0]. *)
Definition corm_result_double (r : option loc) (row col : Z) : M S Z :=
  v ← corm_result_value r row col;
  match v with
  | None => mret 0
  | Some v => if v_is_null v then mret 0 else deref (u_as_f (v_u v))
  end.

Definition corm_result_string (r : option loc) (row col : Z) : M S cptr :=
  v ← corm_result_value r row col;
  match v with
  | None => mret PNull
  | Some v => if v_is_null v then mret PNull else deref (u_as_s (v_u v))
  end.

Definition corm_result_bool (r : option loc) (row col : Z) : M S bool :=
  v ← corm_result_value r row col;
  match v with
  | None => mret false
  | Some v => if v_is_null v then mret false else deref (u_as_b (v_u v))
  end.

Definition corm_result_is_null (r : option loc) (row col : Z) : M S bool :=
  v ← corm_result_value r row col;
  mret (match v with None => true | Some v => v_is_null v end).
End result.
