(* ===== verification/ResultSpec.v ===== *)
(** * Result sets: ownership, bounds, iteration *)

From S2P Require Import Prelude Types Mem Strbuf Model Backend Query Builder BuilderSpec.
From S2P Require Import QuerySpec Result Sample.

(** The arrays have the sizes the struct says. *)
Record result_wf (res : corm_result) : Prop := {
  rw_cols : 0 <= r_column_count res;
  rw_count : 0 <= r_row_count res < 2 ^ 31;
  rw_names : Z.of_nat (length (r_column_names res)) = r_column_count res;
  rw_types : Z.of_nat (length (r_column_types res)) = r_column_count res;
  rw_rows : Z.of_nat (length (r_rows res)) = r_row_count res;
  rw_row : Forall (fun row => Z.of_nat (length row) = r_column_count res) (r_rows res)
}.

(** The blocks that hold the texts and blobs of the rows. *)
Definition row_blocks (res : corm_result) : list loc := owned (concat (r_rows res)).

Section spec.
Context {S : Type}.
Implicit Types (w : world S).

Lemma free_cell_is_param_free v w : free_cell v w = corm_param_free v w.
Proof.
  unfold free_cell, corm_param_free. destruct (v_type v); try done.
  all: unfold mbind, M_bind; by destruct (deref _ w) as [p w'|]; [destruct (free p w') as [[] ?|]|].
Qed.

Lemma free_cells_spec vs base ls w :
  Forall param_wf vs -> heap_split (w_heap w) base (owned vs ++ ls) ->
  exists h, free_cells vs w = Ret tt (set_heap h w) /\ heap_split h base ls.
Proof.
  unfold free_cells. revert w. induction vs as [|v vs IH]; intros w Hw Hs.
  - exists (w_heap w). split; [by destruct w|done].
  - apply Forall_cons in Hw as [Hv Hw]. cbn [for_each].
    unfold owned in Hs. cbn [map concat] in Hs. rewrite <- app_assoc in Hs.
    destruct (param_free_spec v base _ w Hv Hs) as (h & E & Hs').
    rewrite <- free_cell_is_param_free in E. run_with E.
    destruct (IH (set_heap h w) Hw Hs') as (h' & E' & Hs''). by exists h'.
Qed.

Lemma free_rows_spec rows base ls w :
  Forall param_wf (concat rows) -> heap_split (w_heap w) base (owned (concat rows) ++ ls) ->
  exists h, for_each rows (fun row _ => free_cells row) tt w = Ret tt (set_heap h w) /\
    heap_split h base ls.
Proof.
  revert w. induction rows as [|row rows IH]; intros w Hw Hs.
  - exists (w_heap w). split; [by destruct w|done].
  - cbn [concat for_each] in *. apply Forall_app in Hw as [Hr Hw].
    unfold owned in Hs. rewrite map_app, concat_app, <- app_assoc in Hs.
    destruct (free_cells_spec row base _ w Hr Hs) as (h & E & Hs'). run_with E.
    destruct (IH (set_heap h w) Hw Hs') as (h' & E' & Hs''). by exists h'.
Qed.

(** [l] holds the result [res] and the rest of the heap is [base] and the
    blocks of the rows. *)
Record result_at w (l : loc) (res : corm_result) (base : gmap loc block) : Prop := {
  ra_load : w_heap w !! l = Some (BResult res);
  ra_split : heap_split (w_heap w) base (row_blocks res ++ [l]);
  ra_cells : Forall param_wf (concat (r_rows res));
  ra_wf : result_wf res
}.

Lemma get_result_ok w l res base :
  result_at w l res base -> get_result (Some l) w = Ret res w.
Proof. intros [Hl _ _ _]. unfold get_result, load. run. unfold mbind, M_bind. by rewrite Hl. Qed.

(** Changing only the counters. *)
Lemma put_result_ok w l res base res' :
  result_at w l res base -> row_blocks res' = row_blocks res -> r_rows res' = r_rows res ->
  result_wf res' ->
  exists w', put_result (Some l) res' w = Ret tt w' /\ result_at w' l res' base /\
    w_db w' = w_db w /\ w_oracle w' = w_oracle w.
Proof.
  intros [Hl Hs Hc Hw] Hb Hr Hw'. unfold put_result, store. run. rewrite Hl.
  eexists. split; [done|]. split; [|done]. destruct Hs as (Hn & Hin & Hba).
  constructor; simpl; rewrite ?Hr; try done; [by rewrite lookup_insert_eq|].
  rewrite Hb. split; [done|]. split.
  - intros k Hk. destruct (decide (k = l)) as [->|Hne].
    + rewrite lookup_insert_eq. by eexists.
    + rewrite lookup_insert_ne by done. by apply Hin.
  - intros k. rewrite Hba. destruct (decide (k ∈ row_blocks res ++ [l])) as [|Hk]; [done|].
    rewrite lookup_insert_ne; [done|]. intros ->. apply Hk, elem_of_app. right.
    by apply list_elem_of_singleton.
Qed.

Lemma release_last w l res base :
  result_at w l res base -> r_refcount res = 1 ->
  corm_result_release (Some l) w = Ret tt (set_heap base w).
Proof.
  intros Ha Hrf. unfold corm_result_release. run_with (get_result_ok _ _ _ _ Ha).
  rewrite Hrf. change (wrap_i32 (1 - 1)) with 0. simpl.
  destruct (free_rows_spec (r_rows res) base [l] w (ra_cells _ _ _ _ Ha) (ra_split _ _ _ _ Ha))
    as (h & E & Hs). run_with E. unfold dealloc. pose proof Hs as (_ & Hin & _).
  destruct (Hin l (list_elem_of_here _ _)) as [b Hb]. simpl. rewrite Hb.
  f_equal. apply heap_split_free in Hs. apply heap_split_nil in Hs. by rewrite <- Hs.
Qed.

Lemma release_shared w l res base :
  result_at w l res base -> 1 < r_refcount res < 2 ^ 31 ->
  exists w', corm_result_release (Some l) w = Ret tt w' /\
    result_at w' l (set_refcount (r_refcount res - 1) res) base /\ w_db w' = w_db w.
Proof.
  intros Ha Hrf. unfold corm_result_release. run_with (get_result_ok _ _ _ _ Ha).
  rewrite wrap_i32_id by (unfold in_i32; lia).
  destruct (Z.ltb_spec 0 (r_refcount res - 1)); [|lia].
  destruct (put_result_ok w l res base (set_refcount (r_refcount res - 1) res) Ha)
    as (w' & E & Ha' & Hd & _); [by destruct res|by destruct res| |by exists w'].
  destruct (ra_wf _ _ _ _ Ha). by destruct res.
Qed.

Lemma retain_spec w l res base :
  result_at w l res base -> 0 < r_refcount res < 2 ^ 31 - 1 ->
  exists w', corm_result_retain (Some l) w = Ret tt w' /\
    result_at w' l (set_refcount (r_refcount res + 1) res) base /\ w_db w' = w_db w.
Proof.
  intros Ha Hrf. unfold corm_result_retain. run_with (get_result_ok _ _ _ _ Ha).
  rewrite wrap_i32_id by (unfold in_i32; lia).
  destruct (put_result_ok w l res base (set_refcount (r_refcount res + 1) res) Ha)
    as (w' & E & Ha' & Hd & _); [by destruct res|by destruct res| |by exists w'].
  destruct (ra_wf _ _ _ _ Ha). by destruct res.
Qed.

(** The operation [m], [n] times. *)
Fixpoint times (n : nat) (m : M S unit) : M S unit :=
  match n with O => mret tt | Datatypes.S n => m;; times n m end.

Lemma refcount_set res n m : set_refcount n (set_refcount m res) = set_refcount n res.
Proof. by destruct res. Qed.

Lemma refcount_id res : set_refcount (r_refcount res) res = res.
Proof. by destruct res. Qed.

Lemma refcount_get res n : r_refcount (set_refcount n res) = n.
Proof. by destruct res. Qed.

Lemma retains_spec n w l res base :
  result_at w l res base -> 0 < r_refcount res -> r_refcount res + Z.of_nat n < 2 ^ 31 ->
  exists w', times n (corm_result_retain (Some l)) w = Ret tt w' /\
    result_at w' l (set_refcount (r_refcount res + Z.of_nat n) res) base /\ w_db w' = w_db w.
Proof.
  revert w res. induction n as [|n IH]; intros w res Ha H0 Hn.
  - exists w. rewrite Z.add_0_r, refcount_id. done.
  - destruct (retain_spec w l res base Ha) as (w1 & E & Ha1 & Hd1); [lia|]. cbn [times].
    run_with E. destruct (IH w1 _ Ha1) as (w2 & E2 & Ha2 & Hd2); rewrite ?refcount_get in *; [lia..|].
    exists w2. rewrite refcount_set in Ha2. split; [done|]. split; [|congruence].
    by replace (r_refcount res + Z.of_nat (Datatypes.S n)) with (r_refcount res + 1 + Z.of_nat n) by lia.
Qed.

Lemma releases_spec n w l res base :
  result_at w l res base -> Z.of_nat n < r_refcount res < 2 ^ 31 ->
  exists w', times n (corm_result_release (Some l)) w = Ret tt w' /\
    result_at w' l (set_refcount (r_refcount res - Z.of_nat n) res) base /\ w_db w' = w_db w.
Proof.
  revert w res. induction n as [|n IH]; intros w res Ha Hn.
  - exists w. rewrite Z.sub_0_r, refcount_id. done.
  - destruct (release_shared w l res base Ha) as (w1 & E & Ha1 & Hd1); [lia|]. cbn [times].
    run_with E. destruct (IH w1 _ Ha1) as (w2 & E2 & Ha2 & Hd2); rewrite ?refcount_get in *; [lia..|].
    exists w2. rewrite refcount_set in Ha2. split; [done|]. split; [|congruence].
    by replace (r_refcount res - Z.of_nat (Datatypes.S n)) with (r_refcount res - 1 - Z.of_nat n) by lia.
Qed.

Lemma alloc_rows_plenty n w : plenty w -> alloc_rows n w = Ret true w.
Proof.
  intros Hp. induction n as [|n IH]; [done|]. cbn [alloc_rows]. by run_with (malloc_ok_plenty w Hp).
Qed.

Lemma owned_zero n : owned (replicate n value_zero) = [].
Proof. unfold owned. by induction n. Qed.

Lemma concat_zero n m : concat (replicate n (replicate m value_zero)) = replicate (n * m) value_zero.
Proof. induction n as [|n IH]; [done|]. simpl. by rewrite IH, replicate_add. Qed.

(** The object [corm_result_new] makes. *)
Definition new_result (cc rc : Z) : corm_result :=
  Result cc (replicate (Z.to_nat cc) None) (replicate (Z.to_nat cc) CORM_INT)
    (replicate (Z.to_nat rc) (replicate (Z.to_nat cc) value_zero)) rc (-1) 1.

Lemma result_new_exact cc rc w :
  plenty w -> heap_wf w -> 0 <= cc -> 0 <= rc < 2 ^ 31 ->
  exists l w', corm_result_new cc rc w = Ret (Some l) w' /\
    result_at w' l (new_result cc rc) (w_heap w) /\ w_db w' = w_db w /\ plenty w' /\ heap_wf w'.
Proof.
  intros Hp Hwf Hc Hr. unfold corm_result_new, calloc_ok.
  pose proof (heap_wf_fresh w Hwf) as Hfr.
  destruct (Z.ltb_spec cc 0); [lia|].
  run_with (malloc_ok_plenty w Hp). run_with (malloc_ok_plenty w Hp). run_with (malloc_ok_plenty w Hp).
  assert (E : (if 0 <? rc then ok ← malloc_ok; if (ok : bool) then alloc_rows (Z.to_nat rc) else mret false
               else mret true) w = Ret true w).
  { destruct (0 <? rc); [|done]. run_with (malloc_ok_plenty w Hp). by apply alloc_rows_plenty. }
  run_with E. unfold mbind, M_bind, new_block. cbn beta iota zeta.
  eexists _, _. split; [done|]. cbn. split_and!; try reflexivity; try assumption.
  - constructor; cbn.
    + by rewrite lookup_insert_eq.
    + unfold row_blocks, owned. cbn. rewrite concat_zero.
      fold (owned (replicate (Z.to_nat rc * Z.to_nat cc) value_zero)). rewrite owned_zero.
      apply (heap_split_new _ _ []); [|done].
      split; [apply NoDup_nil_2|]. split; [by intros k ?%not_elem_of_nil|].
      intros k. by rewrite decide_False by apply not_elem_of_nil.
    + apply Forall_concat. apply Forall_replicate, Forall_replicate. done.
    + constructor; cbn; rewrite ?length_replicate; try lia.
      apply Forall_replicate. rewrite length_replicate. lia.
  - intros k. cbn. destruct (decide (k = w_next w)) as [->|Hne]; [lia|].
    rewrite lookup_insert_ne by done. intros Hk. specialize (Hwf k Hk). lia.
Qed.

Lemma result_new_spec cc rc w :
  plenty w -> heap_wf w -> 0 <= cc -> 0 <= rc < 2 ^ 31 ->
  exists l w' res, corm_result_new cc rc w = Ret (Some l) w' /\ result_at w' l res (w_heap w) /\
    r_refcount res = 1 /\ r_current_row res = -1 /\ r_row_count res = rc /\
    r_column_count res = cc /\ w_db w' = w_db w /\ plenty w' /\ heap_wf w'.
Proof.
  intros Hp Hwf Hc Hr. destruct (result_new_exact cc rc w Hp Hwf Hc Hr) as (l & w' & E & Ha & Hd & Hp' & Hwf').
  by exists l, w', (new_result cc rc).
Qed.

(** *** Access *)

Lemma cell_at_ok res row col :
  result_wf res -> 0 <= row < r_row_count res -> 0 <= col < r_column_count res ->
  exists v, cell_at res row col = Some v.
Proof.
  intros [] Hr Hc. unfold cell_at.
  destruct (lookup_lt_is_Some_2 (r_rows res) (Z.to_nat row)) as [vs Hvs]; [lia|].
  rewrite Hvs. simpl. rewrite Forall_forall in rw_row0.
  specialize (rw_row0 vs (list_elem_of_lookup_2 _ _ _ Hvs)).
  destruct (lookup_lt_is_Some_2 vs (Z.to_nat col)) as [v Hv]; [lia|]. by exists v.
Qed.

Lemma result_value_spec w l res base row col :
  result_at w l res base ->
  corm_result_value (Some l) row col w =
    Ret (if (0 <=? row) && (row <? r_row_count res) && (0 <=? col) && (col <? r_column_count res)
         then cell_at res row col else None) w.
Proof.
  intros Ha. unfold corm_result_value. run_with (get_result_ok _ _ _ _ Ha).
  pose proof (cell_at_ok res row col (ra_wf _ _ _ _ Ha)) as Hc.
  destruct (Z.ltb_spec row 0), (Z.leb_spec 0 row); try lia; [done|]. simpl.
  destruct (Z.leb_spec (r_row_count res) row), (Z.ltb_spec row (r_row_count res)); try lia; [done|].
  destruct (Z.ltb_spec col 0), (Z.leb_spec 0 col); try lia; [done|]. simpl.
  destruct (Z.leb_spec (r_column_count res) col), (Z.ltb_spec col (r_column_count res)); try lia; [done|].
  destruct Hc as [v ->]; [lia..|]. done.
Qed.

(** *** Iteration *)

(** What [n] calls of [corm_result_next] return. *)
Fixpoint nexts (n : nat) (r : option loc) : M S (list bool) :=
  match n with
  | O => mret []
  | Datatypes.S n => b ← corm_result_next r; bs ← nexts n r; mret (b :: bs)
  end.

Lemma set_current_wf n res : result_wf res -> result_wf (set_current n res).
Proof. by destruct res; intros []; constructor. Qed.

Lemma next_spec w l res base :
  result_at w l res base -> -1 <= r_current_row res < 2 ^ 31 - 1 ->
  exists w', corm_result_next (Some l) w = Ret (r_current_row res + 1 <? r_row_count res) w' /\
    result_at w' l (set_current (r_current_row res + 1) res) base.
Proof.
  intros Ha Hn. unfold corm_result_next. run_with (get_result_ok _ _ _ _ Ha).
  rewrite wrap_i32_id by (unfold in_i32; lia).
  destruct (put_result_ok w l res base (set_current (r_current_row res + 1) res) Ha)
    as (w' & E & Ha' & _); [by destruct res|by destruct res|apply set_current_wf, Ha|].
  run_with E. exists w'. split; [|done]. by destruct res.
Qed.

Lemma nexts_spec n w l res base :
  result_at w l res base -> -1 <= r_current_row res ->
  r_current_row res + Z.of_nat n < 2 ^ 31 - 1 ->
  exists w', nexts n (Some l) w =
      Ret (map (fun k => r_current_row res + Z.of_nat k <? r_row_count res) (seq 1 n)) w' /\
    result_at w' l (set_current (r_current_row res + Z.of_nat n) res) base.
Proof.
  revert w res. induction n as [|n IH]; intros w res Ha H0 Hn.
  - exists w. rewrite Z.add_0_r. split; [done|]. by destruct res.
  - destruct (next_spec w l res base Ha) as (w1 & E & Ha1); [lia|]. cbn [nexts]. run_with E.
    assert (Ec : r_current_row (set_current (r_current_row res + 1) res) = r_current_row res + 1)
      by by destruct res.
    assert (Er : r_row_count (set_current (r_current_row res + 1) res) = r_row_count res)
      by by destruct res.
    destruct (IH w1 _ Ha1) as (w2 & E2 & Ha2); rewrite ?Ec, ?Er in *; try lia.
    run_with E2. exists w2. split.
    + cbn [seq map]. change (Z.of_nat 1) with 1. unfold mret, M_ret. f_equal. f_equal.
      rewrite <- (seq_shift n 1), map_map. apply map_ext. intros k.
      by replace (r_current_row res + 1 + Z.of_nat k) with (r_current_row res + Z.of_nat (Datatypes.S k)) by lia.
    + replace (r_current_row res + Z.of_nat (Datatypes.S n)) with (r_current_row res + 1 + Z.of_nat n) by lia.
      by destruct res.
Qed.
End spec.

(** ** The properties *)

Section properties.
Context {S : Type}.
Implicit Types w : world S.

(** C18: shared ownership: an object with one reference survives [k] retains
    and [k] releases unchanged, and the next release frees it with every text
    and blob of its rows: the heap is exactly what it was without the object,
    so nothing leaks and nothing is freed twice. *)
Theorem result_refcount w l res base k :
  result_at w l res base -> r_refcount res = 1 -> Z.of_nat k < 2 ^ 31 - 1 ->
  exists w1, (times k (corm_result_retain (Some l));;
              times k (corm_result_release (Some l))) w = Ret tt w1 /\
    result_at w1 l res base /\
    exists w2, corm_result_release (Some l) w1 = Ret tt w2 /\ w_heap w2 = base /\
      w_db w2 = w_db w.
Proof.
  intros Ha Hr Hk. destruct (retains_spec k w l res base Ha) as (w1 & E1 & Ha1 & Hd1); [lia..|].
  destruct (releases_spec k w1 l _ base Ha1) as (w2 & E2 & Ha2 & Hd2);
    [rewrite refcount_get; lia|].
  rewrite refcount_set, refcount_get in Ha2.
  replace (r_refcount res + Z.of_nat k - Z.of_nat k) with (r_refcount res) in Ha2 by lia.
  rewrite refcount_id in Ha2. exists w2. run_with E1. split; [done|]. split; [done|].
  exists (set_heap base w2). split; [exact (release_last w2 l res base Ha2 Hr)|].
  simpl. split; [done|congruence].
Qed.

(** [corm_result_value] never reads outside the arrays: inside the bounds
    it returns the cell, everywhere else NULL; so do the accessors built on
    it. *)
Theorem result_value_bounds w l res base row col :
  result_at w l res base ->
  (0 <= row < r_row_count res -> 0 <= col < r_column_count res ->
   exists v, corm_result_value (Some l) row col w = Ret (Some v) w /\
     cell_at res row col = Some v /\
     corm_result_is_null (Some l) row col w = Ret (v_is_null v) w) /\
  (~ (0 <= row < r_row_count res /\ 0 <= col < r_column_count res) ->
   corm_result_value (Some l) row col w = Ret None w /\
   corm_result_int (Some l) row col w = Ret 0 w /\
   corm_result_string (Some l) row col w = Ret PNull w /\
   corm_result_is_null (Some l) row col w = Ret true w).
Proof.
  intros Ha. pose proof (result_value_spec w l res base row col Ha) as E. split.
  - intros Hr Hc. destruct (cell_at_ok res row col (ra_wf _ _ _ _ Ha) Hr Hc) as [v Hv].
    destruct (Z.leb_spec 0 row), (Z.ltb_spec row (r_row_count res)), (Z.leb_spec 0 col),
      (Z.ltb_spec col (r_column_count res)); try lia. simpl in E. rewrite Hv in E.
    exists v. split_and!; [done|done|]. unfold corm_result_is_null. by run_with E.
  - intros Hn. assert (Hb : (0 <=? row) && (row <? r_row_count res) && (0 <=? col) &&
      (col <? r_column_count res) = false).
    { destruct (Z.leb_spec 0 row), (Z.ltb_spec row (r_row_count res)), (Z.leb_spec 0 col),
        (Z.ltb_spec col (r_column_count res)); try done. exfalso. apply Hn. lia. }
    rewrite Hb in E. unfold corm_result_int, corm_result_string, corm_result_is_null.
    split_and!; [done|by run_with E..].
Qed.

(** A new result object iterates over exactly its rows:
    [corm_result_next] returns true [row_count] times and false from then
    on. *)
Theorem result_iteration cc rc n w :
  plenty w -> heap_wf w -> 0 <= cc -> 0 <= rc < 2 ^ 31 -> Z.of_nat n < 2 ^ 31 - 1 ->
  exists l w1 w2, corm_result_new cc rc w = Ret (Some l) w1 /\
    nexts n (Some l) w1 = Ret (map (fun k => Z.of_nat k <? rc) (seq 0 n)) w2.
Proof.
  intros Hp Hwf Hc Hr Hn. destruct (result_new_spec cc rc w Hp Hwf Hc Hr)
    as (l & w1 & res & E & Ha & _ & Hcur & Hrc & _).
  destruct (nexts_spec n w1 l res _ Ha) as (w2 & E2 & _); [lia..|].
  exists l, w1, w2. split; [done|]. rewrite E2. f_equal. rewrite Hcur, Hrc.
  rewrite <- (seq_shift n 0), map_map. apply map_ext. intros k.
  by replace (-1 + Z.of_nat (Datatypes.S k)) with (Z.of_nat k) by lia.
Qed.
End properties.

(** ** The properties at concrete inputs *)

(** One row with an integer and a text. *)
Definition sample_result : corm_result :=
  Result 2 [Some "id"; Some "name"] [CORM_INT; CORM_TEXT]
    [[Value CORM_INT false (UInt 7); Value CORM_TEXT false (UStr (PHeap 2%positive))]] 1 (-1) 1.

Definition result_world : world unit :=
  World [] (<[1%positive := BResult sample_result]> (<[2%positive := BStr "seven"]> ∅)) 3%positive tt.

Lemma sample_result_at : result_at result_world 1%positive sample_result ∅.
Proof.
  constructor.
  - reflexivity.
  - split; [|split].
    + apply (bool_decide_unpack _). vm_compute. exact I.
    + intros l Hl. cbn in Hl. apply elem_of_cons in Hl as [->|Hl]; [by eexists|].
      apply list_elem_of_singleton in Hl as ->. by eexists.
    + intros l. rewrite lookup_empty. case_decide as Hl; [done|]. cbn in Hl.
      apply not_elem_of_cons in Hl as [H2 Hl]. apply not_elem_of_cons in Hl as [H1 _].
      cbn. by rewrite !lookup_insert_ne, lookup_empty by congruence.
  - constructor; [exact I|]. constructor; [|constructor]. exists (PHeap 2%positive). split; [done|]. right. by eexists.
  - constructor; try done. by repeat constructor.
Qed.

Lemma result_refcount_witness :
  exists w1, (times 2 (corm_result_retain (Some 1%positive));;
              times 2 (corm_result_release (Some 1%positive))) result_world = Ret tt w1 /\
    result_at w1 1%positive sample_result ∅ /\
    exists w2, corm_result_release (Some 1%positive) w1 = Ret tt w2 /\ w_heap w2 = ∅ /\ w_db w2 = tt.
Proof.
  apply (result_refcount result_world 1%positive sample_result ∅ 2).
  - exact sample_result_at.
  - reflexivity.
  - reflexivity.
Defined.

Lemma result_value_bounds_witness :
  (0 <= 0 < 1 -> 0 <= 1 < 2 ->
   exists v, corm_result_value (Some 1%positive) 0 1 result_world = Ret (Some v) result_world /\
     cell_at sample_result 0 1 = Some v /\
     corm_result_is_null (Some 1%positive) 0 1 result_world = Ret (v_is_null v) result_world) /\
  (~ (0 <= 0 < 1 /\ 0 <= 1 < 2) ->
   corm_result_value (Some 1%positive) 0 1 result_world = Ret None result_world /\
   corm_result_int (Some 1%positive) 0 1 result_world = Ret 0 result_world /\
   corm_result_string (Some 1%positive) 0 1 result_world = Ret PNull result_world /\
   corm_result_is_null (Some 1%positive) 0 1 result_world = Ret true result_world).
Proof. exact (result_value_bounds result_world 1%positive sample_result ∅ 0 1 sample_result_at). Defined.

Lemma result_iteration_witness :
  exists l w1 w2, corm_result_new 1 2 empty_world = Ret (Some l) w1 /\
    nexts 4 (Some l) w1 = Ret [true; true; false; false] w2.
Proof.
  apply (result_iteration 1 2 4 empty_world).
  - reflexivity.
  - exact empty_world_wf.
  - discriminate.
  - split; [discriminate|reflexivity].
  - reflexivity.
Defined.
