(* ===== verification/Exec.v ===== *)
(** * Executing queries ([src/query.c], lines 296-867)

    The functions build the SQL text, call the driver and move values between
    result rows or parameters and the caller's records.  A function that
    changes the query returns it with its other results; an output parameter is
    an [option], [None] when nothing was written to it. *)

From S2P Require Import Prelude Types Mem Strbuf Dialect Model Backend Query Builder Tx Result.

(** The record [k] places after [r] ([ptr += struct_size]). *)
Definition rec_at (r : recptr) (k : nat) : recptr := (fst r, (snd r + k)%nat).

(** The first field with a flag, in declaration order. *)
Fixpoint first_flag (flag : Z) (fs : list field) : option field :=
  match fs with
  | [] => None
  | f :: fs' => if has_flag (f_flags f) flag then Some f else first_flag flag fs'
  end.

Section exec.
Context {S : Type}.
Implicit Types (q : query S).

Definition query_exec q (sql : strbuf) : M S (corm_err * strbuf) :=
  corm_build_sql q sql (query_bt q).

(** [hook && (err = hook(db, record)) != CORM_OK]. *)
Definition run_hook (h : option (hook S)) (record : option recptr) : M S corm_err :=
  match h with Some f => f record | None => mret CORM_OK end.

(** The filter [corm_find] adds for models with a soft-delete field. *)
Definition soft_delete_filter q : M S (query S) :=
  match q_model q with
  | Some m =>
      if q_unscoped q then mret q
      else
        fs ← deref (model_fields m);
        match first_flag CORM_FLAG_SOFT_DELETE fs with
        | Some f => q' ← corm_query_where_null (Some q) (f_name f); deref q'
        | None => mret q
        end
  | None => mret q
  end.

Definition corm_find (qo : option (query S)) : M S (corm_err * query S * option loc) :=
  q ← deref qo;
  q ← soft_delete_filter q;
  let q := set_q_op CORM_OP_SELECT q in
  '(err, sql) ← query_exec q corm_strbuf_init;
  if is_err err then mret (err, q, None)
  else
    b ← deref (q_db q);
    f ← deref (be_query b);
    text ← corm_strbuf_cstr sql;
    '(err, out) ← f text (q_params q);
    mret (err, q, out).

(** The inner loop: the first column whose name is the field's. *)
Fixpoint find_column (names : list (option string)) (name : string) (j : nat) : M S (option nat) :=
  match names with
  | [] => mret None
  | n :: names' =>
      s ← deref n;
      if String.eqb s name then mret (Some j) else find_column names' name (Datatypes.S j)
  end.

(** One row into one record, field by field. *)
Definition map_row (fs : list field) (res : corm_result) (row : Z) (record : recptr) : M S unit :=
  for_each fs (fun f _ =>
    name ← (if 0 <? r_column_count res then deref (f_name f) else mret EmptyString);
    j ← find_column (take (Z.to_nat (r_column_count res)) (r_column_names res)) name 0;
    match j with
    | Some j => v ← deref (cell_at res row (Z.of_nat j)); corm_field_set_value record f v
    | None => mret tt
    end) tt.

Definition corm_first (qo : option (query S)) (record : recptr) : M S (corm_err * query S) :=
  q ← deref qo;
  '(err, q, res) ← corm_find (Some (set_q_offset 0 (set_q_limit 1 q)));
  if is_err err then mret (err, q)
  else
    empty ← match res with
            | None => mret true
            | Some _ => r ← get_result res; mret (r_row_count r =? 0)
            end;
    if (empty : bool) then corm_result_release res;; mret (CORM_ERR_NOTFOUND, q)
    else
      r ← get_result res;
      m ← deref (q_model q);
      fs ← deref (model_fields m);
      map_row fs r 0 record;;
      run_hook (m_after_find m) (Some record);;
      corm_result_release res;;
      mret (CORM_OK, q).

(** Bind the record's values of all fields that are not auto-incremented. *)
Definition bind_fields (fs : list field) (record : recptr) q : M S (query S) :=
  for_each fs (fun f q =>
    if has_flag (f_flags f) CORM_FLAG_AUTOINC then mret q
    else v ← corm_field_get_value record f; q' ← corm_query_bind (Some q) v; deref q') q.

(** [driver exec(db, sql, q->params, q->param_count)]. *)
Definition driver_exec q (sql : strbuf) : M S corm_err :=
  b ← deref (q_db q);
  f ← deref (be_exec b);
  text ← corm_strbuf_cstr sql;
  f text (q_params q).

Definition corm_create (qo : option (query S)) (record : recptr) (insert_id : bool) :
    M S (corm_err * query S * option Z) :=
  q ← deref qo;
  hook_err ← run_hook (q_model q ≫= m_before_create) (Some record);
  if negb (bool_decide (hook_err = CORM_OK)) then mret (hook_err, q, None)
  else
    let q := set_q_op CORM_OP_INSERT q in
    '(err, sql) ← query_exec q corm_strbuf_init;
    if is_err err then mret (err, q, None)
    else
      m ← deref (q_model q);
      fs ← deref (model_fields m);
      q ← bind_fields fs record q;
      err ← driver_exec q sql;
      if decide (err = CORM_OK) then
        id ← (if insert_id then
                b ← deref (q_db q); f ← deref (be_last_insert_id b); id ← f; mret (Some id)
              else mret None);
        run_hook (m_after_create m) (Some record);;
        mret (err, q, id)
      else mret (err, q, None).

(** What [corm_update_internal] and [corm_delete_internal] share: [before] and
    [after] are the hooks of the operation. *)
Definition exec_internal (op : corm_query_op_t) (before after : option (hook S)) q
    (affected : bool) (record : option recptr) : M S (corm_err * query S * option Z) :=
  hook_err ← run_hook before record;
  if negb (bool_decide (hook_err = CORM_OK)) then mret (hook_err, q, None)
  else
    let q := set_q_op op q in
    '(err, sql) ← query_exec q corm_strbuf_init;
    if is_err err then mret (err, q, None)
    else
      err ← driver_exec q sql;
      if decide (err = CORM_OK) then
        n ← (if affected then
               b ← deref (q_db q); f ← deref (be_rows_affected b); n ← f; mret (Some n)
             else mret None);
        run_hook after record;;
        mret (err, q, n)
      else mret (err, q, None).

Definition corm_update_internal (qo : option (query S)) (affected : bool)
    (record : option recptr) : M S (corm_err * query S * option Z) :=
  q ← deref qo;
  exec_internal CORM_OP_UPDATE (q_model q ≫= m_before_update) (q_model q ≫= m_after_update)
    q affected record.

Definition corm_update (qo : option (query S)) (affected : bool) :
    M S (corm_err * query S * option Z) :=
  corm_update_internal qo affected None.

(** The value a soft delete writes. *)
Definition deleted_mark : corm_value := Value CORM_STRING false (UStr (PLit "deleted")).

Definition corm_delete_internal (qo : option (query S)) (affected : bool)
    (record : option recptr) : M S (corm_err * query S * option Z) :=
  q ← deref qo;
  soft ← match q_model q with
         | Some m => fs ← deref (model_fields m); mret (first_flag CORM_FLAG_SOFT_DELETE fs)
         | None => mret None
         end;
  match soft with
  | Some f =>
      qo ← corm_query_set (Some q) (f_name f) deleted_mark;
      corm_update_internal qo affected record
  | None =>
      exec_internal CORM_OP_DELETE (q_model q ≫= m_before_delete) (q_model q ≫= m_after_delete)
        q affected record
  end.

Definition corm_delete (qo : option (query S)) (affected : bool) :
    M S (corm_err * query S * option Z) :=
  corm_delete_internal qo affected None.

(** ** Convenience functions *)

Definition corm_find_all (db : option (backend S)) (m : model S) (cond : option string)
    (records : option recptr) (count : option Z) : M S (corm_err * option Z) :=
  q ← corm_query_new db (Some m);
  match q with
  | None => mret (CORM_ERR_NOMEM, None)
  | Some _ =>
      q ← match cond with Some _ => corm_query_where q cond | None => mret q end;
      '(err, q, res) ← corm_find q;
      if is_err err then corm_query_free (Some q);; mret (err, None)
      else
        let max_capacity := match count with Some c => if 0 <? c then c else -1 | None => -1 end in
        total_rows ← match res with Some _ => corm_result_row_count res | None => mret 0 end;
        let copy_count :=
          if (0 <? max_capacity) && (max_capacity <? total_rows) then max_capacity
          else total_rows in
        match res, records with
        | Some _, Some ptr =>
            r ← get_result res;
            for_each (seq 0 (Z.to_nat copy_count)) (fun k _ =>
              fs ← deref (model_fields m);
              map_row fs r (Z.of_nat k) (rec_at ptr k);;
              run_hook (m_after_find m) (Some (rec_at ptr k));;
              mret tt) tt
        | _, _ => mret tt
        end;;
        corm_result_release res;;
        corm_query_free (Some q);;
        mret (CORM_OK, match res, count with Some _, Some _ => Some copy_count | _, _ => None end)
  end.

Definition corm_create_one (db : option (backend S)) (m : option (model S)) (record : recptr)
    (insert_id : bool) : M S (corm_err * option Z) :=
  q ← corm_query_new db m;
  match q with
  | None => mret (CORM_ERR_NOMEM, None)
  | Some _ =>
      '(err, q, id) ← corm_create q record insert_id;
      corm_query_free (Some q);;
      mret (err, id)
  end.

Definition corm_find_one (db : option (backend S)) (m : option (model S)) (cond : option string)
    (record : recptr) : M S corm_err :=
  q ← corm_query_new db m;
  match q with
  | None => mret CORM_ERR_NOMEM
  | Some _ =>
      q ← match cond with Some _ => corm_query_where q cond | None => mret q end;
      '(err, q) ← corm_first q record;
      corm_query_free (Some q);;
      mret err
  end.

(** [rows[0][0].v.i]. *)
Definition first_int (res : option loc) : M S Z :=
  r ← get_result res;
  v ← deref (cell_at r 0 0);
  deref (u_as_i (v_u v)).

(** [count]: whether the caller passes a pointer; it is set to 0 first. *)
Definition corm_count (db : option (backend S)) (m : option (model S)) (cond : option string)
    (count : bool) : M S (corm_err * option Z) :=
  let zero := if count then Some 0 else None in
  q ← corm_query_new db m;
  match q with
  | None => mret (CORM_ERR_NOMEM, zero)
  | Some _ =>
      q ← corm_query_select q (Some "COUNT(*)");
      q ← match cond with Some _ => corm_query_where q cond | None => mret q end;
      '(err, q, res) ← corm_find q;
      if is_err err then
        corm_result_release res;; corm_query_free (Some q);; mret (err, zero)
      else
        rows ← match res with Some _ => corm_result_row_count res | None => mret 0 end;
        n ← (if (0 <? rows) && count then n ← first_int res; mret (Some (wrap_i32 n))
             else mret zero);
        corm_result_release res;;
        corm_query_free (Some q);;
        mret (CORM_OK, n)
  end.

Definition corm_query_count (qo : option (query S)) (out_count : bool) :
    M S (corm_err * option (query S) * option Z) :=
  match qo, out_count with
  | Some q, true =>
      if is_null (q_db q) then mret (CORM_ERR_NULL, qo, None)
      else
        let old_cols := q_select_cols q in
        sb ← sb_add corm_strbuf_init "COUNT(*)";
        '(err, q, res) ← corm_find (Some (set_q_select sb q));
        let q := set_q_select old_cols q in
        if negb (bool_decide (err = CORM_OK)) then mret (err, Some q, None)
        else
          rows ← match res with Some _ => corm_result_row_count res | None => mret 0 end;
          if rows =? 0 then corm_result_release res;; mret (CORM_OK, Some q, Some 0)
          else
            n ← first_int res;
            corm_result_release res;;
            mret (CORM_OK, Some q, Some n)
  | _, _ => mret (CORM_ERR_NULL, qo, None)
  end.
End exec.
