(* ===== verification/Rows.v ===== *)
(** * Rows into records

    What [map_row] and the loop of [corm_find_all] do to records, as functions
    on cells: every member whose column is in the result takes the value of the
    cell, converted by [corm_field_set_value].  Members that own memory
    ([CORM_TEXT]) are not covered: [stored] is not defined for them. *)

From S2P Require Import Prelude Types Mem Strbuf Float Model Backend Query Builder BuilderSpec.
From S2P Require Import QuerySpec Result ResultSpec Exec.

(** ** Cells of a result *)

(** The union of a cell that holds [x]. *)
Definition carries (hp : gmap loc block) (u : uval) (x : sqlval) : Prop :=
  match x with
  | SNull => u = UInt 0
  | SInt z => u = UInt z
  | SDbl b => u = UDbl b
  | SText s => exists l, u = UStr (PHeap l) /\ read_cstr hp (PHeap l) = Some s
  | SBlob bs => exists l n, u = UBlob (PHeap l) n /\ read_bytes hp (PHeap l) n = Some bs
  | SBool c => u = UBool c
  end.

(** Blocks other than records and result objects keep what is read in them. *)
Definition data_le (h h' : gmap loc block) : Prop :=
  forall l b, h !! l = Some b ->
    match b with BStr _ | BBytes _ => h' !! l = Some b | _ => True end.

Lemma data_le_refl h : data_le h h.
Proof. intros l b Hl. by destruct b. Qed.

Lemma carries_le h h' u x : data_le h h' -> carries h u x -> carries h' u x.
Proof.
  intros Hle. destruct x; cbn; try done.
  - intros (l & Hu & Hr). exists l. split; [done|]. destruct (h !! l) as [[]|] eqn:E; try done.
    specialize (Hle l _ E). cbn in Hle. by rewrite Hle.
  - intros (l & n & Hu & Hr). exists l, n. split; [done|]. destruct (h !! l) as [[]|] eqn:E; try done.
    specialize (Hle l _ E). cbn in Hle. by rewrite Hle.
Qed.

Lemma heap_le_data h h' : heap_le h h' -> data_le h h'.
Proof. intros Hle l b Hl. apply Hle in Hl. by destruct b. Qed.

(** ** Members *)

(** The member that held [old] after [x] was stored in it; [None]: [x] is not of
    the member's kind. *)
Definition stored (f : field) (x : sqlval) (old : cell) : option cell :=
  match f_type f, x, old with
  | CORM_INT, SInt z, CInt _ => Some (CInt (wrap_i32 z))
  | CORM_INT, SNull, CInt _ => Some (CInt 0)
  | CORM_INT64, SInt z, CInt64 _ => Some (CInt64 z)
  | CORM_INT64, SNull, CInt64 _ => Some (CInt64 0)
  | CORM_FLOAT, SDbl b, CFloat _ => Some (CFloat (f64_to_f32 b))
  | CORM_FLOAT, SNull, CFloat _ => Some (CFloat (f64_to_f32 0))
  | CORM_DOUBLE, SDbl b, CDouble _ => Some (CDouble b)
  | CORM_DOUBLE, SNull, CDouble _ => Some (CDouble 0)
  | CORM_STRING, SText s, CChars bs =>
      let n := Z.to_nat (f_size f) in
      if decide (0 < f_size f /\ (n <= length bs)%nat)
      then Some (CChars (strncpy_bytes s (n - 1) ++ [NUL] ++ drop n bs)) else None
  | CORM_STRING, SNull, CChars _ => Some old
  | CORM_BOOL, SBool c, CBool _ => Some (CBool c)
  | CORM_BOOL, SInt z, CBool _ => c ← u_as_b (UInt z); Some (CBool c)
  | CORM_BOOL, SNull, CBool _ => Some (CBool false)
  | CORM_BLOB, SBlob d, CBytes bs =>
      if Z.of_nat (length d) <=? f_size f then
        if decide (length d <= length bs)%nat then Some (CBytes (d ++ drop (length d) bs)) else None
      else Some old
  | CORM_BLOB, SNull, CBytes _ => Some old
  | _, _, _ => None
  end.

(** The index of the first column with a name. *)
Fixpoint column_of (names : list string) (name : string) : option nat :=
  match names with
  | [] => None
  | n :: names =>
      if String.eqb n name then Some O else Datatypes.S <$> column_of names name
  end.

(** The record [rc] after the row with the contents [xs] was loaded. *)
Fixpoint load_row (names : list string) (xs : list (option sqlval)) (fs : list field) (rc : rec) :
    option rec :=
  match fs with
  | [] => Some rc
  | f :: fs =>
      match column_of names (fname f) with
      | None => load_row names xs fs rc
      | Some j =>
          x ← xs !! j; x ← x;
          old ← rc !! f_offset f;
          c ← stored f x old;
          load_row names xs fs (<[f_offset f := c]> rc)
      end
  end.

Lemma column_of_lt names name j : column_of names name = Some j -> (j < length names)%nat.
Proof.
  revert j. induction names as [|n names IH]; intros j; [done|]. cbn. destruct (String.eqb n name).
  - intros [= <-]. lia.
  - destruct (column_of names name) as [i|]; [|done]. intros [= <-]. specialize (IH i eq_refl). lia.
Qed.

Lemma load_row_other names xs fs rc rc' off :
  load_row names xs fs rc = Some rc' -> off ∉ map f_offset fs -> rc' !! off = rc !! off.
Proof.
  revert rc. induction fs as [|f fs IH]; intros rc; cbn [load_row map]; [by intros [= <-]|].
  intros Hl Hoff. apply not_elem_of_cons in Hoff as [Hne Hoff].
  destruct (column_of names (fname f)) as [j|]; [|by apply IH].
  destruct (xs !! j) as [[x|]|]; simplify_eq/=. destruct (rc !! f_offset f); simplify_eq/=.
  destruct (stored f x _); simplify_eq/=. rewrite (IH _ Hl Hoff). by rewrite lookup_insert_ne.
Qed.

(** A member with a column of its own. *)
Lemma load_row_member names xs fs rc rc' f j x :
  load_row names xs fs rc = Some rc' -> NoDup (map f_offset fs) -> f ∈ fs ->
  column_of names (fname f) = Some j -> xs !! j = Some (Some x) ->
  exists old c, rc !! f_offset f = Some old /\ stored f x old = Some c /\ rc' !! f_offset f = Some c.
Proof.
  intros Hl Hn Hin Hj Hx. revert rc Hl. induction fs as [|g fs IH]; [by apply not_elem_of_nil in Hin|].
  intros rc Hl. cbn [load_row map] in *. apply NoDup_cons in Hn as [Hg Hn].
  apply elem_of_cons in Hin as [->|Hin].
  - rewrite Hj, Hx in Hl. cbn in Hl. destruct (rc !! f_offset g) as [old|] eqn:Eo; simplify_eq/=.
    destruct (stored g x old) as [c|] eqn:Es; simplify_eq/=. exists old, c.
    split; [done|]. split; [done|]. rewrite (load_row_other _ _ _ _ _ _ Hl Hg). apply lookup_insert_eq.
  - assert (Hne : f_offset f <> f_offset g).
    { intros E. apply Hg. rewrite <- E. by apply list_elem_of_fmap_2. }
    destruct (column_of names (fname g)) as [i|]; [|by apply (IH Hn Hin rc)].
    destruct (xs !! i) as [[z|]|]; simplify_eq/=. destruct (rc !! f_offset g) as [o|]; simplify_eq/=.
    destruct (stored g z o) as [d|]; simplify_eq/=.
    destruct (IH Hn Hin _ Hl) as (old & c & Ho & Hs & Hc). rewrite lookup_insert_ne in Ho by done. eauto.
Qed.

(** What a database that keeps booleans as integers gives back. *)
Definition db_val (x : sqlval) : sqlval :=
  match x with SBool c => SInt (if c then 1 else 0) | _ => x end.

(** ** The heap with a new record *)

Definition put_rec (r : recptr) (rc : rec) (h : gmap loc block) : gmap loc block :=
  match h !! fst r with
  | Some (BRecs rs) => <[fst r := BRecs (<[snd r := rc]> rs)]> h
  | _ => h
  end.

Lemma put_rec_get r rc old h : heap_rec h r = Some old -> heap_rec (put_rec r rc h) r = Some rc.
Proof.
  unfold heap_rec, put_rec. destruct (h !! fst r) as [[]|] eqn:E; try done. intros Hr.
  rewrite lookup_insert_eq. apply list_lookup_insert_eq. by eapply lookup_lt_Some.
Qed.

Lemma put_rec_twice r rc rc' h : put_rec r rc' (put_rec r rc h) = put_rec r rc' h.
Proof.
  unfold put_rec. destruct (h !! fst r) as [[]|] eqn:E; try by rewrite E.
  rewrite lookup_insert_eq. by rewrite insert_insert_eq, list_insert_insert_eq.
Qed.

Lemma put_rec_same r rc h : heap_rec h r = Some rc -> put_rec r rc h = h.
Proof.
  unfold heap_rec, put_rec. destruct (h !! fst r) as [[]|] eqn:E; try done. intros Hr.
  rewrite list_insert_id by done. by apply insert_id.
Qed.

Lemma put_rec_ne r rc h l : l <> fst r -> put_rec r rc h !! l = h !! l.
Proof. intros Hl. unfold put_rec. repeat case_match; try done. by rewrite lookup_insert_ne. Qed.

Lemma put_rec_data r rc h : data_le h (put_rec r rc h).
Proof.
  intros l b Hl. destruct (decide (l = fst r)) as [->|Hne].
  - unfold put_rec. rewrite Hl. destruct b; try done.
  - rewrite put_rec_ne by done. by destruct b.
Qed.

Lemma put_rec_is_Some r rc h l : is_Some (put_rec r rc h !! l) <-> is_Some (h !! l).
Proof.
  unfold put_rec. destruct (h !! fst r) as [[]|] eqn:E; try done.
  destruct (decide (l = fst r)) as [->|Hne].
  - rewrite lookup_insert_eq, E. by split; eexists.
  - by rewrite lookup_insert_ne.
Qed.

(** A record of the base. *)
Lemma heap_split_put h base ls r rc old :
  heap_rec base r = Some old -> heap_split h base ls ->
  heap_split (put_rec r rc h) (put_rec r rc base) ls.
Proof.
  intros Hr (Hn & Hin & Hb). assert (Hrl : fst r ∉ ls).
  { intros Hl. unfold heap_rec in Hr. rewrite Hb, decide_True in Hr by done. done. }
  split; [done|]. split; [intros l Hl; by apply put_rec_is_Some, Hin|]. intros l.
  assert (Hbr : base !! fst r = h !! fst r) by by rewrite Hb, decide_False.
  destruct (decide (l = fst r)) as [->|Hne].
  - rewrite decide_False by done. unfold put_rec. rewrite Hbr.
    destruct (h !! fst r) as [[]|] eqn:E; rewrite ?lookup_insert_eq, ?Hbr; try done; by rewrite E.
  - rewrite !put_rec_ne by done. apply Hb.
Qed.

(** The records of an array, from [r] on. *)
Fixpoint put_recs (r : recptr) (rcs : list rec) (h : gmap loc block) : gmap loc block :=
  match rcs with
  | [] => h
  | rc :: rcs => put_recs (rec_at r 1) rcs (put_rec r rc h)
  end.

(** The array at [r] starts with the records [rcs]. *)
Definition recs_at (h : gmap loc block) (r : recptr) (rcs : list rec) : Prop :=
  forall i rc, rcs !! i = Some rc -> heap_rec h (rec_at r i) = Some rc.

(** The first records after the rows were loaded, one row into each. *)
Fixpoint load_rows (names : list string) (xss : list (list (option sqlval))) (fs : list field)
    (rcs : list rec) : option (list rec) :=
  match xss, rcs with
  | [], _ => Some []
  | xs :: xss, rc :: rcs =>
      rc' ← load_row names xs fs rc; rcs' ← load_rows names xss fs rcs; Some (rc' :: rcs')
  | _ :: _, [] => None
  end.

Lemma rec_at_0 r : rec_at r 0 = r.
Proof. destruct r. unfold rec_at. cbn. by rewrite Nat.add_0_r. Qed.

Lemma rec_at_S r i : rec_at r (S i) = rec_at (rec_at r 1) i.
Proof. unfold rec_at. cbn. f_equal. lia. Qed.

Lemma heap_rec_put_ne r r' rc h : r' <> r -> heap_rec (put_rec r rc h) r' = heap_rec h r'.
Proof.
  intros Hne. unfold heap_rec, put_rec. destruct (h !! fst r) as [[]|] eqn:E; try done.
  destruct (decide (fst r' = fst r)) as [Hl|Hl]; [|by rewrite lookup_insert_ne].
  rewrite Hl, lookup_insert_eq, E. apply list_lookup_insert_ne. intros Hs. apply Hne.
  destruct r, r'. cbn in *. congruence.
Qed.

Lemma recs_at_cons h r rc rcs :
  recs_at h r (rc :: rcs) -> heap_rec h r = Some rc /\ recs_at h (rec_at r 1) rcs.
Proof.
  intros Ha. split; [rewrite <- (rec_at_0 r); by apply (Ha 0%nat)|].
  intros i rc' Hi. rewrite <- rec_at_S. by apply (Ha (S i)).
Qed.

Lemma recs_at_put h r rc rcs : recs_at h (rec_at r 1) rcs -> recs_at (put_rec r rc h) (rec_at r 1) rcs.
Proof.
  intros Ha i rc' Hi. rewrite heap_rec_put_ne; [by apply Ha|]. destruct r. unfold rec_at. cbn.
  intros [= E]. lia.
Qed.

Lemma recs_at_le h h' r rcs : heap_le h h' -> recs_at h r rcs -> recs_at h' r rcs.
Proof. intros Hle Ha i rc Hi. by eapply heap_rec_mono, Ha. Qed.

Lemma recs_at_take n h r rcs : recs_at h r rcs -> recs_at h r (take n rcs).
Proof. intros Ha i rc Hi. apply lookup_take_Some in Hi as [Hi _]. by apply Ha. Qed.

(** Other records are kept. *)
Lemma put_recs_other r r' rcs h :
  (forall i, (i < length rcs)%nat -> r' <> rec_at r i) -> heap_rec (put_recs r rcs h) r' = heap_rec h r'.
Proof.
  revert r h. induction rcs as [|rc rcs IH]; intros r h Hne; [done|]. cbn [put_recs length] in *.
  rewrite IH by (intros i Hi; rewrite <- rec_at_S; apply Hne; lia).
  apply heap_rec_put_ne. rewrite <- (rec_at_0 r). apply Hne. lia.
Qed.

(** The records that were put are there. *)
Lemma put_recs_get r rcs olds h :
  recs_at h r olds -> length rcs = length olds -> recs_at (put_recs r rcs h) r rcs.
Proof.
  revert r olds h. induction rcs as [|rc rcs IH]; intros r [|old olds] h Ha Hl; try done.
  apply recs_at_cons in Ha as [Hr Ha]. cbn [put_recs]. intros [|i] rc' Hi; cbn in Hi.
  - simplify_eq. rewrite rec_at_0, put_recs_other; [by eapply put_rec_get|].
    intros i _. destruct r. unfold rec_at. cbn. intros [= E]. lia.
  - rewrite (rec_at_S r i). by eapply (IH (rec_at r 1) olds); [apply recs_at_put|cbn in Hl; lia|].
Qed.

Lemma heap_split_puts h base ls r rcs olds :
  recs_at base r olds -> length rcs = length olds -> heap_split h base ls ->
  heap_split (put_recs r rcs h) (put_recs r rcs base) ls.
Proof.
  revert r olds h base. induction rcs as [|rc rcs IH]; intros r [|old olds] h base Ha Hl Hs; try done.
  apply recs_at_cons in Ha as [Hr Ha]. cbn [put_recs]. apply (IH _ olds); [by apply recs_at_put|cbn in Hl; lia|].
  by eapply heap_split_put.
Qed.

Lemma load_rows_length names xss fs rcs rcs' :
  load_rows names xss fs rcs = Some rcs' -> length rcs' = length xss /\ (length xss <= length rcs)%nat.
Proof.
  revert rcs rcs'. induction xss as [|xs xss IH]; intros [|rc rcs] rcs' Hl; simplify_eq/=; try lia.
  destruct (load_row names xs fs rc); simplify_eq/=. destruct (load_rows _ _ _ rcs) eqn:E; simplify_eq/=.
  apply IH in E. lia.
Qed.

Lemma heap_wf_put {S} (w w' : world S) r rc :
  heap_wf w -> w_next w' = w_next w -> w_heap w' = put_rec r rc (w_heap w) -> heap_wf w'.
Proof. intros Hwf Hn Hh l. rewrite Hh, put_rec_is_Some, Hn. apply Hwf. Qed.

Section rows.
Context {S : Type}.
Implicit Types (w : world S).

(** Only the record changes. *)
Definition with_rec (r : recptr) (rc : rec) w : world S := set_heap (put_rec r rc (w_heap w)) w.

Lemma store_cell_exact r off rc old c w :
  heap_rec (w_heap w) r = Some rc -> rc !! off = Some old ->
  store_cell r off c w = Ret tt (with_rec r (<[off := c]> rc) w).
Proof.
  unfold heap_rec, store_cell, store, with_rec, put_rec. intros Hr Hc.
  destruct (w_heap w !! fst r) as [[]|] eqn:E; try done. by rewrite Hr, Hc.
Qed.

Lemma set_stored r f rc old c v x w :
  heap_rec (w_heap w) r = Some rc -> rc !! f_offset f = Some old ->
  carries (w_heap w) (v_u v) x -> stored f x old = Some c ->
  corm_field_set_value r f v w = Ret tt (with_rec r (<[f_offset f := c]> rc) w).
Proof.
  intros Hr Hc Hv Hs. unfold corm_field_set_value. run_with (load_cell_ok r _ rc _ w Hr Hc).
  pose proof (fun c => store_cell_exact r _ rc old c w Hr Hc) as Est.
  assert (Hid : with_rec r (<[f_offset f := old]> rc) w = w).
  { unfold with_rec. rewrite insert_id, put_rec_same by done. by destruct w. }
  unfold stored in Hs.
  destruct (f_type f) eqn:Ht, x, old; simplify_eq/=; try (rewrite Hv; run; by rewrite Est).
  all: try (rewrite Hv; run; by rewrite Hid).
  - destruct Hv as (l & Hu & Hrd). case_decide as Hd; [|done]. destruct Hd as [Hd1 Hd2]. simplify_eq.
    rewrite Hu. run. destruct (Z.ltb_spec 0 (f_size f)); [|lia]. rewrite decide_True by done.
    run_with (read_str_ok (PHeap l) s w Hrd). by rewrite Est.
  - destruct Hv as (l & n & Hu & Hrd). pose proof (read_bytes_size _ (PHeap l) _ _ Hrd) as Hn.
    rewrite Hu. run. rewrite Hn in Hs. destruct (n <=? f_size f); [|simplify_eq; cbn; by rewrite Hid].
    rewrite <- Hn, Nat2Z.id. case_decide; [|done]. simplify_eq. cbn.
    run_with (read_blob_ok (PHeap l) _ _ w Hrd). by rewrite Est.
  - rewrite Hv. cbn. repeat case_match; simplify_eq/=; run; by rewrite Est.
Qed.

(** ** One row *)

Lemma find_column_ok names name j w :
  find_column (map Some names) name j w =
    Ret ((fun i => (j + i)%nat) <$> column_of names name) w.
Proof.
  revert j. induction names as [|n names IH]; intros j; [done|]. cbn [map find_column column_of].
  run. destruct (String.eqb n name); [by cbn; rewrite Nat.add_0_r|]. rewrite IH.
  destruct (column_of names name); cbn; [|done]. by rewrite Nat.add_succ_r.
Qed.

(** Row number [i] of [res] has the contents [xs]. *)
Definition row_has (hp : gmap loc block) (res : corm_result) (i : nat) (xs : list (option sqlval)) : Prop :=
  forall j x, xs !! j = Some (Some x) ->
    exists v, cell_at res (Z.of_nat i) (Z.of_nat j) = Some v /\ carries hp (v_u v) x.

Lemma row_has_le h h' res i xs : data_le h h' -> row_has h res i xs -> row_has h' res i xs.
Proof.
  intros Hle Hr j x Hj. destruct (Hr j x Hj) as (v & Hv & Hc). exists v.
  split; [done|]. by eapply carries_le.
Qed.

Lemma with_rec_twice r rc rc' w : with_rec r rc' (with_rec r rc w) = with_rec r rc' w.
Proof. unfold with_rec. cbn. by rewrite put_rec_twice. Qed.

(** The column of a field. *)
Lemma field_column {A} res names f (k : option nat -> M S A) w :
  result_wf res -> r_column_names res = map Some names -> is_Some (f_name f) ->
  (name ← (if 0 <? r_column_count res then deref (f_name f) else mret EmptyString);
   j ← find_column (take (Z.to_nat (r_column_count res)) (r_column_names res)) name 0;
   k j) w = k (column_of names (fname f)) w.
Proof.
  intros [_ _ Hlen _ _ _] Hn [name Hname]. unfold fname. rewrite Hname. cbn [default from_option id].
  rewrite Hn in Hlen |- *. rewrite length_map in Hlen. rewrite <- Hlen, Nat2Z.id.
  rewrite take_ge by by rewrite length_map.
  set (n0 := if 0 <? Z.of_nat (length names) then name else EmptyString).
  assert (E : (if 0 <? Z.of_nat (length names) then deref (Some name) else mret EmptyString) w = Ret n0 w)
    by (unfold n0; by destruct (0 <? _)).
  assert (Hn0 : column_of names n0 = column_of names name).
  { unfold n0. destruct names as [|n names]; [done|].
    by destruct (Z.ltb_spec 0 (Z.of_nat (length (n :: names)))); [|cbn in *; lia]. }
  run_with E. rewrite (bind_Ret _ _ _ _ _ (find_column_ok names n0 0 w)), Hn0.
  by destruct (column_of names name).
Qed.

Lemma map_row_ok fs res names i xs r w rc rc' :
  result_wf res -> r_column_names res = map Some names ->
  Forall (fun f => is_Some (f_name f)) fs ->
  row_has (w_heap w) res i xs -> heap_rec (w_heap w) r = Some rc ->
  load_row names xs fs rc = Some rc' ->
  map_row fs res (Z.of_nat i) r w = Ret tt (with_rec r rc' w).
Proof.
  intros Hwf Hn Hf. unfold map_row. revert w rc.
  induction Hf as [|f fs Hname Hf IH]; intros w rc Hx Hr Hl; cbn [for_each load_row] in *.
  - simplify_eq. unfold with_rec. rewrite put_rec_same by done. by destruct w.
  - unfold mbind at 1, M_bind at 1. rewrite (field_column res names f _ w Hwf Hn Hname).
    destruct (column_of names (fname f)) as [j|]; [|by apply (IH w rc)].
    destruct (xs !! j) as [[x|]|] eqn:Ex; simplify_eq/=.
    destruct (rc !! f_offset f) as [old|] eqn:Eo; simplify_eq/=.
    destruct (stored f x old) as [c|] eqn:Es; simplify_eq/=.
    destruct (Hx j x Ex) as (v & Hv & Hc). rewrite Hv. run.
    rewrite (set_stored r f rc old c v x w Hr Eo Hc Es).
    rewrite (IH (with_rec r _ w) (<[f_offset f := c]> rc)); [by rewrite with_rec_twice| | |done].
    + eapply row_has_le; [apply put_rec_data|done].
    + by eapply put_rec_get.
Qed.

(** The result object stays where it is, the record being one of the client's. *)
Lemma result_at_put w lo res base r rc old :
  result_at w lo res base -> heap_rec base r = Some old ->
  result_at (with_rec r rc w) lo res (put_rec r rc base).
Proof.
  intros [Hl Hs Hc Hw] Hr. constructor; [|by eapply heap_split_put|done|done].
  cbn. rewrite put_rec_ne; [done|]. intros ->. destruct Hs as (_ & _ & Hb). unfold heap_rec in Hr.
  rewrite Hb, decide_True in Hr; [done|]. apply elem_of_app. right. apply list_elem_of_here.
Qed.

(** The loop of [corm_find_all] over the rows from [i] on. *)
Lemma map_rows_ok (m : model S) fs lo res names xss i r w base rcs rcs' :
  model_fields m = Some fs -> Forall (fun f => is_Some (f_name f)) fs ->
  (forall r w, run_hook (m_after_find m) (Some r) w = Ret CORM_OK w) ->
  r_column_names res = map Some names -> result_at w lo res base ->
  (forall j xs, xss !! j = Some xs -> row_has (w_heap w) res (i + j) xs) ->
  recs_at base (rec_at r i) rcs -> load_rows names xss fs rcs = Some rcs' ->
  for_each (seq i (length xss)) (fun k _ =>
    fs ← deref (model_fields m); map_row fs res (Z.of_nat k) (rec_at r k);;
    run_hook (m_after_find m) (Some (rec_at r k));; mret tt) tt w =
    Ret tt (set_heap (put_recs (rec_at r i) rcs' (w_heap w)) w) /\
  result_at (set_heap (put_recs (rec_at r i) rcs' (w_heap w)) w) lo res (put_recs (rec_at r i) rcs' base).
Proof.
  intros Hm Hf Hh Hn. revert i w base rcs rcs'.
  induction xss as [|xs xss IH]; intros i w base rcs rcs' Hat Hx Ha Hl; cbn [length seq for_each load_rows] in *.
  { simplify_eq. cbn. destruct w. done. }
  destruct rcs as [|rc rcs]; [done|]. destruct (load_row names xs fs rc) as [rc1|] eqn:E1; simplify_eq/=.
  destruct (load_rows names xss fs rcs) as [rcs1|] eqn:E2; simplify_eq/=.
  apply recs_at_cons in Ha as [Hr Ha].
  assert (Hr1 : heap_rec (w_heap w) (rec_at r i) = Some rc)
    by (eapply heap_rec_mono, Hr; eapply heap_split_le, Hat).
  pose proof (map_row_ok fs res names i xs (rec_at r i) w rc rc1 (ra_wf _ _ _ _ Hat) Hn Hf) as Er.
  pose proof (Hx 0%nat xs eq_refl) as H0. rewrite Nat.add_0_r in H0. specialize (Er H0 Hr1 E1).
  assert (Es : rec_at (rec_at r i) 1 = rec_at r (Datatypes.S i)) by (unfold rec_at; cbn; f_equal; lia).
  rewrite Es. rewrite Es in Ha.
  destruct (IH (Datatypes.S i) (with_rec (rec_at r i) rc1 w) (put_rec (rec_at r i) rc1 base) rcs rcs1) as [IH1 IH2];
    [by eapply result_at_put| |rewrite <- Es in Ha |- *; by apply recs_at_put|done|].
  { intros j xs' Hj. eapply row_has_le; [apply put_rec_data|].
    replace (Datatypes.S i + j)%nat with (i + Datatypes.S j)%nat by lia. by apply Hx. }
  split; [|exact IH2]. etransitivity; [|exact IH1]. rewrite Hm. run.
  rewrite bind_assoc, (bind_Ret _ _ _ _ _ Er), bind_assoc.
  by rewrite (bind_Ret _ _ _ _ _ (Hh (rec_at r i) (with_rec (rec_at r i) rc1 w))).
Qed.

(** Storing a value that went through the database and loading the member. *)
Lemma stored_get r f rc old c x y w h :
  heap_rec (w_heap w) r = Some rc -> rc !! f_offset f = Some c ->
  stored f (db_val x) old = Some c -> coerce f x = Some y -> cell_fits h r f old ->
  exists v, corm_field_get_value r f w = Ret v w /\ resolve (w_heap w) v = Some y.
Proof.
  intros Hr Hc Hs Hy Hfit. apply (get_after r f rc c w Hr Hc).
  unfold stored, coerce, cell_fits in *. destruct (f_type f), x, old; simplify_eq/=; try done.
  - destruct (no_nul s) eqn:En; simplify_eq/=. case_decide; simplify_eq.
    eexists. split; [by apply cstr_of_strncpy|done].
  - destruct (Z.eqb_spec (Z.of_nat (length bs)) (f_size f)) as [Hz|]; simplify_eq.
    destruct (Z.leb_spec (Z.of_nat (length bs)) (f_size f)); [|lia]. case_decide; simplify_eq.
    rewrite drop_ge, app_nil_r by lia. done.
  - by repeat case_match; simplify_eq/=.
Qed.
End rows.
