(* ===== verification/Batch.v ===== *)
(** * Batch operations ([src/query.c], [corm_create_batch], [corm_update_batch],
    [corm_delete_batch])

    The output parameter is an [option], [None] when the function returns
    before it could be written. *)

From S2P Require Import Prelude Types Mem Strbuf Dialect Model Backend Query Builder Tx Result.
From S2P Require Import Exec.

Section batch.
Context {S : Type}.
Implicit Types (q : query S) (m : model S).

(** ** Inserts *)

(** [INSERT INTO t (c1, c2, ...) VALUES ]. *)
Definition batch_head (bt : corm_backend_type) m (fs : list field) : M S strbuf :=
  table ← deref (m_table_name m);
  let qchar := corm_dialect_quote bt in
  sql ← sb_addf corm_strbuf_init "INSERT INTO %s%s%s (" [FS qchar; FS table; FS qchar];
  sql ← for_fields fs CORM_FLAG_AUTOINC (fun f _ sql =>
          n ← deref (f_name f);
          sql ← sb_add sql (corm_dialect_quote bt);
          sql ← sb_add sql n;
          sb_add sql (corm_dialect_quote bt)) sql;
  sb_add sql ") VALUES ".

(** The placeholders of one row; the state is the text, the column number in
    the row and [param_idx]. *)
Definition batch_row (bt : corm_backend_type) (fs : list field) (sql : strbuf) (param_idx : Z) :
    M S (strbuf * Z) :=
  '(sql, _, param_idx) ← for_each fs (fun f '(sql, fi, pi) =>
      if has_flag (f_flags f) CORM_FLAG_AUTOINC then mret (sql, fi, pi)
      else
        sql ← (if 0 <? (fi : Z) then sb_add sql ", " else mret sql);
        sql ← sb_add sql (corm_dialect_placeholder_str bt pi PH_BUF);
        mret (sql, fi + 1, wrap_i32 (pi + 1))) (sql, 0, param_idx);
  sql ← sb_add sql ")";
  mret (sql, param_idx).

(** The rows [i, ..., i + current_batch) of one statement. *)
Definition batch_rows (bt : corm_backend_type) (fs : list field) (records : recptr) (i : nat)
    (current_batch : nat) (sql : strbuf) q : M S (strbuf * query S) :=
  '(sql, q, _) ← for_each (seq 0 current_batch) (fun r '(sql, q, param_idx) =>
      sql ← sb_add sql (match r with O => "(" | _ => ", (" end);
      '(sql, param_idx) ← batch_row bt fs sql param_idx;
      q ← bind_fields fs (rec_at records (i + r)) q;
      mret (sql, q, param_idx)) (sql, q, 0);
  mret (sql, q).

(** The outer loop; [fuel] bounds the number of statements. *)
Fixpoint create_loop (fuel : nat) (b : backend S) m (fs : list field) (records : recptr)
    (count batch_size i total : Z) : M S (corm_err * Z) :=
  if count <=? i then mret (CORM_OK, total)
  else
    match fuel with
    | O => stuck
    | Datatypes.S fuel =>
        let current_batch := if count <? wrap_i32 (i + batch_size) then count - i else batch_size in
        sql ← batch_head (be_type b) m fs;
        q ← corm_query_new (Some b) (Some m);
        match q with
        | None => mret (CORM_ERR_NOMEM, total)
        | Some q =>
            '(sql, q) ← batch_rows (be_type b) fs records (Z.to_nat i) (Z.to_nat current_batch)
                          sql q;
            err ← driver_exec q sql;
            corm_query_free (Some q);;
            if decide (err = CORM_OK)
            then create_loop fuel b m fs records count batch_size (wrap_i32 (i + batch_size))
                   (total + current_batch)
            else mret (err, total)
        end
    end.

Definition corm_create_batch (db : option (backend S)) (model : option (model S))
    (records : option recptr) (count batch_size : Z) : M S (corm_err * option Z) :=
  match db, model, records with
  | Some b, Some m, Some records =>
      if count <=? 0 then mret (CORM_ERR_NULL, None)
      else
        let batch_size := if batch_size <=? 0 then 100 else batch_size in
        fs ← deref (model_fields m);
        let val_count := length (filter (fun f =>
          has_flag (f_flags f) CORM_FLAG_AUTOINC = false) fs) in
        if (val_count <=? 0)%nat then mret (CORM_ERR_MISMATCH, None)
        else
          '(err, total) ← create_loop (Z.to_nat count) b m fs records count batch_size 0 0;
          mret (err, Some total)
  | _, _, _ => mret (CORM_ERR_NULL, None)
  end.

(** ** Updates and deletes *)

(** The loop over the records: the body returns the error and the number of
    affected rows, [None] when the query could not be allocated.  The result
    is the first error ([None]: out of memory) and the total. *)
Fixpoint batch_loop (body : recptr -> M S (option (corm_err * Z))) (records : recptr)
    (ks : list nat) (total : Z) : M S (option corm_err * Z) :=
  match ks with
  | [] => mret (Some CORM_OK, total)
  | k :: ks' =>
      r ← body (rec_at records k);
      match r with
      | None => mret (None, total)
      | Some (err, aff) =>
          let total := wrap_i32 (total + aff) in
          if decide (err = CORM_OK) then batch_loop body records ks' total
          else mret (Some err, total)
      end
  end.

(** Begin, loop, then commit or roll back. *)
Definition batch_run (db : option (backend S)) (body : recptr -> M S (option (corm_err * Z)))
    (records : recptr) (count : Z) : M S (corm_err * option Z) :=
  corm_begin db;;
  '(r, total) ← batch_loop body records (seq 0 (Z.to_nat count)) 0;
  match r with
  | None => corm_rollback db;; mret (CORM_ERR_NOMEM, Some total)
  | Some global_err =>
      (if decide (global_err = CORM_OK) then corm_commit db else corm_rollback db);;
      mret (global_err, Some total)
  end.

(** [WHERE pk = ?] with the record's key. *)
Definition where_pk (pk : field) (record : recptr) q : M S (query S) :=
  name ← deref (f_name pk);
  sb ← sb_addf corm_strbuf_init "%s = ?" [FS name];
  text ← corm_strbuf_cstr sb;
  q ← corm_query_where (Some q) (Some text);
  pk_val ← corm_field_get_value record pk;
  q ← corm_query_bind q pk_val;
  deref q.

Definition update_one (db : option (backend S)) m (fs : list field) (pk : field)
    (record : recptr) : M S (option (corm_err * Z)) :=
  q ← corm_query_new db (Some m);
  match q with
  | None => mret None
  | Some q =>
      q ← for_each fs (fun f q =>
            if has_flag (f_flags f) CORM_FLAG_PRIMARY then mret q
            else v ← corm_field_get_value record f;
                 q ← corm_query_set (Some q) (f_name f) v; deref q) q;
      q ← where_pk pk record q;
      '(err, q, aff) ← corm_update_internal (Some q) true (Some record);
      corm_query_free (Some q);;
      mret (Some (err, default 0 aff))
  end.

Definition corm_update_batch (db : option (backend S)) (model : option (model S))
    (records : option recptr) (count : Z) : M S (corm_err * option Z) :=
  match db, model, records with
  | Some _, Some m, Some records =>
      if count <=? 0 then mret (CORM_ERR_NULL, None)
      else
        fs ← deref (model_fields m);
        match first_flag CORM_FLAG_PRIMARY fs with
        | None => mret (CORM_ERR_MISMATCH, None)
        | Some pk => batch_run db (update_one db m fs pk) records count
        end
  | _, _, _ => mret (CORM_ERR_NULL, None)
  end.

Definition delete_one (db : option (backend S)) m (pk : field) (soft : option field)
    (record : recptr) : M S (option (corm_err * Z)) :=
  q ← corm_query_new db (Some m);
  match q with
  | None => mret None
  | Some q =>
      q ← match soft with
          | Some f => q ← corm_query_set (Some q) (f_name f) deleted_mark; deref q
          | None => mret q
          end;
      q ← where_pk pk record q;
      '(err, q, aff) ← match soft with
                       | Some _ => corm_update_internal (Some q) true (Some record)
                       | None => corm_delete_internal (Some q) true (Some record)
                       end;
      corm_query_free (Some q);;
      mret (Some (err, default 0 aff))
  end.

Definition corm_delete_batch (db : option (backend S)) (model : option (model S))
    (records : option recptr) (count : Z) : M S (corm_err * option Z) :=
  match db, model, records with
  | Some _, Some m, Some records =>
      if count <=? 0 then mret (CORM_ERR_NULL, None)
      else
        fs ← deref (model_fields m);
        match first_flag CORM_FLAG_PRIMARY fs with
        | None => mret (CORM_ERR_MISMATCH, None)
        | Some pk =>
            batch_run db (delete_one db m pk (first_flag CORM_FLAG_SOFT_DELETE fs)) records count
        end
  | _, _, _ => mret (CORM_ERR_NULL, None)
  end.
End batch.
