(* ===== verification/ExecSpec.v ===== *)
(** * What the executing functions do *)

From S2P Require Import Prelude Types Mem Strbuf Dialect Model Backend Query Builder BuilderSpec.
From S2P Require Import QuerySpec QueryRefine QueryProps Tx Result Exec.

(** ** The SQL text is a C string *)

Lemma no_nul_when b s : no_nul s = true -> no_nul (when b s) = true.
Proof. by destruct b. Qed.

Lemma no_nul_digits s : str_forallb is_digit s = true -> no_nul s = true.
Proof.
  induction s as [|c s IH]; [done|]. simpl. intros [Hc Hs]%andb_prop. rewrite (IH Hs), andb_true_r.
  destruct (Ascii.eqb_spec c NUL) as [->|]; [by vm_compute in Hc|done].
Qed.

Lemma no_nul_pretty (z : Z) : no_nul (pretty z) = true.
Proof.
  destruct z as [|p|p]; [done| |].
  - apply no_nul_digits, pretty_nonneg_digits. lia.
  - change (pretty (Z.neg p)) with ("-" +:+ pretty (Z.pos p)). simpl.
    apply no_nul_digits, pretty_nonneg_digits. lia.
Qed.

Lemma no_nul_number bt k s : 0 <= k -> no_nul s = true -> no_nul (number_qmarks bt k s) = true.
Proof.
  revert k. induction s as [|c s IH]; intros k Hk; [done|]. cbn [no_nul number_qmarks].
  intros [Hc Hs]%andb_prop. destruct (Ascii.eqb "?" c).
  - rewrite no_nul_app, placeholder_no_nul, IH by (done || lia). done.
  - cbn [no_nul]. by rewrite Hc, IH.
Qed.

Lemma no_nul_quoted bt s : no_nul s = true -> no_nul (quoted bt s) = true.
Proof. intros H. unfold quoted. by rewrite !no_nul_app, quote_no_nul, H. Qed.

Lemma no_nul_commas xs : Forall (fun x => no_nul x = true) xs -> no_nul (commas xs) = true.
Proof.
  intros H. induction H as [|x xs Hx Hxs IH]; [done|]. destruct xs as [|y xs]; [done|].
  change (commas (x :: y :: xs)) with (x +:+ (", " +:+ commas (y :: xs))).
  by rewrite !no_nul_app, Hx, IH.
Qed.

Section no_nul.
Context {S : Type} (bt : corm_backend_type) (m : model S) (fs : list field) (a : aquery).
Context (Hm : model_ok m fs) (Hok : aquery_ok a).

Lemma ident_field f : f ∈ fs -> no_nul (fname f) = true.
Proof.
  intros Hf. destruct Hm as [(_ & _ & _ & fs' & Hfs' & Hv & _) Hfs _ _]. simplify_eq.
  rewrite Forall_forall in Hv. pose proof (Hv f Hf) as Hn.
  apply valid_identifier_inv in Hn as (s & Hs & _ & Hi). unfold fname. rewrite Hs. simpl.
  by apply ident_no_nul.
Qed.

Lemma ident_valid f : f ∈ fs -> corm_is_valid_identifier (f_name f) = true.
Proof.
  intros Hf. destruct Hm as [(_ & _ & _ & fs' & Hfs' & Hv & _) Hfs _ _]. simplify_eq.
  rewrite Forall_forall in Hv. by apply Hv.
Qed.

Lemma no_nul_table : no_nul (default EmptyString (m_table_name m)) = true.
Proof.
  destruct Hm as [(Ht & _) _ _ _]. apply valid_identifier_inv in Ht as (s & -> & _ & Hi).
  by apply ident_no_nul.
Qed.

Lemma no_nul_where k s : 0 <= k -> no_nul s = true -> no_nul (render_where bt k s) = true.
Proof. intros Hk Hs. apply no_nul_when. simpl. by apply no_nul_number. Qed.

Lemma no_nul_clause kw s : no_nul kw = true -> no_nul s = true -> no_nul (render_clause kw s) = true.
Proof. intros Hk Hs. apply no_nul_when. by rewrite no_nul_app, Hk, Hs. Qed.

Lemma no_nul_imap (g : nat -> field -> string) (l : list field) :
  (forall i f, f ∈ l -> no_nul (g i f) = true) -> Forall (fun x => no_nul x = true) (imap g l).
Proof.
  revert g. induction l as [|f l IH]; intros g Hg; [constructor|]. rewrite imap_cons. constructor.
  - apply Hg, list_elem_of_here.
  - apply IH. intros i f' Hf'. by apply Hg, list_elem_of_further.
Qed.

Lemma without_sub flag f : f ∈ fields_without flag fs -> f ∈ fs.
Proof. unfold fields_without. rewrite list_elem_of_filter. by intros [_ ?]. Qed.

Lemma render_no_nul : no_nul (render bt m fs a) = true.
Proof.
  destruct Hok as [[? _] [? _] [? _] [? _] [? _] [? _] [? _] _ _].
  pose proof no_nul_table as Ht. unfold render. destruct (a_op a).
  - unfold render_select. rewrite !no_nul_app, no_nul_quoted by done.
    rewrite !no_nul_when, !no_nul_clause, no_nul_where; try done.
    + rewrite !andb_true_r. by destruct (nonempty (a_select a)).
    + rewrite !no_nul_app, no_nul_pretty, no_nul_when; [done|].
      by rewrite no_nul_app, no_nul_pretty.
  - unfold render_insert. rewrite !no_nul_app, no_nul_quoted by done.
    rewrite !no_nul_commas.
    + pose proof (mo_pk _ _ Hm) as Hpk. destruct bt; try done.
      destruct (m_primary_key m) as [pk|]; [|done].
      by rewrite no_nul_app, no_nul_quoted by (by apply ident_field).
    + apply no_nul_imap. intros i f _. apply placeholder_no_nul. lia.
    + apply Forall_map, Forall_forall. intros f Hf. by apply no_nul_quoted, ident_field, (without_sub _ _ Hf).
  - unfold render_update. rewrite !no_nul_app, no_nul_quoted by done.
    rewrite no_nul_where; [|destruct (nonempty _); [apply str_count_nonneg|lia]|done].
    destruct (nonempty (a_set a)); [by rewrite no_nul_number|].
    rewrite no_nul_commas; [done|]. apply no_nul_imap. intros i f Hf.
    rewrite !no_nul_app, no_nul_quoted, placeholder_no_nul; try done; [lia|].
    by apply ident_field, (without_sub _ _ Hf).
  - unfold render_delete. by rewrite !no_nul_app, no_nul_quoted, no_nul_where.
Qed.
End no_nul.

(** ** What is sent to the driver *)

(** The query [corm_find] runs: rows marked as deleted are filtered out. *)
Definition select_of (fs : list field) (a : aquery) : aquery :=
  a_set_op CORM_OP_SELECT
    (if a_unscoped a then a
     else match first_flag CORM_FLAG_SOFT_DELETE fs with
          | Some f => a_set_where (joined " AND " (a_where a) (fname f +:+ " IS NULL")) a
          | None => a
          end).

(** The query [corm_delete] runs: an UPDATE that marks the rows when the model
    has a soft-delete field. *)
Definition delete_of (bt : corm_backend_type) (fs : list field) (a : aquery) : aquery :=
  match first_flag CORM_FLAG_SOFT_DELETE fs with
  | Some f =>
      a_set_op CORM_OP_UPDATE (add_param (SText "deleted") (a_set_set
        (joined ", " (a_set a) (quoted bt (fname f) +:+
           (" = " +:+ placeholder bt (Z.of_nat (length (a_params a)))))) a))
  | None => a_set_op CORM_OP_DELETE a
  end.

Lemma first_flag_elem flag fs f : first_flag flag fs = Some f -> f ∈ fs.
Proof.
  induction fs as [|g fs IH]; simpl; [done|]. destruct (has_flag (f_flags g) flag).
  - intros [= ->]. apply list_elem_of_here.
  - intros H. apply list_elem_of_further. auto.
Qed.

Section send.
Context {S : Type} (b : backend S) (m : model S) (fs : list field) (Hm : model_ok m fs).
Implicit Types (q : query S) (w : world S).

Lemma q_repr_op q w base a op :
  q_repr q w base a -> plenty w -> post q w base (a_set_op op a) (set_q_op op q) w.
Proof.
  intros Hq Hp. split; [|by destruct q].
  eapply q_repr_update; [done|by apply cs_op, Hq|by destruct q|by destruct a].
Qed.

(** The text that reaches the driver. *)
Lemma query_exec_spec q w base a :
  q_repr q w base a -> plenty w -> aquery_ok a -> q_db q = Some b -> q_model q = Some m ->
  fits (render (be_type b) m fs a) ->
  exists sql, query_exec q corm_strbuf_init w = Ret (CORM_OK, sql) w /\
    corm_strbuf_cstr sql w = Ret (render (be_type b) m fs a) w.
Proof.
  intros Hq Hp Hok Hd Hqm Hf. unfold query_exec, query_bt. rewrite Hd.
  destruct (build_sql_ok q a (be_type b) m fs (qr_clauses _ _ _ _ Hq) Hok Hqm Hm w Hp Hf)
    as (sql & E & Hr).
  exists sql. split; [done|]. apply cstr_spec; [done|]. by apply render_no_nul.
Qed.

Lemma soft_delete_filter_spec q w base a :
  q_repr q w base a -> plenty w -> q_model q = Some m ->
  aquery_okb (select_of fs a) = true ->
  exists q' w', soft_delete_filter q w = Ret q' w' /\
    post q w base (select_of fs a) (set_q_op CORM_OP_SELECT q') w'.
Proof.
  intros Hq Hp Hqm Hok. unfold soft_delete_filter, select_of in *. rewrite Hqm.
  rewrite (cr_unscoped _ _ (qr_clauses _ _ _ _ Hq)).
  destruct (a_unscoped a); [exists q, w; split; [done|by apply q_repr_op]|].
  rewrite (mo_fields _ _ Hm). run.
  destruct (first_flag CORM_FLAG_SOFT_DELETE fs) as [f|] eqn:Ef;
    [|exists q, w; split; [done|by apply q_repr_op]].
  pose proof (first_flag_elem _ _ _ Ef) as Hin.
  rewrite (field_names m fs Hm f Hin).
  destruct (refines_all (QWhereNull (fname f)) q w base a
    (a_set_where (joined " AND " (a_where a) (fname f +:+ " IS NULL")) a))
    as (q' & w' & E & Hpost); [done|done| |by destruct a|].
  { simpl. by rewrite <- (field_names m fs Hm f Hin), (ident_valid m fs Hm f Hin). }
  simpl in E. run_with E. exists q', w'. split; [done|].
  eapply post_trans; [done|]. by apply q_repr_op; apply Hpost.
Qed.

(** The query the driver sees stands for [select_of fs a]. *)
Lemma find_spec q w base a f :
  q_repr q w base a -> plenty w -> q_db q = Some b -> q_model q = Some m ->
  be_query b = Some f -> aquery_okb (select_of fs a) = true ->
  fits (render (be_type b) m fs (select_of fs a)) ->
  exists q' w', post q w base (select_of fs a) q' w' /\
    corm_find (Some q) w =
      ('(err, out) ← f (render (be_type b) m fs (select_of fs a)) (q_params q');
       mret (err, q', out)) w'.
Proof.
  intros Hq Hp Hd Hqm Hf Hok Hfit.
  destruct (soft_delete_filter_spec q w base a Hq Hp Hqm Hok) as (q1 & w1 & E1 & Hpost).
  exists (set_q_op CORM_OP_SELECT q1), w1. split; [done|].
  destruct Hpost as (Hq1 & Hp1 & _ & Hd1 & Hm1).
  destruct (query_exec_spec _ _ _ _ Hq1 Hp1 (proj1 (aquery_okb_spec _ Hok))) as (sql & E2 & E3);
    [congruence..|done|].
  unfold corm_find. run. run_with E1. run_with E2. rewrite Hd1, Hd. run.
  rewrite Hf. run. by run_with E3.
Qed.

(** What follows a successful [exec] of an UPDATE or DELETE. *)
Definition after_exec (affected : bool) (after : option (hook S)) (record : option recptr) :
    M S (option Z) :=
  n ← (if affected then f ← deref (be_rows_affected b); n ← f; mret (Some n) else mret None);
  run_hook after record;;
  mret n.

Lemma exec_internal_spec op before after q w w1 base a affected record f :
  run_hook before record w = Ret CORM_OK w1 ->
  q_repr q w1 base a -> plenty w1 -> q_db q = Some b -> q_model q = Some m ->
  be_exec b = Some f -> aquery_ok (a_set_op op a) ->
  fits (render (be_type b) m fs (a_set_op op a)) ->
  exec_internal op before after q affected record w =
    (err ← f (render (be_type b) m fs (a_set_op op a)) (q_params q);
     if decide (err = CORM_OK)
     then n ← after_exec affected after record; mret (err, set_q_op op q, n)
     else mret (err, set_q_op op q, None)) w1.
Proof.
  intros Eh Hq Hp Hd Hqm Hf Hok Hfit.
  destruct (q_repr_op q w1 base a op Hq Hp) as (Hq1 & _ & _ & Hd1 & Hm1).
  destruct (query_exec_spec _ _ _ _ Hq1 Hp Hok) as (sql & E2 & E3); [congruence..|done|].
  unfold exec_internal. run_with Eh. run_with E2.
  unfold driver_exec. rewrite !bind_assoc. rewrite Hd1, Hd. run. rewrite Hf. run.
  rewrite bind_assoc. run_with E3.
  assert (q_params (set_q_op op q) = q_params q) as -> by by destruct q.
  unfold mbind, M_bind, after_exec. destruct (f _ _ w1) as [e w2|]; [|done].
  destruct (decide (e = CORM_OK)); [|done]. unfold deref, mret, M_ret, mbind, M_bind.
  destruct affected; [destruct (be_rows_affected b) as [g|]; [|done]; destruct (g w2); [|done]|];
    by destruct (run_hook after record _).
Qed.

(** A refused operation sends nothing. *)
Lemma exec_internal_refused op before after q w w1 affected record e :
  run_hook before record w = Ret e w1 -> e <> CORM_OK ->
  exec_internal op before after q affected record w = Ret (e, q, None) w1.
Proof.
  intros Eh He. unfold exec_internal. run_with Eh. by rewrite bool_decide_false.
Qed.

(** A hook that lets the operation through and changes nothing (a missing one,
    for example). *)
Definition accepts (h : option (hook S)) (record : option recptr) : Prop :=
  forall w, run_hook h record w = Ret CORM_OK w.

(** The hooks of the operation [corm_delete] really performs. *)
Definition delete_before : option (hook S) :=
  match first_flag CORM_FLAG_SOFT_DELETE fs with
  | Some _ => m_before_update m
  | None => m_before_delete m
  end.
Definition delete_after : option (hook S) :=
  match first_flag CORM_FLAG_SOFT_DELETE fs with
  | Some _ => m_after_update m
  | None => m_after_delete m
  end.

Lemma delete_spec q w base a affected record f :
  q_repr q w base a -> plenty w -> q_db q = Some b -> q_model q = Some m ->
  be_exec b = Some f -> accepts delete_before record ->
  aquery_okb (delete_of (be_type b) fs a) = true ->
  fits (render (be_type b) m fs (delete_of (be_type b) fs a)) ->
  exists q' w', post q w base (delete_of (be_type b) fs a) q' w' /\
    corm_delete_internal (Some q) affected record w =
      (err ← f (render (be_type b) m fs (delete_of (be_type b) fs a)) (q_params q');
       if decide (err = CORM_OK)
       then n ← after_exec affected delete_after record; mret (err, q', n)
       else mret (err, q', None)) w'.
Proof.
  intros Hq Hp Hd Hqm Hf Ha Hok Hfit. unfold corm_delete_internal.
  rewrite bind_deref_Some, Hqm. cbn [mbind option_bind]. rewrite (mo_fields _ _ Hm). run.
  unfold delete_of, delete_before, delete_after in *.
  destruct (first_flag CORM_FLAG_SOFT_DELETE fs) as [g|] eqn:Eg.
  - pose proof (first_flag_elem _ _ _ Eg) as Hin.
    pose proof (ident_valid m fs Hm g Hin) as Hv. rewrite (field_names m fs Hm g Hin) in *.
    set (a1 := add_param _ _) in *.
    destruct (refines_all (QSet (fname g) deleted_mark) q w base a (a_set_op CORM_OP_UPDATE a1))
      as (q1 & w1 & E & Hpost); [done|done| |done|].
    { simpl. rewrite Hv. simpl. unfold query_bt. by rewrite Hd. }
    cbn [exec_qop] in E. run_with E. pose proof Hpost as (Hq1 & Hp1 & _ & Hd1 & Hm1).
    exists (set_q_op CORM_OP_UPDATE q1), w1. unfold corm_update_internal. run.
    rewrite Hm1, Hqm. cbn [mbind option_bind].
    assert (Ea : a_set_op CORM_OP_UPDATE (a_set_op CORM_OP_UPDATE a1) = a_set_op CORM_OP_UPDATE a1)
      by done.
    split.
    { exact (post_trans _ _ _ _ _ _ _ _ _ Hpost (q_repr_op _ _ _ _ CORM_OP_UPDATE Hq1 Hp1)). }
    rewrite (exec_internal_spec CORM_OP_UPDATE _ _ q1 w1 w1 base (a_set_op CORM_OP_UPDATE a1)
      affected record f); rewrite ?Ea; try done; try congruence; try apply Ha.
    + by replace (q_params (set_q_op CORM_OP_UPDATE q1)) with (q_params q1) by by destruct q1.
    + by apply aquery_okb_spec.
  - exists (set_q_op CORM_OP_DELETE q), w. split; [by apply q_repr_op|].
    rewrite (exec_internal_spec CORM_OP_DELETE _ _ q w w base a affected record f); try done.
    + by replace (q_params (set_q_op CORM_OP_DELETE q)) with (q_params q) by by destruct q.
    + by apply aquery_okb_spec.
Qed.
End send.

(** ** Values of a record *)

(** What [corm_field_get_value] returns when the heap is [h]. *)
Definition field_value (h : gmap loc block) (r : recptr) (f : field) : option corm_value :=
  match corm_field_get_value r f (World [] h 1%positive tt) with
  | Ret v _ => Some v
  | Stuck => None
  end.

(** The values bound for the fields the database does not number itself. *)
Definition record_vals (h : gmap loc block) (r : recptr) (fs : list field) :
    option (list sqlval) :=
  mapM (fun f => v ← field_value h r f; bind_val h v) (fields_without CORM_FLAG_AUTOINC fs).

Definition add_params (xs : list sqlval) (a : aquery) : aquery :=
  fold_left (fun a x => add_param x a) xs a.

Lemma add_params_params xs a : a_params (add_params xs a) = a_params a ++ xs.
Proof.
  revert a. induction xs as [|x xs IH]; intros a; simpl; [by rewrite app_nil_r|].
  unfold add_params in IH. by rewrite IH; simpl; rewrite <- app_assoc.
Qed.

Section records.
Context {S : Type}.
Implicit Types (q : query S) (w : world S).

Lemma load_cell_mono {T} (r : recptr) off c (w0 : world T) w :
  load_cell r off w0 = Ret c w0 -> heap_le (w_heap w0) (w_heap w) -> load_cell r off w = Ret c w.
Proof.
  unfold load_cell. intros H Hle. destruct (heap_rec (w_heap w0) r) as [rc|] eqn:E; [|done].
  rewrite (heap_rec_mono _ _ _ _ Hle E). destruct (rc !! off) as [d|]; [|done]. by injection H as ->.
Qed.

(** Reading a member depends on the heap only. *)
Lemma get_value_mono h r f v w :
  field_value h r f = Some v -> heap_le h (w_heap w) -> corm_field_get_value r f w = Ret v w.
Proof.
  unfold field_value. set (w0 := World [] h 1%positive tt). intros H Hle.
  destruct (corm_field_get_value r f w0) as [v0 w1|] eqn:E; [|done]. injection H as ->.
  unfold corm_field_get_value in *.
  destruct (f_type f); try (by ret_inv E);
    apply bind_inv in E as (c & w2 & E1 & E2);
    assert (w2 = w0) as -> by (unfold load_cell in E1; destruct (heap_rec _ r) as [rc|]; [|done];
      destruct (rc !! f_offset f); [by injection E1|done]);
    run_with (load_cell_mono r (f_offset f) c w0 w E1 Hle); destruct c; by ret_inv E2.
Qed.

Lemma params_ok_snoc x xs a : params_ok (add_params (x :: xs) a) -> params_ok (add_param x a).
Proof.
  unfold params_ok. rewrite add_params_params. simpl. rewrite !length_app. simpl. lia.
Qed.

Lemma bind_fields_spec fs r q w base a xs :
  q_repr q w base a -> plenty w -> record_vals base r fs = Some xs ->
  params_ok (add_params xs a) ->
  exists q' w', bind_fields fs r q w = Ret q' w' /\ post q w base (add_params xs a) q' w'.
Proof.
  unfold record_vals, bind_fields, fields_without.
  revert q w a xs. induction fs as [|f fs IH]; intros q w a xs Hq Hp Hx Hn.
  { injection Hx as <-. exists q, w. split; [done|by apply post_refl]. }
  rewrite filter_cons in Hx. cbn [for_each].
  destruct (has_flag (f_flags f) CORM_FLAG_AUTOINC).
  { rewrite decide_False in Hx by done. rewrite bind_ret_l. by apply IH. }
  rewrite decide_True in Hx by done. cbn [mapM mbind option_bind] in Hx.
  destruct (field_value base r f) as [v|] eqn:Ev; [|done]. cbn [mbind option_bind] in Hx.
  destruct (bind_val base v) as [x|] eqn:Ex; [|done]. cbn [mbind option_bind] in Hx.
  destruct (mapM _ _) as [ys|] eqn:Em; [|done]. injection Hx as <-.
  apply bind_val_spec in Ex as [Hb Hx].
  destruct (bind_spec q v x base a w Hp Hq Hb Hx (params_ok_snoc _ _ _ Hn))
    as (q1 & w1 & E1 & Hpost).
  destruct (IH q1 w1 (add_param x a) ys) as (q2 & w2 & E2 & Hpost2); [apply Hpost..|done|done|].
  exists q2, w2. split; [|by eapply post_trans].
  pose proof (heap_split_le _ _ _ (qr_split _ _ _ _ Hq)) as Hle.
  rewrite !bind_assoc. run_with (get_value_mono base r f v w Ev Hle).
  rewrite bind_assoc. run_with E1. exact E2.
Qed.
End records.
