(* ===== verification/ExecProps.v ===== *)
(** * Properties of the executing functions

    The statements [corm_find], [corm_create_one] and [corm_delete] send to the
    driver, for any driver ([corm_find]) or any driver that keeps the
    [SqlDriver] contract. *)

From S2P Require Import Prelude Types Mem Strbuf Dialect Model Backend Query Builder BuilderSpec.
From S2P Require Import QuerySpec QueryRefine Sample QueryProps Tx Driver Result Exec ExecSpec.

Section calls.
Context {S : Type} (b : backend S) (m : model S) (fs : list field) (Hm : model_ok m fs).
Context `{!Usable b} `{!SqlDriver b}.
Implicit Types (q : query S) (w : world S).

(** Freeing the query gives back the caller's heap. *)
Lemma query_free_spec q w base a :
  q_repr q w base a -> corm_query_free (Some q) w = Ret tt (set_heap base w).
Proof. intros Hq. simpl. apply free_params_spec; apply Hq. Qed.

Lemma drv_exec_spec text q w base a :
  q_repr q w base a -> plenty w -> usable b (w_db w) ->
  sql_carries b text (a_params a) (w_db w) ->
  drv_exec text (q_params q) w =
    Ret (sql_exec b text (a_params a) (w_db w)).1
        (set_db (sql_exec b text (a_params a) (w_db w)).2 w).
Proof. intros Hq Hp Hu Hc. by apply drv_exec_law; [..|apply Hq]. Qed.

Lemma after_exec_spec affected after record w :
  accepts after record -> usable b (w_db w) ->
  after_exec b affected after record w =
    Ret (if affected then Some (sql_affected b (w_db w)) else None) w.
Proof.
  intros Ha Hu. unfold after_exec. rewrite drv_affected_eq. destruct affected.
  - run. rewrite bind_assoc. run_with (drv_affected_law w Hu). by run_with (Ha w).
  - run. by run_with (Ha w).
Qed.

(** [corm_create] on a new query, the record read in the heap the hook left. *)
Lemma create_spec q w w1 r xs want :
  run_hook (m_before_create m) (Some r) w = Ret CORM_OK w1 ->
  q_repr q w1 (w_heap w1) aquery_empty -> plenty w1 ->
  q_db q = Some b -> q_model q = Some m ->
  accepts (m_after_create m) (Some r) ->
  record_vals (w_heap w1) r fs = Some xs -> Z.of_nat (length xs) <= 2 ^ 29 ->
  let stmt := render (be_type b) m fs (a_set_op CORM_OP_INSERT aquery_empty) in
  let res := sql_exec b stmt xs (w_db w1) in
  usable b (w_db w1) -> sql_carries b stmt xs (w_db w1) -> fits stmt ->
  exists q' w', corm_create (Some q) r want w =
      Ret (res.1, q', if decide (res.1 = CORM_OK)
                      then if want then Some (sql_last_id b res.2) else None else None) w' /\
    q_repr q' w' (w_heap w1) (add_params xs (a_set_op CORM_OP_INSERT aquery_empty)) /\
    w_db w' = res.2 /\ plenty w'.
Proof.
  intros Eh Hq Hp Hd Hqm Ha Hx Hn stmt res Hu Hcar Hf. set (a := a_set_op CORM_OP_INSERT aquery_empty) in *.
  destruct (q_repr_op q w1 _ _ CORM_OP_INSERT Hq Hp) as (Hq1 & _ & _ & Hd1 & Hm1).
  rewrite Hd in Hd1. rewrite Hqm in Hm1.
  destruct (query_exec_spec b m fs Hm _ w1 _ a Hq1 Hp) as (sql & E2 & E3);
    [by apply aquery_okb_spec|done..|].
  destruct (bind_fields_spec fs r _ w1 _ a xs Hq1 Hp Hx) as (q2 & w2 & E4 & Hq2 & Hp2 & Hdb & Hd2 & Hm2).
  { unfold params_ok. by rewrite add_params_params. }
  assert (E3' : corm_strbuf_cstr sql w2 = Ret stmt w2).
  { revert E3. unfold corm_strbuf_cstr, mret, M_ret, deref, stuck. destruct (sb_buf sql); [|by intros [= <-]].
    destruct (cstr_of_cells _); simpl; [by intros [= ->]|done]. }
  assert (Hu2 : usable b res.2) by by apply drv_exec_usable.
  exists q2, (set_db res.2 w2). unfold corm_create. rewrite bind_deref_Some, Hqm.
  cbn [mbind option_bind]. run_with Eh. run_with E2. rewrite Hm1. run. rewrite (mo_fields _ _ Hm). run.
  run_with E4. unfold driver_exec. rewrite !bind_assoc, Hd2, Hd1. run.
  rewrite drv_exec_eq. run. rewrite bind_assoc. run_with E3'.
  assert (Hap : a_params (add_params xs a) = xs) by by rewrite add_params_params.
  rewrite (bind_Ret _ _ _ _ _ (drv_exec_spec stmt q2 w2 _ _ Hq2 Hp2
    ltac:(by rewrite Hdb) ltac:(by rewrite Hap, Hdb))).
  rewrite add_params_params, Hdb. simpl. fold res. split; [|split; [|done]].
  - destruct (decide (res.1 = CORM_OK)); [|done]. destruct want.
    + run. rewrite bind_assoc. run. rewrite drv_last_id_eq. run. rewrite bind_assoc.
      run_with (drv_last_id_law (set_db res.2 w2) Hu2). by run_with (Ha (set_db res.2 w2)).
    + run. by run_with (Ha (set_db res.2 w2)).
  - destruct Hq2. by constructor.
Qed.
End calls.

(** ** The properties *)

Section properties.
Context {S : Type} (b : backend S) (m : model S) (fs : list field) (Hm : model_ok m fs).
Implicit Types w : world S.

(** C22: [corm_find] on a query built by any script hands the driver exactly the
    SELECT statement the specification renders - with the rows marked as deleted
    filtered out unless the query is unscoped - and the values the script bound,
    and returns what the driver returns. *)
Theorem find_sends_select f os w a :
  plenty w -> heap_wf w -> be_query b = Some f ->
  asteps (w_heap w) (be_type b) os aquery_empty = Some a ->
  aquery_okb (select_of fs a) = true ->
  fits (render (be_type b) m fs (select_of fs a)) ->
  exists q w', Forall2 (fun v x => resolve (w_heap w') v = Some x) (q_params q) (a_params a) /\
    heap_le (w_heap w) (w_heap w') /\ w_db w' = w_db w /\
    (q ← corm_query_new (Some b) (Some m); q ← exec_qops os q; corm_find q) w =
      ('(err, out) ← f (render (be_type b) m fs (select_of fs a)) (q_params q);
       mret (err, q, out)) w'.
Proof.
  intros Hp Hwf Hf Ha Hok Hfit.
  destruct (script_spec b m os w a Hp Hwf Ha) as (q & w1 & E & Hq & _ & Hp1 & Hd1 & Hd & Hqm).
  destruct (find_spec b m fs Hm q w1 _ a f Hq Hp1 Hd Hqm Hf Hok Hfit)
    as (q' & w' & (Hq' & _ & Hd' & _) & Ef).
  exists q', w'. split; [|split; [|split]].
  - replace (a_params a) with (a_params (select_of fs a)); [apply Hq'|]. unfold select_of.
    by destruct a as [? ? ? ? ? ? ? ? ? ? ? [] ? ?], (first_flag CORM_FLAG_SOFT_DELETE fs).
  - eapply heap_split_le, Hq'.
  - congruence.
  - rewrite <- bind_assoc. by run_with E.
Qed.

Context `{!Usable b} `{!SqlDriver b}.

(** C23: [corm_create_one] runs the [before_create] hook, then executes exactly
    one INSERT with the values the record has after the hook for all fields that
    are not auto-incremented, reports the driver's error and its insert id, and
    leaves memory as the hook left it. *)
Theorem create_one_inserts r want xs w w1 :
  plenty w -> heap_wf w ->
  run_hook (m_before_create m) (Some r) w = Ret CORM_OK w1 -> plenty w1 -> heap_wf w1 ->
  accepts (m_after_create m) (Some r) ->
  record_vals (w_heap w1) r fs = Some xs -> Z.of_nat (length xs) <= 2 ^ 29 ->
  let stmt := render (be_type b) m fs (a_set_op CORM_OP_INSERT aquery_empty) in
  let res := sql_exec b stmt xs (w_db w1) in
  usable b (w_db w1) -> sql_carries b stmt xs (w_db w1) -> fits stmt ->
  exists w', corm_create_one (Some b) (Some m) r want w =
      Ret (res.1, if decide (res.1 = CORM_OK)
                  then if want then Some (sql_last_id b res.2) else None else None) w' /\
    w_heap w' = w_heap w1 /\ w_db w' = res.2.
Proof.
  intros Hp Hwf Eh Hp1 Hwf1 Ha Hx Hn stmt res Hu Hcar Hf.
  destruct (query_new_spec b m w Hp Hwf) as (q & E & _ & Hd & Hqm).
  destruct (query_new_spec b m w1 Hp1 Hwf1) as (q1 & E1 & Hq1 & _ & _).
  assert (q1 = q) as ->.
  { unfold corm_query_new in E, E1. rewrite (bind_Ret _ _ _ _ _ (malloc_ok_plenty w Hp)) in E.
    rewrite (bind_Ret _ _ _ _ _ (malloc_ok_plenty w1 Hp1)) in E1.
    by ret_inv E; ret_inv E1. }
  destruct (create_spec b m fs Hm q w w1 r xs want Eh Hq1 Hp1 Hd Hqm Ha Hx Hn Hu Hcar Hf)
    as (q' & w' & E2 & Hq' & Hdb & _).
  exists (set_heap (w_heap w1) w'). split; [|done].
  unfold corm_create_one. run_with E. run_with E2.
  by rewrite (bind_Ret _ _ _ _ _ (query_free_spec q' w' _ _ Hq')).
Qed.

(** C24: [corm_delete] on a query built by any script executes exactly one
    statement: a DELETE with the values of the conditions, or, when the model has
    a soft-delete field, an UPDATE that assigns a placeholder to the field, with
    the values of the conditions followed by the text "deleted" (no timestamp, as
    [model.h] says).  The placeholder of the field comes first in the text: on
    PostgreSQL, whose placeholders are numbered, it gets the text; on SQLite and
    MySQL, whose placeholders are positional, it gets the first value of the
    conditions and the conditions are shifted (Example
    [soft_delete_parameter_order]), so the rows the caller names are not marked.
    The driver's error and row count are reported and freeing the query restores
    the caller's memory. *)
Theorem delete_sends_one_statement os affected w a :
  plenty w -> heap_wf w ->
  asteps (w_heap w) (be_type b) os aquery_empty = Some a ->
  accepts (delete_before m fs) None -> accepts (delete_after m fs) None ->
  let d := delete_of (be_type b) fs a in
  aquery_okb d = true -> fits (render (be_type b) m fs d) ->
  usable b (w_db w) -> sql_carries b (render (be_type b) m fs d) (a_params d) (w_db w) ->
  let res := sql_exec b (render (be_type b) m fs d) (a_params d) (w_db w) in
  exists w', (q ← corm_query_new (Some b) (Some m); q ← exec_qops os q;
              '(err, q, n) ← corm_delete q affected;
              corm_query_free (Some q);; mret (err, n)) w =
      Ret (res.1, if decide (res.1 = CORM_OK)
                  then if affected then Some (sql_affected b res.2) else None else None) w' /\
    w_heap w' = w_heap w /\ w_db w' = res.2 /\
    match first_flag CORM_FLAG_SOFT_DELETE fs with
    | Some f => a_op d = CORM_OP_UPDATE /\ a_params d = a_params a ++ [SText "deleted"] /\
        a_set d = joined ", " (a_set a) (quoted (be_type b) (fname f) +:+
          (" = " +:+ placeholder (be_type b) (Z.of_nat (length (a_params a)))))
    | None => a_op d = CORM_OP_DELETE /\ a_params d = a_params a
    end.
Proof.
  intros Hp Hwf Ha Hb1 Hb2 d Hok Hfit Hu Hcar res.
  destruct (script_spec b m os w a Hp Hwf Ha) as (q & w1 & E & Hq & _ & Hp1 & Hd1 & Hd & Hqm).
  destruct (delete_spec b m fs Hm q w1 _ a affected None _ Hq Hp1 Hd Hqm drv_exec_eq Hb1 Hok Hfit)
    as (q' & w' & (Hq' & Hp' & Hd' & _) & Ed).
  assert (Hu' : usable b res.2) by by apply drv_exec_usable.
  exists (set_heap (w_heap w) (set_db res.2 w')).
  assert (Hfree : corm_query_free (Some q') (set_db res.2 w') =
                  Ret tt (set_heap (w_heap w) (set_db res.2 w'))).
  { eapply query_free_spec. destruct Hq'. by constructor. }
  split; [|split; [done|split; [done|]]].
  - rewrite <- bind_assoc. run_with E. unfold corm_delete.
    unfold mbind at 1, M_bind at 1. rewrite Ed.
    rewrite (bind_Ret _ _ _ _ _ (drv_exec_spec b _ q' w' _ _ Hq' Hp'
      ltac:(by rewrite Hd', Hd1) ltac:(by rewrite Hd', Hd1))).
    rewrite Hd', Hd1. fold d res. destruct (decide (res.1 = CORM_OK)).
    + rewrite (bind_Ret _ _ _ _ _ (after_exec_spec b affected _ None (set_db res.2 w') Hb2 Hu')).
      cbn [mret M_ret]. by rewrite (bind_Ret _ _ _ _ _ Hfree).
    + cbn [mret M_ret]. by rewrite (bind_Ret _ _ _ _ _ Hfree).
  - unfold d, delete_of. destruct (first_flag CORM_FLAG_SOFT_DELETE fs); by destruct a.
Qed.
End properties.

(** ** The properties at concrete inputs *)

(** Two users in memory and an empty journal. *)
Definition users_world (errors : list corm_err) : world journal :=
  World [] {[1%positive := BRecs [user_rec 0 "ann" 30; user_rec 7 "bob" 41]]} 2%positive
    (Journal [] None errors).

Lemma users_world_wf errors : heap_wf (users_world errors).
Proof.
  intros l [b H]. cbn in *. destruct (decide (l = 1%positive)) as [->|Hne]; [lia|].
  by rewrite lookup_singleton_ne in H.
Defined.

Lemma find_sends_select_witness :
  exists q w', Forall2 (fun v x => resolve (w_heap w') v = Some x) (q_params q)
      (a_params (asteps_get CORM_BACKEND_POSTGRES sample_select)) /\
    heap_le (w_heap empty_world) (w_heap w') /\ w_db w' = w_db empty_world /\
    (q ← corm_query_new (Some (mute_backend unit CORM_BACKEND_POSTGRES)) (Some note_model);
     q ← exec_qops sample_select q; corm_find q) empty_world =
      ('(err, out) ← (mret (CORM_OK, None) : M unit (corm_err * option loc));
       mret (err, q, out)) w'.
Proof.
  apply (find_sends_select (mute_backend unit CORM_BACKEND_POSTGRES) note_model note_fields
    note_model_ok (fun _ _ => mret (CORM_OK, None)) sample_select empty_world).
  - reflexivity.
  - exact empty_world_wf.
  - reflexivity.
  - vm_compute. reflexivity.
  - vm_compute. reflexivity.
  - unfold fits. vm_compute. discriminate.
Defined.

Lemma create_one_inserts_witness :
  exists w', corm_create_one (Some (journal_backend CORM_BACKEND_SQLITE)) (Some user_model)
      (1%positive, 1%nat) true (users_world []) = Ret (CORM_OK, Some 1) w' /\
    w_heap w' = w_heap (users_world []) /\
    w_db w' = Journal [(render CORM_BACKEND_SQLITE (@user_model journal) user_fields
                          (a_set_op CORM_OP_INSERT aquery_empty), [SText "bob"; SInt 41])] None [].
Proof.
  refine (create_one_inserts (journal_backend CORM_BACKEND_SQLITE) user_model user_fields
    user_model_ok (1%positive, 1%nat) true [SText "bob"; SInt 41] (users_world []) (users_world [])
    _ _ _ _ _ _ _ _ I I _).
  - reflexivity.
  - apply users_world_wf.
  - reflexivity.
  - reflexivity.
  - apply users_world_wf.
  - intros w. reflexivity.
  - vm_compute. reflexivity.
  - simpl. lia.
  - unfold fits. vm_compute. discriminate.
Defined.

Definition delete_script : list qop := [QWhere "id = ?"; QBind (int_val 7)].

Lemma delete_sends_one_statement_witness :
  exists w', (q ← corm_query_new (Some (journal_backend CORM_BACKEND_SQLITE)) (Some note_model);
              q ← exec_qops delete_script q;
              '(err, q, n) ← corm_delete q true;
              corm_query_free (Some q);; mret (err, n)) (users_world []) =
      Ret (CORM_OK, Some 1) w' /\
    w_heap w' = w_heap (users_world []) /\
    w_db w' = Journal [(render CORM_BACKEND_SQLITE (@note_model journal) note_fields
        (delete_of CORM_BACKEND_SQLITE note_fields (asteps_get CORM_BACKEND_SQLITE delete_script)),
      [SInt 7; SText "deleted"])] None [] /\
    CORM_OP_UPDATE = CORM_OP_UPDATE /\ [SInt 7; SText "deleted"] = [SInt 7] ++ [SText "deleted"] /\
    dquote +:+ "deleted" +:+ dquote +:+ " = ?" = dquote +:+ "deleted" +:+ dquote +:+ " = ?".
Proof.
  refine (delete_sends_one_statement (journal_backend CORM_BACKEND_SQLITE) note_model note_fields
    note_model_ok delete_script true (users_world [])
    (asteps_get CORM_BACKEND_SQLITE delete_script) _ _ _ _ _ _ _ I I).
  - reflexivity.
  - apply users_world_wf.
  - vm_compute. reflexivity.
  - intros w. reflexivity.
  - intros w. reflexivity.
  - vm_compute. reflexivity.
  - unfold fits. vm_compute. discriminate.
Defined.

(** The value of a soft delete is bound after the values of the conditions, but
    its placeholder comes first: where placeholders are positional, the id
    lands in the deletion mark and the mark in the condition. *)
Example soft_delete_parameter_order :
  let d := delete_of CORM_BACKEND_SQLITE note_fields
             (asteps_get CORM_BACKEND_SQLITE delete_script) in
  render CORM_BACKEND_SQLITE (@note_model unit) note_fields d =
    "UPDATE " +:+ dquote +:+ "notes" +:+ dquote +:+ " SET " +:+ dquote +:+ "deleted" +:+ dquote +:+
    " = ? WHERE id = ?" /\
  a_params d = [SInt 7; SText "deleted"].
Proof. split; vm_compute; reflexivity. Qed.

(** The filter of [corm_find] is added without parentheses, so an OR condition
    escapes from it. *)
Example soft_delete_filter_precedence :
  a_where (select_of note_fields (asteps_get CORM_BACKEND_SQLITE
    [QWhere "id = 1"; QOrWhere "id = 2"])) = "id = 1 OR id = 2 AND deleted IS NULL".
Proof. vm_compute. reflexivity. Qed.
