(* ===== verification/BatchSpec.v ===== *)
(** * What the batch operations do

    [update_stmt] and [delete_stmt] compute, from the memory the records are
    in, the statement one record needs; the lemmas show that the bodies of the
    batch loops execute exactly these statements and leave the memory alone. *)

From S2P Require Import Prelude Types Mem Strbuf Dialect Model Backend Query Builder BuilderSpec.
From S2P Require Import QuerySpec QueryRefine QueryProps Tx Driver Result Exec Batch ExecSpec ExecProps.

(** ** The statements *)

Definition where_pk_ops (h : gmap loc block) (pk : field) (r : recptr) : option (list qop) :=
  v ← field_value h r pk; Some [QWhere (fname pk +:+ " = ?"); QBind v].

(** The builder calls for the UPDATE of one record. *)
Definition update_script (h : gmap loc block) (fs : list field) (pk : field) (r : recptr) :
    option (list qop) :=
  sets ← mapM (fun f => v ← field_value h r f; Some (QSet (fname f) v))
           (fields_without CORM_FLAG_PRIMARY fs);
  wh ← where_pk_ops h pk r;
  Some (sets ++ wh).

Definition delete_script (h : gmap loc block) (pk : field) (soft : option field) (r : recptr) :
    option (list qop) :=
  wh ← where_pk_ops h pk r;
  Some (match soft with Some f => [QSet (fname f) deleted_mark] | None => [] end ++ wh).

Section statements.
Context {S : Type} (m : model S) (fs : list field) (bt : corm_backend_type).

(** The statement a script builds and its values; [None]: a value is not
    readable or a size limit is passed. *)
Definition script_stmt (h : gmap loc block) (op : corm_query_op_t) (os : list qop) :
    option (string * list sqlval) :=
  a ← asteps h bt os aquery_empty;
  let text := render bt m fs (a_set_op op a) in
  if slen text + 1 <=? 2 ^ 63 then Some (text, a_params a) else None.

Definition update_stmt (h : gmap loc block) (pk : field) (r : recptr) :
    option (string * list sqlval) :=
  os ← update_script h fs pk r; script_stmt h CORM_OP_UPDATE os.

Definition delete_stmt (h : gmap loc block) (pk : field) (soft : option field) (r : recptr) :
    option (string * list sqlval) :=
  os ← delete_script h pk soft r;
  script_stmt h (match soft with Some _ => CORM_OP_UPDATE | None => CORM_OP_DELETE end) os.
End statements.

(** Execute statements up to the first error: the error, the total number of
    affected rows (an [int]) and the database. *)
Fixpoint run_stmts {S} (b : backend S) `{!Usable b} `{!SqlDriver b} (stmts : list (string * list sqlval))
    (d : S) (total : Z) : corm_err * Z * S :=
  match stmts with
  | [] => (CORM_OK, total, d)
  | (text, xs) :: stmts' =>
      let '(e, d') := sql_exec b text xs d in
      if decide (e = CORM_OK)
      then run_stmts b stmts' d' (wrap_i32 (total + sql_affected b d'))
      else (e, wrap_i32 (total + 0), d')
  end.

(** ** One record *)

Section steps.
Context {S : Type} (m : model S) (fs : list field) (Hm : model_ok m fs).
Implicit Types (q : query S) (w : world S).

Lemma value_at q w base a r f v :
  q_repr q w base a -> field_value base r f = Some v -> corm_field_get_value r f w = Ret v w.
Proof. intros Hq Hv. eapply get_value_mono; [done|]. eapply heap_split_le, Hq. Qed.

Lemma where_pk_spec pk r os q w base a a' :
  q_repr q w base a -> plenty w -> pk ∈ fs -> where_pk_ops base pk r = Some os ->
  asteps base (query_bt q) os a = Some a' ->
  exists q' w', where_pk pk r q w = Ret q' w' /\ post q w base a' q' w'.
Proof.
  unfold where_pk_ops. intros Hq Hp Hin Ho Ha.
  destruct (field_value base r pk) as [v|] eqn:Ev; [|done]. injection Ho as <-.
  set (text := fname pk +:+ " = ?") in *.
  cbn [asteps astep mbind option_bind] in Ha.
  set (a1 := a_set_where _ _) in *. destruct (aquery_okb a1) eqn:Ok1; [|done].
  destruct (bind_val base v) as [x|] eqn:Ex; [|done]. cbn [mbind option_bind] in Ha.
  destruct (aquery_okb (add_param x a1)) eqn:Ok2; [|done]. injection Ha as <-.
  assert (Hl : slen text <= 2 ^ 29 /\ no_nul text = true).
  { apply aquery_okb_spec in Ok1 as [[_ [Hn Hl] _ _ _ _ _ _ _] _].
    assert (Ew : a_where a1 = joined " AND " (a_where a) text) by by destruct a.
    rewrite Ew in Hn, Hl. unfold joined in Hn, Hl. rewrite !slen_app in Hl.
    rewrite !no_nul_app, !andb_true_iff in Hn.
    pose proof (slen_nonneg (a_where a)). pose proof (slen_nonneg (when (nonempty (a_where a)) " AND ")).
    split; [lia|]. tauto. }
  assert (Hw : writes (S := S) (fun sb => sb_addf sb "%s = ?" [FS (fname pk)]) text).
  { apply writes_addf; [|unfold INT_MAX; lia]. unfold text. done. }
  destruct (writes_at _ _ corm_strbuf_init EmptyString w Hw Hp sb_repr_init)
    as (sb & E & Hr); [unfold fits; cbn [String.append]; lia|].
  unfold where_pk. rewrite (field_names m fs Hm pk Hin). run. run_with E.
  run_with (cstr_spec sb text w Hr (proj2 Hl)).
  destruct (refines_all (QWhere text) q w base a a1) as (q1 & w1 & E1 & H1); try done.
  cbn [exec_qop] in E1. rewrite (bind_Ret _ _ _ _ _ E1).
  rewrite (bind_Ret _ _ _ _ _ (value_at q1 w1 base a1 r pk v (proj1 H1) Ev)).
  destruct (refines_all (QBind v) q1 w1 base a1 (add_param x a1)) as (q2 & w2 & E2 & H2);
    [apply H1|apply H1|by simpl; rewrite Ex|done|].
  cbn [exec_qop] in E2. rewrite (bind_Ret _ _ _ _ _ E2).
  exists q2, w2. split; [done|]. by eapply post_trans.
Qed.

(** The SET list of a record. *)
Lemma set_fields_spec flds r sets q w base a a' :
  (forall f, f ∈ flds -> f ∈ fs) -> q_repr q w base a -> plenty w ->
  mapM (fun f => v ← field_value base r f; Some (QSet (fname f) v))
    (fields_without CORM_FLAG_PRIMARY flds) = Some sets ->
  asteps base (query_bt q) sets a = Some a' ->
  exists q' w',
    for_each flds (fun f q =>
      if has_flag (f_flags f) CORM_FLAG_PRIMARY then mret q
      else v ← corm_field_get_value r f;
           q ← corm_query_set (Some q) (f_name f) v; deref q) q w = Ret q' w' /\
    post q w base a' q' w'.
Proof.
  unfold fields_without. revert q w a sets.
  induction flds as [|f flds IH]; intros q w a sets Hsub Hq Hp Hs Ha.
  { injection Hs as <-. injection Ha as <-. exists q, w. split; [done|by apply post_refl]. }
  rewrite filter_cons in Hs. cbn [for_each].
  assert (Hsub' : forall f0, f0 ∈ flds -> f0 ∈ fs)
    by (intros; apply Hsub; by apply list_elem_of_further).
  destruct (has_flag (f_flags f) CORM_FLAG_PRIMARY).
  { rewrite decide_False in Hs by done. rewrite bind_ret_l. by apply (IH q w a sets). }
  rewrite decide_True in Hs by done. cbn [mapM mbind option_bind] in Hs.
  destruct (field_value base r f) as [v|] eqn:Ev; [|done]. cbn [mbind option_bind] in Hs.
  destruct (mapM _ _) as [sets'|] eqn:Em; [|done]. injection Hs as <-.
  cbn [asteps] in Ha. destruct (astep base (query_bt q) (QSet (fname f) v) a) as [a1|] eqn:E1; [|done].
  cbn [mbind option_bind] in Ha. destruct (aquery_okb a1) eqn:Ok; [|done].
  destruct (refines_all (QSet (fname f) v) q w base a a1 Hq Hp E1 Ok) as (q1 & w1 & Er & H1).
  destruct (IH q1 w1 a1 sets') as (q2 & w2 & E2 & H2); [done|apply H1|apply H1|done| |].
  { by rewrite (query_bt_post _ _ _ _ _ _ H1). }
  exists q2, w2. split; [|by eapply post_trans].
  rewrite !bind_assoc. run_with (value_at q w base a r f v Hq Ev).
  rewrite (field_names m fs Hm f (Hsub f (list_elem_of_here _ _))).
  cbn [exec_qop] in Er. rewrite bind_assoc, (bind_Ret _ _ _ _ _ Er). exact E2.
Qed.
End steps.

Section records.
Context {S : Type} (b : backend S) (m : model S) (fs : list field) (Hm : model_ok m fs).
Context `{!Usable b} `{!SqlDriver b}.
Implicit Types (q : query S) (w : world S).

Lemma free_keeps q w base a :
  q_repr q w base a -> plenty w ->
  plenty (set_heap base w) /\ heap_wf (set_heap base w).
Proof.
  intros Hq Hp. split; [done|]. intros l [c Hl]. apply (qr_heap _ _ _ _ Hq). simpl in *.
  rewrite (heap_split_le _ _ _ (qr_split _ _ _ _ Hq) _ _ Hl). by eexists.
Qed.

(** Executing the finished query and freeing it, as both loop bodies do. *)
Lemma finish_spec op before after q w base a r :
  q_repr q w base a -> plenty w -> q_db q = Some b -> q_model q = Some m ->
  accepts before (Some r) -> accepts after (Some r) ->
  aquery_ok a -> fits (render (be_type b) m fs (a_set_op op a)) ->
  usable b (w_db w) ->
  sql_carries b (render (be_type b) m fs (a_set_op op a)) (a_params a) (w_db w) ->
  let res := sql_exec b (render (be_type b) m fs (a_set_op op a)) (a_params a) (w_db w) in
  exists w', ('(err, q, aff) ← exec_internal op before after q true (Some r);
              corm_query_free (Some q);; mret (Some (err, default 0 aff))) w =
      Ret (Some (res.1, if decide (res.1 = CORM_OK) then sql_affected b res.2 else 0)) w' /\
    w_heap w' = base /\ plenty w' /\ heap_wf w' /\ w_db w' = res.2.
Proof.
  intros Hq Hp Hd Hqm Hb1 Hb2 Hok Hfit Hu Hcar res.
  assert (Hu' : usable b res.2) by by apply drv_exec_usable.
  assert (Hok' : aquery_ok (a_set_op op a)) by (destruct a, Hok; by constructor).
  destruct (q_repr_op q w base a op Hq Hp) as (Hq1 & _).
  assert (Hq2 : q_repr (set_q_op op q) (set_db res.2 w) base (a_set_op op a))
    by (destruct Hq1; by constructor).
  exists (set_heap base (set_db res.2 w)).
  destruct (free_keeps _ _ _ _ Hq2 Hp) as [Hp2 Hwf2].
  split; [|by split_and!].
  unfold mbind at 1, M_bind at 1.
  rewrite (exec_internal_spec b m fs Hm op before after q w w base a true (Some r) _
    (Hb1 w) Hq Hp Hd Hqm drv_exec_eq Hok' Hfit).
  rewrite (bind_Ret _ _ _ _ _ (drv_exec_spec b _ q w base a Hq Hp Hu Hcar)). fold res.
  destruct (decide (res.1 = CORM_OK)).
  - rewrite (bind_Ret _ _ _ _ _ (after_exec_spec b true _ (Some r) (set_db res.2 w) Hb2 Hu')).
    cbn [mret M_ret]. by rewrite (bind_Ret _ _ _ _ _ (query_free_spec _ _ _ _ Hq2)).
  - cbn [mret M_ret]. by rewrite (bind_Ret _ _ _ _ _ (query_free_spec _ _ _ _ Hq2)).
Qed.

(** In memory [h] a loop body executes [stmt] for the record [r]: it returns the
    driver's error and row count and leaves the memory as it was. *)
Definition body_ok (body : recptr -> M S (option (corm_err * Z))) (h : gmap loc block)
    (r : recptr) (stmt : string * list sqlval) : Prop :=
  forall w, w_heap w = h -> plenty w -> heap_wf w -> usable b (w_db w) ->
  sql_carries b (fst stmt) (snd stmt) (w_db w) ->
  let res := sql_exec b (fst stmt) (snd stmt) (w_db w) in
  exists w', body r w =
      Ret (Some (res.1, if decide (res.1 = CORM_OK) then sql_affected b res.2 else 0)) w' /\
    w_heap w' = h /\ plenty w' /\ heap_wf w' /\ w_db w' = res.2.

Lemma script_stmt_inv h op os text xs :
  script_stmt m fs (be_type b) h op os = Some (text, xs) ->
  exists a, asteps h (be_type b) os aquery_empty = Some a /\ xs = a_params a /\
    text = render (be_type b) m fs (a_set_op op a) /\
    fits (render (be_type b) m fs (a_set_op op a)) /\ aquery_ok a.
Proof.
  unfold script_stmt. destruct (asteps _ _ _ _) as [a|] eqn:Ea; [|done]. cbn [mbind option_bind].
  destruct (Z.leb_spec (slen (render (be_type b) m fs (a_set_op op a)) + 1) (2 ^ 63)); [|done].
  intros [= <- <-]. exists a. split_and!; try done. by eapply asteps_ok; [apply empty_ok|].
Qed.

Lemma asteps_app h bt os1 os2 a a' :
  asteps h bt (os1 ++ os2) a = Some a' ->
  exists a1, asteps h bt os1 a = Some a1 /\ asteps h bt os2 a1 = Some a'.
Proof.
  revert a. induction os1 as [|o os1 IH]; intros a H; simpl in *; [by exists a|].
  destruct (astep h bt o a) as [a1|]; [|done]. simpl in *.
  destruct (aquery_okb a1); [|done]. by apply IH.
Qed.

Lemma update_one_spec pk h r stmt :
  pk ∈ fs -> update_stmt m fs (be_type b) h pk r = Some stmt ->
  accepts (m_before_update m) (Some r) -> accepts (m_after_update m) (Some r) ->
  body_ok (update_one (Some b) m fs pk) h r stmt.
Proof.
  destruct stmt as [text xs]. intros Hin Hs Hb1 Hb2 w Hh Hp Hwf Hu Hcar. unfold update_stmt, update_script in Hs.
  destruct (mapM _ _) as [sets|] eqn:Em; [|done].
  destruct (where_pk_ops h pk r) as [wh|] eqn:Ew; [|done]. cbn [mbind option_bind] in Hs.
  apply script_stmt_inv in Hs as (a & Ha & -> & -> & Hfit & Hok).
  apply asteps_app in Ha as (a1 & Ha1 & Ha2).
  destruct (query_new_spec b m w Hp Hwf) as (q & E & Hq & Hd & Hqm). rewrite Hh in Hq.
  assert (Hbt : query_bt q = be_type b) by (unfold query_bt; by rewrite Hd).
  destruct (set_fields_spec m fs Hm fs r sets q w h aquery_empty a1) as (q1 & w1 & E1 & H1);
    [done|done|done|done|by rewrite Hbt|].
  destruct (where_pk_spec m fs Hm pk r wh q1 w1 h a1 a) as (q2 & w2 & E2 & H2);
    [apply H1|apply H1|done|done|by rewrite (query_bt_post _ _ _ _ _ _ H1), Hbt|].
  pose proof (post_trans _ _ _ _ _ _ _ _ _ H1 H2) as (Hq2 & Hp2 & Hdb & Hd2 & Hm2).
  destruct (finish_spec CORM_OP_UPDATE (m_before_update m) (m_after_update m) q2 w2 h a r)
    as (w' & E3 & H3); [congruence|done|congruence..|done|done|done|done|congruence|by rewrite Hdb|].
  exists w'. simpl. rewrite <- Hdb. split; [|done].
  unfold update_one. run_with E. run_with E1. run_with E2.
  unfold corm_update_internal. rewrite bind_deref_Some, Hm2, Hqm. exact E3.
Qed.

Lemma delete_one_spec pk h r stmt :
  pk ∈ fs -> delete_stmt m fs (be_type b) h pk (first_flag CORM_FLAG_SOFT_DELETE fs) r = Some stmt ->
  accepts (delete_before m fs) (Some r) -> accepts (delete_after m fs) (Some r) ->
  body_ok (delete_one (Some b) m pk (first_flag CORM_FLAG_SOFT_DELETE fs)) h r stmt.
Proof.
  destruct stmt as [text xs]. intros Hin Hs Hb1 Hb2 w Hh Hp Hwf Hu Hcar. unfold delete_stmt, delete_script in Hs.
  destruct (where_pk_ops h pk r) as [wh|] eqn:Ew; [|done]. cbn [mbind option_bind] in Hs.
  apply script_stmt_inv in Hs as (a & Ha & -> & -> & Hfit & Hok).
  apply asteps_app in Ha as (a1 & Ha1 & Ha2).
  destruct (query_new_spec b m w Hp Hwf) as (q & E & Hq & Hd & Hqm). rewrite Hh in Hq.
  assert (Hbt : query_bt q = be_type b) by (unfold query_bt; by rewrite Hd).
  unfold delete_one. run_with E. unfold delete_before, delete_after in *.
  destruct (first_flag CORM_FLAG_SOFT_DELETE fs) as [g|] eqn:Eg.
  - destruct (refines_script [QSet (fname g) deleted_mark] q w h aquery_empty a1) as (q1 & w1 & E1 & H1);
      [done|done|by rewrite Hbt|].
    destruct (where_pk_spec m fs Hm pk r wh q1 w1 h a1 a) as (q2 & w2 & E2 & H2);
      [apply H1|apply H1|done|done|by rewrite (query_bt_post _ _ _ _ _ _ H1), Hbt|].
    pose proof (post_trans _ _ _ _ _ _ _ _ _ H1 H2) as (Hq2 & Hp2 & Hdb & Hd2 & Hm2).
    destruct (finish_spec CORM_OP_UPDATE (m_before_update m) (m_after_update m) q2 w2 h a r)
      as (w' & E3 & H3); [congruence|done|congruence..|done|done|done|done|congruence|by rewrite Hdb|].
    exists w'. rewrite <- Hdb. split; [|done].
    rewrite (field_names m fs Hm g (first_flag_elem _ _ _ Eg)).
    apply bind_inv in E1 as (qo & w3 & E1 & E1'). injection E1' as -> ->. cbn [exec_qop] in E1.
    rewrite !bind_assoc, (bind_Ret _ _ _ _ _ E1). run. run_with E2.
    unfold corm_update_internal. rewrite bind_deref_Some, Hm2, Hqm. exact E3.
  - injection Ha1 as <-. run.
    destruct (where_pk_spec m fs Hm pk r wh q w h aquery_empty a) as (q2 & w2 & E2 & H2);
      [done|done|done|done|by rewrite Hbt|].
    pose proof H2 as (Hq2 & Hp2 & Hdb & Hd2 & Hm2).
    destruct (finish_spec CORM_OP_DELETE (m_before_delete m) (m_after_delete m) q2 w2 h a r)
      as (w' & E3 & H3); [congruence|done|congruence..|done|done|done|done|congruence|by rewrite Hdb|].
    exists w'. rewrite <- Hdb. split; [|done]. run_with E2.
    unfold corm_delete_internal. rewrite bind_deref_Some, Hm2, Hqm. cbn [mbind option_bind].
    rewrite (mo_fields _ _ Hm). run. rewrite Eg. exact E3.
Qed.

Lemma batch_loop_spec body h records : forall ks stmts w total,
  Forall2 (fun k stmt => body_ok body h (rec_at records k) stmt) ks stmts ->
  w_heap w = h -> plenty w -> heap_wf w -> usable b (w_db w) -> carried b stmts (w_db w) ->
  let '(e, n, d) := run_stmts b stmts (w_db w) total in
  exists w', batch_loop body records ks total w = Ret (Some e, n) w' /\
    w_heap w' = h /\ plenty w' /\ heap_wf w' /\ w_db w' = d.
Proof.
  intros ks stmts. revert ks. induction stmts as [|[text xs] stmts IH]; intros ks w total Hb Hh Hp Hwf Hu Hcar.
  { apply Forall2_nil_inv_r in Hb as ->. by exists w. }
  apply Forall2_cons_inv_r in Hb as (k & ks' & Hk & Hb & ->). cbn [run_stmts batch_loop].
  apply Forall_cons in Hcar as [Hcar1 Hcar]. pose proof (drv_exec_usable text xs (w_db w) Hu Hcar1) as Hu1.
  pose proof (carried_step b text xs stmts (w_db w) Hu Hcar1) as Hcar2.
  destruct (Hk w Hh Hp Hwf Hu Hcar1) as (w1 & E & Hh1 & Hp1 & Hwf1 & Hd1). cbn [fst snd] in *.
  destruct (sql_exec b text xs (w_db w)) as [e d]. cbn [fst snd] in *.
  rewrite (bind_Ret _ _ _ _ _ E). destruct (decide (e = CORM_OK)); [|by exists w1].
  subst d. apply IH; auto.
Qed.

Lemma run_stmts_usable stmts d total :
  usable b d -> carried b stmts d -> usable b (run_stmts b stmts d total).2.
Proof.
  revert d total. induction stmts as [|[text xs] stmts IH]; intros d total Hu Hc; [done|].
  apply Forall_cons in Hc as [Hc1 Hc]. cbn [run_stmts].
  pose proof (drv_exec_usable text xs d Hu Hc1) as H1.
  pose proof (carried_step b text xs stmts d Hu Hc1) as H2.
  destruct (sql_exec b text xs d) as [e d1]. cbn in *. destruct (decide (e = CORM_OK)); [auto|done].
Qed.

(** The whole batch, once the transaction has begun in [w1]. *)
Lemma batch_run_spec body records count stmts w w1 :
  corm_begin (Some b) w = Ret CORM_OK w1 -> plenty w1 -> heap_wf w1 -> usable b (w_db w1) ->
  carried b stmts (w_db w1) ->
  Forall2 (fun k stmt => body_ok body (w_heap w1) (rec_at records k) stmt)
    (seq 0 (Z.to_nat count)) stmts ->
  let '(e, n, d) := run_stmts b stmts (w_db w1) 0 in
  exists w2, w_heap w2 = w_heap w1 /\ w_db w2 = d /\ usable b d /\
    batch_run (Some b) body records count w =
      ((if decide (e = CORM_OK) then corm_commit (Some b) else corm_rollback (Some b));;
       mret (e, Some n)) w2.
Proof.
  intros E Hp Hwf Hu Hcar Hb.
  pose proof (batch_loop_spec _ _ _ _ _ w1 0 Hb eq_refl Hp Hwf Hu Hcar) as H.
  pose proof (run_stmts_usable stmts (w_db w1) 0 Hu Hcar) as Hu2.
  destruct (run_stmts b stmts (w_db w1) 0) as [[e n] d].
  destruct H as (w2 & E2 & Hh & _ & _ & Hd). exists w2. split_and!; try done.
  unfold batch_run. rewrite (bind_Ret _ _ _ _ _ E). by rewrite (bind_Ret _ _ _ _ _ E2).
Qed.

(** The statements do not end the transaction they run in. *)
Definition stays_open {K} `{!Transactional (K := K) b} (stmts : list (string * list sqlval)) : Prop :=
  Forall (fun s => forall d, usable b d -> sql_carries b (fst s) (snd s) d ->
    saved b (sql_exec b (fst s) (snd s) d).2 = saved b d) stmts.

Lemma run_stmts_saved {K} `{!Transactional (K := K) b} stmts d total :
  stays_open stmts -> usable b d -> carried b stmts d ->
  saved b (run_stmts b stmts d total).2 = saved b d.
Proof.
  intros Hk. revert d total. induction Hk as [|[text xs] stmts H1 _ IH]; intros d total Hu Hc; [done|].
  apply Forall_cons in Hc as [Hc1 Hc]. cbn [run_stmts]. specialize (H1 d Hu Hc1). cbn [fst snd] in *.
  pose proof (drv_exec_usable text xs d Hu Hc1) as Hu1.
  pose proof (carried_step b text xs stmts d Hu Hc1) as Hc2.
  destruct (sql_exec b text xs d) as [e d1]. cbn in *.
  destruct (decide (e = CORM_OK)); [rewrite IH; auto|done].
Qed.

(** A failing batch on a transactional driver is undone. *)
Lemma batch_atomic {K} `{!Transactional (K := K) b} body records count stmts w w1 :
  stays_open stmts -> carried b stmts (w_db w1) ->
  corm_begin (Some b) w = Ret CORM_OK w1 -> plenty w -> heap_wf w -> usable b (w_db w) ->
  tx_free b (w_db w) ->
  Forall2 (fun k stmt => body_ok body (w_heap w) (rec_at records k) stmt)
    (seq 0 (Z.to_nat count)) stmts ->
  let '(e, n, d) := run_stmts b stmts (w_db w1) 0 in
  exists w', batch_run (Some b) body records count w = Ret (e, Some n) w' /\
    w_heap w' = w_heap w /\
    (e <> CORM_OK -> content b (w_db w') = content b (w_db w)) /\
    (e = CORM_OK -> exists ce w2, w_db w2 = d /\ corm_commit (Some b) w2 = Ret ce w' /\
       (ce = CORM_OK -> content b (w_db w') = content b d)).
Proof.
  intros Hk Hcar E Hp Hwf Hu Hfr Hb.
  assert (exists d1, w1 = set_db d1 w /\ usable b d1 /\ saved b d1 = Some (content b (w_db w)))
    as (d1 & -> & Hu1 & Hs1).
  { unfold corm_begin in E. rewrite tx_begin_eq in E. run_in E.
    destruct (tx_begin_law w Hu Hfr) as (e & d1 & wa & E1 & Ha & Hu1 & _ & Hs).
    rewrite (alloc_only_plenty _ _ Ha Hp), E in E1. injection E1 as <- ->.
    exists d1. split; [done|]. split; [done|]. by apply Hs. }
  pose proof (batch_run_spec body records count stmts w _ E Hp Hwf Hu1 Hcar Hb) as H.
  pose proof (run_stmts_saved stmts d1 0 Hk Hu1 Hcar) as Hs2.
  change (w_db (set_db d1 w)) with d1 in *.
  destruct (run_stmts b stmts d1 0) as [[e n] d]. simpl in Hs2. rewrite Hs1 in Hs2.
  destruct H as (w2 & Hh & Hd & Hu2 & ->). rewrite <- Hd in Hu2. destruct (decide (e = CORM_OK)) as [->|He].
  - destruct (tx_commit_law w2 Hu2) as (ce & d2 & wa & Ec & (Ha & _) & _ & Hc).
    assert (Ec' : corm_commit (Some b) w2 = Ret ce (set_db d2 wa)).
    { unfold corm_commit. by rewrite tx_commit_eq. }
    exists (set_db d2 wa). split; [by rewrite (bind_Ret _ _ _ _ _ Ec')|].
    split; [exact (eq_trans Ha Hh)|]. split; [done|]. intros _. exists ce, w2. split_and!; try done.
    simpl. by rewrite <- Hd.
  - rewrite <- Hd in Hs2. destruct (tx_rollback_law w2 _ Hu2 Hs2) as (ce & d2 & wa & Er & (Ha & _) & _ & Hc).
    assert (Er' : corm_rollback (Some b) w2 = Ret ce (set_db d2 wa)).
    { unfold corm_rollback. by rewrite tx_rollback_eq. }
    exists (set_db d2 wa). split; [by rewrite (bind_Ret _ _ _ _ _ Er')|].
    split; [exact (eq_trans Ha Hh)|done].
Qed.
End records.
