(* ===== verification/InsertSpec.v ===== *)
(** * The multi-row INSERT of [corm_create_batch]

    [insert_text] is the statement for [n] records; the lemmas show that
    [batch_head] and [batch_rows] build it and bind the values of the records in
    order. *)

From S2P Require Import Prelude Types Mem Strbuf Dialect Model Backend Query Builder BuilderSpec.
From S2P Require Import QuerySpec QueryRefine QueryProps Tx Driver Result Exec Batch ExecSpec ExecProps.
From S2P Require Import BatchSpec.

(** ** The text *)

Definition insert_cols (fs : list field) : list field := fields_without CORM_FLAG_AUTOINC fs.

(** The placeholders of row [i]. *)
Definition insert_row (bt : corm_backend_type) (fs : list field) (i : nat) : string :=
  let cols := insert_cols fs in
  "(" +:+ (commas (imap (fun j _ =>
     placeholder bt (Z.of_nat i * Z.of_nat (length cols) + Z.of_nat j)) cols) +:+ ")").

Definition insert_head (bt : corm_backend_type) (table : string) (fs : list field) : string :=
  "INSERT INTO " +:+ (quoted bt table +:+ (" (" +:+
  (commas (map (fun f => quoted bt (fname f)) (insert_cols fs)) +:+ ") VALUES "))).

Definition insert_text (bt : corm_backend_type) (table : string) (fs : list field) (n : nat) :
    string :=
  insert_head bt table fs +:+ commas (map (insert_row bt fs) (seq 0 n)).

(** The values of the records [i, ..., i + n). *)
Fixpoint insert_vals (h : gmap loc block) (fs : list field) (records : recptr) (i n : nat) :
    option (list sqlval) :=
  match n with
  | O => Some []
  | S n =>
      xs ← record_vals h (rec_at records i) fs;
      ys ← insert_vals h fs records (S i) n;
      Some (xs ++ ys)
  end.

(** Rows as the loop writes them, the separator in front. *)
Definition sep_rows (bt : corm_backend_type) (fs : list field) (rs : list nat) : string :=
  fold_right (fun r s => when (0 <? Z.of_nat r) ", " +:+ (insert_row bt fs r +:+ s)) "" rs.

Lemma sep_rows_commas bt fs a n :
  sep_rows bt fs (seq a n) =
    when ((0 <? Z.of_nat a) && (0 <? Z.of_nat n)) ", " +:+ commas (map (insert_row bt fs) (seq a n)).
Proof.
  revert a. induction n as [|n IH]; intros a; [by destruct (0 <? Z.of_nat a)|].
  cbn [seq sep_rows fold_right map]. destruct (Z.ltb_spec 0 (Z.of_nat (Datatypes.S n))); [|lia].
  rewrite andb_true_r. f_equal. unfold sep_rows in IH. rewrite IH.
  destruct (Z.ltb_spec 0 (Z.of_nat (Datatypes.S a))); [|lia]. cbn [andb].
  destruct n as [|n]; [cbn; by rewrite str_app_nil_r|]. destruct (Z.ltb_spec 0 (Z.of_nat (Datatypes.S n))); [done|lia].
Qed.

Section insert.
Context {S : Type} (m : model S) (fs : list field) (Hm : model_ok m fs) (bt : corm_backend_type).
Implicit Types (q : query S) (w : world S).

Let table := default EmptyString (m_table_name m).
Let cols := insert_cols fs.

Lemma batch_head_spec w :
  plenty w -> slen table + 20 <= INT_MAX -> fits (insert_head bt table fs) ->
  exists sql, batch_head bt m fs w = Ret sql w /\ sb_repr sql (insert_head bt table fs).
Proof.
  intros Hp Ht Hf. unfold batch_head. rewrite (table_name_eq m fs Hm), bind_deref_Some. fold table.
  cbn zeta. set (qc := corm_dialect_quote bt).
  assert (Hq : slen qc <= 1) by (unfold qc, slen; destruct bt; simpl; lia).
  eapply (writes_run (fun sb => sql ← sb_addf sb "INSERT INTO %s%s%s (" [FS qc; FS table; FS qc];
    sql ← for_fields fs CORM_FLAG_AUTOINC (fun f _ sql =>
            n ← deref (f_name f); sql ← sb_add sql qc; sql ← sb_add sql n; sb_add sql qc) sql;
    sb_add sql ") VALUES ")); [|apply sb_repr_init|done|done].
  eapply writes_ext with
    (x := ("INSERT INTO " +:+ (qc +:+ (table +:+ (qc +:+ " (")))) +:+
          (commas (map (fun f => quoted bt (fname f)) cols) +:+ ") VALUES ")).
  { unfold insert_head, quoted. fold qc cols. by rewrite !str_app_assoc. }
  apply writes_seq; [|apply writes_seq; [apply (writes_names bt m fs Hm)|apply writes_add]].
  apply writes_addf; [done|]. rewrite !slen_app. change (slen "INSERT INTO ") with 12.
  change (slen " (") with 2. lia.
Qed.

(** The placeholders of one row, from column [fi] on. *)
Lemma row_loop_spec flds sb s fi pi w :
  plenty w -> sb_repr sb s -> 0 <= fi -> 0 <= pi ->
  pi + Z.of_nat (length (fields_without CORM_FLAG_AUTOINC flds)) <= 2 ^ 30 ->
  let txt := fun j (_ : field) => placeholder bt (pi - fi + j) in
  let flds' := fields_without CORM_FLAG_AUTOINC flds in
  fits (s +:+ sep_concat txt fi flds') ->
  exists sb', for_each flds (fun f '(sql, fi, pi) =>
        if has_flag (f_flags f) CORM_FLAG_AUTOINC then mret (sql, fi, pi)
        else
          sql ← (if 0 <? (fi : Z) then sb_add sql ", " else mret sql);
          sql ← sb_add sql (corm_dialect_placeholder_str bt pi PH_BUF);
          mret (sql, fi + 1, wrap_i32 (pi + 1))) (sb, fi, pi) w =
      Ret (sb', fi + Z.of_nat (length flds'), pi + Z.of_nat (length flds')) w /\
    sb_repr sb' (s +:+ sep_concat txt fi flds').
Proof.
  intros Hp. revert sb s fi pi. unfold fields_without.
  induction flds as [|f flds IH]; intros sb s fi pi Hr Hfi Hpi Hn; cbn zeta.
  { intros _. exists sb. simpl. by rewrite !Z.add_0_r, str_app_nil_r. }
  rewrite filter_cons in Hn |- *. cbn [for_each].
  destruct (has_flag (f_flags f) CORM_FLAG_AUTOINC).
  { rewrite decide_False in Hn |- * by done. rewrite bind_ret_l. intros Hf. by apply IH. }
  rewrite decide_True in Hn |- * by done. cbn [length sep_concat] in *.
  replace (pi - fi + fi) with pi by lia. intros Hf.
  rewrite placeholder_str_spec by (unfold ph_index, INT_MAX; lia).
  set (rest := sep_concat _ _ _) in Hf |- *.
  destruct (writes_at (fun sb => sql ← (if 0 <? fi then sb_add (S := S) sb ", " else mret sb);
      sb_add sql (placeholder bt pi)) (when (0 <? fi) ", " +:+ placeholder bt pi) sb s w)
    as (sb1 & E1 & Hr1); [|done|done|fits_tac|].
  { apply (writes_seq (fun sb => if 0 <? fi then sb_add sb ", " else mret sb));
      [apply (writes_when (0 <? fi) (fun sb => sb_add sb ", ")), writes_add|apply writes_add]. }
  rewrite wrap_i32_id by (unfold in_i32; lia).
  destruct (IH sb1 _ (fi + 1) (pi + 1) Hr1) as (sb2 & E2 & Hr2); [lia|lia|lia| |].
  all: replace (pi + 1 - (fi + 1)) with (pi - fi) in * by lia.
  { unfold rest in Hf. rewrite !str_app_assoc in *. exact Hf. }
  exists sb2. unfold rest. rewrite !str_app_assoc in *. split; [|done].
  apply bind_inv in E1 as (sb0 & w0 & E0 & E1).
  rewrite !bind_assoc, (bind_Ret _ _ _ _ _ E0), bind_assoc, (bind_Ret _ _ _ _ _ E1), bind_ret_l, E2.
  do 2 f_equal; [f_equal|]; lia.
Qed.

Definition row_texts (i : nat) : string :=
  commas (imap (fun j _ =>
    placeholder bt (Z.of_nat i * Z.of_nat (length cols) + Z.of_nat j)) cols).

Lemma batch_row_spec sb s i w :
  plenty w -> sb_repr sb s ->
  Z.of_nat (Datatypes.S i) * Z.of_nat (length cols) <= 2 ^ 30 ->
  fits (s +:+ (row_texts i +:+ ")")) ->
  exists sb', batch_row bt fs sb (Z.of_nat i * Z.of_nat (length cols)) w =
      Ret (sb', Z.of_nat (Datatypes.S i) * Z.of_nat (length cols)) w /\
    sb_repr sb' (s +:+ (row_texts i +:+ ")")).
Proof.
  intros Hp Hr Hn Hf. set (k := Z.of_nat i * Z.of_nat (length cols)) in *.
  assert (Et : sep_concat (fun j _ => placeholder bt (k - 0 + j)) 0 cols = row_texts i).
  { rewrite sep_concat_commas by lia. unfold row_texts, texts_from. simpl. f_equal.
    apply imap_ext. intros j f _. f_equal. unfold k. lia. }
  destruct (row_loop_spec fs sb s 0 k w Hp Hr) as (sb1 & E1 & Hr1); [lia|unfold k; lia| | |].
  { fold (insert_cols fs) cols. unfold k. lia. }
  { fold (insert_cols fs) cols. rewrite Et. fits_tac. }
  fold (insert_cols fs) cols in E1, Hr1. rewrite Et in Hr1.
  destruct (writes_at (S := S) (fun sb => sb_add sb ")") ")" sb1 _ w (writes_add ")") Hp Hr1)
    as (sb2 & E2 & Hr2); [by rewrite <- str_app_assoc|].
  exists sb2. rewrite <- str_app_assoc in Hr2. split; [|done].
  unfold batch_row. rewrite (bind_Ret _ _ _ _ _ E1), (bind_Ret _ _ _ _ _ E2).
  do 2 f_equal. unfold k. lia.
Qed.

(** Records [a, ..., a + n) of the statement that starts at record [i]. *)
Lemma rows_loop_spec records i n : forall a sb s q w base ab xs,
  plenty w -> sb_repr sb s -> q_repr q w base ab ->
  insert_vals base fs records (i + a) n = Some xs ->
  params_ok (add_params xs ab) ->
  Z.of_nat (a + n) * Z.of_nat (length cols) <= 2 ^ 30 ->
  fits (s +:+ sep_rows bt fs (seq a n)) ->
  exists sb' q' w', for_each (seq a n) (fun r '(sql, q, param_idx) =>
        sql ← sb_add sql (match r with O => "(" | _ => ", (" end);
        '(sql, param_idx) ← batch_row bt fs sql param_idx;
        q ← bind_fields fs (rec_at records (i + r)) q;
        mret (sql, q, param_idx)) (sb, q, Z.of_nat a * Z.of_nat (length cols)) w =
      Ret (sb', q', Z.of_nat (a + n) * Z.of_nat (length cols)) w' /\
    sb_repr sb' (s +:+ sep_rows bt fs (seq a n)) /\
    post q w base (add_params xs ab) q' w'.
Proof.
  induction n as [|n IH]; intros a sb s q w base ab xs Hp Hr Hq Hx Hok Hn Hf.
  { injection Hx as <-. exists sb, q, w. cbn. rewrite Nat.add_0_r, str_app_nil_r.
    split; [done|]. split; [done|]. by apply post_refl. }
  cbn [insert_vals mbind option_bind] in Hx.
  destruct (record_vals base (rec_at records (i + a)) fs) as [ys|] eqn:Ey; [|done].
  cbn [mbind option_bind] in Hx. rewrite plus_n_Sm in Hx.
  destruct (insert_vals base fs records (i + Datatypes.S a) n) as [zs|] eqn:Ez; [|done].
  injection Hx as <-. unfold add_params in Hok. rewrite fold_left_app in Hok.
  fold (add_params ys ab) in Hok. fold (add_params zs (add_params ys ab)) in Hok.
  cbn [seq for_each sep_rows fold_right] in Hf |- *.
  fold (sep_rows bt fs (seq (Datatypes.S a) n)) in Hf |- *. set (rest := sep_rows _ _ _) in *.
  change (insert_row bt fs a) with ("(" +:+ (row_texts a +:+ ")")) in Hf |- *.
  assert (Esep : (match a with O => "(" | _ => ", (" end) = when (0 <? Z.of_nat a) ", " +:+ "(").
  { destruct a; [done|]. by destruct (Z.ltb_spec 0 (Z.of_nat (Datatypes.S a))); [|lia]. }
  rewrite Esep. set (sep := when (0 <? Z.of_nat a) ", ") in *.
  destruct (writes_at (S := S) (fun sb => sb_add sb (sep +:+ "(")) (sep +:+ "(") sb s w
    (writes_add _) Hp Hr) as (sb1 & E1 & Hr1); [fits_tac|].
  destruct (batch_row_spec sb1 _ a w Hp Hr1) as (sb2 & E2 & Hr2); [lia|fits_tac|].
  destruct (bind_fields_spec fs (rec_at records (i + a)) q w base ab ys Hq Hp Ey)
    as (q1 & w1 & E3 & H3).
  { unfold params_ok in *. rewrite !add_params_params, !length_app in Hok.
    rewrite add_params_params, length_app. lia. }
  destruct (IH (Datatypes.S a) sb2 _ q1 w1 base _ zs (proj1 (proj2 H3)) Hr2 (proj1 H3) Ez Hok)
    as (sb3 & q2 & w2 & E4 & Hr4 & H4); [lia|fold rest; fits_tac|].
  exists sb3, q2, w2. unfold rest. rewrite !bind_assoc, (bind_Ret _ _ _ _ _ E1).
  rewrite !bind_assoc, (bind_Ret _ _ _ _ _ E2), !bind_assoc, (bind_Ret _ _ _ _ _ E3), bind_ret_l, E4.
  split; [do 3 f_equal; lia|]. split; [|].
  - rewrite !str_app_assoc in *. exact Hr4.
  - unfold add_params. rewrite fold_left_app. eapply post_trans; [exact H3|exact H4].
Qed.
End insert.

(** ** One statement *)

(** The statement for the [n] records from [i] on, with its values; [None]: a
    value is not readable, or more than 2^30 bytes of text or 2^29 values. *)
Definition insert_stmt {S} (h : gmap loc block) (bt : corm_backend_type) (m : model S)
    (fs : list field) (records : recptr) '((i, n) : Z * Z) : option (Z * string * list sqlval) :=
  let text := insert_text bt (default EmptyString (m_table_name m)) fs (Z.to_nat n) in
  xs ← insert_vals h fs records (Z.to_nat i) (Z.to_nat n);
  if (slen text <=? 2 ^ 30) && (n * Z.of_nat (length (insert_cols fs)) <=? 2 ^ 29)
  then Some (n, text, xs) else None.

(** The statements of a batch: where each starts and how many records it has. *)
Fixpoint chunks (fuel : nat) (count batch_size i : Z) : list (Z * Z) :=
  if count <=? i then []
  else
    match fuel with
    | O => []
    | S fuel =>
        (i, Z.min batch_size (count - i)) :: chunks fuel count batch_size (i + batch_size)
    end.

Definition chunk_range '((i, n) : Z * Z) : list nat := seq (Z.to_nat i) (Z.to_nat n).

(** The chunks cover the records in order, each one once. *)
Lemma chunks_cover fuel count bs i :
  0 < bs -> 0 <= i -> count - i <= Z.of_nat fuel ->
  concat (map chunk_range (chunks fuel count bs i)) = seq (Z.to_nat i) (Z.to_nat (count - i)) /\
  Forall (fun c => 0 < snd c <= bs) (chunks fuel count bs i).
Proof.
  intros Hbs. revert i. induction fuel as [|fuel IH]; intros i Hi Hf; cbn [chunks];
    destruct (Z.leb_spec count i); try lia;
    try (split; [by replace (Z.to_nat (count - i)) with O by lia|constructor]).
  destruct (IH (i + bs)) as [H1 H2]; [lia|lia|]. cbn [map concat chunk_range]. split.
  - rewrite H1. destruct (Z.leb_spec bs (count - i)).
    + rewrite Z.min_l by lia. replace (Z.to_nat (i + bs)) with (Z.to_nat i + Z.to_nat bs)%nat by lia.
      rewrite <- seq_app. f_equal. lia.
    + rewrite Z.min_r by lia. replace (Z.to_nat (count - (i + bs))) with O by lia.
      cbn. by rewrite app_nil_r.
  - constructor; [simpl; lia|done].
Qed.

(** Execute inserts up to the first error; the total counts the records of the
    successful ones. *)
Fixpoint run_inserts {S} (b : backend S) `{!Usable b} `{!SqlDriver b} (stmts : list (Z * string * list sqlval))
    (d : S) (total : Z) : corm_err * Z * S :=
  match stmts with
  | [] => (CORM_OK, total, d)
  | (n, text, xs) :: stmts' =>
      let '(e, d') := sql_exec b text xs d in
      if decide (e = CORM_OK) then run_inserts b stmts' d' (total + n) else (e, total, d')
  end.

Definition inserts_carried {S} (b : backend S) `{!Usable b} `{!SqlDriver b}
    (stmts : list (Z * string * list sqlval)) (d : S) : Prop :=
  Forall (fun s => sql_carries b s.1.2 s.2 d) stmts.

Section create.
Context {S : Type} (b : backend S) (m : model S) (fs : list field) (Hm : model_ok m fs).
Context `{!Usable b} `{!SqlDriver b}.
Implicit Types (q : query S) (w : world S).

Let table := default EmptyString (m_table_name m).
Let bt := be_type b.

Lemma insert_text_no_nul n : no_nul (insert_text bt table fs n) = true.
Proof.
  unfold insert_text, insert_head. rewrite !no_nul_app, no_nul_quoted by (by apply (no_nul_table m fs)).
  rewrite !no_nul_commas; [done| |].
  - apply Forall_map, Forall_true. intros i. unfold insert_row. rewrite !no_nul_app, no_nul_commas; [done|].
    apply no_nul_imap. intros j f _. apply placeholder_no_nul. lia.
  - apply Forall_map, Forall_forall. intros f Hf.
    by apply no_nul_quoted, (ident_field m fs), (without_sub fs CORM_FLAG_AUTOINC).
Qed.

Lemma insert_vals_length h records i n xs :
  insert_vals h fs records i n = Some xs ->
  length xs = (n * length (insert_cols fs))%nat.
Proof.
  revert i xs. induction n as [|n IH]; intros i xs H; cbn in H; [by injection H as <-|].
  destruct (record_vals h (rec_at records i) fs) as [ys|] eqn:Ey; [|done].
  destruct (insert_vals h fs records (Datatypes.S i) n) as [zs|] eqn:Ez; [|done].
  injection H as <-. rewrite length_app, (IH _ _ Ez). unfold record_vals in Ey.
  apply length_mapM in Ey. unfold insert_cols in *. simpl. lia.
Qed.

(** Building, executing and freeing one chunk. *)
Lemma chunk_spec records i n text xs w :
  plenty w -> heap_wf w ->
  insert_stmt (w_heap w) bt m fs records (i, n) = Some (n, text, xs) ->
  0 <= i -> 0 < n -> usable b (w_db w) -> sql_carries b text xs (w_db w) ->
  let res := sql_exec b text xs (w_db w) in
  exists sql q sql' q' w1 w2, batch_head bt m fs w = Ret sql w /\
    corm_query_new (Some b) (Some m) w = Ret (Some q) w /\
    batch_rows bt fs records (Z.to_nat i) (Z.to_nat n) sql q w = Ret (sql', q') w1 /\
    driver_exec q' sql' w1 = Ret res.1 w2 /\
    exists w3, corm_query_free (Some q') w2 = Ret tt w3 /\
    w_heap w3 = w_heap w /\ plenty w3 /\ heap_wf w3 /\ w_db w3 = res.2.
Proof.
  intros Hp Hwf Hs Hi Hn Hu Hcar res. unfold insert_stmt in Hs.
  destruct (insert_vals _ _ _ _ _) as [ys|] eqn:Ev; [|done]. cbn [mbind option_bind] in Hs.
  destruct (_ && _) eqn:Hb in Hs; [|done]. injection Hs as Ht ->. fold table in Ht.
  apply andb_prop in Hb as [Hb1%Z.leb_le Hb2%Z.leb_le]. fold table in Hb1. rewrite Ht in Hb1.
  set (cols := insert_cols fs) in *.
  assert (Hrows : sep_rows bt fs (seq 0 (Z.to_nat n)) = commas (map (insert_row bt fs) (seq 0 (Z.to_nat n)))).
  { by rewrite sep_rows_commas. }
  unfold insert_text in Ht. rewrite <- Hrows in Ht.
  assert (Hh : slen (insert_head bt table fs) <= 2 ^ 30 /\ slen table + 20 <= INT_MAX).
  { rewrite <- Ht in Hb1. unfold insert_head, quoted in *. unfold INT_MAX.
    split; fits_arith. }
  destruct (batch_head_spec m fs Hm bt w Hp (proj2 Hh)) as (sql & E1 & Hr1);
    [fold table; unfold fits; lia|]. fold table in Hr1.
  destruct (query_new_spec b m w Hp Hwf) as (q & E2 & Hq & Hd & Hqm).
  pose proof (insert_vals_length _ _ _ _ _ Ev) as Hlen. fold cols in Hlen.
  destruct (rows_loop_spec fs bt records (Z.to_nat i) (Z.to_nat n) 0 sql _ q w _ _ xs Hp Hr1 Hq)
    as (sql' & q' & w1 & E3 & Hr3 & (Hq3 & Hp3 & Hdb & Hd3 & _)).
  { by rewrite Nat.add_0_r. }
  { unfold params_ok. rewrite add_params_params. cbn [aquery_empty a_params app]. rewrite Hlen. lia. }
  { fold cols. simpl. lia. }
  { rewrite Ht. unfold fits. lia. }
  rewrite Ht in Hr3.
  exists sql, q, sql', q', w1, (set_db res.2 w1). split; [done|]. split; [done|].
  split. { unfold batch_rows. cbn [Z.of_nat Z.mul] in E3. by rewrite (bind_Ret _ _ _ _ _ E3). }
  split.
  { unfold driver_exec. rewrite Hd3, Hd. run. rewrite drv_exec_eq. run.
    assert (Hnn : no_nul text = true).
    { rewrite <- Ht, Hrows. apply (insert_text_no_nul (Z.to_nat n)). }
    run_with (cstr_spec sql' text w1 Hr3 Hnn). rewrite (drv_exec_spec b text q' w1 _ _ Hq3 Hp3);
      [by rewrite add_params_params, Hdb|by rewrite Hdb|by rewrite add_params_params, Hdb]. }
  assert (Hq4 : q_repr q' (set_db res.2 w1) (w_heap w) (add_params xs aquery_empty))
    by (destruct Hq3; by constructor).
  exists (set_heap (w_heap w) (set_db res.2 w1)).
  destruct (free_keeps _ _ _ _ Hq4 Hp3). split; [by eapply query_free_spec|by split_and!].
Qed.

Lemma create_loop_spec records count bs : forall fuel i total stmts w,
  0 < bs -> 0 <= i -> count + bs < 2 ^ 31 -> count - i <= Z.of_nat fuel ->
  plenty w -> heap_wf w -> usable b (w_db w) ->
  mapM (insert_stmt (w_heap w) bt m fs records) (chunks fuel count bs i) = Some stmts ->
  inserts_carried b stmts (w_db w) ->
  let '(e, n, d) := run_inserts b stmts (w_db w) total in
  exists w', create_loop fuel b m fs records count bs i total w = Ret (e, n) w' /\
    w_heap w' = w_heap w /\ w_db w' = d.
Proof.
  induction fuel as [|fuel IH]; intros i total stmts w Hbs Hi Hc Hf Hp Hwf Hu Hs Hcar;
    cbn [chunks create_loop] in *; destruct (Z.leb_spec count i); try lia;
    try (injection Hs as <-; cbn [run_inserts]; by exists w).
  set (n := Z.min bs (count - i)) in *. cbn [mapM mbind option_bind] in Hs.
  destruct (insert_stmt (w_heap w) bt m fs records (i, n)) as [[[n' text] xs]|] eqn:E1; [|done].
  assert (n' = n) as ->.
  { unfold insert_stmt in E1. destruct (insert_vals _ _ _ _ _); [|done]. cbn [mbind option_bind] in E1.
    destruct (_ && _); [by injection E1 as <- _ _|done]. }
  cbn [mbind option_bind] in Hs.
  destruct (mapM _ (chunks fuel count bs (i + bs))) as [stmts'|] eqn:E2; [|done]. injection Hs as <-.
  apply Forall_cons in Hcar as [Hcar1 Hcar]. pose proof (drv_exec_usable text xs (w_db w) Hu Hcar1) as Hu1.
  assert (Hcar2 : (sql_exec b text xs (w_db w)).1 = CORM_OK ->
    inserts_carried b stmts' (sql_exec b text xs (w_db w)).2).
  { intros He. eapply Forall_impl; [exact Hcar|]. intros s. by apply drv_exec_carries. }
  destruct (chunk_spec records i n text xs w Hp Hwf E1) as
    (sql & q & sql' & q' & w1 & w2 & Eh & En & Er & Ed & w3 & Ef & Hh3 & Hp3 & Hwf3 & Hd3); [lia|lia|done|done|].
  rewrite wrap_i32_id by (unfold in_i32; lia). cbn [run_inserts].
  assert (Ecur : (if count <? i + bs then count - i else bs) = n).
  { unfold n. destruct (Z.ltb_spec count (i + bs)); lia. }
  rewrite Ecur, (bind_Ret _ _ _ _ _ Eh), (bind_Ret _ _ _ _ _ En), (bind_Ret _ _ _ _ _ Er).
  rewrite (bind_Ret _ _ _ _ _ Ed), (bind_Ret _ _ _ _ _ Ef).
  destruct (sql_exec b text xs (w_db w)) as [e d]. cbn [fst snd] in *.
  destruct (decide (e = CORM_OK)) as [->|]; [|by exists w3]. subst d. rewrite <- Hh3 in E2 |- *.
  apply (IH (i + bs) (total + n) stmts' w3); (done || lia || auto).
Qed.
End create.
