(* ===== verification/BatchProps.v ===== *)
(** * Properties of the batch operations *)

From S2P Require Import Prelude Types Mem Strbuf Dialect Model Backend Query Builder BuilderSpec.
From S2P Require Import QuerySpec QueryRefine Sample QueryProps Tx Driver Result Exec Batch ExecSpec.
From S2P Require Import ExecProps BatchSpec InsertSpec.

Section properties.
Context {S : Type} (b : backend S) (m : model S) (fs : list field) (Hm : model_ok m fs).
Context `{!Usable b} `{!SqlDriver b} {K : Type} `{!Transactional (K := K) b}.
Implicit Types w : world S.

(** C25: on a transactional driver that can start a transaction, and with
    statements that do not end it themselves, [corm_update_batch] executes one UPDATE per
    record, by primary key and with the values of all other fields, in the order
    of the records and up to the first error; it reports that error and the
    number of affected rows and leaves memory as it was.  A batch that fails
    leaves the database as it was; a batch that succeeds leaves what the
    statements left, if the commit succeeds (its error is not reported). *)
Theorem update_batch_atomic pk records count stmts w w1 :
  first_flag CORM_FLAG_PRIMARY fs = Some pk -> 0 < count -> plenty w -> heap_wf w ->
  (forall r, accepts (m_before_update m) (Some r)) ->
  (forall r, accepts (m_after_update m) (Some r)) ->
  mapM (fun k => update_stmt m fs (be_type b) (w_heap w) pk (rec_at records k))
    (seq 0 (Z.to_nat count)) = Some stmts ->
  stays_open b stmts -> carried b stmts (w_db w1) -> usable b (w_db w) ->
  tx_free b (w_db w) -> corm_begin (Some b) w = Ret CORM_OK w1 ->
  let '(e, n, d) := run_stmts b stmts (w_db w1) 0 in
  exists w', corm_update_batch (Some b) (Some m) (Some records) count w = Ret (e, Some n) w' /\
    w_heap w' = w_heap w /\
    (e <> CORM_OK -> content b (w_db w') = content b (w_db w)) /\
    (e = CORM_OK -> exists ce w2, w_db w2 = d /\ corm_commit (Some b) w2 = Ret ce w' /\
       (ce = CORM_OK -> content b (w_db w') = content b d)).
Proof.
  intros Hpk Hc Hp Hwf Hb1 Hb2 Hs Hk Hcar Hu Hfr E. unfold corm_update_batch.
  destruct (Z.leb_spec count 0); [lia|]. rewrite (mo_fields _ _ Hm), bind_deref_Some, Hpk.
  apply (batch_atomic b _ records count stmts w w1 Hk Hcar E Hp Hwf Hu Hfr).
  apply mapM_Some in Hs. eapply Forall2_impl; [exact Hs|]. intros k stmt Hst.
  by apply (update_one_spec b m fs Hm); [eapply first_flag_elem|..].
Qed.

(** The same for [corm_delete_batch]: one DELETE per record - or, for a
    model with a soft-delete field, one UPDATE that sets it - by primary key. *)
Theorem delete_batch_atomic pk records count stmts w w1 :
  first_flag CORM_FLAG_PRIMARY fs = Some pk -> 0 < count -> plenty w -> heap_wf w ->
  (forall r, accepts (delete_before m fs) (Some r)) ->
  (forall r, accepts (delete_after m fs) (Some r)) ->
  mapM (fun k => delete_stmt m fs (be_type b) (w_heap w) pk
                   (first_flag CORM_FLAG_SOFT_DELETE fs) (rec_at records k))
    (seq 0 (Z.to_nat count)) = Some stmts ->
  stays_open b stmts -> carried b stmts (w_db w1) -> usable b (w_db w) ->
  tx_free b (w_db w) -> corm_begin (Some b) w = Ret CORM_OK w1 ->
  let '(e, n, d) := run_stmts b stmts (w_db w1) 0 in
  exists w', corm_delete_batch (Some b) (Some m) (Some records) count w = Ret (e, Some n) w' /\
    w_heap w' = w_heap w /\
    (e <> CORM_OK -> content b (w_db w') = content b (w_db w)) /\
    (e = CORM_OK -> exists ce w2, w_db w2 = d /\ corm_commit (Some b) w2 = Ret ce w' /\
       (ce = CORM_OK -> content b (w_db w') = content b d)).
Proof.
  intros Hpk Hc Hp Hwf Hb1 Hb2 Hs Hk Hcar Hu Hfr E. unfold corm_delete_batch.
  destruct (Z.leb_spec count 0); [lia|]. rewrite (mo_fields _ _ Hm), bind_deref_Some, Hpk.
  apply (batch_atomic b _ records count stmts w w1 Hk Hcar E Hp Hwf Hu Hfr).
  apply mapM_Some in Hs. eapply Forall2_impl; [exact Hs|]. intros k stmt Hst.
  by apply (delete_one_spec b m fs Hm); [eapply first_flag_elem|..].
Qed.
End properties.

Section inserts.
Context {S : Type} (b : backend S) (m : model S) (fs : list field) (Hm : model_ok m fs).
Context `{!Usable b} `{!SqlDriver b}.

(** C27: [corm_create_batch] cuts the records into consecutive groups of at most
    [batch_size] (100 by default), each record in exactly one, and executes one
    multi-row INSERT per group, with one placeholder and one value per field
    that is not auto-incremented, up to the first error; it reports that error
    and the number of records inserted before it, and leaves memory as it was.
    (There is no transaction: the groups inserted before an error stay.) *)
Theorem create_batch_inserts records count batch_size stmts (w : world S) :
  let bs := if batch_size <=? 0 then 100 else batch_size in
  let groups := chunks (Z.to_nat count) count bs 0 in
  0 < count -> count + bs < 2 ^ 31 -> insert_cols fs <> [] -> plenty w -> heap_wf w ->
  mapM (insert_stmt (w_heap w) (be_type b) m fs records) groups = Some stmts ->
  usable b (w_db w) -> inserts_carried b stmts (w_db w) ->
  concat (map chunk_range groups) = seq 0 (Z.to_nat count) /\
  Forall (fun g => 0 < snd g <= bs) groups /\
  let '(e, n, d) := run_inserts b stmts (w_db w) 0 in
  exists w', corm_create_batch (Some b) (Some m) (Some records) count batch_size w =
      Ret (e, Some n) w' /\ w_heap w' = w_heap w /\ w_db w' = d.
Proof.
  intros bs groups Hc Hb Hcols Hp Hwf Hs Hu Hcar.
  assert (Hbs : 0 < bs) by (unfold bs; destruct (Z.leb_spec batch_size 0); lia).
  destruct (chunks_cover (Z.to_nat count) count bs 0) as [H1 H2]; [done|lia|lia|].
  rewrite Z.sub_0_r in H1. split; [done|]. split; [done|].
  pose proof (create_loop_spec b m fs Hm records count bs (Z.to_nat count) 0 0 stmts w) as H.
  destruct (run_inserts b stmts (w_db w) 0) as [[e n] d].
  destruct H as (w' & E & H); [done|lia|done|lia|done..|].
  exists w'. split; [|done]. unfold corm_create_batch.
  destruct (Z.leb_spec count 0); [lia|]. rewrite (mo_fields _ _ Hm), bind_deref_Some. fold bs.
  unfold insert_cols, fields_without in Hcols. destruct (filter _ fs) as [|f fs'] eqn:Ef; [done|].
  cbn [length Nat.leb]. by rewrite (bind_Ret _ _ _ _ _ E).
Qed.
End inserts.

(** ** The properties at concrete inputs *)

(** The second of two updates fails. *)
Definition failing_world : world journal := users_world [CORM_OK; CORM_ERR_DUP].

Definition failing_begun : world journal :=
  set_db (Journal [] (Some []) [CORM_OK; CORM_ERR_DUP]) failing_world.

Definition sqlite_journal : backend journal := journal_backend CORM_BACKEND_SQLITE.

Lemma journal_open stmts : stays_open sqlite_journal stmts.
Proof. apply Forall_true. intros s d _ _. apply journal_keeps. Defined.

Lemma journal_carries stmts d : carried sqlite_journal stmts d.
Proof. by apply Forall_true. Defined.

Definition update_stmts : list (string * list sqlval) :=
  default [] (mapM (fun k => update_stmt (@user_model journal) user_fields CORM_BACKEND_SQLITE
    (w_heap failing_world) field_id (rec_at (1%positive, O) k)) (seq 0 2)).

Lemma update_batch_atomic_witness :
  exists w', corm_update_batch (Some sqlite_journal) (Some user_model) (Some (1%positive, O)) 2
      failing_world = Ret (CORM_ERR_DUP, Some 1) w' /\
    w_heap w' = w_heap failing_world /\
    (CORM_ERR_DUP <> CORM_OK -> content sqlite_journal (w_db w') = []) /\
    (CORM_ERR_DUP = CORM_OK -> exists ce w2,
       w_db w2 = (run_stmts sqlite_journal update_stmts (w_db failing_begun) 0).2 /\
       corm_commit (Some sqlite_journal) w2 = Ret ce w' /\
       (ce = CORM_OK -> content sqlite_journal (w_db w') =
          content sqlite_journal (run_stmts sqlite_journal update_stmts (w_db failing_begun) 0).2)).
Proof.
  refine (update_batch_atomic sqlite_journal user_model user_fields user_model_ok
    field_id (1%positive, O) 2 update_stmts failing_world failing_begun _ _ _ _ _ _ _
    (journal_open _) (journal_carries _ _) I I _).
  - reflexivity.
  - lia.
  - reflexivity.
  - apply users_world_wf.
  - intros r w. reflexivity.
  - intros r w. reflexivity.
  - vm_compute. reflexivity.
  - reflexivity.
Defined.

Definition delete_stmts : list (string * list sqlval) :=
  default [] (mapM (fun k => delete_stmt (@note_model journal) note_fields CORM_BACKEND_SQLITE
    (w_heap (users_world [])) field_id (Some field_deleted) (rec_at (1%positive, O) k)) (seq 0 2)).

Lemma delete_batch_atomic_witness :
  exists w', corm_delete_batch (Some sqlite_journal) (Some note_model) (Some (1%positive, O)) 2
      (users_world []) = Ret (CORM_OK, Some 2) w' /\
    w_heap w' = w_heap (users_world []) /\
    (CORM_OK <> CORM_OK -> content sqlite_journal (w_db w') = []) /\
    (CORM_OK = CORM_OK -> exists ce w2,
       w_db w2 = Journal delete_stmts (Some []) [] /\
       corm_commit (Some sqlite_journal) w2 = Ret ce w' /\
       (ce = CORM_OK -> content sqlite_journal (w_db w') = delete_stmts)).
Proof.
  refine (delete_batch_atomic sqlite_journal note_model note_fields note_model_ok
    field_id (1%positive, O) 2 delete_stmts (users_world [])
    (set_db (Journal [] (Some []) []) (users_world [])) _ _ _ _ _ _ _
    (journal_open _) (journal_carries _ _) I I _).
  - reflexivity.
  - lia.
  - reflexivity.
  - apply users_world_wf.
  - intros r w. reflexivity.
  - intros r w. reflexivity.
  - vm_compute. reflexivity.
  - reflexivity.
Defined.

(** Two records in groups of one; the second INSERT fails. *)
Definition insert_stmts : list (Z * string * list sqlval) :=
  default [] (mapM (insert_stmt (w_heap failing_world) CORM_BACKEND_SQLITE (@user_model journal)
    user_fields (1%positive, O)) [(0, 1); (1, 1)]).

Lemma create_batch_inserts_witness :
  concat (map chunk_range [(0, 1); (1, 1)]) = seq 0 2 /\
  Forall (fun g => 0 < snd g <= 1) [(0, 1); (1, 1)] /\
  exists w', corm_create_batch (Some sqlite_journal) (Some user_model) (Some (1%positive, O)) 2 1
      failing_world = Ret (CORM_ERR_DUP, Some 1) w' /\ w_heap w' = w_heap failing_world /\
    w_db w' = (run_inserts sqlite_journal insert_stmts (w_db failing_world) 0).2.
Proof.
  refine (create_batch_inserts sqlite_journal user_model user_fields user_model_ok
    (1%positive, O) 2 1 insert_stmts failing_world _ _ _ _ _ _ I _).
  - lia.
  - simpl. lia.
  - discriminate.
  - reflexivity.
  - apply users_world_wf.
  - vm_compute. reflexivity.
  - by apply Forall_true.
Defined.

(** The statements of the sample batches. *)
Example insert_text_two_rows :
  insert_text CORM_BACKEND_POSTGRES "users" user_fields 2 =
  "INSERT INTO " +:+ dquote +:+ "users" +:+ dquote +:+ " (" +:+ dquote +:+ "name" +:+ dquote +:+
  ", " +:+ dquote +:+ "age" +:+ dquote +:+ ") VALUES ($1, $2), ($3, $4)".
Proof. vm_compute. reflexivity. Qed.

Example update_stmts_text : update_stmts =
  [("UPDATE " +:+ dquote +:+ "users" +:+ dquote +:+ " SET " +:+ dquote +:+ "name" +:+ dquote +:+
      " = ?, " +:+ dquote +:+ "age" +:+ dquote +:+ " = ? WHERE id = ?",
    [SText "ann"; SInt 30; SInt 0]);
   ("UPDATE " +:+ dquote +:+ "users" +:+ dquote +:+ " SET " +:+ dquote +:+ "name" +:+ dquote +:+
      " = ?, " +:+ dquote +:+ "age" +:+ dquote +:+ " = ? WHERE id = ?",
    [SText "bob"; SInt 41; SInt 7])].
Proof. vm_compute. reflexivity. Qed.

(** On PostgreSQL the key's placeholder is numbered from [$1] again: the row
    that is updated is the one whose id equals the first assigned value. *)
Example update_batch_postgres :
  update_stmt (@user_model journal) user_fields CORM_BACKEND_POSTGRES (w_heap failing_world)
    field_id (1%positive, 1%nat) =
  Some ("UPDATE " +:+ dquote +:+ "users" +:+ dquote +:+ " SET " +:+ dquote +:+ "name" +:+ dquote +:+
      " = $1, " +:+ dquote +:+ "age" +:+ dquote +:+ " = $2 WHERE id = $1",
    [SText "bob"; SInt 41; SInt 7]).
Proof. vm_compute. reflexivity. Qed.
