(* ===== verification/Core.v ===== *)
(** * The connection object ([src/corm.c], [struct corm])

    Opening and closing, the DSN, isolation levels and savepoints, raw
    execution with error reporting and logging.  The state behind the
    connection ([w_db]) is here the process as far as these functions see it:
    the [struct corm], what the logger was called with, and the monotonic clock.
    The transaction functions of the same file are in [Tx.v]. *)

From S2P Require Import Prelude Types Mem Dialect Hash Model Backend Tx.

(** ** State *)

Record corm (D C X : Type) : Type := Corm {
  c_conn : option D;                    (* the driver's handle *)
  c_config : corm_config;
  c_registry : registry X;
  c_last_err : corm_err;
  c_err_msg : string;
  c_err_sql : string;
  c_last_insert_id_val : Z;
  c_rows_affected_val : Z;
  c_logger : option positive;           (* the function with its user data *)
  c_stmt_cache : option C;
  c_created_at_ms : Z
}.
Arguments Corm {D C X}.
Arguments c_conn {D C X}.
Arguments c_config {D C X}.
Arguments c_registry {D C X}.
Arguments c_last_err {D C X}.
Arguments c_err_msg {D C X}.
Arguments c_err_sql {D C X}.
Arguments c_last_insert_id_val {D C X}.
Arguments c_rows_affected_val {D C X}.
Arguments c_logger {D C X}.
Arguments c_stmt_cache {D C X}.
Arguments c_created_at_ms {D C X}.

(** A call of the logger. *)
Record log_entry : Type := LogEntry {
  le_logger : positive;
  le_level : corm_log_level;
  le_sql : string;
  le_elapsed_us : Z
}.

(** [p_time k] is the [k]-th reading of CLOCK_MONOTONIC (seconds, nanoseconds);
    [p_env] is everything else a driver may use. *)
Record proc (D C X E : Type) : Type := Proc {
  p_db : option (corm D C X);
  p_log : list log_entry;
  p_time : nat -> Z * Z;
  p_reads : nat;
  p_env : E
}.
Arguments Proc {D C X E}.
Arguments p_db {D C X E}.
Arguments p_log {D C X E}.
Arguments p_time {D C X E}.
Arguments p_reads {D C X E}.
Arguments p_env {D C X E}.

(** ** Texts *)

(** What [vsnprintf] leaves in a buffer of [size] bytes, with the marker the
    setters put over its end when the text does not fit. *)
Definition shorten (size : nat) (s : string) : string :=
  if slen s <? Z.of_nat size then s else str_take (size - 4) s +:+ "...".

(** [strncmp(s, prefix, strlen(prefix)) == 0]. *)
Definition starts_with (prefix s : string) : bool :=
  String.eqb (str_take (String.length prefix) s) prefix.

Definition corm_dsn_parse (dsn : option string) (out_type out_body : bool) :
    corm_err * option (corm_backend_type * string) :=
  match dsn with
  | Some d =>
      if negb (out_type && out_body) then (CORM_ERR_NULL, None)
      else
        (CORM_OK, Some
          (if starts_with "sqlite3://" d then (CORM_BACKEND_SQLITE, str_drop 10 d)
           else if starts_with "sqlite://" d then (CORM_BACKEND_SQLITE, str_drop 9 d)
           else if starts_with "mysql://" d then (CORM_BACKEND_MYSQL, str_drop 8 d)
           else if starts_with "postgres://" d then (CORM_BACKEND_POSTGRES, str_drop 11 d)
           else if starts_with "postgresql://" d then (CORM_BACKEND_POSTGRES, str_drop 13 d)
           else (CORM_BACKEND_SQLITE, d)))
  | None => (CORM_ERR_NULL, None)
  end.

(** [level] is the integer value of the enumeration. *)
Definition isolation_level_sql (level : Z) : option string :=
  if level =? 0 then Some "READ UNCOMMITTED"
  else if level =? 1 then Some "READ COMMITTED"
  else if level =? 2 then Some "REPEATABLE READ"
  else if level =? 3 then Some "SERIALIZABLE"
  else None.

Definition savepoint_char (c : ascii) : bool :=
  is_alnum c || Ascii.eqb c "_" || Ascii.eqb c "-".

Definition is_valid_savepoint_name (name : option string) : bool :=
  match name with
  | None | Some EmptyString => false
  | Some s => str_forallb savepoint_char s
  end.

(** [code] is the integer value of a [corm_err_t]. *)
Definition corm_err_string (code : Z) : string :=
  if code =? 0 then "OK"
  else if code =? -1 then "Generic error"
  else if code =? -2 then "Out of memory"
  else if code =? -3 then "Not found"
  else if code =? -4 then "Duplicate entry"
  else if code =? -5 then "Backend error"
  else if code =? -6 then "Type mismatch"
  else if code =? -7 then "Null pointer"
  else if code =? -8 then "Out of bounds"
  else if code =? -9 then "Mismatch"
  else "Unknown error".

(** Microseconds between two clock readings, as the code computes them in
    [uint64_t]. *)
Definition elapsed_us (start finish : Z * Z) : Z :=
  wrap_u64 (wrap_u64 (wrap_u64 (fst finish - fst start) * 1000000) +
            wrap_u64 (snd finish - snd start) / 1000).

Definition clock_ms (t : Z * Z) : Z := wrap_i64 (fst t * 1000 + Z.quot (snd t) 1000000).

(** ** The statement cache, as the connection sees it *)
Class CacheApi (S C : Type) : Type := {
  cache_create : Z -> M S (corm_err * option C);
  cache_destroy : option C -> M S unit
}.

Section core.
Context {D C X E : Type}.
Let S : Type := proc D C X E.
Context `{!CacheApi S C}.
Implicit Types db : option (option (backend S)).

Definition zero_corm (config : corm_config) : corm D C X :=
  Corm None config registry_zero CORM_OK "" "" 0 0 None None 0.

(** *** Fields of the struct *)

Definition get_corm : M S (corm D C X) := s ← get_db; deref (p_db s).

Definition put_corm (c : option (corm D C X)) : M S unit :=
  s ← get_db; put_db (Proc c (p_log s) (p_time s) (p_reads s) (p_env s)).

Definition upd_corm (f : corm D C X -> corm D C X) : M S unit :=
  c ← get_corm; put_corm (Some (f c)).

Definition with_last_err e '(Corm cn cf rg _ em es li ra lg sc ct : corm D C X) : corm D C X :=
  Corm cn cf rg e em es li ra lg sc ct.
Definition with_err_msg em '(Corm cn cf rg e _ es li ra lg sc ct : corm D C X) : corm D C X :=
  Corm cn cf rg e em es li ra lg sc ct.
Definition with_err_sql es '(Corm cn cf rg e em _ li ra lg sc ct : corm D C X) : corm D C X :=
  Corm cn cf rg e em es li ra lg sc ct.
Definition with_registry rg '(Corm cn cf _ e em es li ra lg sc ct : corm D C X) : corm D C X :=
  Corm cn cf rg e em es li ra lg sc ct.
Definition with_logger lg '(Corm cn cf rg e em es li ra _ sc ct : corm D C X) : corm D C X :=
  Corm cn cf rg e em es li ra lg sc ct.
Definition with_cache sc '(Corm cn cf rg e em es li ra lg _ ct : corm D C X) : corm D C X :=
  Corm cn cf rg e em es li ra lg sc ct.
Definition with_created ct '(Corm cn cf rg e em es li ra lg sc _ : corm D C X) : corm D C X :=
  Corm cn cf rg e em es li ra lg sc ct.

Definition corm_set_err_msg (text : string) : M S unit :=
  upd_corm (with_err_msg (shorten 512 text)).
Definition corm_set_err_sql (sql : string) : M S unit :=
  upd_corm (with_err_sql (shorten 1024 sql)).

Definition clock_gettime : M S (Z * Z) :=
  s ← get_db;
  put_db (Proc (p_db s) (p_log s) (p_time s) (p_reads s + 1)%nat (p_env s));;
  mret (p_time s (p_reads s)).

(** *** Raw execution *)

(** What the three functions do once the driver has returned [err]. *)
Definition after_statement (sql : string) (start : Z * Z) (err : corm_err) : M S unit :=
  finish ← clock_gettime;
  upd_corm (with_last_err err);;
  (if is_err err then corm_set_err_sql sql else mret tt);;
  c ← get_corm;
  match c_logger c with
  | Some l =>
      let lvl := if is_err err then CORM_LOG_ERROR else CORM_LOG_INFO in
      s ← get_db;
      put_db (Proc (p_db s) (p_log s ++ [LogEntry l lvl sql (elapsed_us start finish)])
                (p_time s) (p_reads s) (p_env s))
  | None => mret tt
  end.

Definition corm_exec_params db (sql : string) (params : list corm_value) : M S corm_err :=
  match db with
  | Some (Some b) =>
      start ← clock_gettime;
      f ← deref (be_exec b);
      err ← f sql params;
      after_statement sql start err;;
      mret err
  | _ => mret CORM_ERR_NULL
  end.

Definition corm_exec db (sql : string) : M S corm_err :=
  match db with
  | Some (Some b) =>
      start ← clock_gettime;
      f ← deref (be_exec b);
      err ← f sql [];
      after_statement sql start err;;
      mret err
  | _ => mret CORM_ERR_NULL
  end.

Definition corm_raw db (sql : string) : M S (corm_err * option loc) :=
  match db with
  | Some (Some b) =>
      start ← clock_gettime;
      f ← deref (be_query b);
      '(err, out) ← f sql [];
      after_statement sql start err;;
      mret (err, out)
  | _ => mret (CORM_ERR_NULL, None)
  end.

Definition corm_set_logger db (logger : option positive) : M S unit :=
  match db with Some _ => upd_corm (with_logger logger) | None => mret tt end.

(** [buf], [bufsz]: the text left in the buffer ([None]: nothing is written to
    an empty buffer). *)
Definition corm_last_error db (buf : bool) (bufsz : nat) : M S (corm_err * option string) :=
  match db, buf with
  | Some _, true =>
      c ← get_corm;
      let msg := if String.eqb (c_err_msg c) "" then "no details" else c_err_msg c in
      let sql := if String.eqb (c_err_sql c) "" then "none" else c_err_sql c in
      text ← deref (c_format "%s: %s (SQL: %s)"
                      [FS (corm_err_string (err_code (c_last_err c))); FS msg; FS sql]);
      mret (c_last_err c, match bufsz with O => None | _ => Some (c_snprintf bufsz text) end)
  | _, _ => mret (CORM_ERR_NULL, None)
  end.

(** *** Isolation and savepoints *)

Definition corm_set_isolation db (level : Z) : M S corm_err :=
  match db with
  | Some (Some _) =>
      match isolation_level_sql level with
      | None =>
          text ← deref (c_format "Invalid isolation level: %d" [FD level]);
          corm_set_err_msg text;; mret CORM_ERR_NULL
      | Some sql =>
          buf ← deref (c_format "SET TRANSACTION ISOLATION LEVEL %s" [FS sql]);
          corm_exec db (c_snprintf 256 buf)
      end
  | _ => mret CORM_ERR_NULL
  end.

(** The three savepoint functions, [fmt] being the format of the statement. *)
Definition savepoint_statement (fmt : string) db (name : option string) : M S corm_err :=
  match db, name with
  | Some _, Some n =>
      if negb (is_valid_savepoint_name name) then
        text ← deref (c_format "Invalid savepoint name: '%s'" [FS n]);
        corm_set_err_msg text;; mret CORM_ERR_NULL
      else
        sql ← deref (c_format fmt [FS n]);
        corm_exec db (c_snprintf 256 sql)
  | _, _ => mret CORM_ERR_NULL
  end.

Definition corm_savepoint := savepoint_statement "SAVEPOINT %s".
Definition corm_rollback_to := savepoint_statement "ROLLBACK TO SAVEPOINT %s".
Definition corm_release_savepoint := savepoint_statement "RELEASE SAVEPOINT %s".

(** *** Opening and closing *)

(** [stmt_cache_size > 0 ? stmt_cache_size : 64]. *)
Definition cache_size (config : corm_config) : Z :=
  if 0 <? stmt_cache_size config then stmt_cache_size config else 64.

Definition backend_label (t : corm_backend_type) : string :=
  match t with
  | CORM_BACKEND_MYSQL => "mysql"
  | CORM_BACKEND_POSTGRES => "postgres"
  | CORM_BACKEND_SQLITE => "sqlite3"
  end.

(** [free(db)] after the registry was freed: the struct is gone. *)
Definition abandon (err : corm_err) : M S (corm_err * option (backend S)) :=
  put_corm None;; mret (err, None).

(** Returns the backend the new object uses with the error; the object is the
    [p_db] of the state.  [g] is the table of the registered drivers. *)
Definition corm_open_with_config (g : list (backend S)) (dsn : option string)
    (config : corm_config) (out : bool) : M S (corm_err * option (backend S)) :=
  match dsn, out with
  | Some _, true =>
      ok ← malloc_ok;
      if negb (ok : bool) then mret (CORM_ERR_NOMEM, None)
      else
        put_corm (Some (zero_corm config));;
        '(err, reg) ← corm_model_registry_init registry_zero;
        upd_corm (with_registry reg);;
        if is_err err then abandon err
        else
          '(_, sc) ← cache_create (cache_size config);
          upd_corm (with_cache sc);;
          match corm_dsn_parse dsn true true with
          | (_, Some (backend_type, dsn_body)) =>
              match corm_get_backend g backend_type with
              | None =>
                  text ← deref (c_format "Backend '%s' not found" [FS (backend_label backend_type)]);
                  corm_set_err_msg text;;
                  abandon CORM_ERR_NOTFOUND
              | Some b =>
                  match be_open b with
                  | None => abandon CORM_ERR_BACKEND
                  | Some f =>
                      err ← f dsn_body;
                      if is_err err then abandon err
                      else
                        ts ← clock_gettime;
                        upd_corm (with_created (clock_ms ts));;
                        mret (CORM_OK, Some b)
                  end
              end
          | (err, None) => abandon err
          end
  | _, _ => mret (CORM_ERR_NULL, None)
  end.

Definition corm_open (g : list (backend S)) (dsn : option string) (out : bool) :
    M S (corm_err * option (backend S)) :=
  corm_open_with_config g dsn CORM_DEFAULT_CONFIG out.

Definition corm_close db : M S corm_err :=
  match db with
  | None => mret CORM_ERR_NULL
  | Some b =>
      c ← get_corm;
      cache_destroy (c_stmt_cache c);;
      c ← get_corm;
      match b, c_conn c with
      | Some b, Some _ => f ← deref (be_close b); f;; mret tt
      | _, _ => mret tt
      end;;
      upd_corm (with_cache None);;
      upd_corm (fun c => with_registry (corm_model_registry_free (c_registry c)) c);;
      put_corm None;;
      mret CORM_OK
  end.

(** *** Initialisation: the three drivers register themselves in turn *)

Fixpoint register_all (g : list (backend S)) (bs : list (backend S)) :
    corm_err * list (backend S) :=
  match bs with
  | [] => (CORM_OK, g)
  | b :: bs' =>
      let '(err, g') := corm_register_backend g (be_type b) b in
      if is_err err then (err, g') else register_all g' bs'
  end.

Definition corm_init (sqlite3 mysql postgres : backend S) (g : list (backend S)) :
    corm_err * list (backend S) :=
  register_all g [sqlite3; mysql; postgres].
End core.
