(* ===== verification/CoreProps.v ===== *)
(** * Properties of the connection object *)

From S2P Require Import Prelude Types Mem Dialect Hash Model Backend Tx Core.

(** ** Texts *)

Definition schemes : list (string * corm_backend_type) :=
  [("sqlite3://", CORM_BACKEND_SQLITE); ("sqlite://", CORM_BACKEND_SQLITE);
   ("mysql://", CORM_BACKEND_MYSQL); ("postgres://", CORM_BACKEND_POSTGRES);
   ("postgresql://", CORM_BACKEND_POSTGRES)].

Lemma starts_with_inv p s : starts_with p s = true -> s = p +:+ str_drop (String.length p) s.
Proof. unfold starts_with. intros E%String.eqb_eq. by rewrite <- E at 1; rewrite str_take_drop. Qed.

Lemma str_take_app p s : str_take (String.length p) (p +:+ s) = p.
Proof. induction p as [|c p IH]; simpl; [by destruct s|by rewrite IH]. Qed.

Lemma str_take_forallb p n s : str_forallb p s = true -> str_forallb p (str_take n s) = true.
Proof.
  revert n. induction s as [|c s IH]; intros [|n]; simpl; try done.
  intros [Hc Hs]%andb_prop. by rewrite Hc, IH.
Qed.

Lemma str_take_prefix p n s :
  (String.length p <= n)%nat -> str_take n (p +:+ s) = p +:+ str_take (n - String.length p) s.
Proof.
  revert n. induction p as [|c p IH]; intros n H; simpl in *; [by rewrite Nat.sub_0_r|].
  destruct n as [|n]; [lia|]. simpl. by rewrite IH by lia.
Qed.

Lemma shorten_spec size s :
  (4 <= size)%nat ->
  slen (shorten size s) < Z.of_nat size /\
  (slen s < Z.of_nat size -> shorten size s = s) /\
  exists rest, s = str_take (size - 4) s +:+ rest.
Proof.
  intros Hs. unfold shorten, slen. split; [|split].
  - destruct (Z.ltb_spec (Z.of_nat (String.length s)) (Z.of_nat size)); [lia|].
    rewrite str_length_app, str_take_length. simpl. lia.
  - intros H. by destruct (Z.ltb_spec (Z.of_nat (String.length s)) (Z.of_nat size)); [|lia].
  - exists (str_drop (size - 4) s). by rewrite str_take_drop.
Qed.

(** ** Effects *)

Section effects.
Context {D C X E : Type}.
#[local] Abbreviation S := (proc D C X E).
Implicit Types (w : world S) (c : corm D C X).

Lemma get_corm_ok w c : p_db (w_db w) = Some c -> get_corm w = Ret c w.
Proof.
  intros H. unfold get_corm, get_db, mbind, M_bind. cbn. by rewrite H.
Qed.

(** [w] with the struct replaced. *)
Definition set_corm (co : option (corm D C X)) w : world S :=
  set_db (Proc co (p_log (w_db w)) (p_time (w_db w)) (p_reads (w_db w)) (p_env (w_db w))) w.

Lemma put_corm_ok w co : put_corm co w = Ret tt (set_corm co w).
Proof. done. Qed.

Lemma upd_corm_ok w c f : p_db (w_db w) = Some c -> upd_corm f w = Ret tt (set_corm (Some (f c)) w).
Proof. intros H. unfold upd_corm. by rewrite (bind_Ret _ _ _ _ _ (get_corm_ok w c H)). Qed.

(** [w] after one more reading of the clock. *)
Definition tick w : world S :=
  set_db (Proc (p_db (w_db w)) (p_log (w_db w)) (p_time (w_db w)) (p_reads (w_db w) + 1)%nat
            (p_env (w_db w))) w.

Lemma clock_ok w : clock_gettime w = Ret (p_time (w_db w) (p_reads (w_db w))) (tick w).
Proof. done. Qed.

(** The struct and the log after a statement that ended with [err]. *)
Definition reported (sql : string) (err : corm_err) c : corm D C X :=
  let c := with_last_err err c in
  if is_err err then with_err_sql (shorten 1024 sql) c else c.

Definition log_of (sql : string) (start finish : Z * Z) (err : corm_err) c : list log_entry :=
  match c_logger c with
  | Some l => [LogEntry l (if is_err err then CORM_LOG_ERROR else CORM_LOG_INFO) sql
                 (elapsed_us start finish)]
  | None => []
  end.

Lemma after_statement_spec sql start err w c :
  p_db (w_db w) = Some c ->
  after_statement sql start err w =
    Ret tt (set_db (Proc (Some (reported sql err c))
      (p_log (w_db w) ++ log_of sql start (p_time (w_db w) (p_reads (w_db w))) err c)
      (p_time (w_db w)) (p_reads (w_db w) + 1)%nat (p_env (w_db w))) w).
Proof.
  destruct w as [o h n [db lg tm rd env]], c. cbn. intros ->.
  unfold after_statement, reported, log_of, corm_set_err_sql, upd_corm, put_corm, get_corm,
    clock_gettime, get_db, put_db, mbind, M_bind, mret, M_ret. cbn.
  destruct (is_err err), c_logger as [l|]; cbn; by rewrite ?app_nil_r.
Qed.
(** The registry of a new connection. *)
Definition fresh_registry : registry X :=
  Registry (Hash (replicate 32 []) 32 0) (Hash (replicate 32 []) 32 0).

Lemma registry_init_spec (reg : registry X) w :
  plenty w -> corm_model_registry_init reg w = Ret (CORM_OK, fresh_registry) w.
Proof.
  intros Hp. destruct w as [o h n d]. cbv [plenty w_oracle] in Hp. subst o.
  unfold corm_model_registry_init, corm_hash_init, malloc_ok, mbind, M_bind. cbn. done.
Qed.
End effects.

(** ** The properties *)

(** [corm_dsn_parse] splits a DSN into a scheme of the table and the rest:
    every scheme selects its backend and loses nothing of the body, and any
    other text is the path of a SQLite database as it stands. *)
Theorem dsn_parse_correct :
  (forall p t body, (p, t) ∈ schemes ->
     corm_dsn_parse (Some (p +:+ body)) true true = (CORM_OK, Some (t, body))) /\
  forall d, exists p t body,
    corm_dsn_parse (Some d) true true = (CORM_OK, Some (t, body)) /\ d = p +:+ body /\
    ((p, t) ∈ schemes \/
     (p = "" /\ t = CORM_BACKEND_SQLITE /\ Forall (fun s => starts_with (fst s) d = false) schemes)).
Proof.
  split.
  - intros p t body H. unfold schemes in H.
    rewrite !elem_of_cons in H. unfold corm_dsn_parse, starts_with.
    destruct H as [H|[H|[H|[H|[H|H]]]]]; [..|by apply not_elem_of_nil in H];
      injection H as -> ->; cbn; by destruct body.
  - intros d. unfold corm_dsn_parse. cbn [andb negb].
    destruct (starts_with "sqlite3://" d) eqn:E1.
    { eexists "sqlite3://", _, _. split; [done|]. split; [by apply starts_with_inv|]. left. constructor. }
    destruct (starts_with "sqlite://" d) eqn:E2.
    { eexists "sqlite://", _, _. split; [done|]. split; [by apply starts_with_inv|]. left. by repeat constructor. }
    destruct (starts_with "mysql://" d) eqn:E3.
    { eexists "mysql://", _, _. split; [done|]. split; [by apply starts_with_inv|]. left. by repeat constructor. }
    destruct (starts_with "postgres://" d) eqn:E4.
    { eexists "postgres://", _, _. split; [done|]. split; [by apply starts_with_inv|]. left. by repeat constructor. }
    destruct (starts_with "postgresql://" d) eqn:E5.
    { eexists "postgresql://", _, _. split; [done|]. split; [by apply starts_with_inv|]. left. by repeat constructor. }
    exists "", CORM_BACKEND_SQLITE, d. split; [done|]. split; [done|]. right. split; [done|].
    split; [done|]. unfold schemes. by repeat constructor.
Qed.

(** The keyword of each savepoint function. *)
Definition savepoint_formats : list (string * string) :=
  [("SAVEPOINT %s", "SAVEPOINT "); ("ROLLBACK TO SAVEPOINT %s", "ROLLBACK TO SAVEPOINT ");
   ("RELEASE SAVEPOINT %s", "RELEASE SAVEPOINT ")].

(** The elapsed time that is logged is the time between the two readings
    exactly when the nanosecond part did not wrap around to the next second;
    otherwise it is wrong (by more than 580 000 years). *)
Theorem elapsed_exact s1 n1 s2 n2 :
  0 <= s1 <= s2 -> s2 < 2 ^ 40 -> 0 <= n1 < 1000000000 -> 0 <= n2 < 1000000000 ->
  let real := ((s2 - s1) * 1000000000 + (n2 - n1)) / 1000 in
  elapsed_us (s1, n1) (s2, n2) = real <-> n1 <= n2.
Proof.
  intros Hs Hs2 H1 H2 real. unfold elapsed_us, real. cbn [fst snd]. clear real.
  rewrite (wrap_u64_small (s2 - s1)) by lia.
  rewrite (wrap_u64_small ((s2 - s1) * 1000000)) by lia.
  assert (Hd : ((s2 - s1) * 1000000000 + (n2 - n1)) / 1000 = (s2 - s1) * 1000000 + (n2 - n1) / 1000).
  { replace ((s2 - s1) * 1000000000 + (n2 - n1)) with ((n2 - n1) + ((s2 - s1) * 1000000) * 1000) by lia.
    rewrite Z.div_add by lia. lia. }
  rewrite Hd. unfold wrap_u64. split.
  - intros H. destruct (Z.le_gt_cases n1 n2); [done|exfalso].
    rewrite <- (Z.mod_unique (n2 - n1) (2 ^ 64) (-1) (n2 - n1 + 2 ^ 64)) in H by lia.
    assert (Hq : 18446744072709551 <= (n2 - n1 + 2 ^ 64) / 1000 <= 18446744073709552).
    { split; [apply Z.div_le_lower_bound; lia|apply Z.div_le_upper_bound; lia]. }
    rewrite Z.mod_small in H by lia.
    assert ((n2 - n1) / 1000 < 0) by (apply Z.div_lt_upper_bound; lia). lia.
  - intros Hn. rewrite (Z.mod_small (n2 - n1)) by lia.
    assert (0 <= (n2 - n1) / 1000 <= 1000000).
    { split; [apply Z.div_pos; lia|apply Z.div_le_upper_bound; lia]. }
    by rewrite Z.mod_small by lia.
Qed.

(** The first driver of its type. *)
Lemma register_new {S} (g : list (backend S)) b :
  (length g < 8)%nat -> be_type b ∉ map be_type g ->
  corm_register_backend g (be_type b) b = (CORM_OK, g ++ [b]).
Proof.
  intros Hl Hn. unfold corm_register_backend, CORM_MAX_BACKENDS. rewrite decide_False by lia.
  by rewrite (proj2 (replace_backend_None g (be_type b) b) Hn).
Qed.

Section properties.
Context {D C X E : Type}.
#[local] Abbreviation S := (proc D C X E).
Implicit Types (w : world S) (c : corm D C X).

(** C29: a savepoint function sends its keyword followed by the name, cut at 255
    bytes, and what is sent of the name holds only letters, digits, [_] and [-]:
    no quote, space or semicolon can leave the name.  Any other name is refused
    with nothing sent. *)
Theorem savepoint_safe fmt kw (b : backend S) name w c :
  (fmt, kw) ∈ savepoint_formats -> p_db (w_db w) = Some c ->
  exists name', str_take 255 (kw +:+ name) = kw +:+ name' /\
    if is_valid_savepoint_name (Some name) then
      savepoint_statement fmt (Some (Some b)) (Some name) w =
        corm_exec (Some (Some b)) (kw +:+ name') w /\
      str_forallb savepoint_char name' = true /\
      (slen kw + slen name <= 255 -> name' = name)
    else
      exists text, savepoint_statement fmt (Some (Some b)) (Some name) w =
        Ret CORM_ERR_NULL (set_corm (Some (with_err_msg text c)) w).
Proof.
  intros Hf Hc.
  assert (Hk : (String.length kw <= 255)%nat /\ forall n, c_format fmt [FS n] = Some (kw +:+ n)).
  { unfold savepoint_formats in Hf. rewrite !elem_of_cons in Hf.
    destruct Hf as [H|[H|[H|H]]]; [..|by apply not_elem_of_nil in H]; injection H as -> ->;
      (split; [cbn; lia|]); intros n; cbn; by rewrite str_app_nil_r. }
  destruct Hk as [Hk Hfmt]. exists (str_take (255 - String.length kw) name).
  split; [by apply str_take_prefix|]. unfold savepoint_statement.
  destruct (is_valid_savepoint_name (Some name)) eqn:Ev; cbn [negb].
  - rewrite Hfmt, bind_deref_Some. unfold c_snprintf. cbn [Nat.sub].
    rewrite str_take_prefix by done. split; [done|]. split.
    + apply str_take_forallb. destruct name; [done|exact Ev].
    + unfold slen. intros. apply str_take_all. lia.
  - eexists. unfold corm_set_err_msg. run. by rewrite (bind_Ret _ _ _ _ _ (upd_corm_ok w c _ Hc)).
Qed.

(** C30: after [corm_exec] and [corm_exec_params] (here [params] is any list) the
    error of the driver is returned and recorded, the statement is recorded when
    it failed - whole, or shortened to fit its buffer -, and the logger, when
    there is one, was called exactly once, with the level that fits the result. *)
Theorem exec_reports (b : backend S) f sql params w w2 c err :
  be_exec b = Some f -> f sql params (tick w) = Ret err w2 -> p_db (w_db w2) = Some c ->
  exists w3 c', corm_exec_params (Some (Some b)) sql params w = Ret err w3 /\
    (params = [] -> corm_exec (Some (Some b)) sql w = Ret err w3) /\
    p_db (w_db w3) = Some c' /\ c_last_err c' = err /\ c_err_msg c' = c_err_msg c /\
    c_err_sql c' = (if decide (err = CORM_OK) then c_err_sql c else shorten 1024 sql) /\
    slen (shorten 1024 sql) < 1024 /\ (slen sql < 1024 -> shorten 1024 sql = sql) /\
    p_log (w_db w3) = p_log (w_db w2) ++
      match c_logger c with
      | Some l => [LogEntry l (if decide (err = CORM_OK) then CORM_LOG_INFO else CORM_LOG_ERROR) sql
                     (elapsed_us (p_time (w_db w) (p_reads (w_db w)))
                                 (p_time (w_db w2) (p_reads (w_db w2))))]
      | None => []
      end.
Proof.
  intros Hb Hf Hc.
  pose proof (after_statement_spec sql (p_time (w_db w) (p_reads (w_db w))) err w2 c Hc) as Ha.
  destruct (shorten_spec 1024 sql) as (Hs1 & Hs2 & _); [lia|].
  assert (He : is_err err = negb (bool_decide (err = CORM_OK))) by by destruct err.
  eexists _, (reported sql err c).
  assert (Hx : corm_exec_params (Some (Some b)) sql params w =
               (after_statement sql (p_time (w_db w) (p_reads (w_db w))) err;; mret err) w2).
  { unfold corm_exec_params. rewrite (bind_Ret _ _ _ _ _ (clock_ok w)), Hb, bind_deref_Some.
    by rewrite (bind_Ret _ _ _ _ _ Hf). }
  rewrite (bind_Ret _ _ _ _ _ Ha) in Hx. split; [exact Hx|]. split.
  { intros ->. exact Hx. }
  split; [done|]. unfold reported, log_of. cbn. rewrite He.
  case_decide as Hd; [rewrite bool_decide_true by done|rewrite bool_decide_false by done]; cbn;
    split_and!; try done; by destruct c.
Qed.

(** Opening up to the call of the driver. *)
Lemma open_steps `{!CacheApi S C} (g : list (backend S)) d config t body w w0 cerr sc :
  plenty w -> corm_dsn_parse (Some d) true true = (CORM_OK, Some (t, body)) ->
  cache_create (cache_size config) (set_corm (Some (with_registry fresh_registry (zero_corm config))) w) =
    Ret (cerr, sc) w0 ->
  p_db (w_db w0) = Some (with_registry fresh_registry (zero_corm config)) ->
  corm_open_with_config g (Some d) config true w =
    match corm_get_backend g t with
    | None =>
        text ← deref (c_format "Backend '%s' not found" [FS (backend_label t)]);
        corm_set_err_msg text;; abandon CORM_ERR_NOTFOUND
    | Some b =>
        match be_open b with
        | None => abandon CORM_ERR_BACKEND
        | Some f =>
            err ← f body;
            if is_err err then abandon err
            else ts ← clock_gettime; upd_corm (with_created (clock_ms ts));; mret (CORM_OK, Some b)
        end
    end (set_corm (Some (with_cache sc (with_registry fresh_registry (zero_corm config)))) w0).
Proof.
  intros Hp Hd Hcc Hdb.
  pose proof (registry_init_spec registry_zero (set_corm (Some (zero_corm config)) w) Hp) as Ereg.
  unfold corm_open_with_config. rewrite (bind_Ret _ _ _ _ _ (malloc_ok_plenty w Hp)). cbn [negb].
  rewrite (bind_Ret _ _ _ _ _ (put_corm_ok w _)), (bind_Ret _ _ _ _ _ Ereg).
  rewrite (bind_Ret _ _ _ _ _ (upd_corm_ok (set_corm (Some (zero_corm config)) w) _ _ eq_refl)).
  change (is_err CORM_OK) with false. cbv iota.
  rewrite (bind_Ret _ _ _ _ _ Hcc), (bind_Ret _ _ _ _ _ (upd_corm_ok _ _ _ Hdb)), Hd.
  destruct (corm_get_backend g t) as [b|]; [|done]. by destruct (be_open b).
Qed.

(** [corm_open_with_config], memory permitting, asks the driver registered
    for the scheme of the DSN to open exactly the rest of the DSN, on a new
    struct that holds the configuration, an empty model registry and a statement
    cache of the configured size (64 by default); on success the struct remains
    with its creation time, on any error it is gone and the error is the
    driver's, CORM_ERR_NOTFOUND without such a driver, CORM_ERR_BACKEND without
    an open function. *)
Theorem open_dispatch `{!CacheApi S C} (g : list (backend S)) d config t body w w0 cerr sc :
  plenty w -> corm_dsn_parse (Some d) true true = (CORM_OK, Some (t, body)) ->
  cache_create (cache_size config) (set_corm (Some (with_registry fresh_registry (zero_corm config))) w) =
    Ret (cerr, sc) w0 ->
  p_db (w_db w0) = Some (with_registry fresh_registry (zero_corm config)) ->
  let c0 := with_cache sc (with_registry fresh_registry (zero_corm config)) in
  match corm_get_backend g t with
  | None => exists w', corm_open_with_config g (Some d) config true w =
      Ret (CORM_ERR_NOTFOUND, None) w' /\ p_db (w_db w') = None
  | Some b =>
      match be_open b with
      | None => exists w', corm_open_with_config g (Some d) config true w =
          Ret (CORM_ERR_BACKEND, None) w' /\ p_db (w_db w') = None
      | Some f => forall e w1 c1,
          f body (set_corm (Some c0) w0) = Ret e w1 -> p_db (w_db w1) = Some c1 ->
          exists w', corm_open_with_config g (Some d) config true w =
            Ret (e, if decide (e = CORM_OK) then Some b else None) w' /\
            p_db (w_db w') = if decide (e = CORM_OK)
              then Some (with_created (clock_ms (p_time (w_db w1) (p_reads (w_db w1)))) c1)
              else None
      end
  end.
Proof.
  intros Hp Hd Hcc Hdb c0. rewrite (open_steps g d config t body w w0 cerr sc Hp Hd Hcc Hdb). fold c0.
  destruct (corm_get_backend g t) as [b|]; [|by eexists].
  destruct (be_open b) as [f|]; [|by eexists]. intros e w1 c1 Hf Hc1.
  rewrite (bind_Ret _ _ _ _ _ Hf). case_decide as He.
  - subst e. change (is_err CORM_OK) with false. cbv iota.
    rewrite (bind_Ret _ _ _ _ _ (clock_ok w1)).
    rewrite (bind_Ret _ _ _ _ _ (upd_corm_ok (tick w1) c1 _ Hc1)). by eexists.
  - assert (is_err e = true) as -> by by destruct e. by eexists.
Qed.

(** After [corm_init] every DSN finds the driver of its scheme. *)
Theorem init_resolves_all (sqlite3 mysql postgres : backend S) d :
  be_type sqlite3 = CORM_BACKEND_SQLITE -> be_type mysql = CORM_BACKEND_MYSQL ->
  be_type postgres = CORM_BACKEND_POSTGRES ->
  let '(err, g) := corm_init sqlite3 mysql postgres [] in
  err = CORM_OK /\
  exists t body, corm_dsn_parse (Some d) true true = (CORM_OK, Some (t, body)) /\
  corm_get_backend g t = Some (match t with
                               | CORM_BACKEND_SQLITE => sqlite3
                               | CORM_BACKEND_MYSQL => mysql
                               | CORM_BACKEND_POSTGRES => postgres
                               end).
Proof.
  intros H1 H2 H3. unfold corm_init. cbn [register_all].
  rewrite register_new by (cbn; (lia || apply not_elem_of_nil)). cbn [is_err err_code Z.eqb negb app].
  rewrite register_new; [|cbn; lia|cbn; rewrite H1, H2; by intros ?%list_elem_of_singleton].
  cbn [is_err err_code Z.eqb negb app].
  rewrite register_new; [|cbn; lia|cbn; rewrite H1, H2, H3].
  2: { rewrite !elem_of_cons. by intros [?|[?|?%not_elem_of_nil]]. }
  cbn [is_err err_code Z.eqb negb app]. split; [done|].
  destruct (corm_dsn_parse (Some d) true true) as [e [[t body]|]] eqn:Ed; [|done].
  injection Ed as <- _. exists t, body. split; [done|].
  cbn. rewrite H1, H2, H3. by destruct t.
Qed.
End properties.

(** ** Witnesses *)

(** A process whose drivers only count the statement caches in use. *)
Definition sample_state : Type := proc unit Z unit nat.

#[local] Instance counting_cache : CacheApi sample_state Z := {
  cache_create n := (s ← get_db;
    put_db (Proc (p_db s) (p_log s) (p_time s) (p_reads s) (1 + p_env s)%nat);; mret (CORM_OK, Some n));
  cache_destroy _ := (s ← get_db;
    put_db (Proc (p_db s) (p_log s) (p_time s) (p_reads s) (p_env s - 1)%nat))
}.

(** Refuses DROP and cannot open anything but [:memory:]. *)
Definition sample_driver (t : corm_backend_type) : backend sample_state :=
  Backend "sample" t
    (Some (fun body => mret (if String.eqb body ":memory:" then CORM_OK else CORM_ERR_BACKEND)))
    None None
    (Some (fun sql _ => mret (if starts_with "DROP" sql then CORM_ERR_BACKEND else CORM_OK)))
    None None None None None None None None.

Definition sample_clock (k : nat) : Z * Z := (5, 1000000 * Z.of_nat k).

Definition sample_world (c : option (corm unit Z unit)) : world sample_state :=
  World [] ∅ 1%positive (Proc c [] sample_clock 0%nat 0%nat).

Definition sample_corm : corm unit Z unit :=
  with_logger (Some 7%positive) (zero_corm CORM_DEFAULT_CONFIG).

Definition three_drivers : list (backend sample_state) :=
  snd (corm_init (sample_driver CORM_BACKEND_SQLITE) (sample_driver CORM_BACKEND_MYSQL)
         (sample_driver CORM_BACKEND_POSTGRES) []).

Lemma savepoint_safe_witness :
  exists name', str_take 255 ("SAVEPOINT " +:+ "step_1") = "SAVEPOINT " +:+ name' /\
    savepoint_statement "SAVEPOINT %s" (Some (Some (sample_driver CORM_BACKEND_SQLITE)))
      (Some "step_1") (sample_world (Some sample_corm)) =
    corm_exec (Some (Some (sample_driver CORM_BACKEND_SQLITE))) ("SAVEPOINT " +:+ name')
      (sample_world (Some sample_corm)).
Proof.
  destruct (savepoint_safe "SAVEPOINT %s" "SAVEPOINT " (sample_driver CORM_BACKEND_SQLITE) "step_1"
    (sample_world (Some sample_corm)) sample_corm (list_elem_of_here _ _) eq_refl)
    as (name' & Hn & Hs & _ & _).
  by exists name'.
Defined.

Lemma elapsed_exact_witness :
  elapsed_us (5, 100) (7, 3100) = 2000003 <-> 100 <= 3100.
Proof. apply (elapsed_exact 5 100 7 3100); lia. Defined.

(** 200 microseconds across a change of the second. *)
Example elapsed_across_a_second :
  elapsed_us (5, 999900000) (6, 100000) = 18446744073709751.
Proof. by vm_compute. Qed.

Lemma exec_reports_witness :
  exists w3 c', corm_exec_params (Some (Some (sample_driver CORM_BACKEND_SQLITE))) "DROP TABLE t" []
      (sample_world (Some sample_corm)) = Ret CORM_ERR_BACKEND w3 /\
    p_db (w_db w3) = Some c' /\ c_last_err c' = CORM_ERR_BACKEND /\ c_err_sql c' = "DROP TABLE t" /\
    p_log (w_db w3) = [LogEntry 7 CORM_LOG_ERROR "DROP TABLE t" 1000].
Proof.
  refine (match exec_reports (sample_driver CORM_BACKEND_SQLITE) _ "DROP TABLE t" []
            (sample_world (Some sample_corm)) _ sample_corm CORM_ERR_BACKEND
            eq_refl eq_refl eq_refl with
          | ex_intro _ w3 (ex_intro _ c' H) => _ end).
  destruct H as (H1 & _ & H2 & H3 & _ & H4 & _ & _ & H5). exists w3, c'.
  split; [exact H1|]. split; [exact H2|]. split; [exact H3|]. split; [exact H4|]. exact H5.
Defined.

Lemma open_dispatch_witness :
  exists w', corm_open_with_config three_drivers (Some "sqlite3://:memory:") CORM_DEFAULT_CONFIG true
      (sample_world None) = Ret (CORM_OK, Some (sample_driver CORM_BACKEND_SQLITE)) w' /\
    option_map c_created_at_ms (p_db (w_db w')) = Some 5000.
Proof.
  pose proof (open_dispatch three_drivers "sqlite3://:memory:" CORM_DEFAULT_CONFIG
    CORM_BACKEND_SQLITE ":memory:" (sample_world None) _ CORM_OK (Some 64)
    eq_refl eq_refl eq_refl eq_refl CORM_OK _ _ eq_refl eq_refl) as (w' & H1 & H2).
  exists w'. split; [exact H1|]. by rewrite H2.
Defined.

(** A connection that cannot be opened is freed, its statement cache is not. *)
Example failed_open_leaks_cache :
  match corm_open three_drivers (Some "sqlite3:///no/such/dir") true (sample_world None) with
  | Ret (e, h) w' => e = CORM_ERR_BACKEND /\ h = None /\ p_db (w_db w') = None /\ p_env (w_db w') = 1%nat
  | _ => False
  end.
Proof. by vm_compute. Qed.

Lemma init_resolves_all_witness :
  corm_get_backend three_drivers CORM_BACKEND_POSTGRES = Some (sample_driver CORM_BACKEND_POSTGRES).
Proof.
  destruct (init_resolves_all (sample_driver CORM_BACKEND_SQLITE) (sample_driver CORM_BACKEND_MYSQL)
    (sample_driver CORM_BACKEND_POSTGRES) "postgres://localhost/db" eq_refl eq_refl eq_refl)
    as (_ & t & body & Ht & Hb).
  injection Ht as <- _. exact Hb.
Defined.
