(* ===== verification/StmtCache.v ===== *)
(** * The prepared-statement cache ([src/internal/stmt_cache.c])

    The doubly linked list is modelled pointer by pointer: the entries live in
    a heap of nodes of their own (no pointer to an entry leaves the file), the
    cache holds the [head] and [tail] pointers.  Every public operation is one
    critical section of [cache->lock].  The statements are opaque handles of
    type [T]; the destructor is an arbitrary effect.

    The specification is a list of (sql, statement) pairs in LRU order. *)

From S2P Require Import Prelude Types Mem.

Record entry (T : Type) : Type := Entry {
  e_sql : string;
  e_stmt : T;
  e_prev : option loc;
  e_next : option loc
}.
Arguments Entry {T}.
Arguments e_sql {T}.
Arguments e_stmt {T}.
Arguments e_prev {T}.
Arguments e_next {T}.

Record cache (S T : Type) : Type := Cache {
  c_capacity : Z;
  c_size : Z;
  c_head : option loc;
  c_tail : option loc;
  c_destroy_fn : option (T -> M S unit);
  c_nodes : gmap loc (entry T);
  c_fresh : loc
}.
Arguments Cache {S T}.
Arguments c_capacity {S T}.
Arguments c_size {S T}.
Arguments c_head {S T}.
Arguments c_tail {S T}.
Arguments c_destroy_fn {S T}.
Arguments c_nodes {S T}.
Arguments c_fresh {S T}.

Section cache.
Context {S T : Type}.
Implicit Types (c : cache S T) (e : entry T).

Definition set_c_size n '(Cache cap _ h t f ns fr) : cache S T := Cache cap n h t f ns fr.
Definition set_c_head h '(Cache cap n _ t f ns fr) : cache S T := Cache cap n h t f ns fr.
Definition set_c_tail t '(Cache cap n h _ f ns fr) : cache S T := Cache cap n h t f ns fr.
Definition set_c_destroy (f : option (T -> M S unit)) '(Cache cap n h t _ ns fr : cache S T) : cache S T := Cache cap n h t f ns fr.
Definition set_c_nodes ns '(Cache cap n h t f _ fr) : cache S T := Cache cap n h t f ns fr.
Definition set_e_prev p '(Entry k v _ n) : entry T := Entry k v p n.
Definition set_e_next n '(Entry k v p _) : entry T := Entry k v p n.

(** [p->next = n] and [p->prev = n]. *)
Definition set_next (p : loc) (n : option loc) c : M S (cache S T) :=
  e ← deref (c_nodes c !! p); mret (set_c_nodes (<[p := set_e_next n e]> (c_nodes c)) c).
Definition set_prev (p : loc) (n : option loc) c : M S (cache S T) :=
  e ← deref (c_nodes c !! p); mret (set_c_nodes (<[p := set_e_prev n e]> (c_nodes c)) c).

(** [if (p) p->next = n], [if (p) p->prev = n]. *)
Definition set_next_if (p n : option loc) c : M S (cache S T) :=
  match p with Some p => set_next p n c | None => mret c end.
Definition set_prev_if (p n : option loc) c : M S (cache S T) :=
  match p with Some p => set_prev p n c | None => mret c end.

Definition eq_ptr (p q : option loc) : bool := bool_decide (p = q).

(** [free(p->sql); free(p)]. *)
Definition free_entry (p : loc) c : M S (cache S T) :=
  _ ← deref (c_nodes c !! p); mret (set_c_nodes (delete p (c_nodes c)) c).

Definition corm_stmt_cache_create (capacity : Z) (out_cache : bool) :
    M S (corm_err * option (cache S T)) :=
  if negb out_cache || (capacity =? 0) then mret (CORM_ERR_NULL, None)
  else
    ok ← malloc_ok;
    if (ok : bool) then mret (CORM_OK, Some (Cache capacity 0 None None None ∅ 1%positive))
    else mret (CORM_ERR_NOMEM, None).

(** [while (curr) { if (strcmp(curr->sql, sql) == 0) ...; curr = curr->next; }]:
    the entry the loop stops at. *)
Fixpoint find_entry (fuel : nat) c (curr : option loc) (sql : string) : M S (option loc) :=
  match curr with
  | None => mret None
  | Some p =>
      match fuel with
      | O => stuck
      | Datatypes.S fuel =>
          e ← deref (c_nodes c !! p);
          if String.eqb (e_sql e) sql then mret (Some p)
          else find_entry fuel c (e_next e) sql
      end
  end.

(** The walk visits every entry at most once. *)
Definition walk_fuel c : nat := size (c_nodes c).

Definition move_to_head (curr : loc) c : M S (cache S T) :=
  e ← deref (c_nodes c !! curr);
  c ← set_next_if (e_prev e) (e_next e) c;
  c ← set_prev_if (e_next e) (e_prev e) c;
  let c := if eq_ptr (Some curr) (c_tail c) then set_c_tail (e_prev e) c else c in
  c ← set_next curr (c_head c) c;
  c ← set_prev curr None c;
  c ← set_prev_if (c_head c) (Some curr) c;
  mret (set_c_head (Some curr) c).

Definition corm_stmt_cache_get_unlocked c (sql : string) : M S (option T * cache S T) :=
  found ← find_entry (walk_fuel c) c (c_head c) sql;
  match found with
  | None => mret (None, c)
  | Some curr =>
      c ← (if eq_ptr (Some curr) (c_head c) then mret c else move_to_head curr c);
      e ← deref (c_nodes c !! curr);
      mret (Some (e_stmt e), c)
  end.

Definition corm_stmt_cache_get (co : option (cache S T)) (sql : option string) :
    M S (option T * option (cache S T)) :=
  match co, sql with
  | Some c, Some sql =>
      '(res, c) ← corm_stmt_cache_get_unlocked c sql; mret (res, Some c)
  | _, _ => mret (None, co)
  end.

(** [if (cache->entry_destroy_fn && e->stmt) cache->entry_destroy_fn(e->stmt)];
    a cached statement is never NULL. *)
Definition destroy_stmt c (stmt : T) : M S unit :=
  match c_destroy_fn c with Some f => f stmt | None => mret tt end.

Definition evict_tail (evict : loc) c : M S (cache S T) :=
  e ← deref (c_nodes c !! evict);
  c ← set_next_if (e_prev e) None c;
  let c := set_c_tail (e_prev e) c in
  let c := if eq_ptr (c_head c) (Some evict) then set_c_head None c else c in
  destroy_stmt c (e_stmt e);;
  c ← free_entry evict c;
  mret (set_c_size (wrap_u64 (c_size c - 1)) c).

Definition link_new (sql : string) (stmt : T) c : M S (cache S T) :=
  let p := c_fresh c in
  let c := Cache (c_capacity c) (c_size c) (c_head c) (c_tail c) (c_destroy_fn c)
             (<[p := Entry sql stmt None (c_head c)]> (c_nodes c)) (Pos.succ p) in
  c ← set_prev_if (c_head c) (Some p) c;
  let c := set_c_head (Some p) c in
  let c := match c_tail c with None => set_c_tail (Some p) c | Some _ => c end in
  mret (set_c_size (wrap_u64 (c_size c + 1)) c).

Definition corm_stmt_cache_put (co : option (cache S T)) (sql : option string)
    (stmt : option T) : M S (corm_err * option (cache S T)) :=
  match co, sql, stmt with
  | Some c, Some sql, Some stmt =>
      '(existing, c) ← corm_stmt_cache_get_unlocked c sql;
      match existing with
      | Some _ => mret (CORM_OK, Some c)
      | None =>
          c ← match c_tail c with
              | Some evict => if c_capacity c <=? c_size c then evict_tail evict c else mret c
              | None => mret c
              end;
          entry_ok ← malloc_ok;
          if negb entry_ok then mret (CORM_ERR_NOMEM, Some c)
          else
            sql_ok ← malloc_ok;
            if negb sql_ok then mret (CORM_ERR_NOMEM, Some c)
            else c ← link_new sql stmt c; mret (CORM_OK, Some c)
      end
  | _, _, _ => mret (CORM_ERR_NULL, co)
  end.

Definition corm_stmt_cache_set_destroy_fn (co : option (cache S T))
    (fn : option (T -> M S unit)) : option (cache S T) :=
  set_c_destroy fn <$> co.

Definition corm_stmt_cache_remove (co : option (cache S T)) (sql : option string) :
    M S (option T * option (cache S T)) :=
  match co, sql with
  | Some c, Some sql =>
      found ← find_entry (walk_fuel c) c (c_head c) sql;
      match found with
      | None => mret (None, Some c)
      | Some curr =>
          e ← deref (c_nodes c !! curr);
          c ← set_next_if (e_prev e) (e_next e) c;
          c ← set_prev_if (e_next e) (e_prev e) c;
          let c := if eq_ptr (Some curr) (c_head c) then set_c_head (e_next e) c else c in
          let c := if eq_ptr (Some curr) (c_tail c) then set_c_tail (e_prev e) c else c in
          c ← free_entry curr c;
          mret (Some (e_stmt e), Some (set_c_size (wrap_u64 (c_size c - 1)) c))
      end
  | _, _ => mret (None, co)
  end.

(** The loop of [corm_stmt_cache_destroy]; the result holds what is left of
    the entries. *)
Fixpoint destroy_loop (fuel : nat) (curr : option loc) c : M S (cache S T) :=
  match curr with
  | None => mret c
  | Some p =>
      match fuel with
      | O => stuck
      | Datatypes.S fuel =>
          e ← deref (c_nodes c !! p);
          destroy_stmt c (e_stmt e);;
          c ← free_entry p c;
          destroy_loop fuel (e_next e) c
      end
  end.

(** Returns the entries that are never freed (for the statement that there
    are none). *)
Definition corm_stmt_cache_destroy (co : option (cache S T)) : M S (gmap loc (entry T)) :=
  match co with
  | None => mret ∅
  | Some c => c ← destroy_loop (walk_fuel c) (c_head c) c; mret (c_nodes c)
  end.
End cache.

(** ** The specification: an LRU list *)

Section lru.
Context {T : Type}.
Implicit Types l : list (string * T).

Definition keys l : list string := map fst l.

Fixpoint assoc (k : string) l : option T :=
  match l with
  | [] => None
  | (k', t) :: l' => if String.eqb k' k then Some t else assoc k l'
  end.

(** [l] without the entry of [k]. *)
Fixpoint without (k : string) l : list (string * T) :=
  match l with
  | [] => []
  | (k', t) :: l' => if String.eqb k' k then l' else (k', t) :: without k l'
  end.

(** A hit becomes the most recently used entry. *)
Definition touch (k : string) l : list (string * T) :=
  match assoc k l with Some t => (k, t) :: without k l | None => l end.

(** What is left when a new entry needs room: all but the least recently used. *)
Definition make_room (cap : Z) l : list (string * T) :=
  if cap <=? Z.of_nat (length l) then removelast l else l.

Definition evicted (cap : Z) l : option T :=
  if cap <=? Z.of_nat (length l) then snd <$> last l else None.

Definition lru_put (cap : Z) (k : string) (t : T) l : list (string * T) :=
  match assoc k l with
  | Some _ => touch k l
  | None => (k, t) :: make_room cap l
  end.
End lru.
