(* ===== verification/StmtCacheSpec.v ===== *)
(** * The statement cache implements an LRU list

    [dseg] describes a segment of the doubly linked list; [cache_repr c l]
    says that the cache [c] holds the pairs [l], most recently used first. *)

From S2P Require Import Prelude Types Mem StmtCache.

(** ** Segments of the list *)

Definition or_else (o d : option loc) : option loc :=
  match o with Some _ => o | None => d end.

Lemma head_app_or (a b : list loc) nxt :
  or_else (head (a ++ b)) nxt = or_else (head a) (or_else (head b) nxt).
Proof. by destruct a. Qed.

Lemma last_app_or (a b : list loc) prev :
  or_else (last (a ++ b)) prev = or_else (last b) (or_else (last a) prev).
Proof. rewrite last_app. by destruct (last b). Qed.

Lemma last_cons_or (p : loc) (a : list loc) : last (p :: a) = or_else (last a) (Some p).
Proof. rewrite last_cons. by destruct (last a). Qed.

Lemma or_else_None o : or_else o None = o.
Proof. by destruct o. Qed.

Section segments.
Context {T : Type}.
Implicit Types (ns : gmap loc (entry T)) (l : list (string * T)).

Fixpoint dseg ns (prev : option loc) (ls : list loc) l (nxt : option loc) : Prop :=
  match ls, l with
  | [], [] => True
  | p :: ls', (k, t) :: l' =>
      ns !! p = Some (Entry k t prev (or_else (head ls') nxt)) /\
      dseg ns (Some p) ls' l' nxt
  | _, _ => False
  end.

Lemma dseg_length ns prev ls l nxt : dseg ns prev ls l nxt -> length ls = length l.
Proof.
  revert prev l. induction ls as [|p ls IH]; intros prev [|[k t] l]; simpl; try done.
  intros [_ H]. by rewrite (IH _ _ H).
Qed.

Lemma dseg_app ns prev a b la lb nxt :
  length a = length la ->
  dseg ns prev (a ++ b) (la ++ lb) nxt <->
  dseg ns prev a la (or_else (head b) nxt) /\ dseg ns (or_else (last a) prev) b lb nxt.
Proof.
  revert prev la. induction a as [|p a IH]; intros prev [|[k t] la] Hl; try done; simpl.
  - tauto.
  - injection Hl as Hl. rewrite IH by done. rewrite head_app_or, (last_cons_or p a).
    assert (or_else (or_else (last a) (Some p)) prev = or_else (last a) (Some p)) as ->
      by by destruct (last a). tauto.
Qed.

Lemma dseg_frame ns ns' prev ls l nxt :
  (forall p, p ∈ ls -> ns' !! p = ns !! p) -> dseg ns prev ls l nxt -> dseg ns' prev ls l nxt.
Proof.
  revert prev l. induction ls as [|p ls IH]; intros prev [|[k t] l] Hf; simpl; try done.
  intros [Hp H]. split.
  - rewrite Hf; [done|apply list_elem_of_here].
  - apply IH; [|done]. intros q Hq. apply Hf. by apply list_elem_of_further.
Qed.

Lemma dseg_insert ns q e prev ls l nxt :
  q ∉ ls -> dseg ns prev ls l nxt -> dseg (<[q := e]> ns) prev ls l nxt.
Proof.
  intros Hq. apply dseg_frame. intros p Hp. apply lookup_insert_ne. by intros ->.
Qed.

Lemma dseg_delete ns q prev ls l nxt :
  q ∉ ls -> dseg ns prev ls l nxt -> dseg (delete q ns) prev ls l nxt.
Proof.
  intros Hq. apply dseg_frame. intros p Hp. apply lookup_delete_ne. by intros ->.
Qed.

(** The same nodes are live. *)
Definition same_dom ns ns' : Prop := forall q, is_Some (ns' !! q) <-> is_Some (ns !! q).

Lemma same_dom_refl ns : same_dom ns ns.
Proof. done. Qed.

Lemma same_dom_trans ns1 ns2 ns3 : same_dom ns1 ns2 -> same_dom ns2 ns3 -> same_dom ns1 ns3.
Proof. intros H1 H2 q. by rewrite (H2 q). Qed.

Lemma same_dom_insert ns p e e' : ns !! p = Some e -> same_dom ns (<[p := e']> ns).
Proof.
  intros Hp q. destruct (decide (q = p)) as [->|Hne].
  - rewrite lookup_insert_eq, Hp. by split; eexists.
  - by rewrite lookup_insert_ne.
Qed.
End segments.

Section pointer_writes.
Context {S T : Type}.
Implicit Types (c : cache S T) (w : world S) (l : list (string * T)).

Lemma nodes_set ns c : c_nodes (set_c_nodes ns c) = ns.
Proof. by destruct c. Qed.

Lemma set_nodes_twice ns ns' c : set_c_nodes ns' (set_c_nodes ns c) = set_c_nodes ns' c.
Proof. by destruct c. Qed.

Lemma set_nodes_id c : set_c_nodes (c_nodes c) c = c.
Proof. by destruct c. Qed.

(** [if (x) x->next = v] for the last node [x] of a segment. *)
Lemma set_next_last c prev a la nxt v w :
  dseg (c_nodes c) prev a la nxt -> NoDup a ->
  exists ns', set_next_if (last a) v c w = Ret (set_c_nodes ns' c) w /\
    dseg ns' prev a la v /\ (forall p, p ∉ a -> ns' !! p = c_nodes c !! p) /\
    same_dom (c_nodes c) ns'.
Proof.
  intros Hd Hn. destruct a as [|x a] using rev_ind.
  { exists (c_nodes c). simpl. rewrite set_nodes_id. split; [done|].
    split; [by destruct la|]. split; [done|apply same_dom_refl]. }
  clear IHa. rewrite last_snoc.
  assert (exists la' k t, la = la' ++ [(k, t)] /\ length a = length la') as (la' & k & t & -> & Hl).
  { pose proof (dseg_length _ _ _ _ _ Hd) as Hl. rewrite length_app in Hl. simpl in Hl.
    destruct la as [|[k t] la' _] using rev_ind; simpl in Hl; [lia|].
    rewrite length_app in Hl. simpl in Hl. exists la', k, t. split; [done|lia]. }
  apply dseg_app in Hd as [Ha Hx]; [|done]. simpl in Hx. destruct Hx as [Hx _].
  apply NoDup_app in Hn as (_ & Hxa & _).
  assert (Hni : x ∉ a) by (intros H; by apply (Hxa x H), list_elem_of_singleton).
  eexists. split; [|split; [|split]].
  - unfold set_next_if, set_next. rewrite Hx. run. done.
  - apply dseg_app; [done|]. split; [by apply dseg_insert|]. simpl.
    by rewrite lookup_insert_eq.
  - intros p Hp. apply lookup_insert_ne. intros ->. apply Hp, elem_of_app. right.
    by apply list_elem_of_singleton.
  - by eapply same_dom_insert.
Qed.

(** [if (x) x->prev = v] for the first node [x] of a segment. *)
Lemma set_prev_head c prev b lb nxt v w :
  dseg (c_nodes c) prev b lb nxt -> NoDup b ->
  exists ns', set_prev_if (head b) v c w = Ret (set_c_nodes ns' c) w /\
    dseg ns' v b lb nxt /\ (forall p, p ∉ b -> ns' !! p = c_nodes c !! p) /\
    same_dom (c_nodes c) ns'.
Proof.
  intros Hd Hn. destruct b as [|x b].
  { exists (c_nodes c). simpl. rewrite set_nodes_id. split; [done|].
    split; [by destruct lb|]. split; [done|apply same_dom_refl]. }
  destruct lb as [|[k t] lb]; [done|]. simpl in Hd |- *. destruct Hd as [Hx Hb].
  apply NoDup_cons in Hn as [Hni Hn]. eexists. split; [|split; [|split]].
  - unfold set_prev. rewrite Hx. run. done.
  - rewrite lookup_insert_eq. split; [done|]. by apply dseg_insert.
  - intros p Hp. apply lookup_insert_ne. intros ->. apply Hp, list_elem_of_here.
  - by eapply same_dom_insert.
Qed.

(** Taking the node [p] out of the list. *)
Lemma unlink_spec c a p b la k t lb w :
  dseg (c_nodes c) None (a ++ p :: b) (la ++ (k, t) :: lb) None ->
  length a = length la -> NoDup (a ++ p :: b) ->
  c_nodes c !! p = Some (Entry k t (last a) (head b)) /\
  exists ns1 ns2,
    set_next_if (last a) (head b) c w = Ret (set_c_nodes ns1 c) w /\
    set_prev_if (head b) (last a) (set_c_nodes ns1 c) w = Ret (set_c_nodes ns2 c) w /\
    ns2 !! p = c_nodes c !! p /\ dseg ns2 None (a ++ b) (la ++ lb) None /\
    same_dom (c_nodes c) ns2.
Proof.
  intros Hd Hl Hn. apply dseg_app in Hd as [Ha Hp]; [|done]. simpl in Hp.
  destruct Hp as [Hp Hb]. rewrite !or_else_None in Hp. split; [done|].
  apply NoDup_app in Hn as (Hna & Hab & Hn). apply NoDup_cons in Hn as [Hpb Hnb].
  assert (Hpa : p ∉ a) by (intros H; by apply (Hab p H), list_elem_of_here).
  assert (Hba : forall q, q ∈ b -> q ∉ a)
    by (intros q Hq H; by apply (Hab q H), list_elem_of_further).
  destruct (set_next_last c None a la _ (head b) w Ha Hna) as (ns1 & E1 & Ha1 & F1 & D1).
  assert (Hb1 : dseg (c_nodes (set_c_nodes ns1 c)) (Some p) b lb None).
  { rewrite nodes_set. eapply dseg_frame; [|exact Hb]. intros q Hq. apply F1. by apply Hba. }
  destruct (set_prev_head (set_c_nodes ns1 c) _ b lb None (last a) w Hb1 Hnb)
    as (ns2 & E2 & Hb2 & F2 & D2). rewrite nodes_set, ?set_nodes_twice in *.
  exists ns1, ns2. split; [done|]. split; [done|]. split; [by rewrite F2, F1|]. split.
  - apply dseg_app; [done|]. rewrite !or_else_None. split; [|done].
    eapply dseg_frame; [|exact Ha1]. intros q Hq. apply F2. intros H. by apply (Hba q H).
  - by eapply same_dom_trans.
Qed.
End pointer_writes.

(** ** LRU lists *)

Section lru_facts.
Context {T : Type}.
Implicit Types l : list (string * T).

Lemma assoc_None k l : assoc k l = None <-> k ∉ keys l.
Proof.
  induction l as [|[k' t] l IH]; simpl.
  - split; [intros _; apply not_elem_of_nil|done].
  - rewrite not_elem_of_cons. destruct (String.eqb_spec k' k) as [->|Hne].
    + split; [done|]. by intros [? _].
    + rewrite IH. split; [by split; [congruence|]|by intros [_ ?]].
Qed.

Lemma assoc_split k t l :
  assoc k l = Some t -> exists la lb, l = la ++ (k, t) :: lb /\ assoc k la = None.
Proof.
  induction l as [|[k' t'] l IH]; simpl; [done|].
  destruct (String.eqb_spec k' k) as [->|Hne].
  - intros [= ->]. by exists [], l.
  - intros H. destruct (IH H) as (la & lb & -> & Ha). exists ((k', t') :: la), lb.
    split; [done|]. simpl. by rewrite (proj2 (String.eqb_neq k' k) Hne).
Qed.

Lemma assoc_mid k t (la lb : list (string * T)) : assoc k la = None -> assoc k (la ++ (k, t) :: lb) = Some t.
Proof.
  induction la as [|[k' t'] la IH]; simpl; [by rewrite String.eqb_refl|].
  by destruct (String.eqb k' k).
Qed.

Lemma without_mid k t (la lb : list (string * T)) : assoc k la = None -> without k (la ++ (k, t) :: lb) = la ++ lb.
Proof.
  induction la as [|[k' t'] la IH]; simpl; [by rewrite String.eqb_refl|].
  destruct (String.eqb k' k); [done|]. intros H. by rewrite (IH H).
Qed.

Lemma touch_mid k t (la lb : list (string * T)) :
  assoc k la = None -> touch k (la ++ (k, t) :: lb) = (k, t) :: (la ++ lb).
Proof. intros H. unfold touch. by rewrite (assoc_mid _ _ _ _ H), without_mid. Qed.

Lemma without_None k l : assoc k l = None -> without k l = l.
Proof.
  induction l as [|[k' t'] l IH]; simpl; [done|].
  destruct (String.eqb k' k); [done|]. intros H. by rewrite (IH H).
Qed.

Lemma keys_app (l l' : list (string * T)) : keys (l ++ l') = keys l ++ keys l'.
Proof. apply map_app. Qed.
End lru_facts.

(** ** The representation *)

Section repr.
Context {S T : Type}.
Implicit Types (c : cache S T) (w : world S) (l : list (string * T)) (ls : list loc).

(** The nodes [ls] of the cache, in list order, hold [l]. *)
Record linked c ls l : Prop := {
  lk_seg : dseg (c_nodes c) None ls l None;
  lk_nodup : NoDup ls;
  lk_head : c_head c = head ls;
  lk_tail : c_tail c = last ls;
  lk_dom : forall p, is_Some (c_nodes c !! p) <-> p ∈ ls;
  lk_fresh : forall p, p ∈ ls -> (p < c_fresh c)%positive
}.

Record cache_repr c l : Prop := {
  cp_linked : exists ls, linked c ls l;
  cp_size : c_size c = Z.of_nat (length l);
  cp_keys : NoDup (keys l);
  cp_cap : 0 < c_capacity c < 2 ^ 64;
  cp_room : Z.of_nat (length l) <= c_capacity c
}.

Lemma linked_length c ls l : linked c ls l -> length ls = length l.
Proof. intros []. by eapply dseg_length. Qed.

Lemma linked_size c ls l : linked c ls l -> size (c_nodes c) = length ls.
Proof.
  intros [_ Hn _ _ Hd _]. rewrite <- size_dom, <- (size_list_to_set (C := gset loc) ls Hn).
  f_equal. apply set_eq. intros p. rewrite elem_of_dom, elem_of_list_to_set. apply Hd.
Qed.

(** The walk stops at the first entry with the key. *)
Lemma find_entry_spec fuel c prev ls l k w :
  dseg (c_nodes c) prev ls l None -> (length ls <= fuel)%nat ->
  (assoc k l = None /\ find_entry fuel c (head ls) k w = Ret None w) \/
  (exists a p b la t lb, ls = a ++ p :: b /\ l = la ++ (k, t) :: lb /\
     length a = length la /\ assoc k la = None /\
     find_entry fuel c (head ls) k w = Ret (Some p) w).
Proof.
  revert prev ls l. induction fuel as [|fuel IH]; intros prev ls l Hd Hf.
  - destruct ls; [|simpl in Hf; lia]. destruct l; [|done]. by left.
  - destruct ls as [|p ls]; destruct l as [|[k' t'] l]; try done; [by left|].
    simpl in Hd. destruct Hd as [Hp Hd]. simpl in Hf. rewrite or_else_None in Hp.
    simpl. rewrite Hp. run. destruct (String.eqb_spec k' k) as [->|Hne].
    + right. by exists [], p, ls, [], t', l.
    + destruct (IH (Some p) ls l Hd ltac:(lia))
        as [[Ha E]|(a & q & b & la & t & lb & -> & -> & Hl & Ha & E)]; [left; by rewrite E|].
      right. exists (p :: a), q, b, ((k', t') :: la), t, lb. simpl. rewrite E, Hl, Ha.
      by rewrite (proj2 (String.eqb_neq k' k) Hne).
Qed.

Lemma cache_find_spec c ls l k w :
  linked c ls l ->
  (assoc k l = None /\ find_entry (walk_fuel c) c (c_head c) k w = Ret None w) \/
  (exists a p b la t lb, ls = a ++ p :: b /\ l = la ++ (k, t) :: lb /\
     length a = length la /\ assoc k la = None /\
     find_entry (walk_fuel c) c (c_head c) k w = Ret (Some p) w).
Proof.
  intros H. rewrite (lk_head _ _ _ H). eapply find_entry_spec; [apply H|].
  unfold walk_fuel. by rewrite (linked_size _ _ _ H).
Qed.

Lemma last_unlink (a : list loc) p b :
  NoDup (a ++ p :: b) ->
  (if eq_ptr (Some p) (last (a ++ p :: b)) then last a else last (a ++ p :: b)) = last (a ++ b).
Proof.
  intros Hn. rewrite last_app_cons, last_cons_or, last_app.
  destruct (last b) as [q|] eqn:Eb; simpl.
  - unfold eq_ptr. rewrite bool_decide_false; [done|]. intros [= <-].
    apply NoDup_app in Hn as (_ & _ & Hn). apply NoDup_cons in Hn as [Hn _].
    apply Hn. apply last_Some in Eb as [b' ->]. apply elem_of_app. right.
    by apply list_elem_of_singleton.
  - unfold eq_ptr. by rewrite bool_decide_true.
Qed.

Lemma head_unlink (a : list loc) p b :
  NoDup (a ++ p :: b) ->
  (if eq_ptr (Some p) (head (a ++ p :: b)) then head b else head (a ++ p :: b)) = head (a ++ b).
Proof.
  intros Hn. unfold eq_ptr. destruct a as [|q a]; simpl.
  - by rewrite bool_decide_true.
  - rewrite bool_decide_false; [done|]. intros [= ->].
    apply NoDup_cons in Hn as [Hn _]. apply Hn, elem_of_app. right. apply list_elem_of_here.
Qed.

Lemma elem_mid {A} (a : list A) p b q : q ∈ (a ++ p :: b) <-> q = p \/ q ∈ (a ++ b).
Proof. rewrite !elem_of_app, elem_of_cons. tauto. Qed.

Lemma NoDup_mid {A} (a : list A) p b : NoDup (a ++ p :: b) <-> (p ∉ (a ++ b)) /\ NoDup (a ++ b).
Proof. rewrite <- Permutation_middle. apply NoDup_cons. Qed.
End repr.

(** ** The operations *)

Section operations.
Context {S T : Type}.
Implicit Types (c : cache S T) (w : world S) (l : list (string * T)) (ls : list loc).

Definition same_meta c c' : Prop :=
  c_size c' = c_size c /\ c_capacity c' = c_capacity c /\
  c_destroy_fn c' = c_destroy_fn c /\ c_fresh c' = c_fresh c.

(** Putting the unlinked node [p] in front of the list [rest]. *)
Lemma front_spec c p k t rest lr w e :
  dseg (c_nodes c) None rest lr None -> NoDup rest -> p ∉ rest ->
  c_nodes c !! p = Some e -> e_sql e = k -> e_stmt e = t -> c_head c = head rest ->
  exists ns1 ns2 ns3,
    set_next p (c_head c) c w = Ret (set_c_nodes ns1 c) w /\
    set_prev p None (set_c_nodes ns1 c) w = Ret (set_c_nodes ns2 c) w /\
    set_prev_if (c_head c) (Some p) (set_c_nodes ns2 c) w = Ret (set_c_nodes ns3 c) w /\
    dseg ns3 None (p :: rest) ((k, t) :: lr) None /\ same_dom (c_nodes c) ns3.
Proof.
  intros Hd Hn Hp He <- <- Hh. destruct e as [k t pv nx]. simpl.
  set (ns1 := <[p := Entry k t pv (head rest)]> (c_nodes c)).
  set (ns2 := <[p := Entry k t None (head rest)]> ns1).
  assert (Hd2 : dseg ns2 None rest lr None) by (by apply dseg_insert, dseg_insert).
  assert (E1 : ns1 !! p = Some (Entry k t pv (head rest))) by apply lookup_insert_eq.
  destruct (set_prev_head (set_c_nodes ns2 c) None rest lr None (Some p) w) as
    (ns3 & E3 & Hd3 & F3 & D3); [by rewrite nodes_set|done|].
  rewrite nodes_set, set_nodes_twice in *. exists ns1, ns2, ns3.
  split; [unfold set_next; rewrite He, Hh; run; done|].
  split; [unfold set_prev; rewrite nodes_set, E1; run; by rewrite set_nodes_twice|].
  split; [by rewrite Hh|]. split.
  - rewrite F3 by done. unfold ns2. rewrite lookup_insert_eq, or_else_None. done.
  - eapply same_dom_trans; [|exact D3].
    eapply same_dom_trans; [by eapply same_dom_insert|by eapply same_dom_insert].
Qed.

Lemma move_to_head_spec c a p b la k t lb w :
  linked c (a ++ p :: b) (la ++ (k, t) :: lb) -> length a = length la -> a <> [] ->
  exists c', move_to_head p c w = Ret c' w /\
    linked c' (p :: (a ++ b)) ((k, t) :: (la ++ lb)) /\ same_meta c c'.
Proof.
  intros [Hs Hn Hh Ht Hd Hf] Hl Ha.
  destruct (unlink_spec c a p b la k t lb w Hs Hl Hn) as (Hp & ns1 & ns2 & E1 & E2 & Hp2 & Hs2 & D2).
  pose proof (last_unlink a p b Hn) as Htl. apply NoDup_mid in Hn as Hn'.
  destruct Hn' as [Hni Hn'].
  unfold move_to_head. rewrite Hp. run. run_with E1. run_with E2.
  set (c2 := set_c_nodes ns2 c). assert (c_tail c2 = c_tail c) as -> by by destruct c.
  rewrite Ht. set (c3 := if eq_ptr _ _ then _ else c2).
  assert (Hc3 : c_nodes c3 = ns2 /\ c_head c3 = head (a ++ b) /\ c_tail c3 = last (a ++ b) /\
                same_meta c c3).
  { rewrite <- Htl. unfold c3, c2. destruct c as [cap sz hd tl f ns fr]. cbn in *. rewrite Ht, Hh.
    destruct (eq_ptr _ _); cbn; (split; [done|]); (split; [by destruct a|]); split; done. }
  destruct Hc3 as (Hn3 & Hh3 & Ht3 & Hm3).
  destruct (front_spec c3 p k t (a ++ b) (la ++ lb) w (Entry k t (last a) (head b)))
    as (ns4 & ns5 & ns6 & E4 & E5 & E6 & Hs6 & D6); rewrite ?Hn3; try done.
  { by rewrite Hp2. }
  run_with E4. run_with E5.
  assert (c_head (set_c_nodes ns5 c3) = c_head c3) as -> by by destruct c3.
  run_with E6. eexists. split; [done|]. rewrite Hn3 in D6.
  assert (Hne : a ++ b <> []) by (by destruct a).
  clearbody c3. destruct c3 as [cap sz hd tl f ns fr]. cbn in *. split; [|done].
  constructor; cbn; try done.
  - by apply NoDup_cons.
  - rewrite Ht3, last_cons_or. destruct (last (a ++ b)) eqn:E; [done|]. by apply last_None in E.
  - intros q. rewrite (D6 q), (D2 q), Hd, elem_mid, elem_of_cons. done.
  - destruct Hm3 as (_ & _ & _ & Hfr). cbn in Hfr. rewrite Hfr.
    intros q Hq. apply Hf. by rewrite elem_mid, <- elem_of_cons.
Qed.

(** The walk of [corm_stmt_cache_get_unlocked] and the move to the front. *)
Lemma get_unlocked_spec c ls l k w :
  linked c ls l ->
  exists c' ls', corm_stmt_cache_get_unlocked c k w = Ret (assoc k l, c') w /\
    linked c' ls' (touch k l) /\ same_meta c c'.
Proof.
  intros H. unfold corm_stmt_cache_get_unlocked.
  destruct (cache_find_spec c ls l k w H) as [[Ha E]|(a & p & b & la & t & lb & -> & -> & Hl & Ha & E)];
    run_with E.
  { exists c, ls. unfold touch. rewrite Ha. done. }
  rewrite (assoc_mid k t la lb Ha), (touch_mid k t la lb Ha), (lk_head _ _ _ H).
  destruct a as [|q a].
  - destruct la; [|done]. unfold eq_ptr. rewrite bool_decide_true by done. run.
    pose proof (lk_seg _ _ _ H) as Hs. simpl in Hs. destruct Hs as [Hp _]. rewrite Hp. run.
    by exists c, (p :: b).
  - assert (eq_ptr (Some p) (head ((q :: a) ++ p :: b)) = false) as ->.
    { unfold eq_ptr. apply bool_decide_false. intros [= ->].
      pose proof (lk_nodup _ _ _ H) as Hn. apply NoDup_cons in Hn as [Hn _].
      apply Hn, elem_of_app. right. apply list_elem_of_here. }
    destruct (move_to_head_spec c (q :: a) p b la k t lb w H Hl ltac:(done)) as (c' & E' & H' & Hm).
    run_with E'. pose proof (lk_seg _ _ _ H') as Hs. simpl in Hs. destruct Hs as [Hp _].
    rewrite Hp. run. by exists c', (p :: (q :: a) ++ b).
Qed.
End operations.

Section updates.
Context {S T : Type}.
Implicit Types (c : cache S T) (w : world S) (l : list (string * T)) (ls : list loc).

Lemma evict_spec c ls p l k t w w' :
  linked c (ls ++ [p]) (l ++ [(k, t)]) -> destroy_stmt c t w = Ret tt w' ->
  exists c', evict_tail p c w = Ret c' w' /\ linked c' ls l /\
    c_size c' = wrap_u64 (c_size c - 1) /\ c_capacity c' = c_capacity c /\
    c_destroy_fn c' = c_destroy_fn c.
Proof.
  intros H Hdes. pose proof (linked_length _ _ _ H) as Hl. rewrite !length_app in Hl. simpl in Hl.
  assert (length ls = length l) as Hl' by lia. clear Hl.
  destruct H as [Hs Hn Hh Ht Hd Hf]. apply dseg_app in Hs as [Ha Hp]; [|done].
  simpl in Hp. destruct Hp as [Hp _]. rewrite or_else_None in Hp.
  apply NoDup_app in Hn as (Hna & Hab & _).
  assert (Hpa : p ∉ ls) by (intros Hq; by apply (Hab p Hq), list_elem_of_here).
  destruct (set_next_last c None ls l _ None w Ha Hna) as (ns1 & E1 & Hs1 & F1 & D1).
  unfold evict_tail. rewrite Hp. run. run_with E1.
  set (c2 := set_c_tail (last ls) (set_c_nodes ns1 c)).
  set (c3 := if eq_ptr (c_head c2) (Some p) then set_c_head None c2 else c2).
  assert (Hc3 : c_nodes c3 = ns1 /\ c_head c3 = head ls /\ c_tail c3 = last ls /\ same_meta c c3).
  { unfold c3, c2, eq_ptr. destruct c as [cap sz hd tl f ns fr]. cbn in *. rewrite Hh.
    destruct ls as [|q ls]; simpl.
    - by rewrite bool_decide_true.
    - rewrite bool_decide_false; [done|]. intros [= ->]. apply Hpa, list_elem_of_here. }
  destruct Hc3 as (Hn3 & Hh3 & Ht3 & Hsz & Hcap & Hdf & Hfr).
  assert (Hdes3 : destroy_stmt c3 t w = Ret tt w') by (unfold destroy_stmt; by rewrite Hdf).
  run_with Hdes3. unfold free_entry. rewrite Hn3, F1, Hp by done. run.
  eexists. split; [done|]. clearbody c3. destruct c3 as [cap sz hd tl f ns fr]. cbn in *.
  split; [|by rewrite Hsz]. constructor; cbn; try done.
  - by apply dseg_delete.
  - intros q. destruct (decide (q = p)) as [->|Hne].
    + rewrite lookup_delete_eq. split; [by intros []|done].
    + rewrite lookup_delete_ne, (D1 q), Hd, elem_of_app, list_elem_of_singleton by done. tauto.
  - rewrite Hfr. intros q Hq. apply Hf, elem_of_app. by left.
Qed.

Lemma link_new_spec c ls l k t w :
  linked c ls l ->
  exists c', link_new k t c w = Ret c' w /\ linked c' (c_fresh c :: ls) ((k, t) :: l) /\
    c_size c' = wrap_u64 (c_size c + 1) /\ c_capacity c' = c_capacity c /\
    c_destroy_fn c' = c_destroy_fn c.
Proof.
  intros [Hs Hn Hh Ht Hd Hf]. unfold link_new. cbv zeta.
  set (p := c_fresh c) in *.
  assert (Hp : p ∉ ls) by (intros Hq; specialize (Hf p Hq); unfold p in Hf; lia).
  set (c1 := Cache _ _ _ _ _ _ _).
  assert (Hs1 : dseg (c_nodes c1) None ls l None) by (by apply dseg_insert).
  destruct (set_prev_head c1 None ls l None (Some p) w Hs1 Hn) as (ns2 & E2 & Hs2 & F2 & D2).
  change (c_head c1) with (c_head c). rewrite Hh. run_with E2. eexists. split; [done|].
  destruct c as [cap sz hd tl f ns fr]. cbn in *.
  assert (Hp2 : ns2 !! p = Some (Entry k t None (head ls))) by (rewrite F2 by done; rewrite Hh; apply lookup_insert_eq).
  assert (Hdom : forall q, is_Some (ns2 !! q) <-> q ∈ p :: ls).
  { intros q. rewrite (D2 q). cbn. rewrite elem_of_cons, <- Hd.
    destruct (decide (q = p)) as [->|Hne].
    - rewrite lookup_insert_eq. split; [by left|by eexists].
    - rewrite lookup_insert_ne by done. split; [by right|by intros [?|?]]. }
  rewrite Ht.
  split; [|by destruct (last ls)].
  constructor; destruct (last ls) eqn:El; cbn; rewrite ?or_else_None; try done;
    try (by apply NoDup_cons); rewrite ?last_cons, ?El; try done.
  all: intros q [->|Hq]%elem_of_cons; [cbn; lia|specialize (Hf q Hq); cbn in *; lia].
Qed.

(** The other public operations. *)

(** Dropping the least recently used pair. *)
Lemma keys_removelast l : NoDup (keys l) -> NoDup (keys (removelast l)).
Proof.
  destruct l as [|x l _] using rev_ind; [done|]. rewrite removelast_last, keys_app.
  by intros (? & _)%NoDup_app.
Qed.

Lemma keys_touch k l : NoDup (keys l) -> NoDup (keys (touch k l)).
Proof.
  unfold touch. destruct (assoc k l) as [t|] eqn:E; [|done].
  destruct (assoc_split k t l E) as (la & lb & -> & Ha). rewrite (without_mid k t la lb Ha).
  simpl. rewrite !keys_app. simpl. intros H. apply NoDup_mid in H as [H1 H2].
  by apply NoDup_cons.
Qed.

Lemma length_touch k l : length (touch k l) = length l.
Proof.
  unfold touch. destruct (assoc k l) as [t|] eqn:E; [|done].
  destruct (assoc_split k t l E) as (la & lb & -> & Ha). rewrite (without_mid k t la lb Ha).
  simpl. rewrite !length_app. simpl. lia.
Qed.

Lemma get_repr c l k w :
  cache_repr c l ->
  exists c', corm_stmt_cache_get_unlocked c k w = Ret (assoc k l, c') w /\
    cache_repr c' (touch k l) /\ same_meta c c'.
Proof.
  intros [[ls Hlk] Hsz Hk Hcap Hr].
  destruct (get_unlocked_spec c ls l k w Hlk) as (c' & ls' & E & H' & Hm & Hm2 & Hm3 & Hm4).
  exists c'. split; [done|]. split; [|done].
  constructor; rewrite ?length_touch, ?Hm, ?Hm2; try done; [by eexists|by apply keys_touch].
Qed.

(** What the destructor does with an evicted statement. *)
Definition destroy_opt c (o : option T) : M S unit :=
  match o with Some t => destroy_stmt c t | None => mret tt end.

Lemma room_spec c l w w' :
  cache_repr c l -> destroy_opt c (evicted (c_capacity c) l) w = Ret tt w' ->
  exists c', match c_tail c with
             | Some evict => if c_capacity c <=? c_size c then evict_tail evict c else mret c
             | None => mret c
             end w = Ret c' w' /\
    cache_repr c' (make_room (c_capacity c) l) /\
    c_capacity c' = c_capacity c /\ c_destroy_fn c' = c_destroy_fn c /\
    Z.of_nat (length (make_room (c_capacity c) l)) < c_capacity c.
Proof.
  intros [[ls Hlk] Hsz Hk Hcap Hr] Hdes. unfold make_room, evicted in *.
  rewrite Hsz, (lk_tail _ _ _ Hlk).
  destruct (Z.leb_spec (c_capacity c) (Z.of_nat (length l))) as [Hfull|Hroom].
  - pose proof (linked_length _ _ _ Hlk) as Hl.
    destruct l as [|[k t] l _] using rev_ind; [simpl in *; lia|].
    destruct ls as [|p ls _] using rev_ind; [rewrite length_app in Hl; simpl in Hl; lia|].
    rewrite last_snoc, removelast_last. rewrite last_snoc in Hdes. simpl in Hdes.
    rewrite length_app in *. simpl in *.
    destruct (evict_spec c ls p l k t w w' Hlk Hdes) as (c' & E & H' & Hs' & Hc' & Hd').
    exists c'. split; [done|]. rewrite keys_app in Hk. apply NoDup_app in Hk as (Hk & _).
    split; [|split; [done|split; [done|lia]]].
    constructor; rewrite ?Hc'; try done; [by eexists| |lia].
    rewrite Hs', Hsz, wrap_u64_small by lia. lia.
  - injection Hdes as <-. exists c. split; [by destruct (last ls)|].
    split; [by constructor; [eexists|..]|done].
Qed.

Lemma link_repr c l k t w :
  cache_repr c l -> assoc k l = None -> Z.of_nat (length l) < c_capacity c ->
  exists c', link_new k t c w = Ret c' w /\ cache_repr c' ((k, t) :: l) /\
    c_capacity c' = c_capacity c /\ c_destroy_fn c' = c_destroy_fn c.
Proof.
  intros [[ls Hlk] Hsz Hk Hcap Hr] Ha Hlen.
  destruct (link_new_spec c ls l k t w Hlk) as (c' & E & H' & Hs' & Hc' & Hd').
  exists c'. split; [done|]. split; [|done].
  constructor; rewrite ?Hc'; try done; [by eexists| | |simpl; lia].
  - rewrite Hs', Hsz, wrap_u64_small by lia. simpl. lia.
  - apply NoDup_cons. split; [by apply assoc_None|done].
Qed.

Lemma alloc_cases w :
  exists ok w', malloc_ok w = Ret ok w' /\ w_heap w' = w_heap w /\ w_db w' = w_db w /\
    (plenty w -> w' = w /\ ok = true).
Proof.
  unfold malloc_ok, plenty. destruct (w_oracle w) as [|b o] eqn:E.
  - by exists true, w.
  - eexists b, _. by split.
Qed.

(** A miss: room is made, then the new entry goes to the front unless memory
    runs out. *)
Lemma put_miss c l k t w w1 :
  cache_repr c l -> assoc k l = None ->
  destroy_opt c (evicted (c_capacity c) l) w = Ret tt w1 ->
  exists err c' w2, corm_stmt_cache_put (Some c) (Some k) (Some t) w = Ret (err, Some c') w2 /\
    c_capacity c' = c_capacity c /\ c_destroy_fn c' = c_destroy_fn c /\
    w_heap w2 = w_heap w1 /\ w_db w2 = w_db w1 /\ (plenty w1 -> w2 = w1 /\ err = CORM_OK) /\
    ((err = CORM_OK /\ cache_repr c' ((k, t) :: make_room (c_capacity c) l)) \/
     (err = CORM_ERR_NOMEM /\ cache_repr c' (make_room (c_capacity c) l))).
Proof.
  intros H Ha Hdes. unfold corm_stmt_cache_put.
  destruct (get_repr c l k w H) as (c1 & E1 & H1 & Hsz1 & Hcap1 & Hdf1 & _).
  unfold touch in H1. rewrite Ha in *. run_with E1.
  assert (Hdes1 : destroy_opt c1 (evicted (c_capacity c1) l) w = Ret tt w1).
  { rewrite Hcap1. unfold destroy_opt, destroy_stmt in *. by rewrite Hdf1. }
  destruct (room_spec c1 l w w1 H1 Hdes1) as (c2 & E2 & H2 & Hcap2 & Hdf2 & Hlen).
  run_with E2. rewrite Hcap1 in *.
  destruct (alloc_cases w1) as (ok1 & w2 & M1 & Hh1 & Hd1 & P1). run_with M1.
  destruct ok1; run; [|eexists _, c2, w2; split; [done|]; rewrite Hcap2, Hdf2;
    repeat (split; [done|]); split; [intros [_ ?]%P1; done|by right]].
  destruct (alloc_cases w2) as (ok2 & w3 & M2 & Hh2 & Hd2 & P2). run_with M2.
  assert (P3 : plenty w1 -> w3 = w1 /\ ok2 = true).
  { intros Hp. destruct (P1 Hp) as [-> _]. by apply P2. }
  destruct ok2; run; [|eexists _, c2, w3; split; [done|]; rewrite Hcap2, Hdf2, Hh2, Hd2;
    repeat (split; [done|]); split; [intros [_ ?]%P3; done|by right]].
  assert (Ham : assoc k (make_room (c_capacity c) l) = None).
  { apply assoc_None. intros Hin. apply assoc_None in Ha. apply Ha. unfold make_room in Hin.
    destruct (c_capacity c <=? Z.of_nat (length l)); [|done]. destruct l as [|x l _] using rev_ind; [done|].
    rewrite removelast_last in Hin. rewrite keys_app. apply elem_of_app. by left. }
  destruct (link_repr c2 _ k t w3 H2 Ham ltac:(lia)) as (c3 & E3 & H3 & Hcap3 & Hdf3).
  run_with E3. eexists _, c3, w3. split; [done|].
  rewrite Hcap3, Hdf3, Hcap2, Hdf2, Hh2, Hd2. repeat (split; [done|]).
  split; [intros Hp; by destruct (P3 Hp)|by left].
Qed.

(** A hit only moves the entry. *)
Lemma put_hit c l k t t0 w :
  cache_repr c l -> assoc k l = Some t0 ->
  exists c', corm_stmt_cache_put (Some c) (Some k) (Some t) w = Ret (CORM_OK, Some c') w /\
    cache_repr c' (touch k l) /\ c_capacity c' = c_capacity c /\
    c_destroy_fn c' = c_destroy_fn c.
Proof.
  intros H Ha. unfold corm_stmt_cache_put.
  destruct (get_repr c l k w H) as (c1 & E1 & H1 & Hsz1 & Hcap1 & Hdf1 & _).
  rewrite Ha in E1. run_with E1. by exists c1.
Qed.

Lemma remove_repr c l k w :
  cache_repr c l ->
  exists c', corm_stmt_cache_remove (Some c) (Some k) w = Ret (assoc k l, Some c') w /\
    cache_repr c' (without k l) /\ c_capacity c' = c_capacity c /\
    c_destroy_fn c' = c_destroy_fn c.
Proof.
  intros H. pose proof H as [[ls Hlk] Hsz Hk Hcap Hr]. unfold corm_stmt_cache_remove.
  destruct (cache_find_spec c ls l k w Hlk) as [[Ha E]|(a & p & b & la & t & lb & -> & -> & Hl & Ha & E)];
    run_with E.
  { exists c. by rewrite Ha, (without_None k l Ha). }
  rewrite (assoc_mid k t la lb Ha), (without_mid k t la lb Ha).
  pose proof Hlk as [Hs Hn Hh Ht Hd Hf].
  destruct (unlink_spec c a p b la k t lb w Hs Hl Hn) as (Hp & ns1 & ns2 & E1 & E2 & Hp2 & Hs2 & D2).
  rewrite Hp. run. run_with E1. run_with E2.
  pose proof (last_unlink a p b Hn) as Htl. pose proof (head_unlink a p b Hn) as Hhd.
  apply NoDup_mid in Hn as [Hni Hn].
  set (c3 := if eq_ptr (Some p) (c_head _) then _ else _).
  set (c4 := if eq_ptr (Some p) (c_tail _) then _ else _).
  assert (Hc4 : c_nodes c4 = ns2 /\ c_head c4 = head (a ++ b) /\ c_tail c4 = last (a ++ b) /\
                same_meta c c4).
  { rewrite <- Htl, <- Hhd. unfold c4, c3. destruct c as [cap sz hd tl f ns fr]. cbn in *.
    rewrite Ht, Hh. destruct (eq_ptr _ (head _)); cbn; by destruct (eq_ptr _ _). }
  destruct Hc4 as (Hn4 & Hh4 & Ht4 & Hsz4 & Hcap4 & Hdf4 & Hfr4).
  unfold free_entry. rewrite Hn4, Hp2, Hp. run. eexists. split; [done|]. clearbody c4.
  clear c3. rewrite length_app in Hsz, Hr. simpl in Hsz, Hr.
  rewrite keys_app in Hk. simpl in Hk. apply NoDup_mid in Hk as [_ Hk]. rewrite <- keys_app in Hk.
  destruct c4 as [cap sz hd tl f ns fr]. cbn in *. split; [|done].
  constructor; cbn; rewrite ?Hcap4, ?length_app; [|rewrite Hsz4, Hsz, wrap_u64_small by lia; lia
    |done|done|lia].
  exists (a ++ b). constructor; cbn; rewrite ?Hn4; try done.
  - by apply dseg_delete.
  - intros q. destruct (decide (q = p)) as [->|Hne].
    + rewrite lookup_delete_eq. split; [by intros []|done].
    + rewrite lookup_delete_ne, (D2 q), Hd, elem_mid by done. tauto.
  - rewrite Hfr4. intros q Hq. apply Hf. rewrite elem_mid. by right.
Qed.

(** Destroying the cache hands every statement to the destructor, most
    recently used first, and frees every entry. *)
Definition destroy_all (fn : option (T -> M S unit)) l : M S unit :=
  for_each l (fun '(_, t) _ => match fn with Some f => f t | None => mret tt end) tt.

Lemma no_nodes (ns : gmap loc (entry T)) :
  (forall p, is_Some (ns !! p) <-> p ∈ @nil loc) -> ns = ∅.
Proof.
  intros H. apply map_empty. intros p. destruct (ns !! p) as [e|] eqn:E; [|done].
  apply mk_is_Some, H, not_elem_of_nil in E. done.
Qed.

Lemma destroy_loop_spec fuel c prev ls l w :
  dseg (c_nodes c) prev ls l None -> NoDup ls -> (length ls <= fuel)%nat ->
  (forall p, is_Some (c_nodes c !! p) <-> p ∈ ls) ->
  destroy_loop fuel (head ls) c w =
    (destroy_all (c_destroy_fn c) l;; mret (set_c_nodes ∅ c)) w.
Proof.
  revert c prev ls l w. induction fuel as [|fuel IH]; intros c prev ls l w Hd Hn Hf Hdom.
  - destruct ls; [|simpl in Hf; lia]. destruct l; [|done]. simpl.
    by rewrite <- (no_nodes _ Hdom), set_nodes_id.
  - destruct ls as [|p ls]; destruct l as [|[k t] l]; try done.
    { simpl. by rewrite <- (no_nodes _ Hdom), set_nodes_id. }
    simpl in Hd. destruct Hd as [Hp Hd]. rewrite or_else_None in Hp. simpl in Hf.
    apply NoDup_cons in Hn as [Hpl Hn]. simpl. rewrite Hp. run.
    unfold destroy_all, destroy_stmt. cbn [for_each].
    set (f := match c_destroy_fn c with Some f => f t | None => mret tt end).
    rewrite !bind_assoc. unfold mbind, M_bind. destruct (f w) as [[] w1|]; [|done].
    unfold free_entry. rewrite Hp. unfold mbind, M_bind. simpl.
    rewrite (IH _ (Some p) ls l w1); [by destruct c|..].
    + rewrite nodes_set. by apply dseg_delete.
    + done.
    + lia.
    + intros q. rewrite nodes_set. destruct (decide (q = p)) as [->|Hne].
      * rewrite lookup_delete_eq. split; [by intros []|done].
      * rewrite lookup_delete_ne, Hdom, elem_of_cons by done. tauto.
Qed.
End updates.

(** ** Scripts of cache operations *)

Inductive cop (T : Type) : Type :=
  | CGet (sql : string)
  | CPut (sql : string) (stmt : T)
  | CRemove (sql : string).
Arguments CGet {T}.
Arguments CPut {T}.
Arguments CRemove {T}.

Inductive cres (T : Type) : Type :=
  | RStmt (r : option T)
  | RErr (e : corm_err).
Arguments RStmt {T}.
Arguments RErr {T}.

Section scripts.
Context {S T : Type}.
Implicit Types (c : cache S T) (w : world S) (l : list (string * T)).

Definition exec_cop (o : cop T) (c : option (cache S T)) : M S (cres T * option (cache S T)) :=
  match o with
  | CGet k => '(r, c) ← corm_stmt_cache_get c (Some k); mret (RStmt r, c)
  | CPut k t => '(e, c) ← corm_stmt_cache_put c (Some k) (Some t); mret (RErr e, c)
  | CRemove k => '(r, c) ← corm_stmt_cache_remove c (Some k); mret (RStmt r, c)
  end.

Fixpoint exec_cops (os : list (cop T)) (c : option (cache S T)) :
    M S (list (cres T) * option (cache S T)) :=
  match os with
  | [] => mret ([], c)
  | o :: os' =>
      '(r, c) ← exec_cop o c; '(rs, c) ← exec_cops os' c; mret (r :: rs, c)
  end.

(** One operation on the LRU list: the result, the new list and the statement
    that is evicted. *)
Definition lru_step (cap : Z) (o : cop T) l : cres T * list (string * T) * option T :=
  match o with
  | CGet k => (RStmt (assoc k l), touch k l, None)
  | CPut k t =>
      (RErr CORM_OK, lru_put cap k t l,
       match assoc k l with Some _ => None | None => evicted cap l end)
  | CRemove k => (RStmt (assoc k l), without k l, None)
  end.

Fixpoint lru_steps (cap : Z) (os : list (cop T)) l : list (cres T) * list (string * T) * list T :=
  match os with
  | [] => ([], l, [])
  | o :: os' =>
      let '(r, l1, ev) := lru_step cap o l in
      let '(rs, l2, evs) := lru_steps cap os' l1 in
      (r :: rs, l2, option_list ev ++ evs)
  end.

(** The destructor run on the evicted statements, in order. *)
Definition destroy_list c (ts : list T) : M S unit := for_each ts (fun t _ => destroy_stmt c t) tt.

Lemma step_repr c l o w w1 :
  cache_repr c l -> plenty w1 ->
  destroy_opt c (lru_step (c_capacity c) o l).2 w = Ret tt w1 ->
  exists c', exec_cop o (Some c) w = Ret ((lru_step (c_capacity c) o l).1.1, Some c') w1 /\
    cache_repr c' (lru_step (c_capacity c) o l).1.2 /\ c_capacity c' = c_capacity c /\
    c_destroy_fn c' = c_destroy_fn c.
Proof.
  intros H Hp Hd. destruct o as [k|k t|k]; cbn [exec_cop lru_step fst snd] in Hd |- *.
  - injection Hd as <-. destruct (get_repr c l k w H) as (c' & E & H' & _ & ? & ? & _).
    unfold corm_stmt_cache_get. rewrite bind_assoc. run_with E. by exists c'.
  - unfold lru_put. destruct (assoc k l) as [t0|] eqn:Ha.
    + injection Hd as <-. destruct (put_hit c l k t t0 w H Ha) as (c' & E & H' & ? & ?).
      run_with E. by exists c'.
    + destruct (put_miss c l k t w w1 H Ha Hd)
        as (e & c' & w2 & E & ? & ? & _ & _ & Hpl & [[-> H']|[-> _]]);
        destruct (Hpl Hp) as [-> ?]; [|done]. run_with E. by exists c'.
  - injection Hd as <-. destruct (remove_repr c l k w H) as (c' & E & H' & ? & ?).
    run_with E. by exists c'.
Qed.

Lemma steps_repr c l os w w1 :
  cache_repr c l -> (forall t w w', destroy_stmt c t w = Ret tt w' -> plenty w -> plenty w') ->
  plenty w -> destroy_list c (lru_steps (c_capacity c) os l).2 w = Ret tt w1 ->
  exists c', exec_cops os (Some c) w = Ret ((lru_steps (c_capacity c) os l).1.1, Some c') w1 /\
    cache_repr c' (lru_steps (c_capacity c) os l).1.2 /\ c_capacity c' = c_capacity c /\
    c_destroy_fn c' = c_destroy_fn c.
Proof.
  intros H Hpl Hp. set (cap := c_capacity c).
  assert (Hcap : c_capacity c = cap) by done. clearbody cap.
  set (f := c_destroy_fn c) in *. assert (Hf : c_destroy_fn c = f) by done. clearbody f.
  revert c l w H Hcap Hf Hpl Hp. induction os as [|o os IH]; intros c l w H Hcap Hf Hpl Hp Hd.
  { injection Hd as <-. by exists c. }
  simpl in Hd |- *. pose proof (step_repr c l o w) as Hs. rewrite Hcap in Hs.
  destruct (lru_step cap o l) as [[r l1] ev] eqn:Es. simpl in Hs.
  assert (exists w2, destroy_opt c ev w = Ret tt w2 /\ plenty w2 /\
    destroy_list c (lru_steps cap os l1).2 w2 = Ret tt w1) as (w2 & E2 & Hp2 & Hd2).
  { destruct (lru_steps cap os l1) as [[rs l2] evs]. simpl in Hd |- *.
    destruct ev as [t|]; simpl in Hd |- *; [|by exists w].
    unfold destroy_list in Hd. cbn [for_each] in Hd.
    apply bind_inv in Hd as ([] & w2 & E & Hd). eauto. }
  destruct (Hs w2 H Hp2 E2) as (c1 & E1 & H1 & Hcap1 & Hf1). run_with E1.
  assert (Hst : forall t, destroy_stmt c1 t = destroy_stmt c t)
    by (intros t; unfold destroy_stmt; by rewrite Hf1).
  destruct (IH c1 l1 w2 H1) as (c3 & E3 & H3 & Hcap3 & Hf3); try done; try congruence.
  { intros t u u'. rewrite Hst. apply Hpl. }
  { rewrite <- Hd2. unfold destroy_list. clear -Hst. generalize (lru_steps cap os l1).2.
    intros ts. revert w2. induction ts as [|t ts IH]; intros w2; [done|]. cbn [for_each].
    rewrite Hst. unfold mbind, M_bind. destruct (destroy_stmt c t w2) as [[] ?|]; [apply IH|done]. }
  destruct (lru_steps cap os l1) as [[rs l2] evs]. simpl in *. run_with E3.
  by exists c3.
Qed.
End scripts.
