(* ===== verification/CacheProps.v ===== *)
(** * Properties of the prepared-statement cache *)

From S2P Require Import Prelude Types Mem StmtCache StmtCacheSpec Sample.

Section properties.
Context {S T : Type}.
Implicit Types (w : world S) (fn : option (T -> M S unit)).

(** Running the destructor on statements, in order. *)
Definition run_destroy fn (ts : list T) : M S unit :=
  for_each ts (fun t _ => match fn with Some f => f t | None => mret tt end) tt.

(** The destructor does not use up memory. *)
Definition thrifty fn : Prop :=
  forall f t w w', fn = Some f -> f t w = Ret tt w' -> plenty w -> plenty w'.

Lemma run_destroy_app fn ts ts' w w2 :
  run_destroy fn (ts ++ ts') w = Ret tt w2 ->
  exists w1, run_destroy fn ts w = Ret tt w1 /\ run_destroy fn ts' w1 = Ret tt w2.
Proof.
  revert w. induction ts as [|t ts IH]; intros w H; [by exists w|].
  unfold run_destroy in H. cbn [app for_each] in H.
  apply bind_inv in H as ([] & w' & E & H). destruct (IH w' H) as (w1 & E1 & E2).
  exists w1. split; [|done]. unfold run_destroy. cbn [for_each]. by rewrite (bind_Ret _ _ _ _ _ E).
Qed.

Lemma run_destroy_all fn (l : list (string * T)) w :
  destroy_all fn l w = run_destroy fn (map snd l) w.
Proof.
  revert w. induction l as [|[k t] l IH]; intros w; [done|].
  unfold destroy_all, run_destroy in *. cbn [map for_each snd]. unfold mbind, M_bind.
  destruct (match fn with Some f => f t | None => mret tt end w) as [[] w1|]; [apply IH|done].
Qed.

(** What a new cache with the destructor [fn] is. *)
Definition new_cache (cap : Z) fn : cache S T := Cache cap 0 None None fn ∅ 1%positive.

Lemma cache_create_spec cap fn w :
  0 < cap < 2 ^ 64 -> plenty w ->
  exists c, corm_stmt_cache_create cap true w = Ret (CORM_OK, Some c) w /\
    corm_stmt_cache_set_destroy_fn (Some c) fn = Some (new_cache cap fn) /\
    cache_repr (new_cache cap fn) [].
Proof.
  intros Hc Hp. unfold corm_stmt_cache_create.
  destruct (Z.eqb_spec cap 0); [lia|]. simpl. run_with (malloc_ok_plenty w Hp).
  eexists. split; [done|]. split; [done|].
  constructor; simpl; [|done|apply NoDup_nil_2|done|lia].
  exists []. constructor; simpl; try done; [apply NoDup_nil_2| |by intros p ?%not_elem_of_nil].
  intros p. rewrite lookup_empty. split; [by intros []|by intros ?%not_elem_of_nil].
Qed.

(** C11: the cache is an LRU cache: any sequence of [get], [put] and [remove]
    on a fresh cache of capacity [cap] returns what the list specification
    returns, hands exactly the evicted statements to the destructor, in the
    order of their eviction, and never holds more than [cap] statements or two
    for the same SQL. *)
Theorem cache_refines_lru cap fn os w w1 :
  0 < cap < 2 ^ 64 -> plenty w -> thrifty fn ->
  run_destroy fn (lru_steps cap os []).2 w = Ret tt w1 ->
  exists c c', corm_stmt_cache_create cap true w = Ret (CORM_OK, Some c) w /\
    exec_cops os (corm_stmt_cache_set_destroy_fn (Some c) fn) w =
      Ret ((lru_steps cap os []).1.1, Some c') w1 /\
    c_size c' = Z.of_nat (length (lru_steps cap os []).1.2) /\ c_size c' <= cap /\
    NoDup (keys (lru_steps cap os []).1.2).
Proof.
  intros Hc Hp Ht Hd. destruct (cache_create_spec cap fn w Hc Hp) as (c & E & Es & Hr).
  destruct (steps_repr (new_cache cap fn) [] os w w1 Hr) as (c' & E' & Hr' & Hcap & _);
    [intros t u u'; unfold destroy_stmt; simpl; destruct fn as [f|] eqn:Ef|done|done|].
  - by apply (Ht f t u u').
  - by intros [= <-].
  - exists c, c'. rewrite Es. destruct Hr'. simpl in *. split_and!; (done || lia).
Qed.

(** C12: destroying the cache after any use hands every statement that was
    stored to the destructor exactly once - the evicted ones when they were
    evicted, then the remaining ones from the most to the least recently used -
    and frees every entry. *)
Theorem cache_destroy_frees_all cap fn os w w1 :
  0 < cap < 2 ^ 64 -> plenty w -> thrifty fn ->
  run_destroy fn ((lru_steps cap os []).2 ++ map snd (lru_steps cap os []).1.2) w = Ret tt w1 ->
  exists c, corm_stmt_cache_create cap true w = Ret (CORM_OK, Some c) w /\
    ('(_, c) ← exec_cops os (corm_stmt_cache_set_destroy_fn (Some c) fn);
     corm_stmt_cache_destroy c) w = Ret ∅ w1.
Proof.
  intros Hc Hp Ht Hd. destruct (cache_create_spec cap fn w Hc Hp) as (c & E & Es & Hr).
  apply run_destroy_app in Hd as (w2 & Hd1 & Hd2).
  destruct (steps_repr (new_cache cap fn) [] os w w2 Hr) as (c' & E' & [[ls Hl] _ _ _ _] & _ & Hf);
    [intros t u u'; unfold destroy_stmt; simpl; destruct fn as [f|] eqn:Ef|done|done|].
  - by apply (Ht f t u u').
  - by intros [= <-].
  - exists c. split; [done|]. rewrite Es. run_with E'. simpl in Hl, Hf.
    rewrite (lk_head _ _ _ Hl). pose proof Hl as [Hs Hn _ _ Hdom _].
    unfold mbind at 1, M_bind at 1. simpl.
    erewrite destroy_loop_spec; [|done|done|by rewrite <- (linked_size _ _ _ Hl)|done].
    rewrite Hf. unfold mbind, M_bind. rewrite run_destroy_all, Hd2. by destruct c'.
Qed.

(** [put] when memory may run out: on a miss the least recently used
    statement of a full cache is destroyed first; then either the new statement
    is stored in front, or [put] reports CORM_ERR_NOMEM and the cache is well
    formed without it. *)
Theorem cache_put_any_memory (c : cache S T) l k t w w1 :
  cache_repr c l -> assoc k l = None ->
  destroy_opt c (evicted (c_capacity c) l) w = Ret tt w1 ->
  exists err c' w2, corm_stmt_cache_put (Some c) (Some k) (Some t) w = Ret (err, Some c') w2 /\
    w_db w2 = w_db w1 /\
    ((err = CORM_OK /\ cache_repr c' ((k, t) :: make_room (c_capacity c) l)) \/
     (err = CORM_ERR_NOMEM /\ cache_repr c' (make_room (c_capacity c) l))).
Proof.
  intros H Ha Hd. destruct (put_miss c l k t w w1 H Ha Hd)
    as (err & c' & w2 & E & _ & _ & _ & Hdb & _ & Hcase). by exists err, c', w2.
Qed.
End properties.

(** ** The properties at concrete inputs *)

(** A destructor that records its calls in the world. *)
Definition log_destroy : option (Z -> M (list Z) unit) :=
  Some (fun t => d ← get_db; put_db (d ++ [t])).

Definition log_world : world (list Z) := World [] ∅ 1%positive [].

Definition sample_cops : list (cop Z) :=
  [CPut "SELECT 1" 10; CPut "SELECT 2" 20; CGet "SELECT 1"; CPut "SELECT 3" 30; CGet "SELECT 2";
   CRemove "SELECT 1"; CPut "SELECT 4" 40].

Lemma cache_refines_lru_witness :
  exists c c', corm_stmt_cache_create (S := list Z) (T := Z) 2 true log_world =
      Ret (CORM_OK, Some c) log_world /\
    exec_cops sample_cops (corm_stmt_cache_set_destroy_fn (Some c) log_destroy) log_world =
      Ret ([RErr CORM_OK; RErr CORM_OK; RStmt (Some 10); RErr CORM_OK; RStmt None;
            RStmt (Some 10); RErr CORM_OK], Some c') (set_db [20] log_world) /\
    c_size c' = 2 /\ c_size c' <= 2 /\ NoDup (keys [("SELECT 4", 40); ("SELECT 3", 30)]).
Proof.
  apply (cache_refines_lru 2 log_destroy sample_cops log_world (set_db [20] log_world)).
  - split; reflexivity.
  - reflexivity.
  - intros f t w w' [= <-] [= <-] Hp. exact Hp.
  - reflexivity.
Defined.

Lemma cache_destroy_frees_all_witness :
  exists c, corm_stmt_cache_create (S := list Z) (T := Z) 2 true log_world =
      Ret (CORM_OK, Some c) log_world /\
    ('(_, c) ← exec_cops sample_cops (corm_stmt_cache_set_destroy_fn (Some c) log_destroy);
     corm_stmt_cache_destroy c) log_world = Ret ∅ (set_db [20; 40; 30] log_world).
Proof.
  apply (cache_destroy_frees_all 2 log_destroy sample_cops log_world).
  - split; reflexivity.
  - reflexivity.
  - intros f t w w' [= <-] [= <-] Hp. exact Hp.
  - reflexivity.
Defined.

Lemma cache_put_any_memory_witness :
  exists err c' w2, corm_stmt_cache_put (Some (new_cache (S := list Z) (T := Z) 1 log_destroy))
      (Some "SELECT 1") (Some 10) (World [true; false] ∅ 1%positive []) = Ret (err, Some c') w2 /\
    w_db w2 = [] /\
    ((err = CORM_OK /\ cache_repr c' [("SELECT 1", 10)]) \/
     (err = CORM_ERR_NOMEM /\ cache_repr c' [])).
Proof.
  apply (cache_put_any_memory (new_cache (S := list Z) (T := Z) 1 log_destroy) [] "SELECT 1" 10
    (World [true; false] ∅ 1%positive []) (World [true; false] ∅ 1%positive [])).
  - destruct (cache_create_spec 1 log_destroy log_world ltac:(split; reflexivity) eq_refl)
      as (c & _ & _ & Hr). exact Hr.
  - reflexivity.
  - reflexivity.
Defined.
