(* ===== verification/Pool.v ===== *)
(** * The connection pool ([src/internal/pool.c])

    Threads that acquire connections interleave at the granularity of the
    critical sections of [pool->lock]: each section is one step, and so is each
    I/O operation done with the lock released ([corm_ping],
    [corm_open_with_config]).  What a thread remembers between two steps is its
    [tstate].  Connections are identities with their creation time; what
    happens inside a connection is not the pool's business. *)

From S2P Require Import Prelude Types Dialect.

(** A [corm_t *] and its [created_at_ms]. *)
Record conn : Type := Conn { cn_id : positive; cn_created_at_ms : Z }.

#[export] Instance conn_eq_dec : EqDecision conn.
Proof. solve_decision. Defined.

(** The [idle_head] list with the two counters. *)
Record pool : Type := Pool {
  p_idle : list conn;
  p_idle_count : Z;
  p_current_open : Z
}.

Definition pool_create : pool := Pool [] 0 0.

(** [corm_pool_create]: the copy of the DSN the pool keeps (a buffer of 512
    bytes), its configuration and the empty pool. *)
Definition corm_pool_create (dsn : option string) (cfg : corm_config) (out_pool calloc_ok : bool) :
    corm_err * option (string * corm_config * pool) :=
  match dsn, out_pool with
  | Some d, true =>
      if calloc_ok then (CORM_OK, Some (copy_to_buf 512 d, cfg, pool_create))
      else (CORM_ERR_NOMEM, None)
  | _, _ => (CORM_ERR_NULL, None)
  end.

(** [current_open++], [current_open--] on an [int]. *)
Definition open_incr (p : pool) : pool :=
  Pool (p_idle p) (p_idle_count p) (wrap_i32 (p_current_open p + 1)).
Definition open_decr (p : pool) : pool :=
  Pool (p_idle p) (p_idle_count p) (wrap_i32 (p_current_open p - 1)).

(** The condition of the wait loop. *)
Definition must_wait (cfg : corm_config) (p : pool) : bool :=
  match p_idle p with [] => true | _ => false end &&
  (0 <? max_open_conns cfg) && (max_open_conns cfg <=? p_current_open p).

Definition expired (cfg : corm_config) (now_ms : Z) (c : conn) : bool :=
  (0 <? conn_max_lifetime_ms cfg) &&
  (conn_max_lifetime_ms cfg <=? now_ms - cn_created_at_ms c).

(** How the critical section at the start of [corm_pool_acquire] ends, the lock
    being held and the wait condition tested once. *)
Inductive acquired : Type :=
  | AqWait                             (* blocks in the condition wait *)
  | AqTimeout                          (* returns CORM_ERR_GENERIC *)
  | AqExpired (c : conn) (p : pool)    (* closed [c], signals, retries *)
  | AqPing (c : conn) (p : pool)       (* unlocks to ping [c] *)
  | AqOpen (p : pool).                 (* slot reserved, unlocks to open *)

(** [timed_out]: the thread comes from a [pthread_cond_timedwait] that returned
    an error. *)
Definition acquire_section (cfg : corm_config) (timed_out : bool) (now_ms : Z) (p : pool) :
    acquired :=
  if timed_out && match p_idle p with [] => true | _ => false end then AqTimeout
  else if must_wait cfg p then AqWait
  else
    match p_idle p with
    | c :: rest =>
        let p := Pool rest (wrap_i32 (p_idle_count p - 1)) (p_current_open p) in
        if expired cfg now_ms c then AqExpired c (open_decr p) else AqPing c p
    | [] => AqOpen (open_incr p)
    end.

(** The critical section of [corm_pool_release]: the error code, the connection
    it closed and the new pool; all three ways out signal the condition. *)
Definition release_section (cfg : corm_config) (malloc_ok : bool) (db : conn) (p : pool) :
    corm_err * option conn * pool :=
  if (0 <? max_idle_conns cfg) && (max_idle_conns cfg <=? p_idle_count p)
  then (CORM_OK, Some db, open_decr p)
  else if negb malloc_ok then (CORM_ERR_NOMEM, Some db, open_decr p)
  else (CORM_OK, None,
        Pool (db :: p_idle p) (wrap_i32 (p_idle_count p + 1)) (p_current_open p)).

(** [corm_pool_destroy]: the connections closed, in order. *)
Definition corm_pool_destroy (p : option pool) : list conn :=
  match p with Some p => p_idle p | None => [] end.

(** ** Threads *)

Inductive tstate : Type :=
  | TOut                               (* not in the pool's code *)
  | TLock                              (* at [retry_acquire] *)
  | TWait                              (* blocked in the condition wait *)
  | TWoken                             (* signalled, about to lock again *)
  | TTimedOut                          (* timed out, about to lock again *)
  | TPing (c : conn)                   (* about to ping [c] *)
  | TPingFailed                        (* closed it, about to lock *)
  | TOpening (retried : Z)             (* in the open loop *)
  | TOpenFailed (err : corm_err).      (* about to lock to give the slot back *)

Record sys : Type := Sys {
  s_pool : pool;
  s_threads : list tstate;
  s_borrowed : list conn;              (* handed out by [corm_pool_acquire] *)
  s_closed : list conn;                (* passed to [corm_close] *)
  s_next : positive                    (* identity of the next connection *)
}.

(** Thread [i] moves from a state that satisfies [P]. *)
Definition goto (i : nat) (t : tstate) (s : sys) : sys :=
  Sys (s_pool s) (<[i := t]> (s_threads s)) (s_borrowed s) (s_closed s) (s_next s).
Definition with_pool (p : pool) (s : sys) : sys :=
  Sys p (s_threads s) (s_borrowed s) (s_closed s) (s_next s).
Definition close (c : conn) (s : sys) : sys :=
  Sys (s_pool s) (s_threads s) (s_borrowed s) (c :: s_closed s) (s_next s).
Definition lend (c : conn) (s : sys) : sys :=
  Sys (s_pool s) (s_threads s) (c :: s_borrowed s) (s_closed s) (s_next s).

(** [l] without its first [c]. *)
Fixpoint remove_conn (c : conn) (l : list conn) : list conn :=
  match l with
  | [] => []
  | d :: l' => if decide (d = c) then l' else d :: remove_conn c l'
  end.

Definition is_wait (t : tstate) : bool := match t with TWait => true | _ => false end.

(** [pthread_cond_signal]: wakes the waiting thread [wake], or nobody when
    nobody waits.  (Further wake-ups are [EvSpurious].) *)
Definition signal (wake : option nat) (s : sys) : option sys :=
  match wake with
  | Some i =>
      match s_threads s !! i with
      | Some TWait => Some (goto i TWoken s)
      | _ => None
      end
  | None => if existsb is_wait (s_threads s) then None else Some s
  end.

Inductive event : Type :=
  | EvCall (i : nat)                                (* [corm_pool_acquire] is called *)
  | EvLock (i : nat) (now_ms : Z) (wake : option nat)
  | EvSpurious (i : nat)
  | EvTimeout (i : nat)
  | EvPing (i : nat) (result : corm_err)
  | EvOpen (i : nat) (result : corm_err) (created_at_ms : Z)
  | EvGiveBack (i : nat) (wake : option nat)
  | EvRelease (c : conn) (malloc_ok : bool) (wake : option nat).

(** The section at [retry_acquire] from a thread in state [t]. *)
Definition lock_step (cfg : corm_config) (i : nat) (timed_out : bool) (now_ms : Z)
    (wake : option nat) (s : sys) : option sys :=
  match acquire_section cfg timed_out now_ms (s_pool s) with
  | AqWait => Some (goto i TWait s)
  | AqTimeout => Some (goto i TOut s)
  | AqExpired c p => signal wake (goto i TLock (close c (with_pool p s)))
  | AqPing c p => Some (goto i (TPing c) (with_pool p s))
  | AqOpen p => Some (goto i (TOpening 0) (with_pool p s))
  end.

Definition MAX_OPEN_TRIES : Z := 3.

(** One step; [None]: the event is not possible in [s]. *)
Definition sys_step (cfg : corm_config) (ev : event) (s : sys) : option sys :=
  match ev with
  | EvCall i =>
      match s_threads s !! i with Some TOut => Some (goto i TLock s) | _ => None end
  | EvLock i now wake =>
      match s_threads s !! i with
      | Some TLock | Some TWoken => lock_step cfg i false now wake s
      | Some TTimedOut => lock_step cfg i true now wake s
      | _ => None
      end
  | EvSpurious i =>
      match s_threads s !! i with Some TWait => Some (goto i TWoken s) | _ => None end
  | EvTimeout i =>
      if 0 <? timeout_ms cfg then
        match s_threads s !! i with Some TWait => Some (goto i TTimedOut s) | _ => None end
      else None
  | EvPing i r =>
      match s_threads s !! i with
      | Some (TPing c) =>
          if decide (r = CORM_OK) then Some (lend c (goto i TOut s))
          else Some (goto i TPingFailed (close c s))
      | _ => None
      end
  | EvOpen i r created =>
      match s_threads s !! i with
      | Some (TOpening retried) =>
          if decide (r = CORM_OK) then
            Some (lend (Conn (s_next s) created)
              (goto i TOut (Sys (s_pool s) (s_threads s) (s_borrowed s) (s_closed s)
                              (Pos.succ (s_next s)))))
          else if retried + 1 <? MAX_OPEN_TRIES then Some (goto i (TOpening (retried + 1)) s)
          else Some (goto i (TOpenFailed r) s)
      | _ => None
      end
  | EvGiveBack i wake =>
      match s_threads s !! i with
      | Some TPingFailed => signal wake (goto i TLock (with_pool (open_decr (s_pool s)) s))
      | Some (TOpenFailed _) => signal wake (goto i TOut (with_pool (open_decr (s_pool s)) s))
      | _ => None
      end
  | EvRelease c ok wake =>
      if decide (c ∈ s_borrowed s) then
        let '(_, closed, p) := release_section cfg ok c (s_pool s) in
        let s := Sys p (s_threads s) (remove_conn c (s_borrowed s)) (s_closed s) (s_next s) in
        signal wake (match closed with Some c => close c s | None => s end)
      else None
  end.

(** ** One thread alone

    [corm_pool_acquire] run without other threads; [ping c] and [now_ms c] are
    what the connection and the clock answer, [open_result k] is the outcome of
    the [k]-th call of [corm_open_with_config].  [None]: the call never
    returns. *)
Section alone.
Context (cfg : corm_config) (ping : conn -> corm_err) (now_ms : conn -> Z)
  (open_result : Z -> corm_err * conn).

(** The [do ... while (++retried < 3)] loop, [tries] iterations left. *)
Fixpoint open_loop (tries : nat) (retried : Z) : corm_err * option conn :=
  let '(err, db) := open_result retried in
  if decide (err = CORM_OK) then (CORM_OK, Some db)
  else
    match tries with
    | S (S _ as tries) => open_loop tries (retried + 1)
    | _ => (err, None)
    end.

(** Error, connection handed out, pool, connections closed (latest first). *)
Fixpoint acquire_alone (fuel : nat) (p : pool) (closed : list conn) :
    option (corm_err * option conn * pool * list conn) :=
  match fuel with
  | O => None
  | S fuel =>
      match acquire_section cfg false (match p_idle p with c :: _ => now_ms c | [] => 0 end) p with
      | AqWait => if 0 <? timeout_ms cfg then Some (CORM_ERR_GENERIC, None, p, closed) else None
      | AqTimeout => Some (CORM_ERR_GENERIC, None, p, closed)
      | AqExpired c p => acquire_alone fuel p (c :: closed)
      | AqPing c p =>
          if decide (ping c = CORM_OK) then Some (CORM_OK, Some c, p, closed)
          else acquire_alone fuel (open_decr p) (c :: closed)
      | AqOpen p =>
          match open_loop 3 0 with
          | (err, Some db) => Some (err, Some db, p, closed)
          | (err, None) => Some (err, None, open_decr p, closed)
          end
      end
  end.

(** Enough: every retry takes a connection off the idle list. *)
Definition corm_pool_acquire (p : option pool) (out_db : bool) :
    option (corm_err * option conn * option pool * list conn) :=
  match p, out_db with
  | Some p, true =>
      '(err, db, p, closed) ← acquire_alone (S (length (p_idle p))) p [];
      Some (err, db, Some p, closed)
  | _, _ => Some (CORM_ERR_NULL, None, p, [])
  end.
End alone.
#[global] Arguments open_loop : simpl never.
