(* ===== verification/PoolSpec.v ===== *)
(** * The pool's invariants

    Counters, capacity, exclusive ownership of connections and absence of lost
    wake-ups, for every interleaving of the steps of [Pool.v]. *)

From S2P Require Import Prelude Types Pool.

(** ** Sums over threads *)

Definition tsum (f : tstate -> Z) (ts : list tstate) : Z := foldr (fun t z => f t + z) 0 ts.

Lemma tsum_insert f ts i t t' :
  ts !! i = Some t -> tsum f (<[i := t']> ts) = tsum f ts - f t + f t'.
Proof.
  revert i. induction ts as [|u ts IH]; intros [|i] H; simpl in *; try done.
  - injection H as ->. lia.
  - rewrite (IH i H). lia.
Qed.

Lemma tsum_nonneg f ts : (forall t, 0 <= f t) -> 0 <= tsum f ts.
Proof. intros Hf. induction ts as [|t ts IH]; simpl; [lia|]. specialize (Hf t). lia. Qed.

Lemma tsum_lookup f ts i t : (forall t, 0 <= f t) -> ts !! i = Some t -> f t <= tsum f ts.
Proof.
  intros Hf. revert i. induction ts as [|u ts IH]; intros [|i] H; simpl in *; try done.
  - injection H as ->. pose proof (tsum_nonneg f ts Hf). lia.
  - specialize (IH i H). specialize (Hf u). lia.
Qed.

Definition b2z (b : bool) : Z := if b then 1 else 0.

(** A slot of [current_open] that is neither idle nor borrowed. *)
Definition slot (t : tstate) : Z :=
  match t with TPing _ | TPingFailed | TOpening _ | TOpenFailed _ => 1 | _ => 0 end.
Definition waits (t : tstate) : Z := b2z (is_wait t).
Definition woken (t : tstate) : Z := match t with TWoken => 1 | _ => 0 end.

Definition holds (t : tstate) : list conn := match t with TPing c => [c] | _ => [] end.
Definition held (ts : list tstate) : list conn := concat (map holds ts).

Lemma held_insert ts i t t' :
  ts !! i = Some t -> holds t ++ held (<[i := t']> ts) ≡ₚ holds t' ++ held ts.
Proof.
  unfold held. revert i. induction ts as [|u ts IH]; intros [|i] H; simpl in *; try done.
  - injection H as ->. rewrite !app_assoc. apply Permutation_app_tail, Permutation_app_comm.
  - rewrite !app_assoc, !(Permutation_app_comm _ (holds u)), <- !app_assoc.
    apply Permutation_app_head, IH, H.
Qed.

(** ** What the system holds *)

Definition zlen {A} (l : list A) : Z := Z.of_nat (length l).

(** The connections and the reserved slots [current_open] counts. *)
Definition open_count (s : sys) : Z :=
  zlen (p_idle (s_pool s)) + zlen (s_borrowed s) + tsum slot (s_threads s).

(** Every connection ever opened is in one of these places. *)
Definition all_conns (s : sys) : list conn :=
  p_idle (s_pool s) ++ s_borrowed s ++ held (s_threads s) ++ s_closed s.

(** Slots that a waiting thread could take. *)
Definition available (cfg : corm_config) (s : sys) : Z :=
  zlen (p_idle (s_pool s)) + (max_open_conns cfg - open_count s).

Record pool_inv (cfg : corm_config) (s : sys) : Prop := {
  pi_open : p_current_open (s_pool s) = wrap_i32 (open_count s);
  pi_idle : p_idle_count (s_pool s) = wrap_i32 (zlen (p_idle (s_pool s)));
  pi_max_open : 0 < max_open_conns cfg -> open_count s <= max_open_conns cfg;
  pi_max_idle : 0 < max_idle_conns cfg -> zlen (p_idle (s_pool s)) <= max_idle_conns cfg;
  pi_unlimited : max_open_conns cfg <= 0 -> tsum waits (s_threads s) = 0;
  pi_wakeup : 0 < tsum waits (s_threads s) -> available cfg s <= tsum woken (s_threads s);
  pi_owned : NoDup (map cn_id (all_conns s));
  pi_fresh : Forall (fun c => (cn_id c < s_next s)%positive) (all_conns s)
}.

Definition cfg_ok (cfg : corm_config) : Prop :=
  in_i32 (max_open_conns cfg) /\ in_i32 (max_idle_conns cfg).

(** ** Signals *)

Lemma no_waiters ts : existsb is_wait ts = false -> tsum waits ts = 0.
Proof.
  induction ts as [|t ts IH]; simpl; [done|]. intros [Ht Hts]%orb_false_elim.
  unfold waits at 1. rewrite Ht, (IH Hts). done.
Qed.

Lemma signal_spec wake s s' :
  signal wake s = Some s' ->
  s_pool s' = s_pool s /\ s_borrowed s' = s_borrowed s /\ s_closed s' = s_closed s /\
  s_next s' = s_next s /\ tsum slot (s_threads s') = tsum slot (s_threads s) /\
  held (s_threads s') ≡ₚ held (s_threads s) /\
  ((tsum waits (s_threads s) = 0 /\ s' = s) \/
   (tsum waits (s_threads s') = tsum waits (s_threads s) - 1 /\
    tsum woken (s_threads s') = tsum woken (s_threads s) + 1)).
Proof.
  unfold signal. destruct wake as [i|].
  - destruct (s_threads s !! i) as [t|] eqn:E; [|done]. destruct t; try done. intros [= <-].
    simpl. do 4 (split; [done|]). rewrite !(tsum_insert _ _ _ _ _ E). cbn.
    split; [lia|]. split; [exact (held_insert _ _ _ TWoken E)|]. right. lia.
  - destruct (existsb is_wait (s_threads s)) eqn:E; [done|]. intros [= <-].
    do 6 (split; [done|]). left. by split; [apply no_waiters|].
Qed.

Lemma remove_conn_perm c l : c ∈ l -> l ≡ₚ c :: remove_conn c l.
Proof.
  induction l as [|d l IH]; intros H; [by apply not_elem_of_nil in H|]. simpl.
  destruct (decide (d = c)) as [->|Hne]; [done|].
  apply elem_of_cons in H as [->|H]; [done|]. rewrite (IH H) at 1. apply Permutation_swap.
Qed.

(** ** Connections are never duplicated or lost *)

Lemma release_conns cfg ok c p e closed p' :
  release_section cfg ok c p = (e, closed, p') ->
  p_idle p' ++ option_list closed ≡ₚ c :: p_idle p.
Proof.
  unfold release_section. destruct (_ && _); [|destruct ok]; intros [= <- <- <-]; simpl.
  - by rewrite Permutation_app_comm.
  - by rewrite app_nil_r.
  - by rewrite Permutation_app_comm.
Qed.

Lemma signal_conns wake s s' :
  signal wake s = Some s' -> all_conns s' ≡ₚ all_conns s /\ s_next s' = s_next s.
Proof.
  intros H. destruct (signal_spec _ _ _ H) as (E1 & E2 & E3 & E4 & _ & E5 & _).
  unfold all_conns. by rewrite E1, E2, E3, E5.
Qed.

Lemma goto_held i t t' s :
  s_threads s !! i = Some t ->
  holds t ++ held (s_threads (goto i t' s)) ≡ₚ holds t' ++ held (s_threads s).
Proof. apply held_insert. Qed.

Lemma lock_conns cfg i t timed_out now wake s s' :
  s_threads s !! i = Some t -> holds t = [] ->
  lock_step cfg i timed_out now wake s = Some s' ->
  all_conns s' ≡ₚ all_conns s /\ s_next s' = s_next s.
Proof.
  intros Ht Hh. unfold lock_step, acquire_section.
  pose proof (fun t' => goto_held i t t' s Ht) as G. rewrite Hh in G. simpl in G.
  destruct (p_idle (s_pool s)) as [|c rest] eqn:Ei; rewrite ?andb_true_r, ?andb_false_r.
  - destruct timed_out; [|destruct (must_wait cfg (s_pool s))]; intros [= <-];
      unfold all_conns; simpl; rewrite ?Ei, G; done.
  - unfold must_wait. rewrite Ei. simpl. destruct (expired cfg now c).
    + intros H%signal_conns. destruct H as [-> ->]. unfold all_conns. simpl.
      rewrite (G TLock), Ei. simpl. split; [solve_Permutation|done].
    + intros [= <-]. unfold all_conns. simpl. rewrite (G (TPing c)), Ei. simpl.
      split; [solve_Permutation|done].
Qed.

Lemma step_conns cfg ev s s' :
  sys_step cfg ev s = Some s' ->
  (all_conns s' ≡ₚ all_conns s /\ s_next s' = s_next s) \/
  (exists c, cn_id c = s_next s /\ all_conns s' ≡ₚ c :: all_conns s /\
     s_next s' = Pos.succ (s_next s)).
Proof.
  destruct ev as [i|i now wake|i|i|i r|i r created|i wake|c ok wake]; simpl.
  - destruct (s_threads s !! i) as [t|] eqn:E; [|done]. pose proof (goto_held i t TLock s E) as G.
    destruct t; try done. intros [= <-]. left. unfold all_conns. simpl in *. by rewrite G.
  - destruct (s_threads s !! i) as [t|] eqn:E; [|done].
    destruct t; try done; intros H; left; (eapply lock_conns; [exact E|done|exact H]).
  - destruct (s_threads s !! i) as [t|] eqn:E; [|done]. pose proof (goto_held i t TWoken s E) as G.
    destruct t; try done. intros [= <-]. left. unfold all_conns. simpl in *. by rewrite G.
  - destruct (_ <? _); [|done].
    destruct (s_threads s !! i) as [t|] eqn:E; [|done]. pose proof (goto_held i t TTimedOut s E) as G.
    destruct t; try done. intros [= <-]. left. unfold all_conns. simpl in *. by rewrite G.
  - destruct (s_threads s !! i) as [t|] eqn:E; [|done].
    pose proof (fun t' => goto_held i t t' s E) as G. destruct t as [| | | | |c| | |]; try done.
    simpl in G. destruct (decide (r = CORM_OK)); intros [= <-]; left; unfold all_conns; simpl.
    + pose proof (G TOut) as G'. simpl in G'. rewrite <- G'. split; [solve_Permutation|done].
    + pose proof (G TPingFailed) as G'. simpl in G'. rewrite <- G'. split; [solve_Permutation|done].
  - destruct (s_threads s !! i) as [t|] eqn:E; [|done].
    pose proof (fun t' => goto_held i t t' s E) as G. destruct t as [| | | | | | |n|]; try done.
    simpl in G. destruct (decide (r = CORM_OK)); [|destruct (_ <? _)]; intros [= <-].
    + right. exists (Conn (s_next s) created). unfold all_conns. simpl.
      pose proof (G TOut) as G'. simpl in G'. rewrite G'. split_and!; [done|solve_Permutation|done].
    + left. unfold all_conns. simpl. by rewrite (G (TOpening (n + 1))).
    + left. unfold all_conns. simpl. by rewrite (G (TOpenFailed r)).
  - destruct (s_threads s !! i) as [t|] eqn:E; [|done].
    pose proof (fun t' => goto_held i t t' s E) as G. destruct t; try done;
      intros H%signal_conns; destruct H as [-> ->]; left; unfold all_conns; simpl in *; by rewrite G.
  - destruct (decide (c ∈ s_borrowed s)) as [Hc|]; [|done].
    destruct (release_section cfg ok c (s_pool s)) as [[e closed] p] eqn:Er.
    pose proof (release_conns _ _ _ _ _ _ _ Er) as Hr. intros H%signal_conns. left.
    destruct H as [-> ->]. split; [|by destruct closed].
    assert (E : forall s0, all_conns match closed with Some c0 => close c0 s0 | None => s0 end ≡ₚ
      option_list closed ++ all_conns s0).
    { intros s0. destruct closed; [|done]. unfold all_conns. simpl. solve_Permutation. }
    rewrite E. unfold all_conns. simpl. rewrite (remove_conn_perm c (s_borrowed s) Hc) at 2.
    transitivity ((p_idle p ++ option_list closed) ++ remove_conn c (s_borrowed s) ++
      held (s_threads s) ++ s_closed s); [solve_Permutation|]. rewrite Hr. solve_Permutation.
Qed.

Lemma step_owned cfg ev s s' :
  sys_step cfg ev s = Some s' -> NoDup (map cn_id (all_conns s)) ->
  Forall (fun c => (cn_id c < s_next s)%positive) (all_conns s) ->
  NoDup (map cn_id (all_conns s')) /\
  Forall (fun c => (cn_id c < s_next s')%positive) (all_conns s').
Proof.
  intros H Hn Hf. destruct (step_conns _ _ _ _ H) as [[Hp ->]|(c & Hc & Hp & ->)]; rewrite Hp; simpl.
  - done.
  - split.
    + apply NoDup_cons. split; [|done]. rewrite Hc. intros Hin.
      apply list_elem_of_fmap in Hin as (d & Hd & Hin). rewrite Forall_forall in Hf.
      specialize (Hf d Hin). lia.
    + apply Forall_cons. split; [lia|]. eapply Forall_impl; [exact Hf|]. simpl. lia.
Qed.

(** ** Counters *)

(** The numeric part of the invariant; [k] more slots may be free than waiting
    threads have been woken for. *)
Record counts (k : Z) (cfg : corm_config) (s : sys) : Prop := {
  ct_open : p_current_open (s_pool s) = wrap_i32 (open_count s);
  ct_idle : p_idle_count (s_pool s) = wrap_i32 (zlen (p_idle (s_pool s)));
  ct_max_open : 0 < max_open_conns cfg -> open_count s <= max_open_conns cfg;
  ct_max_idle : 0 < max_idle_conns cfg -> zlen (p_idle (s_pool s)) <= max_idle_conns cfg;
  ct_unlimited : max_open_conns cfg <= 0 -> tsum waits (s_threads s) = 0;
  ct_wakeup : 0 < tsum waits (s_threads s) -> available cfg s <= tsum woken (s_threads s) + k
}.

Lemma zlen_nonneg {A} (l : list A) : 0 <= zlen l.
Proof. unfold zlen. lia. Qed.

Lemma zlen_cons {A} (x : A) l : zlen (x :: l) = zlen l + 1.
Proof. unfold zlen. simpl. lia. Qed.

Lemma slot_nonneg t : 0 <= slot t.
Proof. by destruct t. Qed.
Lemma waits_nonneg t : 0 <= waits t.
Proof. by destruct t. Qed.
Lemma woken_nonneg t : 0 <= woken t.
Proof. by destruct t. Qed.

Lemma open_count_nonneg s : 0 <= open_count s.
Proof.
  unfold open_count. pose proof (zlen_nonneg (p_idle (s_pool s))).
  pose proof (zlen_nonneg (s_borrowed s)). pose proof (tsum_nonneg slot (s_threads s) slot_nonneg). lia.
Qed.

Lemma signal_counts cfg wake s s' : counts 1 cfg s -> signal wake s = Some s' -> counts 0 cfg s'.
Proof.
  intros [] H. destruct (signal_spec _ _ _ H) as (E1 & E2 & E3 & E4 & E5 & _ & E6).
  assert (Ho : open_count s' = open_count s) by (unfold open_count; by rewrite E1, E2, E5).
  pose proof (tsum_nonneg waits (s_threads s') waits_nonneg).
  constructor; unfold available in *; rewrite ?Ho, ?E1; try done.
  - destruct E6 as [[? ->]|[? ?]]; lia.
  - destruct E6 as [[? ->]|[? ?]]; lia.
Qed.

(** A thread moves from [t] to [t'] while the pool changes to [p]: the counters
    of the new state. *)
Lemma goto_counts i t t' p s (f : tstate -> Z) :
  s_threads s !! i = Some t ->
  tsum f (s_threads (goto i t' (with_pool p s))) = tsum f (s_threads s) - f t + f t'.
Proof. intros H. simpl. by apply tsum_insert. Qed.

Ltac sums E :=
  rewrite ?(tsum_insert slot _ _ _ _ E), ?(tsum_insert waits _ _ _ _ E),
    ?(tsum_insert woken _ _ _ _ E) in *; cbn [slot waits woken is_wait b2z] in *.

(** Unfold everything, replace the sums, and leave linear arithmetic. *)
Ltac count_tac E :=
  constructor; unfold available, open_count in *; simpl in *; sums E;
  rewrite ?zlen_cons in *;
  try match goal with
  | H : p_current_open _ = _ |- context [p_current_open] => rewrite H
  | H : p_idle_count _ = _ |- context [p_idle_count] => rewrite H
  end; rewrite ?wrap_i32_add, ?wrap_i32_sub; first [lia | done | f_equal; lia | idtac].

Lemma wait_counts cfg s : cfg_ok cfg -> counts 0 cfg s ->
  must_wait cfg (s_pool s) = false -> p_idle (s_pool s) = [] -> 0 < max_open_conns cfg ->
  open_count s + 1 <= max_open_conns cfg.
Proof.
  intros [Hc _] [] Hw Hi Hm. unfold must_wait in Hw. rewrite Hi in Hw.
  rewrite andb_true_l in Hw. destruct (Z.ltb_spec 0 (max_open_conns cfg)); [|lia].
  rewrite andb_true_l in Hw. apply Z.leb_gt in Hw. pose proof (open_count_nonneg s).
  unfold in_i32 in *. rewrite ct_open0, wrap_i32_id in Hw by (unfold in_i32; lia). lia.
Qed.

Lemma must_wait_true cfg s : cfg_ok cfg -> counts 0 cfg s -> must_wait cfg (s_pool s) = true ->
  p_idle (s_pool s) = [] /\ 0 < max_open_conns cfg /\ open_count s = max_open_conns cfg.
Proof.
  intros [Hc _] [] Hw. unfold must_wait in Hw. destruct (p_idle (s_pool s)); [|done].
  apply andb_prop in Hw as [Hw1 Hw2]. rewrite andb_true_l in Hw1. apply Z.ltb_lt in Hw1.
  apply Z.leb_le in Hw2. pose proof (open_count_nonneg s). unfold in_i32 in *.
  rewrite ct_open0, wrap_i32_id in Hw2 by (unfold in_i32; lia). split; [done|lia].
Qed.

Lemma lock_counts cfg i t timed_out now wake s s' :
  cfg_ok cfg -> s_threads s !! i = Some t -> slot t = 0 -> waits t = 0 ->
  (woken t = 0 \/ timed_out = false) -> counts 0 cfg s ->
  lock_step cfg i timed_out now wake s = Some s' -> counts 0 cfg s'.
Proof.
  intros Hc Ht Hs0 Hw0 Hv0 Hct. unfold lock_step, acquire_section.
  destruct (timed_out && _) eqn:Eto.
  { (* gives up *)
    intros [= <-]. destruct Hct. destruct Hv0 as [Hv0| ->]; [|done]. count_tac Ht. }
  destruct (must_wait cfg (s_pool s)) eqn:Em.
  { destruct (must_wait_true cfg s Hc Hct Em) as (Hi & Hm & Ho). destruct Hct.
    pose proof (tsum_nonneg woken (s_threads s) woken_nonneg).
    pose proof (tsum_lookup woken _ _ _ woken_nonneg Ht).
    assert (Hz : zlen (p_idle (s_pool s)) = 0) by by rewrite Hi.
    intros [= <-]. count_tac Ht. }
  pose proof (tsum_nonneg woken (s_threads s) woken_nonneg).
  assert (Hvt : woken t <= 1) by (by destruct t).
  destruct (p_idle (s_pool s)) as [|c rest] eqn:Ei.
  - pose proof (wait_counts cfg s Hc Hct Em Ei) as Hroom. destruct Hct. intros [= <-].
    assert (Hz : zlen (p_idle (s_pool s)) = 0) by by rewrite Ei.
    unfold open_count in *. count_tac Ht.
  - destruct (expired cfg now c).
    + intros Hsg. eapply signal_counts; [|exact Hsg]. clear Hsg. destruct Hct.
      unfold open_count in *. rewrite Ei, zlen_cons in *. count_tac Ht.
    + destruct Hct. intros [= <-]. unfold open_count in *. rewrite Ei, zlen_cons in *. count_tac Ht.
Qed.

Lemma release_counts cfg c ok wake s s' :
  cfg_ok cfg -> c ∈ s_borrowed s -> counts 0 cfg s ->
  sys_step cfg (EvRelease c ok wake) s = Some s' -> counts 0 cfg s'.
Proof.
  intros [_ Hc] Hb Hct. simpl. rewrite decide_True by done.
  assert (Hl : zlen (s_borrowed s) = zlen (remove_conn c (s_borrowed s)) + 1).
  { rewrite <- (zlen_cons c). unfold zlen. by rewrite <- (remove_conn_perm c _ Hb). }
  destruct Hct. unfold release_section.
  destruct ((0 <? max_idle_conns cfg) && (max_idle_conns cfg <=? p_idle_count (s_pool s))) eqn:Ef;
    [|destruct ok]; intros Hsg; (eapply signal_counts; [|exact Hsg]); clear Hsg.
  2: assert (Hidle : 0 < max_idle_conns cfg -> zlen (p_idle (s_pool s)) + 1 <= max_idle_conns cfg).
  2: { intros Hm. specialize (ct_max_idle0 Hm). rewrite (proj2 (Z.ltb_lt _ _) Hm) in Ef.
       rewrite andb_true_l in Ef. apply Z.leb_gt in Ef. pose proof (zlen_nonneg (p_idle (s_pool s))).
       unfold in_i32 in *. rewrite ct_idle0, wrap_i32_id in Ef by (unfold in_i32; lia). lia. }
  all: constructor; unfold available, open_count in *; simpl in *; rewrite ?zlen_cons in *;
    try match goal with
    | H : p_current_open _ = _ |- context [p_current_open] => rewrite H
    | H : p_idle_count _ = _ |- context [p_idle_count] => rewrite H
    end; rewrite ?wrap_i32_add, ?wrap_i32_sub; first [lia | done | f_equal; lia].
Qed.

Lemma step_counts cfg ev s s' :
  cfg_ok cfg -> counts 0 cfg s -> sys_step cfg ev s = Some s' -> counts 0 cfg s'.
Proof.
  intros Hc Hct. destruct ev as [i|i now wake|i|i|i r|i r created|i wake|c ok wake].
  8: { intros H. pose proof H as H'. simpl in H'.
       destruct (decide (c ∈ s_borrowed s)) as [Hb|]; [|done]. by eapply release_counts. }
  all: simpl.
  4: destruct (_ <? _); [|done].
  all: destruct (s_threads s !! i) as [t|] eqn:E; [|done].
  all: destruct t; try done.
  (* the lock is taken *)
  all: try (intros H; eapply lock_counts; [done|exact E|done|done|first [by left|by right]|done|exact H]).
  (* the slot is given back *)
  all: try (intros Hsg; eapply signal_counts; [|exact Hsg]; destruct Hct; count_tac E).
  all: pose proof (tsum_lookup waits _ _ _ waits_nonneg E) as Hw; cbn in Hw; destruct Hct; repeat (destruct (decide _) || destruct (_ <? _)); intros [= <-]; count_tac E.
Qed.

(** ** The invariant *)

Lemma counts_inv cfg s :
  pool_inv cfg s <->
  counts 0 cfg s /\ NoDup (map cn_id (all_conns s)) /\
  Forall (fun c => (cn_id c < s_next s)%positive) (all_conns s).
Proof.
  split.
  - intros []. split_and!; [|done..]. constructor; try done. intros Hw. specialize (pi_wakeup0 Hw). lia.
  - intros ([] & ? & ?). constructor; try done. intros Hw. specialize (ct_wakeup0 Hw). lia.
Qed.

Lemma step_inv cfg ev s s' :
  cfg_ok cfg -> pool_inv cfg s -> sys_step cfg ev s = Some s' -> pool_inv cfg s'.
Proof.
  intros Hc [Hct [Hn Hf]]%counts_inv H. apply counts_inv. split; [by eapply step_counts|].
  by eapply step_owned.
Qed.

(** The pool as [corm_pool_create] leaves it, and [n] threads. *)
Definition sys_init (n : nat) : sys := Sys pool_create (replicate n TOut) [] [] 1%positive.

Inductive pool_step (cfg : corm_config) : sys -> sys -> Prop :=
  | pool_step_intro ev s s' : sys_step cfg ev s = Some s' -> pool_step cfg s s'.

Definition reachable (cfg : corm_config) (n : nat) (s : sys) : Prop :=
  star (pool_step cfg) (sys_init n) s.

Lemma tsum_out f n : f TOut = 0 -> tsum f (replicate n TOut) = 0.
Proof. intros Hf. induction n as [|n IH]; simpl; lia. Qed.

Lemma held_out n : held (replicate n TOut) = [].
Proof. induction n as [|n IH]; [done|]. exact IH. Qed.

Lemma init_inv cfg n : pool_inv cfg (sys_init n).
Proof.
  constructor; unfold open_count, all_conns, available; simpl; rewrite ?held_out, ?tsum_out by done.
  - done.
  - done.
  - unfold zlen. simpl. lia.
  - unfold zlen. simpl. lia.
  - done.
  - lia.
  - constructor.
  - constructor.
Qed.

Lemma reachable_inv cfg n s : cfg_ok cfg -> reachable cfg n s -> pool_inv cfg s.
Proof.
  intros Hc Hr. eapply (star_invariant (pool_step cfg) (pool_inv cfg)); [|exact Hr|apply init_inv].
  intros a b Ha Hs. destruct Hs as [ev s1 s2 Hs]. eapply step_inv; eassumption.
Qed.

Lemma woken_exists ts : 0 < tsum woken ts -> exists j, ts !! j = Some TWoken.
Proof.
  induction ts as [|t ts IH]; simpl; [lia|]. intros H. destruct t; simpl in H;
    try (destruct (IH ltac:(lia)) as [j Hj]; by exists (S j)). by exists O.
Qed.

(** Run a list of events. *)
Fixpoint run_events (cfg : corm_config) (evs : list event) (s : sys) : option sys :=
  match evs with
  | [] => Some s
  | ev :: evs' => s' ← sys_step cfg ev s; run_events cfg evs' s'
  end.

Lemma run_events_reachable cfg n evs s :
  run_events cfg evs (sys_init n) = Some s -> reachable cfg n s.
Proof.
  unfold reachable. assert (G : forall s0, star (pool_step cfg) (sys_init n) s0 ->
    run_events cfg evs s0 = Some s -> star (pool_step cfg) (sys_init n) s).
  { induction evs as [|ev evs IH]; intros s0 H0 H; simpl in H; [by simplify_eq|].
    destruct (sys_step cfg ev s0) as [s1|] eqn:E; [|done]. simpl in H.
    apply (IH s1); [|done]. eapply star_snoc; [done|]. by econstructor. }
  apply G. constructor.
Qed.

(** ** The sequential behaviour of acquire *)

Section alone.
Context (cfg : corm_config) (ping : conn -> corm_err) (now_ms : conn -> Z)
  (open_result : Z -> corm_err * conn).

(** A connection that is closed instead of reused. *)
Definition stale (c : conn) : bool :=
  expired cfg (now_ms c) c || bool_decide (ping c <> CORM_OK).

(** The stale connections at the front of the idle list, and the rest. *)
Fixpoint split_stale (l : list conn) : list conn * list conn :=
  match l with
  | [] => ([], [])
  | c :: l' => if stale c then let '(bad, rest) := split_stale l' in (c :: bad, rest) else ([], l)
  end.

(** The result once the stale connections are gone. *)
Definition acquire_rest (p : pool) (bad rest : list conn) :
    option (corm_err * option conn * pool * list conn) :=
  let ic := p_idle_count p - zlen bad in
  let po := p_current_open p - zlen bad in
  match rest with
  | c :: rest' => Some (CORM_OK, Some c, Pool rest' (wrap_i32 (ic - 1)) (wrap_i32 po), rev bad)
  | [] =>
      let p := Pool [] (wrap_i32 ic) (wrap_i32 po) in
      if must_wait cfg p then
        if 0 <? timeout_ms cfg then Some (CORM_ERR_GENERIC, None, p, rev bad) else None
      else
        match open_loop open_result 3 0 with
        | (err, Some db) => Some (err, Some db, open_incr p, rev bad)
        | (err, None) => Some (err, None, p, rev bad)
        end
  end.

Lemma acquire_alone_spec fuel p closed :
  (length (p_idle p) < fuel)%nat -> in_i32 (p_idle_count p) -> in_i32 (p_current_open p) ->
  acquire_alone cfg ping now_ms open_result fuel p closed =
    (fun '(e, db, p, bad) => (e, db, p, bad ++ closed)) <$>
      acquire_rest p (split_stale (p_idle p)).1 (split_stale (p_idle p)).2.
Proof.
  revert p closed. induction fuel as [|fuel IH]; intros [idle ic po] closed Hf Hic Hpo; [lia|].
  cbn [p_idle p_idle_count p_current_open] in *.
  cbn [acquire_alone]. unfold acquire_section. cbn [p_idle p_idle_count p_current_open].
  rewrite andb_false_l.
  destruct idle as [|c rest].
  - unfold acquire_rest. cbn [split_stale fst snd p_idle_count p_current_open rev].
    change (zlen []) with 0. rewrite !Z.sub_0_r, (wrap_i32_id ic Hic), (wrap_i32_id po Hpo).
    destruct (must_wait cfg _); [by destruct (0 <? timeout_ms cfg)|].
    destruct (open_loop open_result 3 0) as [err [db|]]; simpl; [done|].
    unfold open_decr, open_incr. simpl. by rewrite wrap_i32_sub, Z.add_simpl_r, (wrap_i32_id po Hpo).
  - assert (must_wait cfg (Pool (c :: rest) ic po) = false) as -> by done.
    assert (Hnext : stale c = true ->
      acquire_alone cfg ping now_ms open_result fuel
        (Pool rest (wrap_i32 (ic - 1)) (wrap_i32 (po - 1))) (c :: closed) =
      (fun '(e, db, p, bad) => (e, db, p, bad ++ closed)) <$>
        acquire_rest (Pool (c :: rest) ic po) (split_stale (c :: rest)).1 (split_stale (c :: rest)).2).
    { intros Hs. simpl in Hf. rewrite IH by (simpl; first [lia | apply wrap_i32_range]).
      simpl. rewrite Hs. destruct (split_stale rest) as [bad rest']. unfold acquire_rest. simpl.
      rewrite zlen_cons, !wrap_i32_sub.
      replace (wrap_i32 (ic - 1) - zlen bad - 1) with (wrap_i32 (ic - 1) - (zlen bad + 1)) by lia.
      rewrite !wrap_i32_sub.
      replace (ic - 1 - (zlen bad + 1)) with (ic - (zlen bad + 1) - 1) by lia.
      replace (ic - 1 - zlen bad) with (ic - (zlen bad + 1)) by lia.
      replace (po - 1 - zlen bad) with (po - (zlen bad + 1)) by lia.
      destruct rest' as [|d rest']; simpl; [|by rewrite <- app_assoc].
      destruct (must_wait cfg _); [destruct (0 <? timeout_ms cfg); simpl; by rewrite <- ?app_assoc|].
      destruct (open_loop open_result 3 0) as [err [db|]]; simpl; by rewrite <- app_assoc. }
    unfold open_decr. cbn [p_idle p_idle_count p_current_open].
    destruct (expired cfg (now_ms c) c) eqn:Ex; [apply Hnext; unfold stale; by rewrite Ex|].
    destruct (decide (ping c = CORM_OK)) as [Hp|Hp].
    + cbn [split_stale]. unfold stale. rewrite Ex, bool_decide_false by (by intros ?).
      unfold acquire_rest. cbn. change (zlen []) with 0. by rewrite !Z.sub_0_r, (wrap_i32_id po Hpo).
    + apply Hnext. unfold stale. rewrite Ex. by apply bool_decide_true.
Qed.
End alone.
