(* ===== verification/PoolProps.v ===== *)
(** * Properties of the connection pool *)

From S2P Require Import Prelude Types Pool PoolSpec.

(** ** The properties *)

(** C14: capacity: however the threads interleave, [current_open] is exactly the
    number of connections that are idle, borrowed, being opened or being checked,
    it never exceeds [max_open_conns] when there is a limit, and the idle list
    never exceeds [max_idle_conns]. *)
Theorem pool_capacity cfg n s :
  cfg_ok cfg -> reachable cfg n s ->
  (0 < max_open_conns cfg ->
     p_current_open (s_pool s) = open_count s /\ open_count s <= max_open_conns cfg) /\
  (0 < max_idle_conns cfg ->
     p_idle_count (s_pool s) = zlen (p_idle (s_pool s)) /\
     zlen (p_idle (s_pool s)) <= max_idle_conns cfg).
Proof.
  intros Hc Hr. destruct (reachable_inv cfg n s Hc Hr). destruct Hc as [Hm Hi].
  unfold in_i32 in *. pose proof (open_count_nonneg s). pose proof (zlen_nonneg (p_idle (s_pool s))).
  split; intros Hlim.
  - specialize (pi_max_open Hlim). rewrite pi_open, wrap_i32_id by (unfold in_i32; lia). done.
  - specialize (pi_max_idle Hlim). rewrite pi_idle, wrap_i32_id by (unfold in_i32; lia). done.
Qed.

(** C15: exclusive ownership: a connection that is lent to a caller is not lent
    to another one, is not in the idle list, is not being checked by a thread
    inside [corm_pool_acquire], and has not been closed. *)
Theorem pool_exclusive cfg n s before c after :
  cfg_ok cfg -> reachable cfg n s -> s_borrowed s = before ++ c :: after ->
  (c ∉ before ++ after) /\ (c ∉ p_idle (s_pool s)) /\ (c ∉ s_closed s) /\
  forall i, s_threads s !! i <> Some (TPing c).
Proof.
  intros Hc Hr Hb. destruct (reachable_inv cfg n s Hc Hr) as [_ _ _ _ _ _ Hn _].
  apply NoDup_fmap_1 in Hn. unfold all_conns in Hn. rewrite Hb in Hn.
  assert (Hp : p_idle (s_pool s) ++ (before ++ c :: after) ++ held (s_threads s) ++ s_closed s ≡ₚ
    c :: (before ++ after) ++ p_idle (s_pool s) ++ s_closed s ++ held (s_threads s))
    by solve_Permutation.
  rewrite Hp in Hn. apply NoDup_cons in Hn as [Hn _].
  rewrite !not_elem_of_app in Hn. destruct Hn as ([Hn1 Hn2] & Hn3 & Hn4 & Hn5).
  rewrite not_elem_of_app. split_and!; try done. intros i Hi. apply Hn5.
  unfold held. apply list_elem_of_In, in_concat. exists [c]. split; [|by left].
  apply in_map_iff. exists (TPing c). split; [done|]. apply list_elem_of_In.
  by eapply list_elem_of_lookup_2.
Qed.

(** C16: no lost wake-up: whenever a thread waits although a connection or a
    slot is free, another thread has been woken, its next step is possible, and
    that step does not lead back into the wait. *)
Theorem pool_no_lost_wakeup cfg n s i now :
  cfg_ok cfg -> reachable cfg n s -> s_threads s !! i = Some TWait ->
  must_wait cfg (s_pool s) = false ->
  exists j wake s', s_threads s !! j = Some TWoken /\
    sys_step cfg (EvLock j now wake) s = Some s' /\ s_threads s' !! j <> Some TWait.
Proof.
  intros Hc Hr Hi Hw. pose proof (reachable_inv cfg n s Hc Hr) as Hinv.
  pose proof (tsum_lookup waits _ _ _ waits_nonneg Hi) as Hwaits. cbn in Hwaits.
  assert (Hav : 0 < available cfg s).
  { destruct (Z.leb_spec (max_open_conns cfg) 0) as [Hm|Hm].
    { pose proof (pi_unlimited _ _ Hinv Hm). lia. }
    unfold available. pose proof (pi_max_open _ _ Hinv Hm).
    destruct (p_idle (s_pool s)) as [|c rest] eqn:Ei; [|rewrite zlen_cons; pose proof (zlen_nonneg rest); lia].
    pose proof Hinv as [Hct _]%counts_inv. pose proof (wait_counts cfg s Hc Hct Hw Ei Hm).
    change (zlen []) with 0. lia. }
  pose proof (pi_wakeup _ _ Hinv ltac:(lia)).
  destruct (woken_exists (s_threads s) ltac:(lia)) as [j Hj].
  assert (Hij : i <> j) by congruence. pose proof (lookup_lt_Some _ _ _ Hj) as Hlt.
  exists j, (Some i). simpl. rewrite Hj. unfold lock_step, acquire_section. simpl. rewrite Hw.
  destruct (p_idle (s_pool s)) as [|c rest]; [|destruct (expired cfg now c)];
    simpl; rewrite ?list_lookup_insert_ne, ?Hi by done; eexists; (split; [done|]); (split; [done|]);
    simpl; rewrite ?list_lookup_insert_ne by done; by rewrite list_lookup_insert_eq.
Qed.

(** C17: alone, an acquire always ends, and with the right result: the stale
    connections at the front of the idle list (too old, or not answering) are
    closed and taken off the books, the first good one is handed out; with none
    left a new connection is opened with at most three tries, unless the limit
    is reached, which is an error after the timeout (without a timeout, and only
    then, the call waits for ever). *)
Theorem pool_acquire_alone cfg ping now_ms open_result p :
  in_i32 (p_idle_count p) -> in_i32 (p_current_open p) ->
  corm_pool_acquire cfg ping now_ms open_result (Some p) true =
    (fun '(e, db, p', closed) => (e, db, Some p', closed)) <$>
      acquire_rest cfg open_result p (split_stale cfg ping now_ms (p_idle p)).1
        (split_stale cfg ping now_ms (p_idle p)).2.
Proof.
  intros Hi Ho. unfold corm_pool_acquire.
  rewrite (acquire_alone_spec cfg ping now_ms open_result (S (length (p_idle p))) p []) by (done || lia).
  destruct (acquire_rest _ _ _ _ _) as [[[[e db] p'] closed]|]; simpl; [|done].
  by rewrite app_nil_r.
Qed.

(** ** The properties at concrete inputs *)

Definition sample_cfg : corm_config := Config 1 1 0 1000 false 0.

(** One connection, two threads: the second waits, and is woken by the release. *)
Definition sample_events : list event :=
  [EvCall 0; EvLock 0 0 None; EvOpen 0 CORM_OK 5; EvCall 1; EvLock 1 0 None; EvCall 0;
   EvLock 0 0 None; EvRelease (Conn 1%positive 5) true (Some 1%nat)].

Definition sample_state : sys := default (sys_init 2) (run_events sample_cfg sample_events (sys_init 2)).
Definition busy_state : sys :=
  default (sys_init 2) (run_events sample_cfg (take 3 sample_events) (sys_init 2)).

Lemma pool_capacity_witness :
  (0 < 1 -> p_current_open (s_pool sample_state) = open_count sample_state /\
            open_count sample_state <= 1) /\
  (0 < 1 -> p_idle_count (s_pool sample_state) = zlen (p_idle (s_pool sample_state)) /\
            zlen (p_idle (s_pool sample_state)) <= 1).
Proof.
  apply (pool_capacity sample_cfg 2 sample_state).
  - split; split; (discriminate || reflexivity).
  - apply (run_events_reachable _ _ sample_events). vm_compute. reflexivity.
Defined.

Lemma pool_exclusive_witness :
  let c := Conn 1%positive 5 in
  (c ∉ [] ++ []) /\ (c ∉ p_idle (s_pool busy_state)) /\ (c ∉ s_closed busy_state) /\
  forall i, s_threads busy_state !! i <> Some (TPing c).
Proof.
  apply (pool_exclusive sample_cfg 2 busy_state [] (Conn 1%positive 5) []).
  - split; split; (discriminate || reflexivity).
  - apply (run_events_reachable _ _ (take 3 sample_events)). vm_compute. reflexivity.
  - vm_compute. reflexivity.
Defined.

Lemma pool_no_lost_wakeup_witness :
  exists j wake s', s_threads sample_state !! j = Some TWoken /\
    sys_step sample_cfg (EvLock j 7 wake) sample_state = Some s' /\
    s_threads s' !! j <> Some TWait.
Proof.
  apply (pool_no_lost_wakeup sample_cfg 2 sample_state 0%nat 7).
  - split; split; (discriminate || reflexivity).
  - apply (run_events_reachable _ _ sample_events). vm_compute. reflexivity.
  - vm_compute. reflexivity.
  - vm_compute. reflexivity.
Defined.

Definition stale_pool : pool := Pool [Conn 1%positive 0; Conn 2%positive 0; Conn 3%positive 9] 3 4.

Lemma pool_acquire_alone_witness :
  corm_pool_acquire (Config 4 0 5 1000 false 0)
    (fun c => if decide (cn_id c = 2%positive) then CORM_ERR_BACKEND else CORM_OK) (fun _ => 10)
    (fun _ => (CORM_ERR_BACKEND, Conn 4%positive 10)) (Some stale_pool) true =
  Some (CORM_OK, Some (Conn 3%positive 9), Some (Pool [] 0 2), [Conn 2%positive 0; Conn 1%positive 0]).
Proof.
  etransitivity;
    [apply (pool_acquire_alone (Config 4 0 5 1000 false 0)); split; (discriminate || reflexivity)|].
  vm_compute. reflexivity.
Defined.

(** A thread whose wait timed out gives up although the limit leaves a slot
    free, as long as no connection is idle. *)
Example timeout_ignores_free_slot :
  acquire_section sample_cfg true 0 (Pool [] 0 0) = AqTimeout.
Proof. reflexivity. Qed.
