(* ===== verification/Stdio.v ===== *)
(** * Programs that print

    The example programs write to [stdout].  [io S A] is a program of the monad
    [M S] that also collects what it prints, call by call.  [printf] knows the
    conversions the examples use. *)

From S2P Require Import Prelude Types Mem Float CLib.
From Stdlib Require Import SpecFloat.

(** ** [printf] *)

Inductive parg : Type :=
  | PS (s : string)                  (* const char pointer *)
  | PI (z : Z)                       (* int or long long *)
  | PF (bits : Z).                   (* double *)

(** [%.1f]: the exact value rounded to one decimal, ties to even. *)
Definition format_f1 (bits : Z) : string :=
  let sign := if Z.testbit bits 63 then "-" else "" in
  let tenths n := pretty (n / 10) +:+ "." +:+ pretty (n mod 10) in
  sign +:+
  match float_decode binary64 bits with
  | S754_zero _ => "0.0"
  | S754_infinity _ => "inf"
  | S754_nan => "nan"
  | S754_finite _ m e =>
      tenths (if 0 <=? e then Zpos m * 2 ^ e * 10 else div_even (Zpos m * 10) (2 ^ (- e)))
  end.

Fixpoint blanks (n : nat) : string :=
  match n with O => "" | S n => String " " (blanks n) end.

(** [%-8s]: padded on the right. *)
Definition pad_right (n : nat) (s : string) : string := s +:+ blanks (n - String.length s).

Fixpoint printf_text (fmt : string) (args : list parg) : option string :=
  match fmt with
  | EmptyString => Some EmptyString
  | String "%" (String "s" fmt') =>
      match args with
      | PS s :: args' => r ← printf_text fmt' args'; Some (s +:+ r)
      | _ => None
      end
  | String "%" (String "d" fmt') =>
      match args with
      | PI z :: args' => r ← printf_text fmt' args'; Some (pretty z +:+ r)
      | _ => None
      end
  | String "%" (String "l" (String "l" (String "d" fmt'))) =>
      match args with
      | PI z :: args' => r ← printf_text fmt' args'; Some (pretty z +:+ r)
      | _ => None
      end
  | String "%" (String "." (String "1" (String "f" fmt'))) =>
      match args with
      | PF bits :: args' => r ← printf_text fmt' args'; Some (format_f1 bits +:+ r)
      | _ => None
      end
  | String "%" (String "-" (String "8" (String "s" fmt'))) =>
      match args with
      | PS s :: args' => r ← printf_text fmt' args'; Some (pad_right 8 s +:+ r)
      | _ => None
      end
  | String c fmt' => r ← printf_text fmt' args; Some (String c r)
  end.

Definition NL : string := String "010" EmptyString.

(** A text that ends a line. *)
Definition ln (s : string) : string := s +:+ NL.

Example printf_examples :
  (printf_text "%d. [%d] %s: %.1f" [PI 1; PI 7; PS "Ann"; PF (strtod "95.5")],
   printf_text "%-8s %.1f" [PS "Bob"; PF (f32_to_f64 (f64_to_f32 (strtod "88.1")))],
   map format_f1 (map strtod ["0.25"; "0.35"; "-0.05"; "1e3"; "99.95"])) =
  (Some "1. [7] Ann: 95.5", Some "Bob      88.1", ["0.2"; "0.3"; "-0.1"; "1000.0"; "100.0"]).
Proof. vm_compute. reflexivity. Qed.

(** ** The monad *)

Definition io (S A : Type) : Type := M S (A * list string).

#[export] Instance io_ret {S} : MRet (io S) := fun A a => fun w => Ret (a, []) w.
#[export] Instance io_bind {S} : MBind (io S) := fun A B k m => fun w =>
  match m w with
  | Ret (a, out) w' =>
      match k a w' with
      | Ret (b, out') w'' => Ret (b, out ++ out') w''
      | Stuck => Stuck
      end
  | Stuck => Stuck
  end.

Section io.
Context {S : Type}.
Implicit Types (w : world S).

(** A call that prints nothing. *)
Definition call {A} (m : M S A) : io S A := fun w =>
  match m w with Ret a w' => Ret (a, []) w' | Stuck => Stuck end.

Definition printf (fmt : string) (args : list parg) : io S unit := fun w =>
  match printf_text fmt args with Some text => Ret (tt, [text]) w | None => Stuck end.

(** ** Reasoning

    [does I m Q]: started in a world that satisfies [I], the program [m] is not
    stuck and ends with [Q], whatever it prints. *)
Definition does (I : world S -> Prop) {A} (m : io S A) (Q : A -> world S -> Prop) : Prop :=
  forall w, I w -> exists a out w', m w = Ret (a, out) w' /\ Q a w'.

Lemma does_ret (I : world S -> Prop) {A} (a : A) (Q : A -> world S -> Prop) :
  (forall w, I w -> Q a w) -> does I (mret a) Q.
Proof. intros HQ w Hw. exists a, [], w. split; [done|auto]. Qed.

Lemma does_bind (I : world S -> Prop) {A B} (m : io S A) (k : A -> io S B)
    (R : A -> world S -> Prop) (Q : B -> world S -> Prop) :
  does I m R -> (forall a, does (R a) (k a) Q) -> does I (m ≫= k) Q.
Proof.
  intros Hm Hk w Hw. destruct (Hm w Hw) as (a & o1 & w1 & E1 & H1).
  destruct (Hk a w1 H1) as (b & o2 & w2 & E2 & H2).
  exists b, (o1 ++ o2), w2. split; [|done]. unfold mbind, io_bind. by rewrite E1, E2.
Qed.

Lemma does_call (I : world S -> Prop) {A} (m : M S A) (Q : A -> world S -> Prop) :
  (forall w, I w -> exists a w', m w = Ret a w' /\ Q a w') -> does I (call m) Q.
Proof.
  intros Hm w Hw. destruct (Hm w Hw) as (a & w' & E & HQ). exists a, [], w'.
  split; [|done]. unfold call. by rewrite E.
Qed.

Lemma does_printf (I : world S -> Prop) fmt args :
  is_Some (printf_text fmt args) -> does I (printf fmt args) (fun _ => I).
Proof.
  intros [text Ht] w Hw. exists tt, [text], w. unfold printf. by rewrite Ht.
Qed.

Lemma does_conseq (I I' : world S -> Prop) {A} (m : io S A) (Q Q' : A -> world S -> Prop) :
  does I m Q -> (forall w, I' w -> I w) -> (forall a w, Q a w -> Q' a w) -> does I' m Q'.
Proof.
  intros Hm HI HQ w Hw. destruct (Hm w (HI w Hw)) as (a & o & w' & E & H'). eauto 10.
Qed.

Lemma does_pure (phi : Prop) (I : world S -> Prop) {A} (m : io S A) (Q : A -> world S -> Prop) :
  (phi -> does I m Q) -> does (fun w => phi /\ I w) m Q.
Proof. intros Hm w [Hp Hw]. by apply Hm. Qed.

Lemma does_exists {X} (I : X -> world S -> Prop) {A} (m : io S A) (Q : A -> world S -> Prop) :
  (forall x, does (I x) m Q) -> does (fun w => exists x, I x w) m Q.
Proof. intros Hm w [x Hw]. by apply (Hm x). Qed.
End io.
