(* ===== verification/Migration.v ===== *)
(** * Automatic migration ([src/migration.c])

    The statements [create_table] and [corm_auto_migrate] build, and the order in
    which they are executed. *)

From S2P Require Import Prelude Types Mem Strbuf Dialect Model Backend Query Builder Core.

(** [(c, d)]: the text before and after the first [.] of a reference. *)
Definition references_of (fk : string) : string :=
  match split_at "." fk with
  | Some (table, column) => table +:+ ("(" +:+ (column +:+ ")"))
  | None => fk +:+ "(id)"
  end.

Definition type_of (bt : corm_backend_type) (f : field) : string :=
  corm_dialect_type_name_str bt (f_type f) (f_size f) TYPE_BUF.

Definition is_primary (f : field) : bool := has_flag (f_flags f) CORM_FLAG_PRIMARY.

Definition pk_count (fs : list field) : Z :=
  Z.of_nat (length (filter (fun f => is_primary f = true) fs)).

Section statements.
Context {S : Type}.

(** NOT NULL, UNIQUE and DEFAULT, the same in CREATE TABLE and ALTER TABLE. *)
Definition constraints (f : field) (sql : strbuf) : M S strbuf :=
  sql ← (if has_flag (f_flags f) CORM_FLAG_NOT_NULL then sb_add sql " NOT NULL" else mret sql);
  sql ← (if has_flag (f_flags f) CORM_FLAG_UNIQUE then sb_add sql " UNIQUE" else mret sql);
  match f_default_value f with
  | Some d => if nonempty d then sb_addf sql " DEFAULT %s" [FS d] else mret sql
  | None => mret sql
  end.

Definition foreign_key (f : field) (sql : strbuf) : M S strbuf :=
  match f_fk_ref f with
  | Some fk =>
      sql ← sb_add sql " REFERENCES ";
      match split_at "." fk with
      | Some (table, column) =>
          sql ← sb_addn sql fk (slen table);
          sql ← sb_add sql "(";
          sql ← sb_add sql column;
          sb_add sql ")"
      | None => sql ← sb_add sql fk; sb_add sql "(id)"
      end
  | None => mret sql
  end.

(** What follows the type of a column of CREATE TABLE. *)
Definition column_tail (pks : Z) (f : field) (sql : strbuf) : M S strbuf :=
  sql ← constraints f sql;
  sql ← (if is_primary f && (pks =? 1) then sb_add sql " PRIMARY KEY" else mret sql);
  foreign_key f sql.

Definition column_def (bt : corm_backend_type) (pks : Z) (f : field) (sql : strbuf) :
    M S strbuf :=
  n ← deref (f_name f);
  sql ← qident sql bt n;
  if has_flag (f_flags f) CORM_FLAG_AUTOINC then
    match bt with
    | CORM_BACKEND_MYSQL =>
        sql ← sb_addf sql " %s AUTO_INCREMENT" [FS (type_of bt f)];
        column_tail pks f sql
    | _ => sb_addf sql " %s" [FS (corm_dialect_autoinc bt)]
    end
  else
    sql ← sb_addf sql " %s" [FS (type_of bt f)];
    column_tail pks f sql.

Definition create_table_sql (bt : corm_backend_type) (m : model S) (sql : strbuf) : M S strbuf :=
  sql ← sb_addf sql "CREATE TABLE %s " [FS (corm_dialect_if_not_exists bt)];
  name ← deref (m_table_name m);
  sql ← qident sql bt name;
  sql ← sb_add sql " (";
  fs ← deref (model_fields m);
  let pks := pk_count fs in
  sql ← sep_fields fs (fun _ => false) (fun f _ sql => column_def bt pks f sql) sql;
  sql ← (if 1 <? pks then
           sql ← sb_add sql ", PRIMARY KEY (";
           sql ← sep_fields fs (fun f => negb (is_primary f))
                   (fun f _ sql => n ← deref (f_name f); qident sql bt n) sql;
           sb_add sql ")"
         else mret sql);
  sb_add sql ")".

Definition alter_sql (bt : corm_backend_type) (m : model S) (f : field) (sql : strbuf) :
    M S strbuf :=
  name ← deref (m_table_name m);
  n ← deref (f_name f);
  let lq := corm_dialect_quote bt in
  sql ← sb_addf sql "ALTER TABLE %s%s%s ADD COLUMN %s%s%s %s"
          [FS lq; FS name; FS lq; FS lq; FS n; FS lq; FS (type_of bt f)];
  sql ← constraints f sql;
  sb_add sql ";".

Definition index_sql (bt : corm_backend_type) (m : model S) (f : field) (sql : strbuf) :
    M S strbuf :=
  name ← deref (m_table_name m);
  n ← deref (f_name f);
  let tq := corm_dialect_quote bt in
  let fq := corm_dialect_quote bt in
  sb_addf sql "CREATE INDEX IF NOT EXISTS %sidx_%s_%s%s ON %s%s%s(%s%s%s)"
    [FS tq; FS name; FS n; FS tq; FS tq; FS name; FS tq; FS fq; FS n; FS fq].

(** The loop over [existing], from element [k] on: is there a column called
    [name]? *)
Fixpoint column_found (existing : loc) (k n : nat) (name : string) : M S bool :=
  match n with
  | O => mret false
  | Datatypes.S n =>
      c ← column_at existing k;
      s ← read_str (ci_name c);
      if String.eqb s name then mret true else column_found existing (Datatypes.S k) n name
  end.
End statements.

Section migration.
Context {D C X E : Type}.
#[local] Abbreviation S := (proc D C X E).
Implicit Types (db : option (option (backend S))) (m : model S).

(** [corm_exec] of what [build] leaves in a new buffer. *)
Definition exec_built db (build : strbuf -> M S strbuf) : M S corm_err :=
  sql ← build corm_strbuf_init;
  text ← corm_strbuf_cstr sql;
  corm_exec db text.

Definition create_table db (bt : corm_backend_type) m : M S corm_err :=
  exec_built db (create_table_sql bt m).

(** [describe_table] when the driver has it. *)
Definition describe db (table : option string) : M S (corm_err * (option loc * Z)) :=
  b ← deref (mjoin db);
  match be_describe_table b with
  | Some f => t ← deref table; f t
  | None => mret (CORM_ERR_GENERIC, (None, 0))
  end.

(** Does the loop skip [f]? *)
Definition column_exists (desc_err : corm_err) (existing : option loc) (existing_count : Z)
    (f : field) : M S bool :=
  match desc_err, existing with
  | CORM_OK, Some l => n ← deref (f_name f); column_found l 0 (Z.to_nat existing_count) n
  | _, _ => mret false
  end.

Definition add_column db bt m desc_err existing existing_count (f : field) (u : unit) : M S unit :=
  if is_primary f then mret tt
  else
    found ← column_exists desc_err existing existing_count f;
    if (found : bool) then mret tt else exec_built db (alter_sql bt m f);; mret tt.

Definition add_index db bt m (f : field) (u : unit) : M S unit :=
  if has_flag (f_flags f) CORM_FLAG_INDEX
  then exec_built db (index_sql bt m f);; mret tt else mret tt.

Fixpoint migrate_loop db (bt : corm_backend_type) (count : nat) (models : list (option (model S))) :
    M S corm_err :=
  match count with
  | O => mret CORM_OK
  | Datatypes.S count =>
      match models with
      | [] => stuck
      | mo :: models =>
          m ← deref mo;
          ct_err ← create_table db bt m;
          if is_err ct_err then mret ct_err
          else
            '(desc_err, (existing, existing_count)) ← describe db (m_table_name m);
            fs ← deref (model_fields m);
            for_each fs (add_column db bt m desc_err existing existing_count) tt;;
            corm_column_info_free existing existing_count;;
            for_each fs (add_index db bt m) tt;;
            migrate_loop db bt count models
      end
  end.

Definition corm_auto_migrate db (models : option (list (option (model S)))) (model_count : Z) :
    M S corm_err :=
  match db, models with
  | Some b, Some models =>
      b ← deref b;
      migrate_loop db (be_type b) (Z.to_nat model_count) models
  | _, _ => mret CORM_ERR_NULL
  end.
End migration.

(** ** The texts *)

Section texts.
Context {S : Type}.

Definition constraints_text (f : field) : string :=
  when (has_flag (f_flags f) CORM_FLAG_NOT_NULL) " NOT NULL" +:+
  (when (has_flag (f_flags f) CORM_FLAG_UNIQUE) " UNIQUE" +:+
   match f_default_value f with
   | Some d => when (nonempty d) (" DEFAULT " +:+ d)
   | None => ""
   end).

Definition foreign_key_text (f : field) : string :=
  match f_fk_ref f with Some fk => " REFERENCES " +:+ references_of fk | None => "" end.

Definition tail_text (pks : Z) (f : field) : string :=
  constraints_text f +:+
  (when (is_primary f && (pks =? 1)) " PRIMARY KEY" +:+ foreign_key_text f).

Definition column_text (bt : corm_backend_type) (pks : Z) (f : field) : string :=
  quoted bt (fname f) +:+
  (if has_flag (f_flags f) CORM_FLAG_AUTOINC then
     match bt with
     | CORM_BACKEND_MYSQL => (" " +:+ (type_of bt f +:+ " AUTO_INCREMENT")) +:+ tail_text pks f
     | _ => " " +:+ corm_dialect_autoinc bt
     end
   else (" " +:+ type_of bt f) +:+ tail_text pks f).

Definition table_of (m : model S) : string := default "" (m_table_name m).

Definition create_table_text (bt : corm_backend_type) (m : model S) (fs : list field) : string :=
  "CREATE TABLE IF NOT EXISTS " +:+ (quoted bt (table_of m) +:+ (" (" +:+
  (commas (map (column_text bt (pk_count fs)) fs) +:+
  (when (1 <? pk_count fs)
     (", PRIMARY KEY (" +:+
      (commas (map (fun f => quoted bt (fname f)) (filter (fun f => is_primary f = true) fs)) +:+ ")"))
   +:+ ")")))).

Definition alter_text (bt : corm_backend_type) (m : model S) (f : field) : string :=
  ("ALTER TABLE " +:+ (quoted bt (table_of m) +:+ (" ADD COLUMN " +:+ (quoted bt (fname f) +:+
   (" " +:+ type_of bt f))))) +:+ (constraints_text f +:+ ";").

Definition index_text (bt : corm_backend_type) (m : model S) (f : field) : string :=
  "CREATE INDEX IF NOT EXISTS " +:+
  (quoted bt ("idx_" +:+ (table_of m +:+ ("_" +:+ fname f))) +:+
   (" ON " +:+ (quoted bt (table_of m) +:+ ("(" +:+ (quoted bt (fname f) +:+ ")"))))).
End texts.
