(* ===== verification/MigrationSpec.v ===== *)
(** * What the migration functions build and execute

    First the buffers hold the texts of [Migration.v]; then the functions are
    run against a driver that keeps a schema ([SchemaDriver]). *)

From S2P Require Import Prelude Types Mem Strbuf Dialect Model Backend Query Builder BuilderSpec Tx Driver ExecSpec Core CoreProps Migration.

(** ** Types *)

Lemma type_of_short bt f : slen (type_of bt f) <= 16 /\ no_nul (type_of bt f) = true.
Proof.
  assert (Hv : slen (varchar TYPE_BUF (f_size f)) <= 16 /\ no_nul (varchar TYPE_BUF (f_size f)) = true).
  { unfold varchar. pose proof (varchar_length (f_size f)).
    rewrite c_snprintf_fits by (unfold TYPE_BUF; lia). unfold slen. split; [lia|].
    by rewrite !no_nul_app, no_nul_pretty. }
  unfold type_of. destruct bt, (f_type f); try exact Hv; by split; vm_compute.
Qed.

(** ** Texts a model brings along *)

Definition opt_ok (o : option string) : Prop :=
  match o with Some s => clause_ok s | None => True end.

(** Identifiers, defaults and references of moderate length. *)
Record migratable {S} (m : model S) (fs : list field) : Prop := {
  mg_model : model_ok m fs;
  mg_table : slen (table_of m) <= 2 ^ 20;
  mg_fields : Forall (fun f => slen (fname f) <= 2 ^ 20 /\ opt_ok (f_default_value f) /\
                               opt_ok (f_fk_ref f)) fs
}.

Lemma texts_from_const (g : field -> string) c l : texts_from (fun _ => g) c l = map g l.
Proof. apply (imap_const g). Qed.

Lemma filter_all_true {A} (P : A -> Prop) `{!forall x, Decision (P x)} (l : list A) :
  (forall x, P x) -> filter P l = l.
Proof.
  intros HP. induction l as [|x l IH]; [done|]. by rewrite filter_cons_True, IH.
Qed.

Section texts.
Context {S : Type} (bt : corm_backend_type) (m : model S) (fs : list field).
Context (Hm : migratable m fs).

Lemma mg_field f :
  f ∈ fs -> slen (fname f) <= 2 ^ 20 /\ opt_ok (f_default_value f) /\ opt_ok (f_fk_ref f).
Proof. intros Hf. pose proof (mg_fields _ _ Hm) as H. rewrite Forall_forall in H. by apply H. Qed.

Lemma mg_name f : f ∈ fs -> f_name f = Some (fname f).
Proof. apply (field_names m fs), Hm. Qed.

Lemma mg_table_name : m_table_name m = Some (table_of m).
Proof. exact (table_name_eq m fs (mg_model _ _ Hm)). Qed.

Lemma writes_constraints f :
  opt_ok (f_default_value f) -> writes (constraints (S := S) f) (constraints_text f).
Proof.
  intros Hd. unfold constraints, constraints_text.
  apply (writes_seq (fun sql => if has_flag (f_flags f) CORM_FLAG_NOT_NULL
                                then sb_add sql " NOT NULL" else mret sql)).
  { apply (writes_when _ (fun sql => sb_add sql " NOT NULL")), writes_add. }
  apply (writes_seq (fun sql => if has_flag (f_flags f) CORM_FLAG_UNIQUE
                                then sb_add sql " UNIQUE" else mret sql)).
  { apply (writes_when _ (fun sql => sb_add sql " UNIQUE")), writes_add. }
  destruct (f_default_value f) as [d|]; [|apply writes_nil]. destruct Hd as [_ Hd].
  apply (writes_when (nonempty d) (fun sql => sb_addf sql " DEFAULT %s" [FS d])).
  apply writes_addf; [cbn; by rewrite str_app_nil_r|].
  rewrite slen_app. unfold INT_MAX. change (slen " DEFAULT ") with 9. lia.
Qed.

Lemma writes_foreign_key f : writes (foreign_key (S := S) f) (foreign_key_text f).
Proof.
  unfold foreign_key, foreign_key_text. destruct (f_fk_ref f) as [fk|]; [|apply writes_nil].
  apply (writes_seq (fun sql => sb_add sql " REFERENCES ")); [apply writes_add|].
  unfold references_of. destruct (split_at "." fk) as [[t c]|] eqn:E.
  - apply split_at_app in E as [-> _].
    apply (writes_seq (fun sql => sb_addn sql _ (slen t))).
    { eapply writes_ext; [|apply writes_addn].
      - unfold slen. rewrite Nat2Z.id. apply str_take_app.
      - rewrite slen_app. pose proof (slen_nonneg t). pose proof (slen_nonneg (String "." c)). lia. }
    apply (writes_seq (fun sql => sb_add sql "(")); [apply writes_add|].
    apply (writes_seq (fun sql => sb_add sql c)); apply writes_add.
  - apply (writes_seq (fun sql => sb_add sql fk)); apply writes_add.
Qed.

Lemma writes_column_tail pks f :
  opt_ok (f_default_value f) -> writes (column_tail (S := S) pks f) (tail_text pks f).
Proof.
  intros Hd. unfold column_tail, tail_text.
  apply (writes_seq (fun sql => constraints f sql)); [by apply writes_constraints|].
  apply (writes_seq (fun sql => if is_primary f && (pks =? 1) then sb_add sql " PRIMARY KEY"
                                else mret sql)).
  { apply (writes_when _ (fun sql => sb_add sql " PRIMARY KEY")), writes_add. }
  apply writes_foreign_key.
Qed.

Lemma writes_column pks f :
  f ∈ fs -> writes (column_def (S := S) bt pks f) (column_text bt pks f).
Proof.
  intros Hf. destruct (mg_field f Hf) as (_ & Hd & _). destruct (type_of_short bt f) as [Ht _].
  unfold column_def, column_text.
  eapply (writes_deref (f_name f) (fname f) (fun n sql => sql ← qident sql bt n; _));
    [by apply mg_name|].
  apply (writes_seq (fun sql => qident sql bt (fname f))); [apply writes_qident|].
  destruct (has_flag (f_flags f) CORM_FLAG_AUTOINC); [destruct bt|].
  2: { apply (writes_seq (fun sql => sb_addf sql " %s AUTO_INCREMENT" _)).
       - apply writes_addf; [done|]. rewrite !slen_app. unfold INT_MAX.
         change (slen " ") with 1. change (slen " AUTO_INCREMENT") with 15. lia.
       - by apply writes_column_tail. }
  1, 2: by apply writes_addf; [done|vm_compute].
  apply (writes_seq (fun sql => sb_addf sql " %s" _)).
  - apply writes_addf; [cbn; by rewrite str_app_nil_r|]. rewrite slen_app. unfold INT_MAX.
    change (slen " ") with 1. lia.
  - by apply writes_column_tail.
Qed.

Lemma writes_create_table :
  writes (create_table_sql bt m) (create_table_text bt m fs).
Proof.
  unfold create_table_sql, create_table_text.
  apply (writes_seq (fun sql => sb_addf sql "CREATE TABLE %s " _)).
  { by apply writes_addf; [|vm_compute]. }
  eapply (writes_deref (m_table_name m) _ (fun name sql => sql ← qident sql bt name; _));
    [apply mg_table_name|].
  apply (writes_seq (fun sql => qident sql bt _)); [apply writes_qident|].
  apply (writes_seq (fun sql => sb_add sql " (")); [apply writes_add|].
  eapply (writes_deref (model_fields m) fs); [apply (mo_fields _ _ (mg_model _ _ Hm))|].
  apply (writes_seq (fun sql => sep_fields fs (fun _ => false) _ sql)).
  { eapply writes_ext; [|eapply (writes_sep_fields fs _ _ (fun _ f => column_text bt (pk_count fs) f))].
    - f_equal. rewrite texts_from_const. f_equal. by apply filter_all_true.
    - intros f i Hf _. by apply writes_column. }
  apply (writes_seq (fun sql => if 1 <? pk_count fs then _ else mret sql)); [|apply writes_add].
  apply (writes_when (1 <? pk_count fs) (fun sql => sql ← sb_add sql ", PRIMARY KEY ("; _)).
  apply (writes_seq (fun sql => sb_add sql ", PRIMARY KEY (")); [apply writes_add|].
  apply (writes_seq (fun sql => sep_fields fs (fun f => negb (is_primary f)) _ sql)); [|apply writes_add].
  eapply writes_ext; [|eapply (writes_sep_fields fs _ _ (fun _ f => quoted bt (fname f)))].
  - f_equal. rewrite texts_from_const. f_equal. apply list_filter_iff.
    intros f. by destruct (is_primary f).
  - intros f i Hf _. eapply (writes_deref (f_name f) (fname f) (fun n sql => qident sql bt n));
      [by apply mg_name|apply writes_qident].
Qed.

Lemma quote_length : slen (corm_dialect_quote bt) = 1.
Proof. by destruct bt. Qed.

Lemma writes_alter f : f ∈ fs -> writes (alter_sql bt m f) (alter_text bt m f).
Proof.
  intros Hf. destruct (mg_field f Hf) as (Hn & Hd & _). destruct (type_of_short bt f) as [Ht _].
  pose proof (mg_table _ _ Hm) as Htab. pose proof quote_length as Hq.
  unfold alter_sql, alter_text.
  eapply (writes_deref (m_table_name m)); [apply mg_table_name|].
  eapply (writes_deref (f_name f)); [by apply mg_name|].
  apply (writes_seq (fun sql => sb_addf sql "ALTER TABLE %s%s%s ADD COLUMN %s%s%s %s" _)).
  - apply writes_addf.
    + cbn. unfold quoted. by rewrite str_app_nil_r, <- !str_app_assoc.
    + unfold quoted. rewrite !slen_app, Hq. unfold INT_MAX.
      change (slen "ALTER TABLE ") with 12. change (slen " ADD COLUMN ") with 12.
      change (slen " ") with 1. lia.
  - apply (writes_seq (fun sql => constraints f sql)); [by apply writes_constraints|apply writes_add].
Qed.

Lemma writes_index f : f ∈ fs -> writes (index_sql bt m f) (index_text bt m f).
Proof.
  intros Hf. destruct (mg_field f Hf) as (Hn & _ & _).
  pose proof (mg_table _ _ Hm) as Htab. pose proof quote_length as Hq.
  unfold index_sql, index_text.
  eapply (writes_deref (m_table_name m)); [apply mg_table_name|].
  eapply (writes_deref (f_name f)); [by apply mg_name|].
  apply writes_addf.
  - unfold quoted. by repeat (cbn; rewrite <- ?str_app_assoc).
  - unfold quoted. rewrite !slen_app, Hq. unfold INT_MAX.
    change (slen "CREATE INDEX IF NOT EXISTS ") with 27. change (slen "idx_") with 4.
    change (slen "_") with 1. change (slen " ON ") with 4. change (slen "(") with 1.
    change (slen ")") with 1. lia.
Qed.

(** *** C strings *)

Lemma mg_field_nul f : f ∈ fs -> no_nul (fname f) = true.
Proof. apply (ident_field m fs), Hm. Qed.

Lemma constraints_nul f : f ∈ fs -> no_nul (constraints_text f) = true.
Proof.
  intros Hf. destruct (mg_field f Hf) as (_ & Hd & _). unfold constraints_text.
  rewrite !no_nul_app, !no_nul_when by done. destruct (f_default_value f) as [d|]; [|done].
  destruct Hd as [Hd _]. rewrite no_nul_when; [done|]. by rewrite no_nul_app, Hd.
Qed.

Lemma tail_nul pks f : f ∈ fs -> no_nul (tail_text pks f) = true.
Proof.
  intros Hf. destruct (mg_field f Hf) as (_ & _ & Hk). unfold tail_text.
  rewrite !no_nul_app, constraints_nul, no_nul_when by done. unfold foreign_key_text.
  destruct (f_fk_ref f) as [fk|]; [|done]. destruct Hk as [Hk _].
  rewrite no_nul_app. unfold references_of. destruct (split_at "." fk) as [[t c]|] eqn:E.
  - apply split_at_app in E as [-> _]. rewrite no_nul_app in Hk. cbn in Hk.
    apply andb_prop in Hk as [Ht Hc]. by rewrite !no_nul_app, Ht, Hc.
  - by rewrite !no_nul_app, Hk.
Qed.

Lemma create_table_nul : no_nul (create_table_text bt m fs) = true.
Proof.
  unfold create_table_text. rewrite !no_nul_app.
  rewrite no_nul_quoted by exact (no_nul_table m fs (mg_model _ _ Hm)).
  rewrite no_nul_commas, no_nul_when; [done| |].
  - rewrite !no_nul_app, no_nul_commas; [done|]. apply Forall_map, Forall_forall.
    intros f [_ Hf]%list_elem_of_filter. cbn. by apply no_nul_quoted, mg_field_nul.
  - apply Forall_map, Forall_forall. intros f Hf. cbn. unfold column_text.
    destruct (type_of_short bt f) as [_ Ht].
    rewrite no_nul_app, no_nul_quoted by by apply mg_field_nul.
    destruct (has_flag _ _); [destruct bt|]; rewrite ?no_nul_app, ?Ht, ?tail_nul; done.
Qed.

Lemma alter_nul f : f ∈ fs -> no_nul (alter_text bt m f) = true.
Proof.
  intros Hf. destruct (type_of_short bt f) as [_ Ht]. unfold alter_text.
  rewrite !no_nul_app, Ht, constraints_nul by done.
  rewrite !no_nul_quoted; [done|by apply mg_field_nul|exact (no_nul_table m fs (mg_model _ _ Hm))].
Qed.

Lemma index_nul f : f ∈ fs -> no_nul (index_text bt m f) = true.
Proof.
  intros Hf. pose proof (no_nul_table m fs (mg_model _ _ Hm) : no_nul (table_of m) = true) as Ht.
  unfold index_text. rewrite !no_nul_app, !no_nul_quoted; [done|by apply mg_field_nul|done|].
  by rewrite !no_nul_app, Ht, mg_field_nul.
Qed.
End texts.
