(* ===== verification/MigrationProps.v ===== *)
(** * Properties of the automatic migration *)

From S2P Require Import Prelude Types Mem Strbuf Dialect Model Backend Query Builder BuilderSpec QuerySpec Columns Tx Driver Sample ExecSpec Core CoreProps Migration MigrationSpec.

(** ** The effect of a statement *)

(** [corm_exec] records what it did in the struct and reads the clock; neither
    makes a driver unusable. *)
Class ConnDriver {D C X E : Type} (b : backend (proc D C X E)) `{!Usable b} : Prop := {
  conn_open : forall s, usable b s -> is_Some (p_db s);
  conn_log : forall s log reads, usable b s ->
    usable b (Proc (p_db s) log (p_time s) reads (p_env s));
  conn_report : forall s sql e c, p_db s = Some c -> usable b s ->
    usable b (Proc (Some (reported sql e c)) (p_log s) (p_time s) (p_reads s) (p_env s))
}.

Section effects.
Context {D C X E : Type}.
#[local] Abbreviation S := (proc D C X E).
Context (b : backend S) `{!Usable b} `{!SqlDriver b} `{!ConnDriver b}.
Implicit Types (w : world S) (s : S).

Definition ticked s : S :=
  Proc (p_db s) (p_log s) (p_time s) (p_reads s + 1)%nat (p_env s).

(** What [corm_exec] of [sql] returns and leaves behind. *)
Definition exec_step (sql : string) s : corm_err * S :=
  let '(e, s1) := sql_exec b sql [] (ticked s) in
  match p_db s1 with
  | Some c =>
      (e, Proc (Some (reported sql e c))
            (p_log s1 ++ log_of sql (p_time s (p_reads s)) (p_time s1 (p_reads s1)) e c)
            (p_time s1) (p_reads s1 + 1)%nat (p_env s1))
  | None => (e, s1)
  end.

Lemma exec_step_err sql s : (exec_step sql s).1 = (sql_exec b sql [] (ticked s)).1.
Proof. unfold exec_step. destruct (sql_exec _ _ _ _) as [e s1]. by destruct (p_db s1). Qed.

Lemma exec_step_env sql s : p_env (exec_step sql s).2 = p_env (sql_exec b sql [] (ticked s)).2.
Proof. unfold exec_step. destruct (sql_exec _ _ _ _) as [e s1]. by destruct (p_db s1). Qed.

Lemma corm_exec_step sql w :
  plenty w -> usable b (w_db w) -> (forall s, usable b s -> sql_carries b sql [] s) ->
  corm_exec (Some (Some b)) sql w =
    Ret (exec_step sql (w_db w)).1 (set_db (exec_step sql (w_db w)).2 w) /\
  usable b (exec_step sql (w_db w)).2.
Proof.
  intros Hp Hu Hcar. unfold exec_step.
  assert (Ht : usable b (ticked (w_db w))) by by apply conn_log.
  pose proof (drv_exec_law (tick w) sql [] [] Hp Ht (Hcar _ Ht) (List.Forall2_nil _)) as He.
  pose proof (drv_exec_usable sql [] _ Ht (Hcar _ Ht)) as Hu1. destruct (conn_open _ Hu1) as [c Hc].
  change (w_db (tick w)) with (ticked (w_db w)) in He.
  unfold corm_exec. rewrite (bind_Ret _ _ _ _ _ (clock_ok w)), drv_exec_eq, bind_deref_Some.
  rewrite (bind_Ret _ _ _ _ _ He).
  destruct (sql_exec b sql [] (ticked (w_db w))) as [e s1]. cbn [fst snd] in *. rewrite Hc.
  rewrite (bind_Ret _ _ _ _ _ (after_statement_spec sql _ e (set_db s1 (tick w)) c Hc)).
  split; [done|].
  exact (conn_log _ (p_log s1 ++ log_of sql _ _ e c) _ (conn_report s1 sql e c Hc Hu1)).
Qed.

Lemma exec_built_spec build text w :
  plenty w -> writes build text -> fits text -> no_nul text = true ->
  usable b (w_db w) -> (forall s, usable b s -> sql_carries b text [] s) ->
  exec_built (Some (Some b)) build w =
    Ret (exec_step text (w_db w)).1 (set_db (exec_step text (w_db w)).2 w) /\
  usable b (exec_step text (w_db w)).2.
Proof.
  intros Hp Hw Hf Hn Hu Hcar.
  destruct (writes_run build text corm_strbuf_init w Hw sb_repr_init Hf Hp) as (sb & Eb & Hr).
  unfold exec_built. rewrite (bind_Ret _ _ _ _ _ Eb), (bind_Ret _ _ _ _ _ (cstr_spec sb text w Hr Hn)).
  by apply corm_exec_step.
Qed.
End effects.

(** ** A driver with a schema *)

(** The columns of each table. *)
Abbreviation schema_map := (gmap string (list string)).

Definition created {S} (m : model S) (fs : list field) (sch : schema_map) : schema_map :=
  match sch !! table_of m with
  | Some _ => sch
  | None => <[table_of m := map fname fs]> sch
  end.

(** What the statements of a migration of [ms] do to the schema, as long as the
    connection is [settled].  A statement may be refused ([create_error],
    [alter_error]); a refused one changes nothing. *)
Class SchemaDriver {D C X E : Type} (b : backend (proc D C X E)) `{!Usable b} `{!SqlDriver b}
    `{!ConnDriver b}
    (ms : list (model (proc D C X E) * list field)) : Type := {
  schema : E -> schema_map;
  create_error : model (proc D C X E) -> corm_err;
  alter_error : model (proc D C X E) -> field -> corm_err;
  settled : proc D C X E -> Prop;
  settled_usable : forall s, settled s -> usable b s;
  settled_log : forall s log reads, settled s ->
    settled (Proc (p_db s) log (p_time s) reads (p_env s));
  settled_report : forall s sql e c, p_db s = Some c -> settled s ->
    settled (Proc (Some (reported sql e c)) (p_log s) (p_time s) (p_reads s) (p_env s));
  sd_describe : string -> M (proc D C X E) (corm_err * (option loc * Z));
  sd_no_values : forall text s, usable b s -> sql_carries b text [] s;
  sd_create : forall m fs s, (m, fs) ∈ ms -> settled s ->
    let r := sql_exec b (create_table_text (be_type b) m fs) [] s in
    settled r.2 /\ r.1 = create_error m /\
    schema (p_env r.2) = (if decide (create_error m = CORM_OK)
      then created m fs (schema (p_env s)) else schema (p_env s));
  sd_alter : forall m fs f s cols, (m, fs) ∈ ms -> f ∈ fs -> settled s ->
    schema (p_env s) !! table_of m = Some cols -> fname f ∉ cols ->
    let r := sql_exec b (alter_text (be_type b) m f) [] s in
    settled r.2 /\
    schema (p_env r.2) =
      if decide (alter_error m f = CORM_OK)
      then <[table_of m := cols ++ [fname f]]> (schema (p_env s)) else schema (p_env s);
  sd_index : forall m fs f s, (m, fs) ∈ ms -> f ∈ fs -> settled s ->
    let r := sql_exec b (index_text (be_type b) m f) [] s in
    settled r.2 /\ schema (p_env r.2) = schema (p_env s);
  sd_describe_eq : be_describe_table b = Some sd_describe;
  sd_describe_law : forall w m fs names, (m, fs) ∈ ms -> plenty w -> heap_wf w ->
    settled (w_db w) -> schema (p_env (w_db w)) !! table_of m = Some names ->
    exists l cols w', sd_describe (table_of m) w = Ret (CORM_OK, (Some l, Z.of_nat (length cols))) w' /\
      columns_at (w_heap w') l cols (w_heap w) /\ columns_named (w_heap w') cols names /\
      plenty w' /\ heap_wf w' /\ settled (w_db w') /\
      schema (p_env (w_db w')) = schema (p_env (w_db w))
}.
Arguments schema {D C X E} b {_ _ _} ms {_}.
Arguments create_error {D C X E} b {_ _ _} ms {_}.
Arguments alter_error {D C X E} b {_ _ _} ms {_}.
Arguments settled {D C X E} b {_ _ _} ms {_}.
Arguments sd_describe {D C X E} b {_ _ _} ms {_}.

(** The schema behind the connection. *)
Definition schema_at {D C X E} (b : backend (proc D C X E)) `{!Usable b} `{!SqlDriver b}
    `{!ConnDriver b} ms `{!SchemaDriver b ms} (w : world (proc D C X E)) : schema_map :=
  schema b ms (p_env (w_db w)).

(** ** The specification *)

Section spec.
Context {S : Type} (create_err : model S -> corm_err) (alter_err : model S -> field -> corm_err).

(** The columns the migration adds to a table with the columns [cols]. *)
Definition added (m : model S) (cols : list string) (fs : list field) : list string :=
  map fname (filter (fun f =>
    is_primary f = false /\ (fname f ∉ cols) /\ alter_err m f = CORM_OK) fs).

Definition migrate_model (m : model S) (fs : list field) (sch : schema_map) : schema_map :=
  let cols := default (map fname fs) (sch !! table_of m) in
  <[table_of m := cols ++ added m cols fs]> sch.

(** The first refused CREATE TABLE ends the migration. *)
Fixpoint migrated (ms : list (model S * list field)) (sch : schema_map) : corm_err * schema_map :=
  match ms with
  | [] => (CORM_OK, sch)
  | (m, fs) :: ms =>
      if decide (create_err m = CORM_OK) then migrated ms (migrate_model m fs sch)
      else (create_err m, sch)
  end.
End spec.

(** A model whose statements fit in memory. *)
Definition ready {S} (bt : corm_backend_type) (m : model S) (fs : list field) : Prop :=
  migratable m fs /\ fits (create_table_text bt m fs).

(** ** The loops *)

Section loops.
Context {D C X E : Type}.
#[local] Abbreviation S := (proc D C X E).
Context (b : backend S) `{!Usable b} `{!SqlDriver b} `{!ConnDriver b}.
Context (ms : list (model S * list field)) `{!SchemaDriver b ms}.
Context (m : model S) (fs : list field) (Hin : (m, fs) ∈ ms) (Hready : ready (be_type b) m fs).
Implicit Types w : world S.

Let db := Some (Some b).
#[local] Abbreviation sch := (schema_at b ms).
Let table := table_of m.

(** [w'] is [w] after statements that led to the schema [sch']. *)
Record leads (w : world S) (sch' : schema_map) (w' : world S) : Prop := Leads {
  ld_heap : w_heap w' = w_heap w;
  ld_plenty : plenty w';
  ld_wf : heap_wf w -> heap_wf w';
  ld_settled : settled b ms (w_db w');
  ld_schema : sch w' = sch'
}.

Lemma leads_refl w : plenty w -> settled b ms (w_db w) -> leads w (sch w) w.
Proof. by constructor. Qed.

Lemma leads_trans w sch1 w1 sch2 w2 : leads w sch1 w1 -> leads w1 sch2 w2 -> leads w sch2 w2.
Proof. intros [] []. constructor; [congruence|done|auto|done|done]. Qed.

Lemma exec_step_settled sql s :
  settled b ms s -> settled b ms (sql_exec b sql [] (ticked s)).2 -> settled b ms (exec_step b sql s).2.
Proof.
  intros Hs Hr. unfold exec_step. destruct (sql_exec b sql [] (ticked s)) as [e s1]. cbn in *.
  destruct (p_db s1) as [c|] eqn:Hc; [|done]. cbn.
  apply (settled_log _ (p_log s1 ++ log_of sql (p_time s (p_reads s)) (p_time s1 (p_reads s1)) e c)
    (p_reads s1 + 1)%nat) in Hr.
  apply (settled_report _ sql e c) in Hr; [|done]. exact Hr.
Qed.

Lemma built_leads build text w sch' :
  plenty w -> writes build text -> fits text -> no_nul text = true -> settled b ms (w_db w) ->
  settled b ms (sql_exec b text [] (ticked (w_db w))).2 ->
  schema b ms (p_env (sql_exec b text [] (ticked (w_db w))).2) = sch' ->
  exists w', exec_built db build w = Ret (sql_exec b text [] (ticked (w_db w))).1 w' /\
    leads w sch' w'.
Proof.
  intros Hp Hw Hf Hn Hs Hr <-.
  destruct (exec_built_spec b build text w Hp Hw Hf Hn (settled_usable _ Hs) (sd_no_values text)) as [E1 E2].
  eexists. split; [by rewrite <- exec_step_err|]. constructor; try done.
  - by apply exec_step_settled.
  - unfold schema_at. by rewrite <- exec_step_env.
Qed.

Lemma settled_ticked s : settled b ms s -> settled b ms (ticked s).
Proof. apply settled_log. Qed.

Lemma create_leads w :
  plenty w -> settled b ms (w_db w) ->
  exists w', create_table db (be_type b) m w = Ret (create_error b ms m) w' /\
    leads w (if decide (create_error b ms m = CORM_OK) then created m fs (sch w) else sch w) w'.
Proof.
  intros Hp Hdb. destruct Hready as [Hm Hf].
  destruct (sd_create m fs (ticked (w_db w)) Hin (settled_ticked _ Hdb)) as (Hs & <- & Hsch).
  exact (built_leads (create_table_sql (be_type b) m) _ w _ Hp
    (writes_create_table (be_type b) m fs Hm) Hf (create_table_nul (be_type b) m fs Hm) Hdb Hs Hsch).
Qed.

Lemma short_fits x : slen x <= 2 ^ 40 -> fits x.
Proof. unfold fits. lia. Qed.

Lemma constraints_short f : f ∈ fs -> slen (constraints_text f) <= 2 ^ 30.
Proof.
  intros Hf. destruct (mg_field m fs (proj1 Hready) f Hf) as (_ & Hd & _).
  unfold constraints_text. rewrite !slen_app.
  assert (Hw : forall t s n, slen s <= n -> slen (when t s) <= n).
  { intros [] s n Hs; [done|]. pose proof (slen_nonneg s). change (slen (when false s)) with 0. lia. }
  pose proof (Hw (has_flag (f_flags f) CORM_FLAG_NOT_NULL) " NOT NULL" 9 ltac:(done)).
  pose proof (Hw (has_flag (f_flags f) CORM_FLAG_UNIQUE) " UNIQUE" 7 ltac:(done)).
  assert (slen (match f_default_value f with
                | Some d => when (nonempty d) (" DEFAULT " +:+ d) | None => "" end) <= 2 ^ 29 + 9).
  { destruct (f_default_value f) as [d|]; [|done]. destruct Hd as [_ Hd].
    apply Hw. rewrite slen_app. change (slen " DEFAULT ") with 9. lia. }
  lia.
Qed.

Lemma alter_fits f : f ∈ fs -> fits (alter_text (be_type b) m f).
Proof.
  intros Hf. apply short_fits. pose proof (constraints_short f Hf).
  destruct (mg_field m fs (proj1 Hready) f Hf) as (Hn & _ & _).
  destruct (type_of_short (be_type b) f). pose proof (mg_table _ _ (proj1 Hready)).
  unfold alter_text, quoted. rewrite !slen_app, (quote_length (be_type b)).
  change (slen "ALTER TABLE ") with 12. change (slen " ADD COLUMN ") with 12.
  change (slen " ") with 1. change (slen ";") with 1. lia.
Qed.

Lemma index_fits f : f ∈ fs -> fits (index_text (be_type b) m f).
Proof.
  intros Hf. apply short_fits.
  destruct (mg_field m fs (proj1 Hready) f Hf) as (Hn & _ & _).
  pose proof (mg_table _ _ (proj1 Hready)).
  unfold index_text, quoted. rewrite !slen_app, (quote_length (be_type b)).
  change (slen "CREATE INDEX IF NOT EXISTS ") with 27. change (slen "idx_") with 4.
  change (slen "_") with 1. change (slen " ON ") with 4. change (slen "(") with 1.
  change (slen ")") with 1. lia.
Qed.

Lemma column_found_spec l cols names k n w :
  w_heap w !! l = Some (BCols cols) -> columns_named (w_heap w) (drop k cols) names ->
  column_found l k (length (drop k cols)) n w = Ret (bool_decide (n ∈ names)) w.
Proof.
  intros Hl. remember (drop k cols) as todo eqn:Ht. intros Hn. revert k Ht.
  induction Hn as [|c n' todo names Hc Hn IH]; intros k Ht; [done|].
  assert (Hk : cols !! k = Some c) by by rewrite <- (Nat.add_0_r k), <- lookup_drop, <- Ht.
  cbn [length column_found]. run_with (column_at_ok l cols k c w Hl Hk).
  unfold read_str at 1, mbind, M_bind. rewrite Hc.
  destruct (String.eqb_spec n' n) as [->|Hne].
  - rewrite bool_decide_true; [done|apply list_elem_of_here].
  - rewrite (IH (Datatypes.S k)).
    + f_equal. apply bool_decide_ext. rewrite elem_of_cons. split; [tauto|]. intros [->|?]; done.
    + rewrite (drop_S _ _ _ Hk) in Ht. by injection Ht.
Qed.

Lemma add_columns_leads arr infos cols0 l :
  l ⊆ fs -> NoDup (map fname l) ->
  forall w cur, plenty w -> settled b ms (w_db w) -> sch w !! table = Some cur ->
  w_heap w !! arr = Some (BCols infos) -> columns_named (w_heap w) infos cols0 ->
  (forall f, f ∈ l -> fname f ∈ cur <-> fname f ∈ cols0) ->
  exists w', for_each l (add_column db (be_type b) m CORM_OK (Some arr) (Z.of_nat (length infos))) tt w =
      Ret tt w' /\
    leads w (<[table := cur ++ added (alter_error b ms) m cols0 l]> (sch w)) w'.
Proof.
  induction l as [|f l IH]; intros Hl Hnd w cur Hp Hdb Hcur Harr Hi Hsame.
  { exists w. split; [done|]. unfold added. rewrite app_nil_r, insert_id by done.
    by apply leads_refl. }
  cbn [map] in Hnd. apply NoDup_cons in Hnd as [Hf Hnd].
  assert (Hffs : f ∈ fs) by (apply Hl, list_elem_of_here).
  assert (Hl' : l ⊆ fs) by (intros x Hx; by apply Hl, list_elem_of_further).
  cbn [for_each]. set (step := add_column db _ m CORM_OK _ _) in *.
  assert (Hskip : step f tt w = Ret tt w ->
    ~ (is_primary f = false /\ (fname f ∉ cols0) /\ alter_error b ms m f = CORM_OK) ->
    exists w', (step f tt ≫= for_each l step) w = Ret tt w' /\
      leads w (<[table := cur ++ added (alter_error b ms) m cols0 (f :: l)]> (sch w)) w').
  { intros Hu Hno. rewrite (bind_Ret _ _ _ _ _ Hu). unfold added.
    rewrite filter_cons_False by done. apply IH; try done.
    intros g Hg. by apply Hsame, list_elem_of_further. }
  destruct (is_primary f) eqn:Hpk.
  { apply Hskip; [|by intros [? _]]. unfold step, add_column. by rewrite Hpk. }
  assert (Hstep : step f tt w = (if bool_decide (fname f ∈ cols0) then mret tt
    else exec_built db (alter_sql (be_type b) m f);; mret tt) w).
  { unfold step, add_column, column_exists. rewrite Hpk, (mg_name m fs (proj1 Hready) f Hffs).
    rewrite bind_deref_Some, Nat2Z.id.
    by rewrite (bind_Ret _ _ _ _ _ (column_found_spec arr infos cols0 0 (fname f) w Harr Hi)). }
  destruct (decide (fname f ∈ cols0)) as [Hin0|Hout].
  { rewrite bool_decide_true in Hstep by done. apply Hskip; [done|]. by intros (_ & ? & _). }
  rewrite bool_decide_false in Hstep by done.
  destruct (sd_alter m fs f (ticked (w_db w)) cur Hin Hffs (settled_ticked _ Hdb) Hcur) as [Hset Hsch1].
  { rewrite Hsame; [done|apply list_elem_of_here]. }
  destruct (built_leads (alter_sql (be_type b) m f) _ w _ Hp
    (writes_alter (be_type b) m fs (proj1 Hready) f Hffs) (alter_fits f Hffs)
    (alter_nul (be_type b) m fs (proj1 Hready) f Hffs) Hdb Hset Hsch1) as (w1 & E1 & L1).
  rewrite (bind_Ret _ _ _ _ _ E1) in Hstep. rewrite (bind_Ret _ _ _ _ _ Hstep).
  pose proof L1 as [Hh1 Hp1 _ Hu1 Hsch]. rewrite <- Hh1 in Harr, Hi.
  unfold added. destruct (decide (alter_error b ms m f = CORM_OK)) as [Hok|Hok].
  - rewrite filter_cons_True by done. cbn [map].
    destruct (IH Hl' Hnd w1 (cur ++ [fname f])) as (w2 & E2 & L2); [done|done| |done|done| |].
    { by rewrite Hsch, lookup_insert_eq. }
    { intros g Hg. rewrite elem_of_app, list_elem_of_singleton.
      rewrite Hsame by by apply list_elem_of_further. split; [|tauto].
      intros [?|Heq]; [done|]. destruct Hf. rewrite <- Heq. by apply list_elem_of_fmap_2. }
    exists w2. split; [done|]. eapply leads_trans; [exact L1|].
    rewrite Hsch, insert_insert_eq, <- app_assoc in L2. done.
  - rewrite filter_cons_False by by intros (_ & _ & ?).
    destruct (IH Hl' Hnd w1 cur) as (w2 & E2 & L2); [done|done| |done|done| |].
    { by rewrite Hsch. }
    { intros g Hg. by apply Hsame, list_elem_of_further. }
    exists w2. split; [done|]. eapply leads_trans; [exact L1|]. by rewrite Hsch in L2.
Qed.

Lemma add_indexes_leads l :
  l ⊆ fs -> forall w, plenty w -> settled b ms (w_db w) ->
  exists w', for_each l (add_index db (be_type b) m) tt w = Ret tt w' /\ leads w (sch w) w'.
Proof.
  induction l as [|f l IH]; intros Hl w Hp Hdb.
  { exists w. split; [done|]. by apply leads_refl. }
  assert (Hffs : f ∈ fs) by (apply Hl, list_elem_of_here).
  assert (Hl' : l ⊆ fs) by (intros x Hx; by apply Hl, list_elem_of_further).
  cbn [for_each]. set (step := add_index db (be_type b) m) in *.
  destruct (has_flag (f_flags f) CORM_FLAG_INDEX) eqn:Hx.
  2: { rewrite (bind_Ret _ _ w tt w) by (unfold step, add_index; by rewrite Hx). by apply IH. }
  destruct (sd_index m fs f (ticked (w_db w)) Hin Hffs (settled_ticked _ Hdb)) as [Hset Hsch1].
  destruct (built_leads (index_sql (be_type b) m f) _ w _ Hp
    (writes_index (be_type b) m fs (proj1 Hready) f Hffs) (index_fits f Hffs)
    (index_nul (be_type b) m fs (proj1 Hready) f Hffs) Hdb Hset Hsch1) as (w1 & E1 & L1).
  rewrite (bind_Ret _ _ w tt w1)
    by (unfold step, add_index; by rewrite Hx, (bind_Ret _ _ _ _ _ E1)).
  pose proof L1 as [_ Hp1 _ Hu1 Hsch]. destruct (IH Hl' w1 Hp1 Hu1) as (w2 & E2 & L2).
  exists w2. split; [done|]. eapply leads_trans; [exact L1|]. by rewrite Hsch in L2.
Qed.
End loops.

(** ** The specification is sound *)

Section sound.
Context {S : Type} (create_err : model S -> corm_err) (alter_err : model S -> field -> corm_err).

(** The table exists and lacks nothing that can be added. *)
Definition saturated (sch : schema_map) (p : model S * list field) : Prop :=
  exists cols, sch !! table_of p.1 = Some cols /\
    forall f, f ∈ p.2 -> is_primary f = false -> alter_err p.1 f = CORM_OK -> fname f ∈ cols.

(** Tables keep their columns and may get more. *)
Definition grows (sch sch' : schema_map) : Prop :=
  forall t cols, sch !! t = Some cols -> exists more, sch' !! t = Some (cols ++ more).

#[global] Instance grows_preorder : PreOrder grows.
Proof.
  split.
  - intros sch t cols H. exists []. by rewrite app_nil_r.
  - intros a b c H1 H2 t cols H. destruct (H1 t cols H) as [x Hx].
    destruct (H2 _ _ Hx) as [y Hy]. exists (x ++ y). by rewrite app_assoc.
Qed.

Lemma saturated_grows sch sch' p : grows sch sch' -> saturated sch p -> saturated sch' p.
Proof.
  intros Hg (cols & Hc & Hall). destruct (Hg _ _ Hc) as [more Hm]. exists (cols ++ more).
  split; [done|]. intros f Hf Hp Ha. apply elem_of_app. left. by apply Hall.
Qed.

Lemma migrate_model_grows m fs sch : grows sch (migrate_model alter_err m fs sch).
Proof.
  intros t cols H. unfold migrate_model. destruct (decide (table_of m = t)) as [<-|Hne].
  - rewrite H, lookup_insert_eq. by eexists.
  - rewrite lookup_insert_ne by done. exists []. by rewrite app_nil_r.
Qed.

Lemma migrate_model_saturated m fs sch : saturated (migrate_model alter_err m fs sch) (m, fs).
Proof.
  unfold saturated, migrate_model. cbn [fst snd]. eexists. split; [by rewrite lookup_insert_eq|].
  intros f Hf Hp Ha. apply elem_of_app.
  destruct (decide (fname f ∈ default (map fname fs) (sch !! table_of m))) as [|Hn]; [by left|].
  right. unfold added. apply list_elem_of_fmap_2, list_elem_of_filter. done.
Qed.

Lemma saturated_fixed m fs sch :
  saturated sch (m, fs) -> migrate_model alter_err m fs sch = sch.
Proof.
  intros (cols & Hc & Hall). cbn [fst snd] in *. unfold migrate_model. rewrite Hc. cbn [default from_option].
  unfold added. destruct (filter _ fs) as [|f l] eqn:Ef.
  2: { pose proof (list_elem_of_here f l) as Hf. rewrite <- Ef in Hf.
       apply list_elem_of_filter in Hf as ((H1 & H2 & H3) & Hf). by destruct H2; apply Hall. }
  by rewrite app_nil_r, insert_id.
Qed.

Lemma migrated_ok ms sch sch' :
  migrated create_err alter_err ms sch = (CORM_OK, sch') ->
  Forall (fun p => create_err p.1 = CORM_OK) ms /\ grows sch sch' /\ Forall (saturated sch') ms.
Proof.
  revert sch. induction ms as [|[m fs] ms IH]; intros sch H; cbn [migrated] in H.
  { injection H as <-. by repeat constructor. }
  case_decide as Hc; [|congruence]. apply IH in H as (H1 & H2 & H3).
  split; [by constructor|]. split; [by etrans; [apply migrate_model_grows|]|].
  constructor; [|done]. eapply saturated_grows; [done|apply migrate_model_saturated].
Qed.

Lemma migrated_fixed ms sch :
  Forall (fun p => create_err p.1 = CORM_OK) ms -> Forall (saturated sch) ms ->
  migrated create_err alter_err ms sch = (CORM_OK, sch).
Proof.
  intros Hc Hs. induction ms as [|[m fs] ms IH]; [done|]. cbn [migrated].
  apply Forall_cons in Hc as [Hc1 Hc], Hs as [Hs1 Hs]. cbn in Hc1.
  by rewrite decide_True, saturated_fixed, IH.
Qed.
End sound.

(** ** The whole migration *)

Section whole.
Context {D C X E : Type}.
#[local] Abbreviation S := (proc D C X E).
Context (b : backend S) `{!Usable b} `{!SqlDriver b} `{!ConnDriver b}.
Context (ms : list (model S * list field)) `{!SchemaDriver b ms}.
Implicit Types w : world S.

Let db := Some (Some b).
#[local] Abbreviation sch := (schema_at b ms).

Lemma field_names_distinct {T} (m : model T) fs : model_ok m fs -> NoDup (map fname fs).
Proof.
  intros Hm. destruct (mo_valid _ _ Hm) as (_ & _ & _ & fs' & Hfs & _ & Hnd).
  rewrite (mo_fields _ _ Hm) in Hfs. injection Hfs as <-.
  assert (En : map f_name fs = map Some (map fname fs)).
  { rewrite map_map. apply map_ext_in. intros f Hf. apply (field_names m fs Hm).
    by apply list_elem_of_In. }
  rewrite En in Hnd. by apply NoDup_fmap_1 in Hnd.
Qed.

(** What happens to one model once its table exists. *)
Lemma columns_and_indexes m fs names (k : M S corm_err) w :
  (m, fs) ∈ ms -> ready (be_type b) m fs -> plenty w -> heap_wf w -> settled b ms (w_db w) ->
  sch w !! table_of m = Some names ->
  exists w', ('(desc_err, (existing, existing_count)) ← describe db (m_table_name m);
      fs ← deref (model_fields m);
      for_each fs (add_column db (be_type b) m desc_err existing existing_count) tt;;
      corm_column_info_free existing existing_count;;
      for_each fs (add_index db (be_type b) m) tt;; k) w = k w' /\
    leads b ms w (<[table_of m := names ++ added (alter_error b ms) m names fs]> (sch w)) w'.
Proof.
  intros Hin Hr Hp Hwf Hdb Hnames. pose proof (mg_model _ _ (proj1 Hr)) as Hm.
  destruct (sd_describe_law w m fs names Hin Hp Hwf Hdb Hnames)
    as (arr & infos & w0 & Ed & Hat & Hi & Hp0 & Hwf0 & Hu0 & Hsch0).
  assert (Edesc : describe db (m_table_name m) w = Ret (CORM_OK, (Some arr, Z.of_nat (length infos))) w0).
  { unfold describe. cbn [db mjoin option_join]. rewrite bind_deref_Some, sd_describe_eq.
    by rewrite (mg_table_name m fs (proj1 Hr)), bind_deref_Some. }
  destruct (add_columns_leads b ms m fs Hin Hr arr infos names fs ltac:(done)
    (field_names_distinct m fs Hm) w0 names Hp0 Hu0) as (w1 & E1 & [Hh1 Hp1 Hwf1 Hu1 Hsch1]);
    [by etrans; [exact (f_equal _ Hsch0)|]|apply Hat|done|done|].
  change (schema b ms (p_env (w_db w0))) with (sch w0) in Hsch0.
  rewrite <- Hh1 in Hat. pose proof (column_info_free_ok arr infos (w_heap w) w1 Hat) as Ef.
  set (w2 := set_heap (w_heap w) w1) in *.
  assert (L2 : leads b ms w (<[table_of m := names ++ added (alter_error b ms) m names fs]> (sch w)) w2).
  { constructor; [done|exact Hp1| |exact Hu1|]; [|by rewrite Hsch0 in Hsch1].
    intros _ l Hl. apply (Hwf1 Hwf0). destruct Hl as [x Hl].
    eexists. eapply heap_split_le; [apply Hat|exact Hl]. }
  destruct (add_indexes_leads b ms m fs Hin Hr fs ltac:(done) w2 (ld_plenty _ _ _ _ _ L2)
    (ld_settled _ _ _ _ _ L2)) as (w3 & E3 & L3).
  exists w3. split.
  - rewrite (bind_Ret _ _ _ _ _ Edesc), (mo_fields _ _ Hm), bind_deref_Some.
    by rewrite (bind_Ret _ _ _ _ _ E1), (bind_Ret _ _ _ _ _ Ef), (bind_Ret _ _ _ _ _ E3).
  - eapply leads_trans; [exact L2|]. by rewrite (ld_schema _ _ _ _ _ L2) in L3.
Qed.

Lemma migrate_loop_leads l :
  l ⊆ ms -> Forall (fun p => ready (be_type b) p.1 p.2) l ->
  forall w, plenty w -> heap_wf w -> settled b ms (w_db w) ->
  let r := migrated (create_error b ms) (alter_error b ms) l (sch w) in
  exists w', migrate_loop db (be_type b) (length l) (map (fun p => Some p.1) l) w = Ret r.1 w' /\
    leads b ms w r.2 w'.
Proof.
  induction l as [|[m fs] l IH]; intros Hl Hr w Hp Hwf Hdb.
  { exists w. split; [done|]. by apply leads_refl. }
  apply Forall_cons in Hr as [Hr Hrl]. cbn [fst snd] in Hr.
  assert (Hin : (m, fs) ∈ ms) by (apply Hl, list_elem_of_here).
  assert (Hl' : l ⊆ ms) by (intros x Hx; by apply Hl, list_elem_of_further).
  cbn [length map migrate_loop migrated fst]. rewrite bind_deref_Some.
  destruct (create_leads b ms m fs Hin Hr w Hp Hdb) as (w1 & E1 & L1).
  rewrite (bind_Ret _ _ _ _ _ E1). destruct (decide (create_error b ms m = CORM_OK)) as [Hok|Hno].
  2: { assert (is_err (create_error b ms m) = true) as -> by by destruct (create_error b ms m).
       by exists w1. }
  rewrite Hok. change (is_err CORM_OK) with false. cbv iota.
  set (cols := default (map fname fs) (sch w !! table_of m)).
  assert (Hcr : created m fs (sch w) !! table_of m = Some cols /\
    forall x, <[table_of m := x]> (created m fs (sch w)) = <[table_of m := x]> (sch w)).
  { unfold cols, created. destruct (sch w !! table_of m) as [c|] eqn:Hc; [done|].
    rewrite lookup_insert_eq. split; [done|]. intros x. by rewrite insert_insert_eq. }
  destruct Hcr as [Hc1 Hc2]. pose proof L1 as [_ Hp1 Hwf1 Hu1 Hsch1].
  destruct (columns_and_indexes m fs cols
    (migrate_loop db (be_type b) (length l) (map (fun p => Some p.1) l)) w1 Hin Hr)
    as (w2 & E2 & L2); [auto..|by rewrite Hsch1|].
  rewrite E2. pose proof L2 as [_ Hp2 Hwf2 Hu2 Hsch2].
  destruct (IH Hl' Hrl w2) as (w3 & E3 & L3); [auto..|].
  assert (Hmm : sch w2 = migrate_model (alter_error b ms) m fs (sch w)).
  { rewrite Hsch2, Hsch1. apply Hc2. }
  rewrite Hmm in E3, L3. exists w3. split; [done|]. by eapply leads_trans; [|eapply leads_trans].
Qed.

(** C34: [corm_auto_migrate] on a driver with a schema turns it into what the
    specification says: each table is created unless it exists, each column that is
    missing, is not of the primary key and is not refused is added to it, and
    nothing else changes; the first refused CREATE TABLE ends the migration with
    its error, a refused ALTER TABLE does not.  The descriptions of the columns
    that the driver handed out are freed: the caller's memory is as it was. *)
Theorem auto_migrate_schema w :
  plenty w -> heap_wf w -> settled b ms (w_db w) ->
  Forall (fun p => ready (be_type b) p.1 p.2) ms ->
  let r := migrated (create_error b ms) (alter_error b ms) ms (schema_at b ms w) in
  exists w', corm_auto_migrate (Some (Some b)) (Some (map (fun p => Some p.1) ms))
      (Z.of_nat (length ms)) w = Ret r.1 w' /\
    schema_at b ms w' = r.2 /\ w_heap w' = w_heap w.
Proof.
  intros Hp Hwf Hdb Hr.
  destruct (migrate_loop_leads ms ltac:(done) Hr w Hp Hwf Hdb) as (w' & E1 & [Hh _ _ _ Hs]).
  exists w'. split; [|by split].
  unfold corm_auto_migrate. rewrite bind_deref_Some, Nat2Z.id. exact E1.
Qed.

(** C35: after a migration that reports success every table exists and has every
    column of its models that is not of the primary key and is not refused, no
    existing column is lost or moved, and migrating again changes nothing. *)
Theorem auto_migrate_complete w w1 :
  plenty w -> heap_wf w -> settled b ms (w_db w) ->
  Forall (fun p => ready (be_type b) p.1 p.2) ms ->
  let migrate := corm_auto_migrate (Some (Some b)) (Some (map (fun p => Some p.1) ms))
                   (Z.of_nat (length ms)) in
  migrate w = Ret CORM_OK w1 ->
  let sch1 := schema_at b ms w1 in
  (forall m fs, (m, fs) ∈ ms -> exists cols, sch1 !! table_of m = Some cols /\
     forall f, f ∈ fs -> is_primary f = false -> alter_error b ms m f = CORM_OK ->
       fname f ∈ cols) /\
  (forall t cols, schema_at b ms w !! t = Some cols ->
     exists more, sch1 !! t = Some (cols ++ more)) /\
  exists w2, migrate w1 = Ret CORM_OK w2 /\ schema_at b ms w2 = sch1.
Proof.
  intros Hp Hwf Hdb Hr migrate Hm sch1. unfold migrate, corm_auto_migrate in *.
  rewrite bind_deref_Some, Nat2Z.id in *.
  destruct (migrate_loop_leads ms ltac:(done) Hr w Hp Hwf Hdb) as (w' & E1 & [_ Hp1 Hwf1 Hu1 Hsch1]).
  unfold db in E1. rewrite E1 in Hm. injection Hm as Hok ->.
  destruct (migrated_ok (create_error b ms) (alter_error b ms) ms (sch w) sch1) as (Hce & Hg & Hsat).
  { unfold sch1. rewrite Hsch1, <- Hok. apply surjective_pairing. }
  split; [|split; [exact Hg|]].
  - intros m fs Hin. rewrite Forall_forall in Hsat. exact (Hsat (m, fs) Hin).
  - destruct (migrate_loop_leads ms ltac:(done) Hr w1) as (w2 & E2 & [_ _ _ _ Hsch2]); [auto..|].
    fold sch1 in E2, Hsch2. rewrite migrated_fixed in E2, Hsch2 by done.
    exists w2. split; [exact E2|exact Hsch2].
Qed.
End whole.

(** A key of an auto-increment column and another column is declared twice on
    PostgreSQL (and on SQLite). *)
Example create_table_composite_key :
  create_table_text (S := unit) CORM_BACKEND_POSTGRES
    (Model (Some "links") 8 None 2 None None None None None None None None)
    [field_id; Field (Some "owner") CORM_INT 4 4 CORM_FLAG_PRIMARY None None] =
  "CREATE TABLE IF NOT EXISTS " +:+ (quoted CORM_BACKEND_POSTGRES "links" +:+ (" (" +:+
  (quoted CORM_BACKEND_POSTGRES "id" +:+ (" SERIAL PRIMARY KEY, " +:+
  (quoted CORM_BACKEND_POSTGRES "owner" +:+ (" INTEGER, PRIMARY KEY (" +:+
  (quoted CORM_BACKEND_POSTGRES "id" +:+ (", " +:+
  (quoted CORM_BACKEND_POSTGRES "owner" +:+ "))"))))))))).
Proof. by vm_compute. Qed.
