(* ===== verification/DriverState.v ===== *)
(** * What the three drivers share ([src/backend/])

    A driver works on the [struct corm] of the connection ([Core.v]): its
    handle, its error message, its two counters and its cache of prepared
    statements.  The cache is seen here as the list in LRU order that
    [CacheProps.v] shows [internal/stmt_cache.c] to implement; the destructor of
    statements, a function pointer in the source, is given where the cache runs
    it.  The library of the database is the [p_env] of the process state. *)

From S2P Require Import Prelude Types Mem Dialect Hash Model Backend Tx Result Core StmtCache.

(** The cache: capacity, entries from the most to the least recently used, and
    whether [set_destroy_fn] was called. *)
Record stmts (T : Type) : Type := Stmts {
  st_capacity : Z;
  st_list : list (string * T);
  st_close : bool
}.
Arguments Stmts {T}.
Arguments st_capacity {T}.
Arguments st_list {T}.
Arguments st_close {T}.

Definition with_list {T} (l : list (string * T)) '(Stmts n _ c : stmts T) : stmts T := Stmts n l c.

Section driver_state.
Context {D T X L : Type}.
#[local] Abbreviation S := (proc D (stmts T) X L).

(** ** Fields of the struct the drivers write *)

Definition with_conn cn '(Corm _ cf rg e em es li ra lg sc ct : corm D (stmts T) X) : corm D (stmts T) X :=
  Corm cn cf rg e em es li ra lg sc ct.
Definition with_last_id li '(Corm cn cf rg e em es _ ra lg sc ct : corm D (stmts T) X) : corm D (stmts T) X :=
  Corm cn cf rg e em es li ra lg sc ct.
Definition with_affected ra '(Corm cn cf rg e em es li _ lg sc ct : corm D (stmts T) X) : corm D (stmts T) X :=
  Corm cn cf rg e em es li ra lg sc ct.

(** [db->conn]. *)
Definition get_conn : M S (option D) := c ← get_corm; mret (c_conn c).

(** A call of the library. *)
Definition lib {A} (f : L -> A * L) : M S A :=
  s ← get_db;
  let '(a, l) := f (p_env s) in
  put_db (Proc (p_db s) (p_log s) (p_time s) (p_reads s) l);;
  mret a.

(** A call that only reads the state of the library. *)
Definition ask {A} (f : L -> A) : M S A := s ← get_db; mret (f (p_env s)).

(** A call on an object of the library, which must not be released yet. *)
Definition on_live {H A} (live : H -> L -> bool) (h : H) (f : H -> L -> A * L) : M S A :=
  ok ← ask (live h);
  if (ok : bool) then lib (f h) else stuck.
Definition ask_live {H A} (live : H -> L -> bool) (h : H) (f : H -> L -> A) : M S A :=
  ok ← ask (live h);
  if (ok : bool) then ask (f h) else stuck.

(** ** The cache functions, as the drivers call them *)

Definition set_stmts (sc : stmts T) : M S unit := upd_corm (with_cache (Some sc)).

Definition stmt_cache_get (sql : string) : M S (option T) :=
  c ← get_corm;
  match c_stmt_cache c with
  | None => mret None
  | Some sc =>
      set_stmts (with_list (touch sql (st_list sc)) sc);;
      mret (assoc sql (st_list sc))
  end.

Definition stmt_cache_remove (sql : string) : M S (option T) :=
  c ← get_corm;
  match c_stmt_cache c with
  | None => mret None
  | Some sc =>
      set_stmts (with_list (without sql (st_list sc)) sc);;
      mret (assoc sql (st_list sc))
  end.

Definition stmt_cache_set_destroy_fn : M S unit :=
  c ← get_corm;
  match c_stmt_cache c with
  | None => mret tt
  | Some sc => set_stmts (Stmts (st_capacity sc) (st_list sc) true)
  end.

Section destructor.
Context (destroy : T -> M S unit).

(** The destructor of the cache, when it is set. *)
Definition destroy_entry (sc : stmts T) (stmt : T) : M S unit :=
  if st_close sc then destroy stmt else mret tt.

Definition stmt_cache_put (sql : string) (stmt : T) : M S corm_err :=
  c ← get_corm;
  match c_stmt_cache c with
  | None => mret CORM_ERR_NULL
  | Some sc =>
      match assoc sql (st_list sc) with
      | Some _ => set_stmts (with_list (touch sql (st_list sc)) sc);; mret CORM_OK
      | None =>
          set_stmts (with_list (make_room (st_capacity sc) (st_list sc)) sc);;
          match evicted (st_capacity sc) (st_list sc) with
          | Some old => destroy_entry sc old
          | None => mret tt
          end;;
          entry_ok ← malloc_ok;
          if negb entry_ok then mret CORM_ERR_NOMEM
          else
            sql_ok ← malloc_ok;
            if negb sql_ok then mret CORM_ERR_NOMEM
            else
              set_stmts (with_list
                ((sql, stmt) :: make_room (st_capacity sc) (st_list sc)) sc);;
              mret CORM_OK
      end
  end.

Definition stmt_cache_destroy (co : option (stmts T)) : M S unit :=
  match co with
  | None => mret tt
  | Some sc => for_each (st_list sc) (fun kt _ => destroy_entry sc (snd kt)) tt
  end.

(** The cache as [corm_open] and [corm_close] use it. *)
#[export] Instance stmts_api : CacheApi S (stmts T) := {|
  cache_create capacity :=
    if capacity =? 0 then mret (CORM_ERR_NULL, None)
    else
      ok ← malloc_ok;
      if (ok : bool) then mret (CORM_OK, Some (Stmts capacity [] false))
      else mret (CORM_ERR_NOMEM, None);
  cache_destroy := stmt_cache_destroy
|}.
End destructor.

(** ** Texts copied for the caller *)

(** [p ? strdup(p) : NULL] into the name of a column of a result, whose memory
    is not tracked. *)
Definition copy_text (o : option string) : M S (option string) :=
  match o with
  | None => mret None
  | Some s => ok ← malloc_ok; mret (if (ok : bool) then Some s else None)
  end.

(** [p ? strdup(p) : NULL] into a value of a result or a column description. *)
Definition dup_text (o : option string) : M S cptr :=
  match o with
  | None => mret PNull
  | Some s => r ← malloc (BStr s); mret (match r with Some l => PHeap l | None => PNull end)
  end.

(** [malloc(n)], then [memcpy] of [n] bytes from [src] when it is not NULL; the
    bytes are indeterminate otherwise. *)
Definition dup_bytes (n : Z) (src : option (list ascii)) : M S cptr :=
  ok ← malloc_ok;
  if (ok : bool) then
    bs ← deref (match src with Some bs => take_bytes n bs | None => Some [] end);
    l ← new_block (BBytes bs);
    mret (PHeap l)
  else mret PNull.

(** Room for one more element in an array of [count] out of [cap]: the new
    capacity, [None] out of memory; the doubling must not overflow. *)
Definition grow_array (cap count : Z) : M S (option Z) :=
  if cap <=? count then
    if INT_MAX <? cap * 2 then stuck
    else ok ← malloc_ok; mret (if (ok : bool) then Some (cap * 2) else None)
  else mret (Some cap).

(** ** Column descriptions

    [calloc] of the array; [NULL] out of memory. *)
Definition columns_new : M S (option loc) := malloc (BCols []).

(** [realloc] of a full array: the array, which may have moved, and its
    capacity; [None] out of memory, the array being as it was. *)
Definition columns_room (arr : loc) (cap n : Z) : M S (option (loc * Z)) :=
  if cap <=? n then
    if INT_MAX <? cap * 2 then stuck
    else
      cols ← get_columns arr;
      moved ← malloc (BCols cols);
      match moved with
      | None => mret None
      | Some arr' => dealloc arr;; mret (Some (arr', cap * 2))
      end
  else mret (Some (arr, cap)).

(** The next element. *)
Definition columns_add (arr : loc) (col : corm_column_info) : M S unit :=
  cols ← get_columns arr; store arr (BCols (cols ++ [col])).

(** ** Filling a result object *)

Definition set_columns (l : loc) (names : list (option string)) (types : list corm_field_type) :
    M S unit :=
  res ← get_result (Some l);
  put_result (Some l) (Result (r_column_count res) names types (r_rows res) (r_row_count res)
    (r_current_row res) (r_refcount res)).

(** [res->rows[i]]. *)
Definition put_row (l : loc) (i : nat) (vs : list corm_value) : M S unit :=
  match vs with
  | [] => mret tt
  | _ =>
      res ← get_result (Some l);
      deref (r_rows res !! i);;
      put_result (Some l) (Result (r_column_count res) (r_column_names res) (r_column_types res)
        (<[i := vs]> (r_rows res)) (r_row_count res) (r_current_row res) (r_refcount res))
  end.
End driver_state.
