(* ===== verification/DriverSpec.v ===== *)
(** * Reasoning about drivers

    A driver works on the state behind the connection, not on the caller's
    memory.  [framed] says so of a program as a function; [triple] is its
    total-correctness specification: started in a state that satisfies [P] it
    returns, whatever memory holds, leaves the heap alone and ends in [Q].
    [mem] tells whether the allocations succeed.  The last section specifies the
    cache functions of [DriverState.v]. *)

From S2P Require Import Prelude Types Mem Strbuf Dialect Hash Model Backend Query QuerySpec Tx.
From S2P Require Import Core CoreProps StmtCache DriverState.

Section calculus.
Context {S : Type}.
Implicit Types (w : world S) (P : S -> Prop).

(** ** Programs that leave the heap alone *)

Definition framed {A} (m : M S A) : Prop :=
  exists f : list bool -> S -> option (A * list bool * S),
    (forall w, m w = match f (w_oracle w) (w_db w) with
                     | Some (a, o, d) => Ret a (World o (w_heap w) (w_next w) d)
                     | None => Stuck
                     end) /\
    forall d a o d', f [] d = Some (a, o, d') -> o = [].

Lemma framed_ret {A} (a : A) : framed (mret a : M S A).
Proof.
  exists (fun o d => Some (a, o, d)). split; [by intros [o h n d]|]. by intros d x o d' [= _ <- _].
Qed.

Lemma framed_stuck {A} : framed (stuck : M S A).
Proof. exists (fun _ _ => None). by split. Qed.

Lemma framed_bind {A B} (m : M S A) (k : A -> M S B) :
  framed m -> (forall a, framed (k a)) -> framed (m ≫= k).
Proof.
  intros (f & Hf & Hfo) Hk.
  assert (Hg : forall a w, k a w =
    match k a (World (w_oracle w) ∅ 1%positive (w_db w)) with
    | Ret b w' => Ret b (World (w_oracle w') (w_heap w) (w_next w) (w_db w'))
    | Stuck => Stuck
    end).
  { intros a w. destruct (Hk a) as (g & Hg & _). rewrite !Hg. cbn.
    by destruct (g _ _) as [[[b o] d]|]. }
  exists (fun o d => '(a, o, d) ← f o d;
            match k a (World o ∅ 1%positive d) with
            | Ret b w' => Some (b, w_oracle w', w_db w')
            | Stuck => None
            end).
  split.
  - intros w. unfold mbind at 1, M_bind. rewrite Hf.
    destruct (f (w_oracle w) (w_db w)) as [[[a o] d]|]; [|done]. cbn. rewrite Hg. cbn.
    by destruct (k a _).
  - intros d b o d' H. destruct (f [] d) as [[[a o1] d1]|] eqn:E; [|done]. cbn in H.
    apply Hfo in E as ->. destruct (Hk a) as (g & Hgk & Hgo). rewrite Hgk in H. cbn in H.
    destruct (g [] d1) as [[[b' o'] d'']|] eqn:E; [|done]. apply Hgo in E as ->.
    by injection H as <- <- <-.
Qed.

Lemma framed_get_db : framed (get_db : M S S).
Proof.
  exists (fun o d => Some (d, o, d)). split; [by intros [o h n d]|]. by intros d x o d' [= _ <- _].
Qed.

Lemma framed_put_db d : framed (put_db d : M S unit).
Proof.
  exists (fun o _ => Some (tt, o, d)). split; [by intros [o h n d']|]. by intros d1 x o d' [= _ <- _].
Qed.

Lemma framed_malloc_ok : framed (malloc_ok : M S bool).
Proof.
  exists (fun o d => match o with [] => Some (true, [], d) | b :: o => Some (b, o, d) end).
  split; [by intros [[|b o] h n d]|]. by intros d x o d' [= _ <- _].
Qed.

Lemma framed_deref {A} (o : option A) : framed (deref o : M S A).
Proof. destruct o; [apply framed_ret|apply framed_stuck]. Qed.

Lemma framed_for_each {A B} (xs : list A) (body : A -> B -> M S B) (b : B) :
  (forall x y, framed (body x y)) -> framed (for_each xs body b).
Proof.
  intros Hb. revert b. induction xs as [|x xs IH]; intros b; [apply framed_ret|].
  cbn [for_each]. by apply framed_bind.
Qed.

(** What a framed program does to the state when memory suffices. *)
Definition effect {A} (m : M S A) (d : S) : option (A * S) :=
  match m (World [] ∅ 1%positive d) with
  | Ret a w => Some (a, w_db w)
  | Stuck => None
  end.

Lemma framed_effect {A} (m : M S A) w :
  framed m -> plenty w ->
  m w = match effect m (w_db w) with
        | Some (a, d) => Ret a (set_db d w)
        | None => Stuck
        end.
Proof.
  intros (f & Hf & Ho) Hp. unfold effect. rewrite !Hf. rewrite Hp. cbn.
  destruct (f [] (w_db w)) as [[[a o] d]|] eqn:E; [|done]. apply Ho in E as ->.
  unfold set_db. cbn. by rewrite Hp.
Qed.

(** Programs that agree on every world with this heap. *)
Lemma framed_agree {A B} (m : M S A) (k1 k2 : A -> M S B) w :
  framed m -> (forall a w', w_heap w' = w_heap w -> k1 a w' = k2 a w') ->
  (m ≫= k1) w = (m ≫= k2) w.
Proof.
  intros (f & Hf & _) Hk. unfold mbind, M_bind. rewrite Hf.
  destruct (f _ _) as [[[a o] d]|]; [by apply Hk|done].
Qed.

(** ** Total correctness *)

Definition triple (mem : bool) P {A} (m : M S A) (Q : A -> S -> Prop) : Prop :=
  forall w, (mem = true -> plenty w) -> P (w_db w) ->
  exists a o d, m w = Ret a (World o (w_heap w) (w_next w) d) /\ (plenty w -> o = []) /\ Q a d.

Lemma triple_ret mem P {A} (a : A) (Q : A -> S -> Prop) :
  (forall d, P d -> Q a d) -> triple mem P (mret a) Q.
Proof. intros H [o h n d] Hm HP. exists a, o, d. auto. Qed.

Lemma triple_conseq mem P P' {A} (m : M S A) (Q Q' : A -> S -> Prop) :
  triple mem P m Q -> (forall d, P' d -> P d) -> (forall a d, Q a d -> Q' a d) ->
  triple mem P' m Q'.
Proof.
  intros H HP HQ w Hm Hd. destruct (H w Hm (HP _ Hd)) as (a & o & d & E & Ho & Hq).
  exists a, o, d. eauto.
Qed.

Lemma triple_bind mem P {A B} (m : M S A) (k : A -> M S B) (R : A -> S -> Prop) (Q : B -> S -> Prop) :
  triple mem P m R -> (forall a, triple mem (R a) (k a) Q) -> triple mem P (m ≫= k) Q.
Proof.
  intros H Hk w Hm Hd. destruct (H w Hm Hd) as (a & o & d & E & Ho & HR).
  destruct (Hk a (World o (w_heap w) (w_next w) d)) as (b & o' & d' & E' & Ho' & HQ); [|done|].
  - intros Ht. by apply Ho, Hm.
  - exists b, o', d'. rewrite (bind_Ret _ _ _ _ _ E). split; [done|]. split; [|done].
    intros Hp. by apply Ho', Ho.
Qed.

Lemma triple_pure mem (phi : Prop) P {A} (m : M S A) (Q : A -> S -> Prop) :
  (phi -> triple mem P m Q) -> triple mem (fun d => phi /\ P d) m Q.
Proof. intros H w Hm [Hp Hd]. by apply (H Hp). Qed.

Lemma triple_pure_r mem (phi : Prop) P {A} (m : M S A) (Q : A -> S -> Prop) :
  (phi -> triple mem P m Q) -> triple mem (fun d => P d /\ phi) m Q.
Proof. intros H w Hm [Hd Hp]. by apply (H Hp). Qed.

Lemma triple_exists mem {X} (P : X -> S -> Prop) {A} (m : M S A) (Q : A -> S -> Prop) :
  (forall x, triple mem (P x) m Q) -> triple mem (fun d => exists x, P x d) m Q.
Proof. intros H w Hm [x Hd]. by apply (H x). Qed.

(** A deterministic step of the state. *)
Lemma triple_eq mem P {A} (m : M S A) (a : S -> A) (g : S -> S) (Q : A -> S -> Prop) :
  (forall w, P (w_db w) -> m w = Ret (a (w_db w)) (set_db (g (w_db w)) w)) ->
  (forall d, P d -> Q (a d) (g d)) -> triple mem P m Q.
Proof.
  intros E HQ w _ Hd. exists (a (w_db w)), (w_oracle w), (g (w_db w)). rewrite (E w Hd).
  split; [done|]. split; [done|]. by apply HQ.
Qed.

Lemma triple_malloc_ok mem P :
  triple mem P malloc_ok (fun b d => P d /\ (mem = true -> b = true)).
Proof.
  intros [[|b o] h n d] Hm Hd; cbn.
  - by exists true, [], d.
  - exists b, o, d. split; [done|]. split; [done|]. split; [done|].
    intros Ht. by specialize (Hm Ht).
Qed.

Lemma triple_effect {A} P (m : M S A) (Q : A -> S -> Prop) d :
  triple true P m Q -> P d -> exists a d', effect m d = Some (a, d') /\ Q a d'.
Proof.
  intros H Hd. destruct (H (World [] ∅ 1%positive d)) as (a & o & d' & E & _ & HQ); [done..|].
  exists a, d'. unfold effect. by rewrite E.
Qed.

End calculus.

Create HintDb framed discriminated.
#[export] Hint Resolve framed_ret framed_stuck framed_get_db framed_put_db framed_malloc_ok
  framed_deref : framed.

(** Decide that a program is framed by its shape. *)
Ltac framed_step :=
  match goal with
  | |- framed (_ ≫= _) => apply framed_bind; [|intros ?]
  | |- framed (for_each _ _ _) => apply framed_for_each; intros ??
  | |- framed (match ?x with _ => _ end) => destruct x
  | |- framed _ => solve [auto with framed nocore]
  end.
Ltac framed := intros; repeat framed_step.

(** ** The state of a connection *)

Section connection.
Context {D T X L : Type}.
#[local] Abbreviation S := (proc D (stmts T) X L).
Implicit Types (sc : option (stmts T)) (l : L) (cn : option D).

(** The connection is open, with this handle, statement cache and state of the
    library. *)
Definition at_state cn sc l (d : S) : Prop :=
  exists c, p_db d = Some c /\ c_conn c = cn /\ c_stmt_cache c = sc /\ p_env d = l.

Definition set_lib l (s : S) : S := Proc (p_db s) (p_log s) (p_time s) (p_reads s) l.

Lemma framed_get_corm : framed (get_corm : M S (corm D (stmts T) X)).
Proof. unfold get_corm. framed. Qed.
Lemma framed_put_corm c : framed (put_corm c : M S unit).
Proof. unfold put_corm. framed. Qed.
#[local] Hint Resolve framed_get_corm framed_put_corm : framed.
Lemma framed_upd_corm f : framed (upd_corm f : M S unit).
Proof. unfold upd_corm. framed. Qed.
#[local] Hint Resolve framed_upd_corm : framed.
Lemma framed_set_err_msg s : framed (corm_set_err_msg s : M S unit).
Proof. unfold corm_set_err_msg. framed. Qed.
Lemma framed_get_conn : framed (get_conn : M S (option D)).
Proof. unfold get_conn. framed. Qed.
Lemma framed_set_stmts c : framed (set_stmts c : M S unit).
Proof. unfold set_stmts. framed. Qed.
Lemma framed_lib {A} (f : L -> A * L) : framed (lib f : M S A).
Proof. unfold lib. framed. Qed.
Lemma framed_ask {A} (f : L -> A) : framed (ask f : M S A).
Proof. unfold ask. framed. Qed.
#[local] Hint Resolve framed_set_stmts : framed.
Lemma framed_cache_get sql : framed (stmt_cache_get sql : M S (option T)).
Proof. unfold stmt_cache_get. framed. Qed.
Lemma framed_cache_remove sql : framed (stmt_cache_remove sql : M S (option T)).
Proof. unfold stmt_cache_remove. framed. Qed.
Lemma framed_cache_put (destroy : T -> M S unit) sql t :
  (forall t, framed (destroy t)) -> framed (stmt_cache_put destroy sql t).
Proof. intros Hd. unfold stmt_cache_put, destroy_entry. framed. Qed.

(** *** What the primitives do *)

Lemma lib_ok {A} (f : L -> A * L) (w : world S) :
  lib f w = Ret (f (p_env (w_db w))).1 (set_db (set_lib (f (p_env (w_db w))).2 (w_db w)) w).
Proof.
  unfold lib, get_db, put_db, mbind, M_bind. cbn. by destruct (f (p_env (w_db w))).
Qed.

Context (mem : bool).

Lemma triple_lib {A} (f : L -> A * L) cn sc l :
  triple mem (at_state cn sc l) (lib f) (fun a d => a = (f l).1 /\ at_state cn sc (f l).2 d).
Proof.
  apply (triple_eq mem _ _ (fun d => (f (p_env d)).1) (fun d => set_lib (f (p_env d)).2 d)).
  - intros w _. apply lib_ok.
  - intros d (c & ? & ? & ? & <-). split; [done|]. by exists c.
Qed.

Lemma triple_ask {A} (f : L -> A) cn sc l :
  triple mem (at_state cn sc l) (ask f) (fun a d => a = f l /\ at_state cn sc l d).
Proof.
  apply (triple_eq mem _ _ (fun d => f (p_env d)) (fun d => d)); [by intros [o h n d]|].
  intros d (c & ? & ? & ? & <-). split; [done|]. by exists c.
Qed.

Lemma triple_get_conn cn sc l :
  triple mem (at_state cn sc l) get_conn (fun r d => r = cn /\ at_state cn sc l d).
Proof.
  intros w _ (c & Hc & Hcn & Hsc & Hl). exists cn, (w_oracle w), (w_db w).
  unfold get_conn. rewrite (bind_Ret _ _ _ _ _ (get_corm_ok w c Hc)), Hcn.
  split; [by destruct w|]. split; [done|]. split; [done|]. by exists c.
Qed.

Lemma triple_get_corm cn sc l :
  triple mem (at_state cn sc l) get_corm
    (fun c d => c_conn c = cn /\ c_stmt_cache c = sc /\ at_state cn sc l d).
Proof.
  intros w _ (c & Hc & Hcn & Hsc & Hl). exists c, (w_oracle w), (w_db w).
  rewrite (get_corm_ok w c Hc). split; [by destruct w|]. split; [done|]. split; [done|].
  split; [done|]. by exists c.
Qed.

(** Fields that are not in the view. *)
Lemma triple_upd (f : corm D (stmts T) X -> corm D (stmts T) X) cn sc l cn' sc' :
  (forall c, c_conn c = cn -> c_stmt_cache c = sc ->
     c_conn (f c) = cn' /\ c_stmt_cache (f c) = sc') ->
  triple mem (at_state cn sc l) (upd_corm f) (fun _ d => at_state cn' sc' l d).
Proof.
  intros Hf w _ (c & Hc & Hcn & Hsc & Hl). rewrite (upd_corm_ok w c f Hc).
  destruct (Hf c Hcn Hsc). eexists _, _, _. split; [done|]. split; [done|]. by exists (f c).
Qed.

Lemma triple_set_stmts s cn sc l :
  triple mem (at_state cn sc l) (set_stmts s) (fun _ d => at_state cn (Some s) l d).
Proof. apply triple_upd. by intros []. Qed.

Lemma triple_set_err_msg s cn sc l :
  triple mem (at_state cn sc l) (corm_set_err_msg s) (fun _ d => at_state cn sc l d).
Proof. apply triple_upd. by intros []. Qed.

(** *** The cache *)

Definition cached sc : list (string * T) := match sc with Some c => st_list c | None => [] end.

Lemma triple_cache_get sql cn sc l :
  triple mem (at_state cn sc l) (stmt_cache_get sql)
    (fun r d => r = assoc sql (cached sc) /\
       at_state cn ((fun c => with_list (touch sql (st_list c)) c) <$> sc) l d).
Proof.
  eapply triple_bind; [apply triple_get_corm|]. intros c. apply triple_pure. intros _.
  apply triple_pure. intros ->. destruct sc as [s|]; cbn; [|by apply triple_ret].
  eapply triple_bind; [apply triple_set_stmts|]. intros []. by apply triple_ret.
Qed.

Lemma triple_cache_remove sql cn sc l :
  triple mem (at_state cn sc l) (stmt_cache_remove sql)
    (fun r d => r = assoc sql (cached sc) /\
       at_state cn ((fun c => with_list (without sql (st_list c)) c) <$> sc) l d).
Proof.
  eapply triple_bind; [apply triple_get_corm|]. intros c. apply triple_pure. intros _.
  apply triple_pure. intros ->. destruct sc as [s|]; cbn; [|by apply triple_ret].
  eapply triple_bind; [apply triple_set_stmts|]. intros []. by apply triple_ret.
Qed.

Section destructor.
Context (destroy : T -> M S unit) (live : T -> L -> Prop) (gone : T -> L -> L).
Context (Hdestroy : forall cn sc l t, live t l ->
  triple mem (at_state cn sc l) (destroy t) (fun _ d => at_state cn sc (gone t l) d)).

Definition closed_if (close : bool) (o : option T) l : L :=
  if close then match o with Some t => gone t l | None => l end else l.

Lemma triple_cache_put_miss sql t cn s l :
  assoc sql (st_list s) = None ->
  (forall t, evicted (st_capacity s) (st_list s) = Some t -> live t l) ->
  triple mem (at_state cn (Some s) l) (stmt_cache_put destroy sql t) (fun e d =>
    let rest := make_room (st_capacity s) (st_list s) in
    let l' := closed_if (st_close s) (evicted (st_capacity s) (st_list s)) l in
    (e = CORM_OK /\ at_state cn (Some (with_list ((sql, t) :: rest) s)) l' d) \/
    (e = CORM_ERR_NOMEM /\ mem = false /\ at_state cn (Some (with_list rest s)) l' d)).
Proof.
  intros Ha Hl. eapply triple_bind; [apply triple_get_corm|]. intros c.
  apply triple_pure. intros _. apply triple_pure. intros ->. cbn. rewrite Ha.
  eapply triple_bind; [apply triple_set_stmts|]. intros [].
  set (rest := make_room _ _). set (l' := closed_if _ _ _).
  eapply (triple_bind _ _ _ _ (fun _ d => at_state cn (Some (with_list rest s)) l' d)).
  { unfold l', closed_if, destroy_entry. destruct (evicted _ _) as [old|]; [|by apply triple_ret; destruct (st_close s)].
    destruct (st_close s); [by apply Hdestroy, Hl|by apply triple_ret]. }
  intros []. eapply triple_bind; [apply triple_malloc_ok|]. intros [] ; cbn.
  2: { apply triple_ret. intros d [Hd Hm]. right. split; [done|]. split; [|done].
       destruct mem; [by specialize (Hm eq_refl)|done]. }
  eapply triple_bind; [apply triple_malloc_ok|]. intros []; cbn.
  2: { apply triple_ret. intros d [[Hd _] Hm]. right. split; [done|]. split; [|done].
       destruct mem; [by specialize (Hm eq_refl)|done]. }
  eapply triple_bind.
  { eapply triple_conseq; [apply triple_set_stmts| |done]. intros d [[Hd _] _]. exact Hd. }
  intros []. apply triple_ret. auto.
Qed.

Lemma triple_cache_put_none sql t cn l :
  triple mem (at_state cn None l) (stmt_cache_put destroy sql t)
    (fun e d => e = CORM_ERR_NULL /\ at_state cn None l d).
Proof.
  eapply triple_bind; [apply triple_get_corm|]. intros c. apply triple_pure. intros _.
  apply triple_pure. intros ->. by apply triple_ret.
Qed.
End destructor.
End connection.

#[export] Hint Resolve framed_get_corm framed_put_corm framed_upd_corm framed_set_err_msg
  framed_get_conn framed_set_stmts framed_lib framed_ask framed_cache_get framed_cache_remove
  framed_cache_put : framed.
