(* ===== verification/Reading.v ===== *)
(** * How drivers build result objects

    The texts and blobs a driver copies are blocks that the result object will
    own.  [reading] says what a step of copying keeps; [filling] describes an
    object whose rows are filled one after the other. *)

From S2P Require Import Prelude Types Mem Strbuf Dialect Hash Model Backend Query Builder.
From S2P Require Import BuilderSpec QuerySpec Tx Result ResultSpec Exec Rows Core CoreProps StmtCache.
From S2P Require Import DriverState DriverSpec.

(** The length of a blob is passed as an [int]. *)
Definition int_sized (x : sqlval) : Prop :=
  match x with SBlob bs => Z.of_nat (length bs) < 2 ^ 31 | _ => True end.

Section reading.
Context {D T X L : Type}.
#[local] Abbreviation S := (proc D (stmts T) X L).
Implicit Types (w : world S) (d : S).

(** A triple used at a world with memory. *)
Lemma triple_run {A} P (m : M S A) (Q : A -> S -> Prop) w :
  triple true P m Q -> plenty w -> P (w_db w) ->
  exists a d, m w = Ret a (set_db d w) /\ Q a d.
Proof.
  intros Hm Hp Hd. destruct (Hm w (fun _ => Hp) Hd) as (a & o & d & E & Ho & HQ).
  exists a, d. rewrite E. split; [|done]. rewrite (Ho Hp). unfold set_db. by rewrite Hp.
Qed.

(** ** Copies *)

(** What reading keeps. *)
Record reading w w' (base : gmap loc block) (ls : list loc) : Prop := {
  rd_db : w_db w' = w_db w;
  rd_plenty : plenty w';
  rd_wf : heap_wf w';
  rd_le : heap_le (w_heap w) (w_heap w');
  rd_split : heap_split (w_heap w') base ls
}.

Lemma reading_id w base ls :
  plenty w -> heap_wf w -> heap_split (w_heap w) base ls -> reading w w base ls.
Proof. intros. by constructor; [..|apply heap_le_refl|]. Qed.

(** A new block. *)
Lemma reading_new w base ls b :
  plenty w -> heap_wf w -> heap_split (w_heap w) base ls ->
  let w' := World [] (<[w_next w := b]> (w_heap w)) (Pos.succ (w_next w)) (w_db w) in
  malloc b w = Ret (Some (w_next w)) w' /\ reading w w' base (ls ++ [w_next w]).
Proof.
  intros Hp Hwf Hs. pose proof (heap_wf_fresh w Hwf) as Hf. cbn zeta. split.
  - unfold malloc. rewrite (bind_Ret _ _ _ _ _ (malloc_ok_plenty w Hp)).
    destruct w. unfold plenty in Hp. cbn in Hp. by subst.
  - constructor; cbn; [done|done| | |by apply heap_split_new].
    + intros k. cbn. destruct (decide (k = w_next w)) as [->|Hne]; [lia|].
      rewrite lookup_insert_ne by done. intros Hk. specialize (Hwf k Hk). lia.
    + intros k b' Hk. rewrite lookup_insert_ne; [done|]. intros <-. congruence.
Qed.

Lemma dup_text_ok o w base ls :
  plenty w -> heap_wf w -> heap_split (w_heap w) base ls ->
  exists p w', dup_text o w = Ret p w' /\
    reading w w' base (ls ++ match p with PHeap l => [l] | _ => [] end) /\
    match o with
    | None => p = PNull
    | Some s => exists l, p = PHeap l /\ read_cstr (w_heap w') p = Some s
    end.
Proof.
  intros Hp Hwf Hs. destruct o as [s|]; unfold dup_text.
  - destruct (reading_new w base ls (BStr s) Hp Hwf Hs) as [E Hr]. run_with E.
    eexists _, _. split; [done|]. split; [done|]. eexists. split; [done|]. cbn.
    by rewrite lookup_insert_eq.
  - exists PNull, w. split; [done|]. rewrite app_nil_r. split; [by apply reading_id|done].
Qed.

Lemma dup_bytes_ok n bs w base ls :
  plenty w -> heap_wf w -> heap_split (w_heap w) base ls -> Z.of_nat (length bs) = n ->
  exists l w', dup_bytes n (Some bs) w = Ret (PHeap l) w' /\ reading w w' base (ls ++ [l]) /\
    read_bytes (w_heap w') (PHeap l) n = Some bs.
Proof.
  intros Hp Hwf Hs Hn. destruct (reading_new w base ls (BBytes bs) Hp Hwf Hs) as [E Hr].
  exists (w_next w). eexists. split; [|split; [exact Hr|]].
  - unfold dup_bytes. rewrite (bind_Ret _ _ _ _ _ (malloc_ok_plenty w Hp)).
    rewrite (take_bytes_all _ _ Hn). run. destruct w. unfold plenty in Hp. cbn in Hp. by subst.
  - cbn. by rewrite lookup_insert_eq, take_bytes_all.
Qed.

Lemma reading_trans w1 w2 w3 base ls1 ls2 :
  reading w1 w2 base ls1 -> reading w2 w3 base ls2 -> reading w1 w3 base ls2.
Proof. intros [] []. constructor; [congruence|done|done|by eapply heap_le_trans|done]. Qed.

Lemma owned_cons v vs : owned (v :: vs) = owned_of v ++ owned vs.
Proof. done. Qed.

Lemma grow_array_ok cap count w :
  plenty w -> 0 <= count < 2 ^ 30 -> exists cap', grow_array cap count w = Ret (Some cap') w.
Proof.
  intros Hp Hc. unfold grow_array, INT_MAX. destruct (Z.leb_spec cap count); [|by eexists].
  destruct (Z.ltb_spec 2147483647 (cap * 2)); [lia|]. run_with (malloc_ok_plenty w Hp). by eexists.
Qed.

(** ** Types *)

Definition has_type (ty : corm_field_type) (x : sqlval) : Prop :=
  match x, ty with
  | SNull, _ | SInt _, CORM_INT64 | SDbl _, CORM_DOUBLE | SText _, CORM_TEXT | SBlob _, CORM_BLOB
  | SBool _, CORM_BOOL => True
  | _, _ => False
  end.

(** Every cell carries the type of its column and can be read as a value of this
    type. *)
Definition typed_result (hp : gmap loc block) (res : corm_result) : Prop :=
  Forall (Forall2 (fun ty v => v_type v = ty /\ exists x, resolve hp v = Some x /\ has_type ty x)
            (r_column_types res)) (r_rows res).

(** ** Filling a result object *)

(** [v] has the type [ty] and reads as [x]. *)
Definition reads_as (hp : gmap loc block) (ty : corm_field_type) (x : sqlval) (v : corm_value) : Prop :=
  v_type v = ty /\ v_is_null v = match x with SNull => true | _ => false end /\ resolve hp v = Some x.

Definition row_reads (hp : gmap loc block) (types : list corm_field_type) (xs : list sqlval)
    (vs : list corm_value) : Prop := Forall3 (reads_as hp) types xs vs.

(** Everything but result objects is kept. *)
Definition text_le (h h' : gmap loc block) : Prop :=
  forall l b, h !! l = Some b -> (forall r, b <> BResult r) -> h' !! l = Some b.

Lemma text_le_refl h : text_le h h.
Proof. by intros l b. Qed.
Lemma text_le_trans h1 h2 h3 : text_le h1 h2 -> text_le h2 h3 -> text_le h1 h3.
Proof. intros H1 H2 l b Hl Hb. auto. Qed.
Lemma heap_le_text h h' : heap_le h h' -> text_le h h'.
Proof. intros Hle l b Hl _. by apply Hle. Qed.

Lemma text_le_data h h' : text_le h h' -> data_le h h'.
Proof. intros Hle l b Hl. destruct b; try done; by apply Hle. Qed.

(** The heap without its result objects reads the same. *)
Definition texts (h : gmap loc block) : gmap loc block :=
  omap (fun b => match b with BResult _ => None | _ => Some b end) h.

Lemma texts_lookup h l :
  texts h !! l = match h !! l with Some (BResult _) => None | o => o end.
Proof.
  unfold texts. rewrite lookup_omap. by destruct (h !! l) as [[]|].
Qed.

Lemma texts_le h h' : text_le h h' -> heap_le (texts h) h'.
Proof.
  intros Hle l b. rewrite texts_lookup. destruct (h !! l) as [b'|] eqn:E; [|done].
  by destruct b'; intros [= <-]; apply Hle.
Qed.

Lemma texts_rec h r : heap_rec (texts h) r = heap_rec h r.
Proof. unfold heap_rec. rewrite texts_lookup. by destruct (h !! r.1) as [[]|]. Qed.

Lemma texts_cstr h p : read_cstr (texts h) p = read_cstr h p.
Proof.
  destruct p as [|l|l i off|]; cbn; [done| | |done].
  - rewrite texts_lookup. by destruct (h !! l) as [[]|].
  - by rewrite texts_rec.
Qed.

Lemma texts_bytes h p n : read_bytes (texts h) p n = read_bytes h p n.
Proof.
  destruct p as [|l|l i off|]; cbn; [done| | |done].
  - rewrite texts_lookup. by destruct (h !! l) as [[]|].
  - by rewrite texts_rec.
Qed.

Lemma texts_resolve h v : resolve (texts h) v = resolve h v.
Proof.
  unfold resolve. destruct (v_is_null v); [done|]. destruct (v_type v); try done;
    unfold mbind, option_bind; case_match; try done; [by rewrite texts_cstr..|].
  destruct p. by rewrite texts_bytes.
Qed.

Lemma resolve_text h h' v x : text_le h h' -> resolve h v = Some x -> resolve h' v = Some x.
Proof. intros Hle Hr. rewrite <- texts_resolve in Hr. by eapply resolve_mono, Hr; apply texts_le. Qed.

Lemma row_reads_text h h' types xs vs :
  text_le h h' -> row_reads h types xs vs -> row_reads h' types xs vs.
Proof.
  intros Hle Hr. induction Hr as [|ty x v types xs vs (Ht & Hn & Hx) Hr IH]; constructor; [|done].
  split; [done|]. split; [done|]. by eapply resolve_text.
Qed.
Lemma row_reads_typed hp types xs vs :
  row_reads hp types xs vs -> Forall2 has_type types xs ->
  Forall2 (fun ty v => v_type v = ty /\ exists x, resolve hp v = Some x /\ has_type ty x) types vs.
Proof.
  intros Hr. induction Hr as [|ty x v types xs vs (Ht & _ & Hx) Hr IH]; [constructor|].
  intros [Hty Htys]%Forall2_cons. constructor; [by eauto|by apply IH].
Qed.

(** The object at [l] under construction: the rows [done], then [m] rows of
    zeros. *)
Definition zero_row (n : Z) : list corm_value := replicate (Z.to_nat n) value_zero.

Definition partial (n : Z) names types (done : list (list corm_value)) (m : nat) : corm_result :=
  Result n names types (done ++ replicate m (zero_row n)) (Z.of_nat (length done + m)) (-1) 1.

Record filling w (l : loc) (n : Z) names types done (m : nat) (base : gmap loc block) : Prop := {
  fl_at : result_at w l (partial n names types done m) base;
  fl_plenty : plenty w;
  fl_wf : heap_wf w
}.

Lemma partial_blocks n names types done m :
  row_blocks (partial n names types done m) = owned (concat done).
Proof.
  unfold row_blocks, owned. cbn. rewrite concat_app, map_app, concat_app. unfold zero_row.
  rewrite concat_zero. fold (owned (replicate (m * Z.to_nat n) value_zero)).
  by rewrite owned_zero, app_nil_r.
Qed.

Lemma filling_split w l n names types done m base :
  filling w l n names types done m base -> heap_split (w_heap w) base (owned (concat done) ++ [l]).
Proof. intros [[_ Hs _ _] _ _]. by rewrite partial_blocks in Hs. Qed.

Lemma heap_split_update h base ls l b :
  l ∈ ls -> heap_split h base ls -> heap_split (<[l := b]> h) base ls.
Proof.
  intros Hl (Hn & Hin & Hba). split; [done|]. split.
  - intros k Hk. destruct (decide (k = l)) as [->|Hne].
    + rewrite lookup_insert_eq. by eexists.
    + rewrite lookup_insert_ne by done. by apply Hin.
  - intros k. rewrite Hba. case_decide; [done|]. rewrite lookup_insert_ne; [done|]. by intros <-.
Qed.

Lemma heap_split_perm h base ls ls' : ls ≡ₚ ls' -> heap_split h base ls -> heap_split h base ls'.
Proof.
  intros Hp (Hn & Hin & Hba). split; [by rewrite <- Hp|]. split.
  - intros k Hk. apply Hin. by rewrite Hp.
  - intros k. rewrite Hba. destruct (decide (k ∈ ls)) as [Hk|Hk].
    + rewrite decide_True by by rewrite <- Hp. done.
    + rewrite decide_False by by rewrite <- Hp. done.
Qed.

(** Writing the object. *)
Lemma put_result_step w l res res' :
  w_heap w !! l = Some (BResult res) -> plenty w -> heap_wf w ->
  let w' := set_heap (<[l := BResult res']> (w_heap w)) w in
  put_result (Some l) res' w = Ret tt w' /\ plenty w' /\ heap_wf w' /\
  text_le (w_heap w) (w_heap w').
Proof.
  intros Hl Hp Hwf. cbn zeta. split.
  { unfold put_result, store. run. by rewrite Hl. }
  split; [done|]. split.
  - intros k. cbn. destruct (decide (k = l)) as [->|Hne]; [intros _; apply Hwf; by eexists|].
    rewrite lookup_insert_ne by done. apply Hwf.
  - intros k b Hk Hb. cbn. rewrite lookup_insert_ne; [done|]. intros <-. rewrite Hl in Hk.
    injection Hk as <-. by eapply Hb.
Qed.

Lemma load_result w l res :
  w_heap w !! l = Some (BResult res) -> get_result (Some l) w = Ret res w.
Proof. intros Hl. unfold get_result, load. run. unfold mbind, M_bind. by rewrite Hl. Qed.

Lemma filling_new n rc w :
  plenty w -> heap_wf w -> 0 <= n -> 0 <= rc < 2 ^ 31 ->
  exists l w', corm_result_new n rc w = Ret (Some l) w' /\
    filling w' l n (replicate (Z.to_nat n) None) (replicate (Z.to_nat n) CORM_INT) [] (Z.to_nat rc)
      (w_heap w) /\ w_db w' = w_db w.
Proof.
  intros Hp Hwf Hn Hr. destruct (result_new_exact n rc w Hp Hwf Hn Hr) as (l & w' & E & Ha & Hd & Hp' & Hwf').
  exists l, w'. split; [done|]. split; [|done]. constructor; [|done|done].
  unfold partial. cbn [app length]. rewrite Nat.add_0_l, Z2Nat.id by lia. exact Ha.
Qed.

Lemma set_columns_ok w l n names types names' types' done m base :
  filling w l n names types done m base ->
  Z.of_nat (length names') = n -> Z.of_nat (length types') = n ->
  exists w', set_columns l names' types' w = Ret tt w' /\
    filling w' l n names' types' done m base /\ w_db w' = w_db w /\ text_le (w_heap w) (w_heap w').
Proof.
  intros [[Hl Hs Hc Hw] Hp Hwf] Hn Ht. unfold set_columns. run_with (load_result _ _ _ Hl).
  destruct (put_result_step w l _ (partial n names' types' done m) Hl Hp Hwf) as (E & Hp' & Hwf' & Hle).
  eexists. split; [exact E|]. split; [|done]. constructor; [|done|done].
  destruct Hw. constructor; [by cbn; rewrite lookup_insert_eq| |done|by constructor].
  apply heap_split_update; [|exact Hs]. apply elem_of_app. right. apply list_elem_of_here.
Qed.

Lemma put_row_ok w w1 l n names types done m base vs :
  filling w l n names types done (Datatypes.S m) base ->
  reading w w1 base ((owned (concat done) ++ [l]) ++ owned vs) ->
  Forall param_wf vs -> length vs = Z.to_nat n ->
  exists w2, put_row l (length done) vs w1 = Ret tt w2 /\
    filling w2 l n names types (done ++ [vs]) m base /\ w_db w2 = w_db w1 /\
    text_le (w_heap w1) (w_heap w2).
Proof.
  intros [[Hl _ Hc Hw] _ _] [_ Hp Hwf Hle Hs] Hvs Hlen. apply Hle in Hl.
  assert (Hpart : partial n names types (done ++ [vs]) m =
    Result n names types (<[length done := vs]> (done ++ replicate (Datatypes.S m) (zero_row n)))
      (Z.of_nat (length done + Datatypes.S m)) (-1) 1).
  { unfold partial. rewrite insert_app_r_alt, Nat.sub_diag by lia. cbn [replicate insert list_insert].
    rewrite <- app_assoc, length_app. cbn [app length]. do 2 f_equal. lia. }
  assert (Hat : forall w2, w_heap w2 !! l = Some (BResult (partial n names types (done ++ [vs]) m)) ->
    heap_split (w_heap w2) base ((owned (concat done) ++ [l]) ++ owned vs) ->
    result_at w2 l (partial n names types (done ++ [vs]) m) base).
  { intros w2 Hl2 Hs2. unfold partial in Hc. cbn in Hc. rewrite concat_app, Forall_app in Hc.
    destruct Hc as [Hc1 _]. constructor; [done| | |].
    - rewrite partial_blocks, concat_app. cbn [concat]. rewrite app_nil_r.
      unfold owned in *. rewrite map_app, concat_app. eapply heap_split_perm, Hs2.
      rewrite <- !app_assoc. apply Permutation_app_head, Permutation_app_comm.
    - cbn. rewrite !concat_app. cbn [concat]. rewrite app_nil_r, !Forall_app. split; [done|].
      unfold zero_row. rewrite concat_zero. by apply Forall_replicate.
    - destruct Hw as [H1 H2 H3 H4 H5 H6]. cbn in *. rewrite length_app in *.
      cbn [length] in *. rewrite length_replicate in *.
      constructor; cbn; rewrite ?length_app; cbn [length]; rewrite ?length_replicate; cbn [length]; try lia.
      rewrite !Forall_app in *. destruct H6 as [H6 H7]. apply Forall_cons in H7 as [_ H7].
      repeat split; try done. constructor; [lia|done]. }
  unfold put_row. destruct vs as [|v vs].
  - assert (Heq : partial n names types (done ++ [[]]) m =
      partial n names types done (Datatypes.S m)).
    { unfold partial, zero_row. rewrite <- Hlen. cbn [length replicate]. rewrite <- app_assoc, length_app.
      cbn [app length]. do 2 f_equal. lia. }
    exists w1. split; [done|]. split; [|split; [done|apply text_le_refl]].
    constructor; [|done|done]. rewrite Heq in *. by apply Hat.
  - rewrite (bind_Ret _ _ _ _ _ (load_result _ _ _ Hl)). cbn [partial r_rows].
    rewrite lookup_app_r, Nat.sub_diag by lia. run.
    cbn [partial r_rows r_column_count r_column_names r_column_types r_row_count r_current_row r_refcount].
    cbn [replicate] in Hpart. rewrite <- Hpart.
    destruct (put_result_step w1 l _ (partial n names types (done ++ [v :: vs]) m) Hl Hp Hwf)
      as (E & Hp' & Hwf' & Hle'). eexists. split; [exact E|]. split; [|done].
    constructor; [|done|done]. apply Hat; [by cbn; rewrite lookup_insert_eq|].
    apply heap_split_update; [|done]. set_solver.
Qed.
End reading.
