(* ===== verification/Describe.v ===== *)
(** * How drivers describe tables

    The array of column descriptions grows one element at a time; its texts are
    copies.  What holds of [columns_new], [columns_room] and [columns_add] is
    shared by the [describe_table] functions of the three drivers. *)

From S2P Require Import Prelude Types Mem Strbuf Dialect Hash Model Backend Query Builder.
From S2P Require Import BuilderSpec QuerySpec Columns Tx Result ResultSpec Core CoreProps StmtCache.
From S2P Require Import DriverState DriverSpec Reading.

(** ** Texts that stay *)

Definition strings_le (h h' : gmap loc block) : Prop :=
  forall l s, h !! l = Some (BStr s) -> h' !! l = Some (BStr s).

#[export] Instance strings_le_preorder : PreOrder strings_le.
Proof. split; [by intros h l s|]. intros h1 h2 h3 H1 H2 l s Hl. auto. Qed.

Lemma heap_le_strings h h' : heap_le h h' -> strings_le h h'.
Proof. intros Hle l s. apply Hle. Qed.

Lemma columns_named_le h h' cols names :
  strings_le h h' -> Forall column_wf cols -> columns_named h cols names ->
  columns_named h' cols names.
Proof.
  intros Hle Hwf Hn. induction Hn as [|c n cols names Hc Hn IH]; [constructor|].
  apply Forall_cons in Hwf as [Hw Hwf]. constructor; [|by apply IH].
  apply Forall_cons in Hw as [[E|[l E]] _]; rewrite E in *; [done|]. cbn in *.
  destruct (h !! l) as [[s| | | |]|] eqn:El; try done. by rewrite (Hle l s El).
Qed.

(** One more column, whose name was copied. *)
Lemma columns_named_snoc h h1 h2 cols done_ c name :
  strings_le h h2 -> strings_le h1 h2 -> Forall column_wf cols -> columns_named h cols done_ ->
  column_wf c -> read_cstr h1 (ci_name c) = Some name ->
  columns_named h2 (cols ++ [c]) (done_ ++ [name]).
Proof.
  intros H1 H2 Hcw Hn Hc Hcn. apply Forall2_app; [exact (columns_named_le _ _ _ _ H1 Hcw Hn)|].
  constructor; [|constructor]. apply Forall_cons in Hc as [[E|[a E]] _]; rewrite E in *; [done|].
  cbn in Hcn |- *. destruct (h1 !! a) as [[s| | | |]|] eqn:Ea; try done. by rewrite (H2 a s Ea).
Qed.

Section describe.
Context {D T X L : Type}.
#[local] Abbreviation S := (proc D (stmts T) X L).
Implicit Types (w : world S).

(** ** The array under construction *)

Record describing w (arr : loc) (cols : list corm_column_info) (base : gmap loc block) : Prop := {
  ds_at : columns_at (w_heap w) arr cols base;
  ds_plenty : plenty w;
  ds_wf : heap_wf w
}.

Lemma columns_new_ok w :
  plenty w -> heap_wf w ->
  exists arr w', columns_new w = Ret (Some arr) w' /\ describing w' arr [] (w_heap w) /\
    w_db w' = w_db w.
Proof.
  intros Hp Hwf.
  destruct (reading_new w (w_heap w) [] (BCols []) Hp Hwf) as [E [_ Hp' Hwf' _ Hs]].
  { split; [apply NoDup_nil_2|]. split; [by intros ? ?%not_elem_of_nil|].
    intros a. by rewrite decide_False by apply not_elem_of_nil. }
  eexists _, _. split; [exact E|]. split; [|done]. constructor; [|done|done].
  constructor; [by cbn; rewrite lookup_insert_eq|exact Hs|constructor].
Qed.

Lemma columns_blocks_snoc cols c :
  columns_blocks (cols ++ [c]) = columns_blocks cols ++ column_blocks c.
Proof. unfold columns_blocks. rewrite map_app, concat_app. cbn [map concat]. by rewrite app_nil_r. Qed.

(** A full array moves. *)
Lemma columns_move w arr cols base :
  describing w arr cols base ->
  exists arr' w', (cols ← get_columns arr; moved ← malloc (BCols cols);
      match moved with
      | None => mret None
      | Some arr' => dealloc arr;; mret (Some arr')
      end) w = Ret (Some arr') w' /\
    describing w' arr' cols base /\ w_db w' = w_db w /\ strings_le (w_heap w) (w_heap w').
Proof.
  intros [[Hl Hs Hc] Hp Hwf]. rewrite (bind_Ret _ _ _ _ _ (get_columns_ok arr cols w Hl)).
  destruct (reading_new w base _ (BCols cols) Hp Hwf Hs) as [E [Hdb Hp' Hwf' Hle Hs']].
  set (w1 := World [] _ _ _) in *. set (arr' := w_next w) in *. run_with E.
  pose proof (Hle _ _ Hl) as Hl1. unfold dealloc, mbind, M_bind. rewrite Hl1.
  assert (Hne : arr' <> arr).
  { intros Heq. pose proof (heap_wf_fresh w Hwf) as Hf. fold arr' in Hf. congruence. }
  eexists arr', _. split; [done|]. split; [|split; [done|]].
  - constructor; [constructor|done|]; cbn.
    + by rewrite lookup_delete_ne, lookup_insert_eq.
    + apply heap_split_free. eapply heap_split_perm, Hs'.
      rewrite <- app_assoc. cbn. rewrite Permutation_app_comm. cbn.
      apply perm_skip. by rewrite Permutation_app_comm.
    + done.
    + intros k [x Hk]. cbn in Hk. apply lookup_delete_Some in Hk as [_ Hk]. apply (Hwf' k). by exists x.
  - intros l s Hls. cbn. rewrite lookup_delete_ne; [by apply Hle|]. intros <-. congruence.
Qed.

Lemma columns_room_ok w arr cols base cap :
  describing w arr cols base -> Z.of_nat (length cols) < 2 ^ 30 ->
  exists arr' cap' w', columns_room arr cap (Z.of_nat (length cols)) w = Ret (Some (arr', cap')) w' /\
    describing w' arr' cols base /\ w_db w' = w_db w /\ strings_le (w_heap w) (w_heap w').
Proof.
  intros Hd Hlen. unfold columns_room, INT_MAX. destruct (Z.leb_spec cap (Z.of_nat (length cols))).
  2: { exists arr, cap, w. done. }
  destruct (Z.ltb_spec 2147483647 (cap * 2)); [lia|].
  destruct (columns_move w arr cols base Hd) as (arr' & w' & E & Hd' & Hdb & Hle).
  exists arr', (cap * 2), w'. split; [|done]. revert E. unfold mbind, M_bind.
  destruct (get_columns arr w) as [cs w1|]; [|done]. destruct (malloc _ w1) as [[a|] w2|]; [|done..].
  destruct (dealloc arr w2) as [u w3|]; [|done]. by intros [= -> ->].
Qed.

(** One more column, whose texts were just copied. *)
Lemma columns_add_ok w w1 arr cols base c :
  describing w arr cols base ->
  reading w w1 base ((columns_blocks cols ++ [arr]) ++ column_blocks c) -> column_wf c ->
  exists w2, columns_add arr c w1 = Ret tt w2 /\ describing w2 arr (cols ++ [c]) base /\
    w_db w2 = w_db w1 /\ strings_le (w_heap w1) (w_heap w2).
Proof.
  intros [[Hl Hs Hc] Hp Hwf] [_ Hp1 Hwf1 Hle Hs1] Hcw. pose proof (Hle _ _ Hl) as Hl1.
  unfold columns_add. rewrite (bind_Ret _ _ _ _ _ (get_columns_ok arr cols w1 Hl1)).
  unfold store. rewrite Hl1. eexists. split; [done|]. split; [|split; [done|]].
  - constructor; [constructor|done|]; cbn.
    + by rewrite lookup_insert_eq.
    + apply heap_split_update; [rewrite elem_of_app; right; apply list_elem_of_here|].
      eapply heap_split_perm, Hs1. rewrite columns_blocks_snoc, <- !app_assoc.
      apply Permutation_app_head, Permutation_app_comm.
    + apply Forall_app. by split; [|constructor].
    + intros k Hk. cbn in Hk. destruct (decide (k = arr)) as [->|Hne].
      * apply Hwf1. by eexists.
      * rewrite lookup_insert_ne in Hk by done. by apply Hwf1.
  - intros l s Hls. cbn. rewrite lookup_insert_ne; [done|]. intros <-. congruence.
Qed.

(** ** Copying the texts of a column *)

Definition opt_cstr (h : gmap loc block) (o : option string) (p : cptr) : Prop :=
  match o with None => p = PNull | Some s => read_cstr h p = Some s end.

Lemma dup_column_text o w base ls :
  plenty w -> heap_wf w -> heap_split (w_heap w) base ls ->
  exists p w', dup_text o w = Ret p w' /\ reading w w' base (ls ++ ptr_blocks p) /\
    owned_ptr p /\ opt_cstr (w_heap w') o p.
Proof.
  intros Hp Hwf Hs. destruct (dup_text_ok o w base ls Hp Hwf Hs) as (p & w' & E & Hr & Ho).
  exists p, w'. split; [done|]. split; [exact Hr|]. destruct o as [s|].
  - destruct Ho as (l & -> & Hl). split; [by right; exists l|done].
  - subst p. split; [by left|done].
Qed.
End describe.
