(* ===== verification/Handles.v ===== *)
(** * The statement cache against the statements that are live

    A driver keeps prepared statements of the library in its cache.  [m] maps
    the statements that are not finalized to what is known of them, [sql_of]
    tells the text one was prepared from.  [handles_ok]: every cached statement
    is live, belongs to its key and is cached once.  [no_stray]: no statement is
    live without being cached.  [cache_ok] says so of the cache of a connection,
    which also closes what it drops; putting a statement keeps it. *)

From S2P Require Import Prelude Types Mem Tx Result Core CoreProps StmtCache StmtCacheSpec DriverState DriverSpec.

Section handles.
Context {T V : Type} `{Countable T} (sql_of : V -> string).
Implicit Types (l : list (string * T)) (m : gmap T V).

Record handles_ok l m : Prop := {
  ho_keys : NoDup (keys l);
  ho_stmts : NoDup (map snd l);
  ho_live : forall sql t, (sql, t) ∈ l -> exists v, m !! t = Some v /\ sql_of v = sql
}.

Definition no_stray l m : Prop := forall t, is_Some (m !! t) -> t ∈ map snd l.

Lemma handles_perm l l' m : (l ≡ₚ l') -> handles_ok l m -> handles_ok l' m.
Proof.
  intros Hp [Hk Hs Hl]. constructor.
  - eapply NoDup_Permutation_proper; [|exact Hk]. unfold keys. by rewrite Hp.
  - eapply NoDup_Permutation_proper; [|exact Hs]. by rewrite Hp.
  - intros sql t Hin. apply Hl. by rewrite Hp.
Qed.

Lemma no_stray_perm l l' m : (l ≡ₚ l') -> no_stray l m -> no_stray l' m.
Proof. intros Hp Hn t Ht. rewrite <- Hp. by apply Hn. Qed.

Lemma elem_snd l k t : (k, t) ∈ l -> t ∈ map snd l.
Proof. intros Hin. apply list_elem_of_fmap. by exists (k, t). Qed.

Lemma handles_cons k t l m :
  handles_ok ((k, t) :: l) m <->
  handles_ok l m /\ (k ∉ keys l) /\ (t ∉ map snd l) /\ (exists v, m !! t = Some v /\ sql_of v = k).
Proof.
  split.
  - intros [Hk Hs Hl]. apply NoDup_cons in Hk as [Hk1 Hk]. apply NoDup_cons in Hs as [Hs1 Hs].
    split; [constructor; [done|done|intros ???; apply Hl; by right]|].
    split; [done|]. split; [done|]. apply Hl. by left.
  - intros ([Hk Hs Hl] & Hk1 & Hs1 & Hv). constructor; [by apply NoDup_cons..|].
    intros sql t' [[= -> ->]|Hin]%elem_of_cons; [done|by apply Hl].
Qed.

Lemma assoc_perm k t l : assoc k l = Some t -> l ≡ₚ (k, t) :: without k l.
Proof.
  intros Ha. destruct (assoc_split k t l Ha) as (la & lb & -> & Hn).
  rewrite without_mid by done. symmetry. apply Permutation_middle.
Qed.

Lemma touch_perm k l : touch k l ≡ₚ l.
Proof. unfold touch. destruct (assoc k l) eqn:E; [|done]. symmetry. by apply assoc_perm. Qed.

Lemma assoc_elem k t l : assoc k l = Some t -> (k, t) ∈ l.
Proof. intros Ha. rewrite (assoc_perm _ _ _ Ha). by left. Qed.

(** What makes room in a full cache is its last entry. *)
Lemma make_room_split cap l :
  match evicted cap l with
  | Some t => exists k, l ≡ₚ (k, t) :: make_room cap l
  | None => make_room cap l = l
  end.
Proof.
  unfold evicted, make_room. destruct (cap <=? Z.of_nat (length l)); [|done].
  destruct (last l) as [[k t]|] eqn:E; simpl.
  - exists k. apply last_Some in E as [l' ->]. rewrite removelast_last.
    symmetry. apply Permutation_cons_append.
  - apply last_None in E as ->. done.
Qed.

Lemma handles_update l m t v v' :
  m !! t = Some v -> sql_of v' = sql_of v -> handles_ok l m -> handles_ok l (<[t := v']> m).
Proof.
  intros Ht Hs [Hk Hn Hl]. constructor; [done|done|]. intros sql t' Hin.
  destruct (Hl sql t' Hin) as (v1 & Hv1 & Hsql). destruct (decide (t' = t)) as [->|Hne].
  - rewrite lookup_insert_eq. exists v'. split; [done|]. by simplify_eq.
  - rewrite lookup_insert_ne by done. by exists v1.
Qed.

Lemma no_stray_update l m t v v' :
  m !! t = Some v -> no_stray l m -> no_stray l (<[t := v']> m).
Proof.
  intros Ht Hn t' Ht'. apply Hn. destruct (decide (t' = t)) as [->|Hne]; [by rewrite Ht|].
  by rewrite lookup_insert_ne in Ht'.
Qed.

Lemma handles_fresh l m t v : m !! t = None -> handles_ok l m -> handles_ok l (<[t := v]> m).
Proof.
  intros Ht [Hk Hn Hl]. constructor; [done|done|]. intros sql t' Hin.
  destruct (Hl sql t' Hin) as (v1 & Hv1 & Hsql). exists v1. split; [|done].
  by rewrite lookup_insert_ne by congruence.
Qed.

Lemma handles_not_in l m t : m !! t = None -> handles_ok l m -> t ∉ map snd l.
Proof.
  intros Ht [_ _ Hl] Hin. apply list_elem_of_fmap in Hin as ([k t'] & -> & Hin).
  destruct (Hl k t' Hin) as (v & Hv & _). simpl in Ht. congruence.
Qed.

Lemma handles_delete l m t : t ∉ map snd l -> handles_ok l m -> handles_ok l (delete t m).
Proof.
  intros Ht [Hk Hn Hl]. constructor; [done|done|]. intros sql t' Hin.
  destruct (Hl sql t' Hin) as (v1 & Hv1 & Hsql). exists v1. split; [|done].
  rewrite lookup_delete_ne; [done|]. intros <-. by apply Ht, (elem_snd _ sql).
Qed.

Lemma no_stray_tail l m k t : no_stray ((k, t) :: l) m -> no_stray l (delete t m).
Proof.
  intros Hn t' Ht'.
  destruct (decide (t' = t)) as [->|Hne]; [by rewrite lookup_delete_eq in Ht'; destruct Ht'|].
  rewrite lookup_delete_ne in Ht' by done. by apply Hn, elem_of_cons in Ht' as [->|].
Qed.

(** *** The cache operations *)

Lemma handles_lookup l m k t :
  handles_ok l m -> assoc k l = Some t -> exists v, m !! t = Some v /\ sql_of v = k.
Proof. intros Hok Ha. by apply (ho_live _ _ Hok), assoc_elem. Qed.

(** Removing an entry and closing its statement. *)
Lemma handles_remove l m k t :
  handles_ok l m -> assoc k l = Some t ->
  handles_ok (without k l) (delete t m) /\
  (no_stray l m -> no_stray (without k l) (delete t m)).
Proof.
  intros Hok Ha. pose proof (assoc_perm _ _ _ Ha) as Hp.
  pose proof (handles_perm _ _ _ Hp Hok) as Hok'. apply handles_cons in Hok' as (Hok' & _ & Ht & _).
  split; [by apply handles_delete|]. intros Hn. eapply no_stray_tail, no_stray_perm; done.
Qed.

(** Making room and closing what is dropped. *)
Definition after_eviction (cap : Z) l m : gmap T V :=
  match evicted cap l with Some t => delete t m | None => m end.

Lemma handles_room cap l m :
  handles_ok l m ->
  handles_ok (make_room cap l) (after_eviction cap l m) /\
  (no_stray l m -> no_stray (make_room cap l) (after_eviction cap l m)) /\
  forall t, evicted cap l = Some t -> is_Some (m !! t).
Proof.
  intros Hok. unfold after_eviction. pose proof (make_room_split cap l) as Hr.
  destruct (evicted cap l) as [t|]; [|by rewrite Hr].
  destruct Hr as [k Hp]. pose proof (handles_perm _ _ _ Hp Hok) as Hok'.
  apply handles_cons in Hok' as (Hok' & _ & Ht & v & Hv & _).
  split; [by apply handles_delete|]. split; [|by intros ? [= <-]].
  intros Hn. eapply no_stray_tail, no_stray_perm; done.
Qed.

(** A new statement [t], the rest of the cache making room for it. *)
Lemma handles_put cap l m k t v :
  handles_ok l m -> assoc k l = None -> m !! t = None -> sql_of v = k ->
  let m' := after_eviction cap l (<[t := v]> m) in
  m' !! t = Some v /\ handles_ok (make_room cap l) m' /\
  handles_ok ((k, t) :: make_room cap l) m' /\
  (no_stray l m -> no_stray ((k, t) :: make_room cap l) m') /\
  forall t', evicted cap l = Some t' -> is_Some (m !! t') /\ t' <> t.
Proof.
  intros Hok Ha Ht Hv. pose proof (handles_fresh _ _ _ v Ht Hok) as Hok1.
  destruct (handles_room cap l _ Hok1) as (Hr & _ & _).
  destruct (handles_room cap l m Hok) as (_ & Hns & Hev).
  assert (Hne : forall t', evicted cap l = Some t' -> t' <> t).
  { intros t' He ->. destruct (Hev t He). congruence. }
  assert (Hm : after_eviction cap l (<[t := v]> m) = <[t := v]> (after_eviction cap l m)).
  { unfold after_eviction. destruct (evicted cap l) as [t'|]; [|done].
    rewrite delete_insert_ne; [done|]. intros Heq. by apply (Hne t'). }
  cbn zeta. split; [by rewrite Hm, lookup_insert_eq|]. split; [done|]. split; [|split].
  - apply handles_cons. split; [done|]. split; [|split].
    + apply assoc_None in Ha. intros Hin. apply Ha. unfold make_room in Hin.
      destruct (cap <=? _); [|done]. unfold keys in *. destruct (decide (l = [])) as [->|Hl]; [done|].
      rewrite (app_removelast_last (k, t) Hl), map_app. apply elem_of_app. by left.
    + intros Hin. apply (handles_not_in _ _ _ Ht Hok). pose proof (make_room_split cap l) as Hs.
      destruct (evicted cap l) as [t'|]; [|by rewrite Hs in Hin].
      destruct Hs as [k' Hp]. rewrite Hp. cbn. by right.
    + exists v. by rewrite Hm, lookup_insert_eq.
  - intros Hn t' Ht'. rewrite Hm in Ht'. cbn.
    destruct (decide (t' = t)) as [->|Hn']; [by left|]. right.
    rewrite lookup_insert_ne in Ht' by done. by apply Hns.
  - intros t' He. split; [by apply Hev|by apply Hne].
Qed.
End handles.

(** ** The cache of a connection *)

Section cache.
Context {D T X L V : Type} `{Countable T} (sql_of : V -> string) (live_of : L -> gmap T V).
#[local] Abbreviation S := (proc D (stmts T) X L).
Implicit Types (sc : option (stmts T)) (l : L) (m : gmap T V).

(** The cached statements are live and the cache will close what it drops. *)
Definition cache_ok sc m : Prop :=
  handles_ok sql_of (cached sc) m /\
  forall s, sc = Some s -> st_close s = true /\ 1 <= st_capacity s.

Lemma cache_ok_update sc m t v v' :
  m !! t = Some v -> sql_of v' = sql_of v -> cache_ok sc m -> cache_ok sc (<[t := v']> m).
Proof. intros Ht Hs [Hh Hc]. split; [by eapply handles_update|done]. Qed.

Lemma cache_ok_fresh sc m t v : m !! t = None -> cache_ok sc m -> cache_ok sc (<[t := v]> m).
Proof. intros Ht [Hh Hc]. split; [by apply handles_fresh|done]. Qed.

Lemma cache_ok_delete sc m t : t ∉ map snd (cached sc) -> cache_ok sc m -> cache_ok sc (delete t m).
Proof. intros Ht [Hh Hc]. split; [by apply handles_delete|done]. Qed.

Lemma cache_ok_touch sql sc m :
  cache_ok sc m -> cache_ok ((fun c => with_list (touch sql (st_list c)) c) <$> sc) m.
Proof.
  intros [Hh Hc]. destruct sc as [[n ls cl]|]; [|done]. cbn in *. split.
  - eapply handles_perm; [|done]. symmetry. apply touch_perm.
  - intros s [= <-]. by destruct (Hc _ eq_refl).
Qed.

(** The destructor of the cache closes a live statement. *)
Context (mem : bool) (destroy : T -> M S unit) (gone : T -> L -> L).
Context (Hdestroy : forall cn sc l t, is_Some (live_of l !! t) ->
  triple mem (at_state cn sc l) (destroy t) (fun _ d => at_state cn sc (gone t l) d)).
Context (Hgone : forall l t v, live_of l !! t = Some v -> live_of (gone t l) = delete t (live_of l)).

(** Putting a new statement [t]: at most one other statement is closed. *)
Lemma triple_put_fresh cn sc l m sql t v :
  cache_ok sc m -> m !! t = None -> live_of l = <[t := v]> m -> sql_of v = sql ->
  assoc sql (cached sc) = None ->
  triple mem (at_state cn sc l) (stmt_cache_put destroy sql t) (fun _ d => exists sc' l',
    at_state cn sc' l' d /\ cache_ok sc' (live_of l') /\ live_of l' !! t = Some v /\
    (live_of l' ⊆ live_of l) /\
    (l' = l \/ exists t' v', t' <> t /\ live_of l !! t' = Some v' /\ l' = gone t' l) /\
    (mem = true -> is_Some sc /\ no_stray (cached sc) m ->
       is_Some sc' /\ no_stray (cached sc') (live_of l'))).
Proof.
  intros Hok Ht Hl Hv Ha. destruct sc as [s|].
  2: { eapply triple_conseq; [apply triple_cache_put_none|done|]. intros e d [_ Hd]. exists None, l.
    rewrite Hl, lookup_insert_eq. pose proof (cache_ok_fresh None m t v Ht Hok).
    split_and!; try done; [by left|]. by intros _ [[? ?] _]. }
  destruct Hok as [Hh Hc]. destruct (Hc s eq_refl) as [Hcl Hcap]. cbn in Hh, Ha.
  destruct (handles_put sql_of (st_capacity s) _ _ sql t v Hh Ha Ht Hv) as (Hlk & Hr & Hp & Hs & Hev).
  eapply triple_conseq;
    [apply (triple_cache_put_miss mem _ (fun t l => is_Some (live_of l !! t)) gone Hdestroy); [done|]|done|].
  { intros t' He. rewrite Hl. destruct (Hev t' He) as [Hlv Hne]. by rewrite lookup_insert_ne. }
  set (l' := closed_if gone (st_close s) (evicted (st_capacity s) (st_list s)) l).
  assert (Hl' : live_of l' = after_eviction (st_capacity s) (st_list s) (<[t := v]> m) /\
    (l' = l \/ exists t' v', t' <> t /\ live_of l !! t' = Some v' /\ l' = gone t' l)).
  { unfold l'. rewrite Hcl. unfold closed_if, after_eviction. destruct (evicted _ _) as [t'|] eqn:He; [|by split; [|left]].
    destruct (Hev t' eq_refl) as [[v' Hlv] Hne].
    assert (Hlt : live_of l !! t' = Some v') by (by rewrite Hl, lookup_insert_ne).
    split; [by rewrite (Hgone _ _ _ Hlt), Hl|]. right. by exists t', v'. }
  destruct Hl' as [Hm' Hor].
  assert (Hsub : live_of l' ⊆ live_of l).
  { rewrite Hm', Hl. unfold after_eviction. destruct (evicted _ _); [apply delete_subseteq|done]. }
  clearbody l'. destruct s as [n ls cl]. cbn in *. subst cl. intros e d Hd.
  destruct Hd as [[_ Hd]|(_ & Hmf & Hd)]; (eexists _, l'; split; [exact Hd|]; rewrite !Hm' in *;
    split; [split; [done|intros ? [=<-]; done]|]; split_and!; try done).
  - intros _ [_ Hn]. split; [by eexists|by apply Hs].
  - intros Ht'. by rewrite Ht' in Hmf.
Qed.
End cache.
