(* ===== verification/Sqlite.v ===== *)
(** * The SQLite driver ([src/backend/sqlite3.c])

    The functions of [libsqlite3] are the class [Sqlite3], over the types of its
    connection handles [D], statement handles [T] and its state [L].  Passing a
    finalized statement to the library is undefined and therefore stuck. *)

From S2P Require Import Prelude Types Mem Dialect Hash Model Backend Tx Result Core StmtCache.
From S2P Require Import DriverState.

(** ** The library *)

Definition SQLITE_OK : Z := 0.
Definition SQLITE_ROW : Z := 100.
Definition SQLITE_DONE : Z := 101.
Definition SQLITE_INTEGER : Z := 1.
Definition SQLITE_FLOAT : Z := 2.
Definition SQLITE_TEXT : Z := 3.
Definition SQLITE_BLOB : Z := 4.
Definition SQLITE_NULL : Z := 5.

(** What can be bound to a parameter or stored in a cell. *)
Inductive sqlite_value : Type :=
  | QNull
  | QInt (z : Z)
  | QFloat (bits : Z)
  | QText (s : string)
  | QBlob (bs : list ascii).

#[export] Instance sqlite_value_eq_dec : EqDecision sqlite_value.
Proof. solve_decision. Defined.

(** [sqlite3_bind t i v] stands for the family of [sqlite3_bind_*] functions,
    [sqlite3_live t l] for "[t] was prepared and not finalized yet", and
    [sqlite3_rows t l] for a bound on the rows [t] still delivers.
    [sqlite3_mprintf_w] is [sqlite3_mprintf] with the format [%w]. *)
Class Sqlite3 (D T L : Type) : Type := {
  sqlite3_open : string -> L -> Z * option D * L;
  sqlite3_close : option D -> L -> Z * L;
  sqlite3_exec : D -> string -> L -> Z * L;
  sqlite3_errmsg : option D -> L -> string;
  sqlite3_prepare_v2 : D -> string -> L -> Z * option T * L;
  sqlite3_live : T -> L -> bool;
  sqlite3_rows : T -> L -> nat;
  sqlite3_reset : T -> L -> Z * L;
  sqlite3_clear_bindings : T -> L -> Z * L;
  sqlite3_finalize : T -> L -> Z * L;
  sqlite3_bind : T -> Z -> sqlite_value -> L -> Z * L;
  sqlite3_step : T -> L -> Z * L;
  sqlite3_column_count : T -> L -> Z;
  sqlite3_column_name : T -> Z -> L -> option string;
  sqlite3_column_type : T -> Z -> L -> Z;
  sqlite3_column_int64 : T -> Z -> L -> Z;
  sqlite3_column_double : T -> Z -> L -> Z;
  sqlite3_column_text : T -> Z -> L -> option string;
  sqlite3_column_bytes : T -> Z -> L -> Z;
  sqlite3_column_blob : T -> Z -> L -> option (list ascii);
  sqlite3_column_int : T -> Z -> L -> Z;
  sqlite3_changes : D -> L -> Z;
  sqlite3_last_insert_rowid : D -> L -> Z;
  sqlite3_mprintf_w : string -> L -> option string * L
}.

Section sqlite.
Context {D T X L : Type} `{!Sqlite3 D T L}.
#[local] Abbreviation S := (proc D (stmts T) X L).

(** Calls on a statement. *)
Definition on_stmt {A} (t : T) (f : T -> L -> A * L) : M S A := on_live sqlite3_live t f.
Definition ask_stmt {A} (t : T) (f : T -> L -> A) : M S A := ask_live sqlite3_live t f.

Definition set_lib_error (handle : option D) : M S unit :=
  m ← ask (sqlite3_errmsg handle); corm_set_err_msg m.

(** ** Statements *)

Definition sqlite_finalize_stmt (s : T) : M S unit := on_stmt s sqlite3_finalize;; mret tt.

(** A NULL pointer is bound as NULL, whatever its type; the length of a blob is
    cast to [int] and must not be negative. *)
Definition param_value (val : corm_value) : M S sqlite_value :=
  if v_is_null val then mret QNull
  else
    match v_type val with
    | CORM_INT | CORM_INT64 => z ← deref (u_as_i (v_u val)); mret (QInt z)
    | CORM_FLOAT | CORM_DOUBLE => b ← deref (u_as_f (v_u val)); mret (QFloat b)
    | CORM_STRING | CORM_TEXT =>
        p ← deref (u_as_s (v_u val));
        if bool_decide (p = PNull) then mret QNull
        else s ← read_str p; mret (QText s)
    | CORM_BOOL => b ← deref (u_as_b (v_u val)); mret (QInt (if (b : bool) then 1 else 0))
    | CORM_BLOB =>
        '(p, len) ← deref (u_as_blob (v_u val));
        if bool_decide (p = PNull) then mret QNull
        else
          let n := wrap_i32 len in
          if n <? 0 then stuck else bs ← read_blob p n; mret (QBlob bs)
    end.

Definition bind_value (stmt : T) (idx : Z) (q : sqlite_value) : M S unit :=
  on_stmt stmt (fun t => sqlite3_bind t idx q);; mret tt.

(** The loop, from parameter number [i] on. *)
Fixpoint bind_from (stmt : T) (i : Z) (params : list corm_value) : M S unit :=
  match params with
  | [] => mret tt
  | val :: params =>
      q ← param_value val;
      bind_value stmt (i + 1) q;;
      bind_from stmt (i + 1) params
  end.

Definition sqlite_bind_params (stmt : T) (params : list corm_value) : M S unit :=
  bind_from stmt 0 params.

Definition sqlite_get_stmt (handle : option D) (sql : string) : M S (option T) :=
  cached ← stmt_cache_get sql;
  match cached with
  | Some stmt =>
      on_stmt stmt sqlite3_reset;;
      on_stmt stmt sqlite3_clear_bindings;;
      mret (Some stmt)
  | None =>
      h ← deref handle;
      '(rc, stmt) ← lib (sqlite3_prepare_v2 h sql);
      if negb (rc =? SQLITE_OK) then set_lib_error handle;; mret None
      else
        match stmt with
        | Some t => stmt_cache_put sqlite_finalize_stmt sql t;; mret (Some t)
        | None => mret None
        end
  end.

Definition sqlite_cleanup_stmt (sql : string) : M S unit :=
  s ← stmt_cache_remove sql;
  match s with
  | Some t => sqlite_finalize_stmt t
  | None => mret tt
  end.

(** ** Connections *)

Definition sqlite_open (dsn : string) : M S corm_err :=
  '(rc, handle) ← lib (sqlite3_open dsn);
  if negb (rc =? SQLITE_OK) then
    set_lib_error handle;;
    lib (sqlite3_close handle);;
    mret CORM_ERR_BACKEND
  else
    h ← deref handle;
    lib (sqlite3_exec h "PRAGMA journal_mode=WAL");;
    lib (sqlite3_exec h "PRAGMA foreign_keys=ON");;
    upd_corm (with_conn (Some h));;
    stmt_cache_set_destroy_fn;;
    mret CORM_OK.

Definition sqlite_close : M S corm_err :=
  handle ← get_conn;
  match handle with
  | Some _ => lib (sqlite3_close handle);; upd_corm (with_conn None);; mret CORM_OK
  | None => mret CORM_OK
  end.

Definition sqlite_ping : M S corm_err :=
  handle ← get_conn;
  match handle with
  | None => mret CORM_ERR_BACKEND
  | Some h =>
      rc ← lib (sqlite3_exec h "SELECT 1");
      mret (if rc =? SQLITE_OK then CORM_OK else CORM_ERR_BACKEND)
  end.

(** ** Executing *)

(** [sqlite_exec], [bind] being its call of [sqlite_bind_params]. *)
Definition exec_bound (sql : string) (bind : T -> M S unit) : M S corm_err :=
  handle ← get_conn;
  stmt ← sqlite_get_stmt handle sql;
  match stmt with
  | None => mret CORM_ERR_BACKEND
  | Some stmt =>
      bind stmt;;
      rc ← on_stmt stmt sqlite3_step;
      if negb (rc =? SQLITE_DONE) && negb (rc =? SQLITE_ROW) then
        set_lib_error handle;;
        sqlite_cleanup_stmt sql;;
        mret CORM_ERR_BACKEND
      else mret CORM_OK
  end.

Definition sqlite_exec (sql : string) (params : list corm_value) : M S corm_err :=
  exec_bound sql (fun stmt => sqlite_bind_params stmt params).

(** [col_types[i]] after a cell of storage class [stype]; 0, which is
    [CORM_INT], means that it is not decided yet. *)
Definition decide_type (stype : Z) (t : corm_field_type) : corm_field_type :=
  if negb (stype =? SQLITE_NULL) && bool_decide (t = CORM_INT) then
    if stype =? SQLITE_INTEGER then CORM_INT64
    else if stype =? SQLITE_FLOAT then CORM_DOUBLE
    else if stype =? SQLITE_BLOB then CORM_BLOB
    else CORM_TEXT
  else if bool_decide (t = CORM_INT) then CORM_TEXT
  else t.

(** One cell of a row; the memory of the row is zero-filled. *)
Definition read_column (stmt : T) (i : Z) (t : corm_field_type) : M S corm_value :=
  stype ← ask_stmt stmt (fun s => sqlite3_column_type s i);
  let t := decide_type stype t in
  if stype =? SQLITE_NULL then mret (Value t true (UInt 0))
  else
    u ← match t with
        | CORM_INT64 => z ← ask_stmt stmt (fun s => sqlite3_column_int64 s i); mret (UInt z)
        | CORM_DOUBLE => b ← ask_stmt stmt (fun s => sqlite3_column_double s i); mret (UDbl b)
        | CORM_TEXT =>
            txt ← ask_stmt stmt (fun s => sqlite3_column_text s i);
            p ← dup_text txt; mret (UStr p)
        | CORM_BLOB =>
            n ← ask_stmt stmt (fun s => sqlite3_column_bytes s i);
            if 0 <? n then
              bdata ← ask_stmt stmt (fun s => sqlite3_column_blob s i);
              p ← dup_bytes n bdata;
              mret (UBlob p (if bool_decide (p = PNull) then 0 else n))
            else mret (UBlob PNull 0)
        | _ => mret (UInt 0)
        end;
    mret (Value t false u).

(** A row, from column [i] on, with the types as they are after it. *)
Fixpoint read_row (stmt : T) (i : Z) (types : list corm_field_type) :
    M S (list corm_value * list corm_field_type) :=
  match types with
  | [] => mret ([], [])
  | t :: types =>
      v ← read_column stmt i t;
      '(vs, ts) ← read_row stmt (i + 1) types;
      mret (v :: vs, v_type v :: ts)
  end.

(** How the loop over the rows ends: no memory, or the last code of
    [sqlite3_step] with what was collected. *)
Inductive fetched : Type :=
  | FetchNomem
  | Fetched (rc : Z) (types : list corm_field_type) (rows : list (list corm_value)).

Fixpoint fetch_rows (fuel : nat) (stmt : T) (col_count row_cap : Z)
    (types : list corm_field_type) (rows : list (list corm_value)) : M S fetched :=
  match fuel with
  | O => stuck
  | Datatypes.S fuel =>
      rc ← on_stmt stmt sqlite3_step;
      if rc =? SQLITE_ROW then
        room ← grow_array row_cap (Z.of_nat (length rows));
        match room with
        | None => mret FetchNomem
        | Some row_cap =>
            ok ← calloc_ok col_count;
            if negb ok then mret FetchNomem
            else
              '(vs, types) ← read_row stmt 0 types;
              fetch_rows fuel stmt col_count row_cap types (rows ++ [vs])
        end
      else mret (Fetched rc types rows)
  end.

(** The names of the columns from [i] on. *)
Fixpoint column_names (stmt : T) (i : Z) (n : nat) : M S (list (option string)) :=
  match n with
  | O => mret []
  | Datatypes.S n =>
      name ← ask_stmt stmt (fun s => sqlite3_column_name s i);
      name ← deref name;
      copy ← copy_text (Some name);
      names ← column_names stmt (i + 1) n;
      mret (copy :: names)
  end.

(** The result object of the collected rows; NULL out of memory. *)
Definition build_result (stmt : T) (col_count : Z) (types : list corm_field_type)
    (rows : list (list corm_value)) : M S (option loc) :=
  out ← corm_result_new col_count 0;
  match out with
  | None => mret None
  | Some l =>
      res ← get_result (Some l);
      names ← column_names stmt 0 (Z.to_nat col_count);
      put_result (Some l) (Result (r_column_count res) names types rows
        (Z.of_nat (length rows)) (r_current_row res) (r_refcount res));;
      mret (Some l)
  end.

(** [sqlite_query] once the parameters are bound. *)
Definition read_result (sql : string) (handle : option D) (stmt : T) :
    M S (corm_err * option loc) :=
  col_count ← ask_stmt stmt sqlite3_column_count;
  rows_ok ← malloc_ok;
  types_ok ← calloc_ok col_count;
  if negb rows_ok || negb types_ok then
    sqlite_cleanup_stmt sql;; mret (CORM_ERR_NOMEM, None)
  else
    fuel ← ask (sqlite3_rows stmt);
    res ← fetch_rows (Datatypes.S fuel) stmt col_count 16
            (replicate (Z.to_nat col_count) CORM_INT) [];
    match res with
    | FetchNomem => sqlite_cleanup_stmt sql;; mret (CORM_ERR_NOMEM, None)
    | Fetched rc types rows =>
        if negb (rc =? SQLITE_DONE) then
          sqlite_cleanup_stmt sql;;
          set_lib_error handle;;
          mret (CORM_ERR_BACKEND, None)
        else
          out ← build_result stmt col_count types rows;
          match out with
          | None => sqlite_cleanup_stmt sql;; mret (CORM_ERR_NOMEM, None)
          | Some l => mret (CORM_OK, Some l)
          end
    end.

Definition sqlite_query (sql : string) (params : list corm_value) :
    M S (corm_err * option loc) :=
  handle ← get_conn;
  stmt ← sqlite_get_stmt handle sql;
  match stmt with
  | None => mret (CORM_ERR_BACKEND, None)
  | Some stmt => sqlite_bind_params stmt params;; read_result sql handle stmt
  end.

(** ** Transactions *)

Definition sqlite_begin : M S corm_err := sqlite_exec "BEGIN TRANSACTION" [].
Definition sqlite_commit : M S corm_err := sqlite_exec "COMMIT" [].
Definition sqlite_rollback : M S corm_err := sqlite_exec "ROLLBACK" [].

(** ** The rest of the table *)

(** The text the loop writes to [dst]. *)
Fixpoint escape_text (src : string) (len : nat) : string :=
  match len, src with
  | Datatypes.S len, String c src =>
      if Ascii.eqb c "'" then String "'" (String c (escape_text src len))
      else String c (escape_text src len)
  | _, _ => EmptyString
  end.

Definition sqlite_escape (dst : bool) (src : string) (len : Z) : Z * option string :=
  if dst then let t := escape_text src (Z.to_nat len) in (slen t, Some t) else (0, None).

(** One row of [PRAGMA table_info]. *)
Definition describe_row (stmt : T) : M S corm_column_info :=
  name ← ask_stmt stmt (fun s => sqlite3_column_text s 1);
  type ← ask_stmt stmt (fun s => sqlite3_column_text s 2);
  name ← dup_text name;
  type ← dup_text type;
  not_null ← ask_stmt stmt (fun s => sqlite3_column_int s 3);
  is_pk ← ask_stmt stmt (fun s => sqlite3_column_int s 5);
  def ← ask_stmt stmt (fun s => sqlite3_column_text s 4);
  def ← dup_text def;
  mret (ColumnInfo name type not_null is_pk def).

(** The loop with the array [arr] of [cap] elements, [n] of them in use.  Any
    code but SQLITE_ROW ends it. *)
Fixpoint describe_rows (fuel : nat) (stmt : T) (arr : loc) (cap n : Z) :
    M S (option (loc * Z)) :=
  match fuel with
  | O => stuck
  | Datatypes.S fuel =>
      rc ← on_stmt stmt sqlite3_step;
      if rc =? SQLITE_ROW then
        room ← columns_room arr cap n;
        match room with
        | None => corm_column_info_free (Some arr) n;; mret None
        | Some (arr, cap) =>
            col ← describe_row stmt;
            columns_add arr col;;
            describe_rows fuel stmt arr cap (n + 1)
        end
      else mret (Some (arr, n))
  end.

Definition sqlite_describe_table (table_name : string) : M S (corm_err * (option loc * Z)) :=
  handle ← get_conn;
  qtable ← lib (sqlite3_mprintf_w table_name);
  qtable ← deref qtable;
  text ← deref (c_format "PRAGMA table_info(%s)" [FS qtable]);
  h ← deref handle;
  '(rc, stmt) ← lib (sqlite3_prepare_v2 h (c_snprintf 512 text));
  if negb (rc =? SQLITE_OK) then mret (CORM_ERR_BACKEND, (None, 0))
  else
    stmt ← deref stmt;
    out ← columns_new;
    match out with
    | None => on_stmt stmt sqlite3_finalize;; mret (CORM_ERR_NOMEM, (None, 0))
    | Some arr =>
        fuel ← ask (sqlite3_rows stmt);
        cols ← describe_rows (Datatypes.S fuel) stmt arr 16 0;
        on_stmt stmt sqlite3_finalize;;
        match cols with
        | None => mret (CORM_ERR_NOMEM, (None, 0))
        | Some (arr, n) => mret (CORM_OK, (Some arr, n))
        end
    end.

Definition sqlite_last_id : M S Z :=
  handle ← get_conn; h ← deref handle; ask (sqlite3_last_insert_rowid h).

Definition sqlite_affected : M S Z :=
  handle ← get_conn; h ← deref handle; ask (sqlite3_changes h).

Definition sqlite3_backend : backend S := {|
  be_name := "sqlite3";
  be_type := CORM_BACKEND_SQLITE;
  be_open := Some sqlite_open;
  be_close := Some sqlite_close;
  be_ping := Some sqlite_ping;
  be_exec := Some sqlite_exec;
  be_query := Some sqlite_query;
  be_begin := Some sqlite_begin;
  be_commit := Some sqlite_commit;
  be_rollback := Some sqlite_rollback;
  be_escape_string := Some (fun dst src len => mret (sqlite_escape dst src len));
  be_last_insert_id := Some sqlite_last_id;
  be_rows_affected := Some sqlite_affected;
  be_describe_table := Some sqlite_describe_table
|}.

Definition corm_register_sqlite3_backend (g : list (backend S)) : corm_err * list (backend S) :=
  corm_register_backend g CORM_BACKEND_SQLITE sqlite3_backend.
End sqlite.

(** Without [CORM_HAVE_SQLITE3] the table is empty. *)
Definition sqlite3_stub_backend {S} : backend S :=
  Backend "sqlite3 (unavailable)" CORM_BACKEND_SQLITE None None None None None None None None
    None None None None.
