(* ===== verification/SqliteSpec.v ===== *)
(** * What the SQLite driver relies on, and what its parts do

    [SqliteSpec] states the documented behaviour of the functions of the library
    on an abstract view of its state: the content of the database and the
    prepared statements that are not finalized.  Executing SQL is the parameter
    [sem]: the rows a statement delivers, the code its last step returns and the
    database afterwards. *)

From S2P Require Import Prelude Types Mem Strbuf Dialect Hash Model Backend Query QuerySpec Tx.
From S2P Require Import Result Core CoreProps StmtCache StmtCacheSpec DriverState DriverSpec.
From S2P Require Import Handles Sqlite.

(** ** The view of the library *)

(** A statement has not started, stands on a row with others to follow, or
    delivered its last code. *)
Inductive cursor : Type :=
  | Ready
  | OnRow (row : list sqlite_value) (rest : list (list sqlite_value)) (rc : Z)
  | Finished.

(** [pr_cols]: the columns the statement was compiled for. *)
Record prepared : Type := Prepared {
  pr_sql : string;
  pr_cols : list string;
  pr_binds : gmap Z sqlite_value;
  pr_cur : cursor
}.

(** The step that delivers the next of [rows], or the last code. *)
Definition step_code (rows : list (list sqlite_value)) (rc : Z) : Z :=
  match rows with [] => rc | _ => SQLITE_ROW end.
Definition step_cursor (rows : list (list sqlite_value)) (rc : Z) : cursor :=
  match rows with [] => Finished | row :: rest => OnRow row rest rc end.

Definition stands_on_row (p : prepared) : bool :=
  match pr_cur p with OnRow _ _ _ => true | _ => false end.

(** No statement but [t] stands on a row. *)
Definition quiet_but {T} `{Countable T} (m : gmap T prepared) (t : T) : Prop :=
  forall t' p, m !! t' = Some p -> t' <> t -> stands_on_row p = false.
Definition quiet {T} `{Countable T} (m : gmap T prepared) : Prop :=
  forall t p, m !! t = Some p -> stands_on_row p = false.

(** The storage class of a value. *)
Definition class_of (q : sqlite_value) : Z :=
  match q with
  | QNull => SQLITE_NULL
  | QInt _ => SQLITE_INTEGER
  | QFloat _ => SQLITE_FLOAT
  | QText _ => SQLITE_TEXT
  | QBlob _ => SQLITE_BLOB
  end.

(** [columns k sql] are the columns of the result of [sql] in the database [k].
    A statement has those of the database in which it was compiled: it was
    prepared there, or the first step of an execution found another schema and
    compiled it again.  The count and the names of the columns are those of the
    compiled statement.  [to_int64], [to_double], [to_text] and [to_blob] are the conversions of the
    [sqlite3_column_*] functions. *)
Class SqliteSpec (D T L K : Type) `{Countable T} `{!Sqlite3 D T L} : Type := {
  db_of : L -> K;
  stmts_of : L -> gmap T prepared;
  compiles : K -> string -> bool;
  columns : K -> string -> list string;
  sem : K -> string -> gmap Z sqlite_value -> list (list sqlite_value) * Z * K;
  to_int64 : sqlite_value -> Z;
  to_double : sqlite_value -> Z;
  to_text : sqlite_value -> option string;
  to_blob : sqlite_value -> list ascii;
  sem_code k sql b : (sem k sql b).1.2 <> SQLITE_ROW;
  sem_not_compiling k sql b : compiles k sql = false ->
    exists rc, sem k sql b = ([], rc, k) /\ rc <> SQLITE_DONE;
  live_law t l : sqlite3_live t l = bool_decide (is_Some (stmts_of l !! t));
  prepare_law h sql l : exists rc ot l',
    sqlite3_prepare_v2 h sql l = (rc, ot, l') /\ db_of l' = db_of l /\
    if compiles (db_of l) sql then
      rc = SQLITE_OK /\ exists t, ot = Some t /\ stmts_of l !! t = None /\
        stmts_of l' = <[t := Prepared sql (columns (db_of l) sql) ∅ Ready]> (stmts_of l)
    else (rc <> SQLITE_OK \/ ot = None) /\ stmts_of l' = stmts_of l;
  reset_law t p l : stmts_of l !! t = Some p ->
    db_of (sqlite3_reset t l).2 = db_of l /\
    stmts_of (sqlite3_reset t l).2 =
      <[t := Prepared (pr_sql p) (pr_cols p) (pr_binds p) Ready]> (stmts_of l);
  clear_law t p l : stmts_of l !! t = Some p ->
    db_of (sqlite3_clear_bindings t l).2 = db_of l /\
    stmts_of (sqlite3_clear_bindings t l).2 =
      <[t := Prepared (pr_sql p) (pr_cols p) ∅ (pr_cur p)]> (stmts_of l);
  bind_law t p i q l : stmts_of l !! t = Some p -> pr_cur p = Ready ->
    db_of (sqlite3_bind t i q l).2 = db_of l /\
    stmts_of (sqlite3_bind t i q l).2 =
      <[t := Prepared (pr_sql p) (pr_cols p) (<[i := q]> (pr_binds p)) Ready]> (stmts_of l);
  finalize_law t p l : stmts_of l !! t = Some p ->
    db_of (sqlite3_finalize t l).2 = db_of l /\
    stmts_of (sqlite3_finalize t l).2 = delete t (stmts_of l);
  step_law t p l : stmts_of l !! t = Some p ->
    exists cols cur, stmts_of (sqlite3_step t l).2 =
      <[t := Prepared (pr_sql p) cols (pr_binds p) cur]> (stmts_of l) /\
    (cols = pr_cols p \/
     stands_on_row p = false /\ compiles (db_of l) (pr_sql p) = true /\
     cols = columns (db_of l) (pr_sql p)) /\
    ((sqlite3_step t l).1 = SQLITE_ROW ->
       (sqlite3_rows t (sqlite3_step t l).2 < sqlite3_rows t l)%nat /\
       exists row rest rc, cur = OnRow row rest rc /\ length row = length cols);
  step_first t p l : stmts_of l !! t = Some p -> pr_cur p = Ready -> quiet_but (stmts_of l) t ->
    let '(rows, rc, k) := sem (db_of l) (pr_sql p) (pr_binds p) in
    (sqlite3_step t l).1 = step_code rows rc /\ db_of (sqlite3_step t l).2 = k /\
    stmts_of (sqlite3_step t l).2 =
      <[t := Prepared (pr_sql p)
               (if compiles (db_of l) (pr_sql p) then columns (db_of l) (pr_sql p) else pr_cols p)
               (pr_binds p) (step_cursor rows rc)]> (stmts_of l);
  step_next t p row rest rc l : stmts_of l !! t = Some p -> pr_cur p = OnRow row rest rc ->
    quiet_but (stmts_of l) t ->
    (sqlite3_step t l).1 = step_code rest rc /\ db_of (sqlite3_step t l).2 = db_of l /\
    stmts_of (sqlite3_step t l).2 =
      <[t := Prepared (pr_sql p) (pr_cols p) (pr_binds p) (step_cursor rest rc)]> (stmts_of l);
  count_law t p l : stmts_of l !! t = Some p ->
    sqlite3_column_count t l = Z.of_nat (length (pr_cols p));
  name_law t p l : stmts_of l !! t = Some p ->
    forall i, sqlite3_column_name t (Z.of_nat i) l = pr_cols p !! i;
  bytes_law t i l bs : sqlite3_column_blob t i l = Some bs ->
    Z.of_nat (length bs) = sqlite3_column_bytes t i l;
  cell_law t p row rest rc i q l : stmts_of l !! t = Some p -> pr_cur p = OnRow row rest rc ->
    row !! i = Some q ->
    sqlite3_column_type t (Z.of_nat i) l = class_of q /\
    sqlite3_column_int64 t (Z.of_nat i) l = to_int64 q /\
    sqlite3_column_double t (Z.of_nat i) l = to_double q /\
    sqlite3_column_text t (Z.of_nat i) l = to_text q /\
    sqlite3_column_bytes t (Z.of_nat i) l = Z.of_nat (length (to_blob q)) /\
    (to_blob q <> [] -> sqlite3_column_blob t (Z.of_nat i) l = Some (to_blob q));
  to_int64_int z : to_int64 (QInt z) = z;
  to_double_float b : to_double (QFloat b) = b;
  to_text_text s : to_text (QText s) = Some s;
  to_blob_blob bs : to_blob (QBlob bs) = bs
}.
Arguments SqliteSpec D T L K {_ _ _}.

(** What [sqlite_exec] means for the database: the bindings of the parameters
    and the outcome of a statement. *)
Fixpoint bind_all (i : Z) (qs : list sqlite_value) (b : gmap Z sqlite_value) : gmap Z sqlite_value :=
  match qs with
  | [] => b
  | q :: qs => bind_all (i + 1) qs (<[i + 1 := q]> b)
  end.

Definition succeeds (rc : Z) : bool := (rc =? SQLITE_DONE) || (rc =? SQLITE_ROW).

Section laws.
Context {D T X L K : Type} `{Countable T} `{!Sqlite3 D T L} `{!SqliteSpec D T L K}.
#[local] Abbreviation S := (proc D (stmts T) X L).
Implicit Types (sc : option (stmts T)) (l : L) (t : T) (m : gmap T prepared) (d : S).

(** Executing directly: the error [sqlite_exec] reports and the database. *)
Definition direct_exec (k : K) (sql : string) (qs : list sqlite_value) : corm_err * K :=
  if compiles k sql then
    let '(rows, rc, k') := sem k sql (bind_all 0 qs ∅) in
    (if succeeds (step_code rows rc) then CORM_OK else CORM_ERR_BACKEND, k')
  else (CORM_ERR_BACKEND, k).

(** ** The invariant between the cache and the library *)

(** The connection is open with the handle [h], and the library is in a state
    with this view. *)
Definition holds (h : D) sc (k : K) (m : gmap T prepared) (d : S) : Prop :=
  exists l, at_state (Some h) sc l d /\ db_of l = k /\ stmts_of l = m.

(** The columns [sql] is compiled for when the driver asks for it next: those of
    the cached statement, or those it has in the database. *)
Definition cached_columns (sql : string) d : option (list string) :=
  c ← p_db d; t ← assoc sql (cached (c_stmt_cache c)); pr_cols <$> stmts_of (p_env d) !! t.
Definition stmt_columns (sql : string) d : list string :=
  default (columns (db_of (p_env d)) sql) (cached_columns sql d).

(** [Φ sql cols] holds of the statements that were compiled. *)
Context (Φ : string -> list string -> Prop).

Definition compiled_all m : Prop := map_Forall (fun _ p => Φ (pr_sql p) (pr_cols p)) m.

(** Between two calls of the driver: [q] says that no statement stands on a row,
    [tg] that every live statement is in the cache. *)
Definition idle (tg q : bool) (h : D) (k : K) (d : S) : Prop :=
  exists sc m, holds h sc k m d /\ cache_ok pr_sql sc m /\ compiled_all m /\ (q = true -> quiet m) /\
    (tg = true -> is_Some sc /\ no_stray (cached sc) m).

(** [sql] may be compiled in [k]. *)
Definition may_compile (k : K) (sql : string) : Prop := compiles k sql = true -> Φ sql (columns k sql).

(** The same while the driver works on the statement [t]. *)
Definition working (tg q : bool) (h : D) (k : K) (t : T) (p : prepared) (d : S) : Prop :=
  exists sc m, holds h sc k m d /\ cache_ok pr_sql sc m /\ compiled_all m /\ m !! t = Some p /\
    (q = true -> quiet_but m t) /\ (tg = true -> is_Some sc /\ no_stray (cached sc) m).

Lemma working_idle tg q h k t p d :
  working tg q h k t p d -> idle tg (q && negb (stands_on_row p)) h k d.
Proof.
  intros (sc & m & Hh & Hc & HΦ & Ht & Hq & Htg). exists sc, m. split; [done|]. split; [done|].
  split; [done|]. split; [|done]. intros [Hq' Hp]%andb_prop t' p' Hl. destruct (decide (t' = t)) as [->|Hne].
  - rewrite Ht in Hl. injection Hl as <-. by destruct (stands_on_row p).
  - by apply (Hq Hq' t').
Qed.

Lemma quiet_but_update m t p : quiet_but m t -> quiet_but (<[t := p]> m) t.
Proof.
  intros Hq t' p' Hl Hne. rewrite lookup_insert_ne in Hl by done. by apply (Hq t').
Qed.

Lemma quiet_delete m t : quiet m -> quiet (delete t m).
Proof. intros Hq t' p [_ Hl]%lookup_delete_Some. by apply (Hq t'). Qed.

(** ** Calls on a statement *)

Context (mem tg : bool) (Htg : tg = true -> mem = true).

Lemma triple_on_stmt {A} (f : T -> L -> A * L) t p h sc k m (Q : A -> L -> Prop) :
  m !! t = Some p ->
  (forall l, db_of l = k -> stmts_of l = m -> Q (f t l).1 (f t l).2) ->
  triple mem (holds h sc k m) (on_stmt t f)
    (fun a d => exists l, at_state (Some h) sc l d /\ Q a l).
Proof.
  intros Ht Hf. apply triple_exists. intros l. unfold on_stmt, on_live.
  apply triple_pure_r. intros [Hk Hm].
  eapply triple_bind; [apply triple_ask|]. intros b. apply triple_pure. intros ->.
  rewrite live_law, Hm, bool_decide_true by by rewrite Ht.
  eapply triple_conseq; [apply triple_lib|done|]. intros a d [-> Hs].
  eexists. split; [done|]. by apply Hf.
Qed.

(** A call that moves the statement from [p] to [p']. *)
Lemma triple_move {A} (f : T -> L -> A * L) t p p' h k q :
  (forall l, stmts_of l !! t = Some p ->
     db_of (f t l).2 = db_of l /\ stmts_of (f t l).2 = <[t := p']> (stmts_of l)) ->
  pr_sql p' = pr_sql p -> pr_cols p' = pr_cols p ->
  triple mem (working tg q h k t p) (on_stmt t f) (fun _ d => working tg q h k t p' d).
Proof.
  intros Hf Hs Hs2. apply triple_exists. intros sc. apply triple_exists. intros m.
  apply triple_pure_r. intros (Hc & HΦ & Ht & Hq & Hn).
  eapply triple_conseq; [apply (triple_on_stmt f t p h sc k m
    (fun _ l => db_of l = k /\ stmts_of l = <[t := p']> m) Ht)|done|].
  - intros l <- <-. by apply Hf.
  - intros _ d (l & Hl & Hk & Hm). exists sc, (<[t := p']> m). split; [by exists l|].
    split; [by eapply cache_ok_update|].
    split; [apply map_Forall_insert_2; [rewrite Hs, Hs2; exact (HΦ t p Ht)|done]|].
    split; [apply lookup_insert_eq|].
    split; [intros; by apply quiet_but_update, Hq|]. intros Ht'. destruct (Hn Ht') as [? ?].
    split; [done|]. by eapply no_stray_update.
Qed.

Definition is_live t (l : L) : Prop := is_Some (stmts_of l !! t).
Definition finalized t (l : L) : L := (sqlite3_finalize t l).2.

Lemma triple_finalize (cn : option D) sc (l : L) t :
  is_live t l ->
  triple mem (at_state cn sc l) (sqlite_finalize_stmt t)
    (fun _ d => at_state cn sc (finalized t l) d).
Proof.
  intros Hl. unfold sqlite_finalize_stmt, on_stmt.
  eapply triple_bind; [eapply triple_bind; [apply triple_ask|]|].
  - intros b. apply triple_pure. intros ->. rewrite live_law, bool_decide_true by done.
    apply triple_lib.
  - intros a. apply triple_ret. by intros d [_ Hd].
Qed.

Lemma triple_lib_error cn sc (l : L) (handle : option D) :
  triple mem (at_state cn sc l) (set_lib_error handle) (fun _ d => at_state cn sc l d).
Proof.
  eapply triple_bind; [apply triple_ask|]. intros s. apply triple_pure. intros _.
  apply triple_set_err_msg.
Qed.

(** The statement was in the cache. *)
Lemma triple_get_hit sql h sc l k m q t p :
  db_of l = k -> stmts_of l = m -> cache_ok pr_sql sc m -> compiled_all m -> (q = true -> quiet m) ->
  (tg = true -> is_Some sc /\ no_stray (cached sc) m) -> assoc sql (cached sc) = Some t ->
  m !! t = Some p ->
  triple mem (at_state (Some h) ((fun c => with_list (touch sql (st_list c)) c) <$> sc) l)
    (on_stmt t sqlite3_reset;; on_stmt t sqlite3_clear_bindings;; mret (Some t))
    (fun r d => r = Some t /\ working tg q h k t (Prepared sql (pr_cols p) ∅ Ready) d).
Proof.
  intros Hk Hm [Hh Hc] HΦ Hq Hn Ha Hp. destruct (handles_lookup _ _ _ _ _ Hh Ha) as (p2 & Hp2 & Hs).
  assert (p2 = p) as -> by congruence.
  destruct sc as [s|]; [|done].
  assert (Ht : touch sql (st_list s) ≡ₚ st_list s) by apply touch_perm.
  eapply triple_bind.
  { eapply triple_conseq; [apply (triple_move sqlite3_reset t p
      (Prepared (pr_sql p) (pr_cols p) (pr_binds p) Ready) h k q)| |done].
    - intros l1 Hl1. by apply reset_law.
    - done.
    - done.
    - intros d Hd. exists (Some (with_list (touch sql (st_list s)) s)), m.
      split; [by exists l|]. destruct s as [n ls cl]. cbn in *. split.
      + split; [by eapply handles_perm|]. intros s' [= <-]. by destruct (Hc _ eq_refl).
      + split; [done|]. split; [done|]. split; [intros Hqt t' p' Hl _; by apply (Hq Hqt t')|].
        intros Htt. destruct (Hn Htt) as [_ Hns]. split; [by eexists|]. by eapply no_stray_perm. }
  intros ?. eapply triple_bind.
  { apply (triple_move sqlite3_clear_bindings t _ (Prepared (pr_sql p) (pr_cols p) ∅ Ready) h k q);
      [|done|done]. intros l1 Hl1. by apply (clear_law _ _ _ Hl1). }
  intros ?. apply triple_ret. intros d Hd. split; [done|]. by rewrite <- Hs.
Qed.

(** The statement was not in the cache and compiles. *)
Lemma triple_get_miss sql h sc (l l' : L) k m q t :
  db_of l = k -> stmts_of l = m -> cache_ok pr_sql sc m -> compiled_all m -> (q = true -> quiet m) ->
  (tg = true -> is_Some sc /\ no_stray (cached sc) m) -> assoc sql (cached sc) = None ->
  Φ sql (columns k sql) ->
  db_of l' = k -> m !! t = None -> stmts_of l' = <[t := Prepared sql (columns k sql) ∅ Ready]> m ->
  triple mem (at_state (Some h) sc l')
    (stmt_cache_put sqlite_finalize_stmt sql t;; mret (Some t))
    (fun r d => r = Some t /\ working tg q h k t (Prepared sql (columns k sql) ∅ Ready) d).
Proof.
  intros Hk Hm Hok HΦ Hq Hn Ha Hv Hk' Ht Hm'. set (v := Prepared sql _ ∅ Ready) in *. eapply triple_bind.
  { apply (triple_put_fresh pr_sql stmts_of mem sqlite_finalize_stmt finalized
      (fun cn sc l t => triple_finalize cn sc l t)
      (fun l t p Hl => proj2 (finalize_law t p l Hl)) (Some h) sc l' m sql t v Hok Ht Hm' eq_refl Ha). }
  intros e. apply triple_ret. intros d (sc' & l2 & Hd & Hok' & Hlv & Hsub & Hl2 & Hns).
  split; [done|]. exists sc', (stmts_of l2). split; [|split; [done|split; [|split; [done|split]]]].
  - exists l2. split; [done|]. split; [|done].
    destruct Hl2 as [->|(t' & p & _ & Hl2 & ->)]; [done|]. unfold finalized.
    by rewrite (proj1 (finalize_law t' p l' Hl2)).
  - intros t' p Hl. apply (lookup_weaken _ _ _ _ Hl) in Hsub. rewrite Hm' in Hsub.
    exact (map_Forall_insert_2 (fun _ p => Φ (pr_sql p) (pr_cols p)) m t v Hv HΦ t' p Hsub).
  - intros Hqt t' p Hl Hne. apply (Hq Hqt t'). apply (lookup_weaken _ _ _ _ Hl) in Hsub.
    by rewrite Hm', lookup_insert_ne in Hsub.
  - intros Htt. apply Hns; [by apply Htg|by apply Hn].
Qed.

(** The statement has the columns it was compiled for. *)
Lemma triple_get_columns sql cols h k q :
  may_compile k sql ->
  triple mem (fun d => stmt_columns sql d = cols /\ idle tg q h k d) (sqlite_get_stmt (Some h) sql)
    (fun r d =>
    match r with
    | Some t => working tg q h k t (Prepared sql cols ∅ Ready) d
    | None => compiles k sql = false /\ idle tg q h k d
    end).
Proof.
  intros Hmay. eapply (triple_conseq mem (fun d => exists sc m l, at_state (Some h) sc l d /\
    (cols = default (columns k sql) (t ← assoc sql (cached sc); pr_cols <$> m !! t) /\
     db_of l = k /\ stmts_of l = m /\ cache_ok pr_sql sc m /\ compiled_all m /\ (q = true -> quiet m) /\
     (tg = true -> is_Some sc /\ no_stray (cached sc) m)))); [| |intros r d Hd; exact Hd].
  2: { intros d [Hcols (sc & m & (l & (c & Hd & Hcn & Hsc & Hl) & Hk & Hm) & Hi)]. exists sc, m, l.
    split; [by exists c|]. split; [|done]. subst l. rewrite <- Hcols. unfold stmt_columns, cached_columns.
    rewrite Hd, Hk, Hm. cbn. by rewrite Hsc. }
  apply triple_exists. intros sc. apply triple_exists. intros m. apply triple_exists. intros l.
  apply triple_pure_r. intros (-> & Hk & Hm & Hc & HΦ & Hq & Hn).
  unfold sqlite_get_stmt. eapply triple_bind; [apply triple_cache_get|].
  intros r. apply triple_pure. intros ->.
  destruct (assoc sql (cached sc)) as [t|] eqn:Ha.
  { destruct (handles_lookup _ _ _ _ _ (proj1 Hc) Ha) as (p & Hp & _). cbn. rewrite Hp.
    eapply triple_conseq; [eapply (triple_get_hit sql h sc l k m q t p); done|done|].
    by intros r d [-> ?]. }
  assert (Hsc : (fun c => with_list (touch sql (st_list c)) c) <$> sc = sc).
  { destruct sc as [[n ls cl]|]; [|done]. cbn in *. unfold touch. by rewrite Ha. }
  rewrite Hsc. run. eapply triple_bind; [apply triple_lib|]. intros [rc ot].
  apply triple_pure. destruct (prepare_law h sql l) as (rc' & ot' & l' & E & Hk' & Hp).
  rewrite E. cbn. intros [= -> ->]. rewrite Hk in Hp. destruct (compiles k sql) eqn:Hcomp.
  - destruct Hp as (-> & t & -> & Hfr & Hm'). cbn. rewrite Hm in Hfr, Hm'. rewrite Hk in Hk'.
    specialize (Hmay Hcomp). eapply triple_conseq; [eapply (triple_get_miss sql h sc l l' k m q t); done|done|].
    by intros r d [-> ?].
  - destruct Hp as [Hor Hm']. assert (Hidle : forall d, at_state (Some h) sc l' d -> idle tg q h k d).
    { intros d Hd. exists sc, m. split; [|by repeat (split; [done|])]. exists l'. split; [done|]. split; congruence. }
    destruct (Z.eqb_spec rc' SQLITE_OK) as [->|Hne]; cbn.
    + destruct Hor as [?| ->]; [done|]. apply triple_ret. auto.
    + eapply triple_bind; [apply triple_lib_error|]. intros ?. apply triple_ret. auto.
Qed.

Lemma triple_get_stmt sql h k q :
  may_compile k sql ->
  triple mem (idle tg q h k) (sqlite_get_stmt (Some h) sql) (fun r d =>
    match r with
    | Some t => exists cols, working tg q h k t (Prepared sql cols ∅ Ready) d
    | None => compiles k sql = false /\ idle tg q h k d
    end).
Proof.
  intros Hmay. eapply (triple_conseq mem (fun d => exists cols, stmt_columns sql d = cols /\ idle tg q h k d));
    [|intros d Hd; by exists (stmt_columns sql d)|intros r d Hd; exact Hd].
  apply triple_exists. intros cols. eapply triple_conseq; [by apply (triple_get_columns sql cols)|intros d Hd; exact Hd|].
  intros [t|] d Hd; [by exists cols|done].
Qed.

Lemma triple_cleanup sql h k q :
  triple mem (idle tg q h k) (sqlite_cleanup_stmt sql) (fun _ => idle tg q h k).
Proof.
  apply triple_exists. intros sc. apply triple_exists. intros m. unfold holds.
  apply triple_pure_r. intros ([Hh Hc] & HΦ & Hq & Hn).
  apply triple_exists. intros l. apply triple_pure_r. intros [Hk Hm].
  unfold sqlite_cleanup_stmt. eapply triple_bind; [apply triple_cache_remove|].
  intros r. apply triple_pure. intros ->. destruct sc as [s|]; cbn in *.
  - destruct (assoc sql (st_list s)) as [t|] eqn:Ha.
    + destruct (handles_lookup _ _ _ _ _ Hh Ha) as (p & Hp & _).
      destruct (handles_remove _ _ _ _ _ Hh Ha) as [Hh' Hn'].
      eapply triple_conseq; [apply triple_finalize; unfold is_live; rewrite Hm, Hp; by eexists|done|].
      intros ? d Hd. exists (Some (with_list (without sql (st_list s)) s)), (delete t m).
      split; [exists (finalized t l)|].
      { unfold finalized. destruct (finalize_law t p l) as [-> ->]; [congruence|]. by rewrite Hm. }
      split; [split|split; [|split]].
      * by destruct s.
      * intros s' [= <-]. destruct s. by destruct (Hc _ eq_refl).
      * by apply map_Forall_delete.
      * intros Hqt. by apply quiet_delete, Hq.
      * intros Htt. destruct (Hn Htt). split; [by eexists|]. destruct s. by apply Hn'.
    + apply triple_ret. intros d Hd. exists (Some s), m.
      split; [exists l; split; [|done]; rewrite without_None in Hd by done; by destruct s|].
      by split.
  - apply triple_ret. intros d Hd. exists None, m. split; [by exists l|]. by split.
Qed.

(** *** Binding *)

(** [bind_from], the values being known. *)
Fixpoint bind_values t (i : Z) (qs : list sqlite_value) : M S unit :=
  match qs with
  | [] => mret tt
  | v :: qs => bind_value t (i + 1) v;; bind_values t (i + 1) qs
  end.

Lemma triple_bind_values t i qs sql cols b h k q :
  triple mem (working tg q h k t (Prepared sql cols b Ready)) (bind_values t i qs)
    (fun _ => working tg q h k t (Prepared sql cols (bind_all i qs b) Ready)).
Proof.
  revert i b. induction qs as [|v qs IH]; intros i b; cbn [bind_values bind_all].
  { by apply triple_ret. }
  eapply triple_bind; [|intros ?; apply IH]. unfold bind_value.
  eapply triple_bind; [apply (triple_move (fun t => sqlite3_bind t (i + 1) v) t _
    (Prepared sql cols (<[i + 1 := v]> b) Ready))|].
  - intros l Hl. by apply (bind_law _ _ (i + 1) v l Hl).
  - done.
  - done.
  - intros ?. by apply triple_ret.
Qed.

(** *** Stepping *)

(** What a step does, [R] relating the code, the database and the statement
    afterwards. *)
Definition step_result (R : Z -> K -> prepared -> Prop) t p k (q : bool) : Prop :=
  forall l, db_of l = k -> stmts_of l !! t = Some p -> (q = true -> quiet_but (stmts_of l) t) ->
    exists p', stmts_of (sqlite3_step t l).2 = <[t := p']> (stmts_of l) /\
      pr_sql p' = pr_sql p /\ R (sqlite3_step t l).1 (db_of (sqlite3_step t l).2) p'.

Lemma step_columns t p p' l :
  stmts_of l !! t = Some p -> stmts_of (sqlite3_step t l).2 = <[t := p']> (stmts_of l) ->
  may_compile (db_of l) (pr_sql p) -> Φ (pr_sql p) (pr_cols p) -> Φ (pr_sql p) (pr_cols p').
Proof.
  intros Hp Hp' Hmay HΦ. destruct (step_law t p l Hp) as (cols & cur & E & Hc & _).
  rewrite Hp' in E. apply (f_equal (lookup t)) in E. rewrite !lookup_insert_eq in E. injection E as ->.
  destruct Hc as [->|(_ & Hc & ->)]; [done|by apply Hmay].
Qed.

Lemma triple_step t p h k q (R : Z -> K -> prepared -> Prop) :
  step_result R t p k q -> may_compile k (pr_sql p) ->
  triple mem (working tg q h k t p) (on_stmt t sqlite3_step)
    (fun rc d => exists k' p', R rc k' p' /\ pr_sql p' = pr_sql p /\ working tg q h k' t p' d).
Proof.
  intros Hf Hmay. apply triple_exists. intros sc. apply triple_exists. intros m.
  apply triple_pure_r. intros (Hc & HΦ & Ht & Hq & Hn).
  eapply triple_conseq; [apply (triple_on_stmt sqlite3_step t p h sc k m
    (fun rc l => exists p', stmts_of l = <[t := p']> m /\ pr_sql p' = pr_sql p /\
       Φ (pr_sql p) (pr_cols p') /\ R rc (db_of l) p') Ht)|done|].
  - intros l <- <-. destruct (Hf l eq_refl Ht Hq) as (p' & Hm & Hs & HR). exists p'.
    split; [done|]. split; [done|]. split; [|done]. exact (step_columns t p p' l Ht Hm Hmay (HΦ t p Ht)).
  - intros rc d (l & Hl & p' & Hm & Hs & Hcols & HR). exists (db_of l), p'. split; [done|]. split; [done|].
    exists sc, (<[t := p']> m). split; [by exists l|].
    split; [by eapply cache_ok_update|]. split; [apply map_Forall_insert_2; [by rewrite Hs|done]|].
    split; [apply lookup_insert_eq|].
    split; [intros; by apply quiet_but_update, Hq|]. intros Ht'. destruct (Hn Ht') as [? ?].
    split; [done|]. by eapply no_stray_update.
Qed.

(** *** Executing *)

Lemma triple_idle {A} (m0 : M S A) (a : D -> A -> Prop) h k q :
  (forall sc l, triple mem (at_state (Some h) sc l) m0
     (fun r d => a h r /\ at_state (Some h) sc l d)) ->
  triple mem (idle tg q h k) m0 (fun r d => a h r /\ idle tg q h k d).
Proof.
  intros Hm. apply triple_exists. intros sc. apply triple_exists. intros m. unfold holds.
  apply triple_pure_r. intros Hr. apply triple_exists. intros l. apply triple_pure_r. intros Hl.
  eapply triple_conseq; [apply Hm|done|]. intros r d [? Hd]. split; [done|].
  exists sc, m. split; [by exists l|done].
Qed.

Lemma idle_conn h k q :
  triple mem (idle tg q h k) get_conn (fun r d => r = Some h /\ idle tg q h k d).
Proof. apply (triple_idle get_conn (fun h r => r = Some h)). intros sc l. apply triple_get_conn. Qed.

Lemma idle_lib_error handle h k q :
  triple mem (idle tg q h k) (set_lib_error handle) (fun _ => idle tg q h k).
Proof.
  eapply triple_conseq; [apply (triple_idle _ (fun _ _ => True))|done|by intros ? d [_ ?]].
  intros sc l. eapply triple_conseq; [apply triple_lib_error|done|]. done.
Qed.

Lemma triple_exec sql qs h k q (R : Z -> K -> prepared -> Prop) :
  (forall t cols, step_result R t (Prepared sql cols (bind_all 0 qs ∅) Ready) k q) ->
  may_compile k sql ->
  triple mem (idle tg q h k) (exec_bound sql (fun t => bind_values t 0 qs)) (fun e d =>
    (compiles k sql = false /\ e = CORM_ERR_BACKEND /\ idle tg q h k d) \/
    exists rc k' p, R rc k' p /\ e = (if succeeds rc then CORM_OK else CORM_ERR_BACKEND) /\
      idle tg (q && negb (stands_on_row p)) h k' d).
Proof.
  intros HR Hmay. unfold exec_bound.
  eapply triple_bind; [apply idle_conn|]. intros r. apply triple_pure. intros ->.
  eapply triple_bind; [by apply triple_get_stmt|]. intros [t|].
  2: { apply triple_ret. intros d [??]. by left. }
  apply triple_exists. intros cols. eapply triple_bind; [apply triple_bind_values|]. intros ?.
  eapply triple_bind; [apply (triple_step _ _ _ _ _ R); [apply HR|done]|]. intros rc.
  apply triple_exists. intros k'. apply triple_exists. intros p. apply triple_pure. intros Hp.
  apply triple_pure. intros _. unfold succeeds.
  destruct (Z.eqb_spec rc SQLITE_DONE) as [->|Hd]; cbn [negb andb orb].
  { apply triple_ret. intros d Hd. right. exists SQLITE_DONE, k', p.
    split; [done|]. split; [done|]. by apply (working_idle _ _ _ _ t). }
  destruct (Z.eqb_spec rc SQLITE_ROW) as [->|Hr]; cbn [negb].
  { apply triple_ret. intros d Hd'. right. exists SQLITE_ROW, k', p.
    split; [done|]. split; [done|]. by apply (working_idle _ _ _ _ t). }
  eapply triple_bind.
  { eapply triple_conseq; [apply idle_lib_error|intros d Hd'; exact (working_idle _ _ _ _ _ _ _ Hd')|done]. }
  intros ?. eapply triple_bind; [apply triple_cleanup|]. intros ?. apply triple_ret. intros d Hd'.
  right. exists rc, k', p. split; [done|]. split; [|done].
  by destruct (Z.eqb_spec rc SQLITE_DONE), (Z.eqb_spec rc SQLITE_ROW).
Qed.
End laws.

(** ** What may have been compiled *)

(** Any statement, in any database. *)
Definition anything : string -> list string -> Prop := fun _ _ => True.

(** The statement [sql] only for the columns [cols]. *)
Definition only_for (sql : string) (cols : list string) : string -> list string -> Prop :=
  fun s c => s = sql -> c = cols.

Section compiled.
Context {D T X L K : Type} `{Countable T} `{!Sqlite3 D T L} `{!SqliteSpec D T L K}.
#[local] Abbreviation S := (proc D (stmts T) X L).
Implicit Types (Φ : string -> list string -> Prop) (k : K) (d : S).

(** Statements that were compiled in a database of the kind [P]. *)
Definition compiled_in (P : K -> Prop) : string -> list string -> Prop :=
  fun sql cols => exists k, P k /\ compiles k sql = true /\ cols = columns k sql.

Lemma may_compile_in (P : K -> Prop) k sql : P k -> may_compile (compiled_in P) k sql.
Proof. intros Hk Hc. by exists k. Qed.

Lemma may_anything k sql : may_compile anything k sql.
Proof. done. Qed.

Lemma idle_weaken Φ Φ' tg q h k d :
  (forall s c, Φ s c -> Φ' s c) -> idle Φ tg q h k d -> idle Φ' tg q h k d.
Proof.
  intros Himp (sc & m & Hh & Hc & HΦ & Hi). exists sc, m. repeat (split; [done|]). split; [|done].
  eapply map_Forall_impl; [exact HΦ|]. intros t p. apply Himp.
Qed.

(** The columns of the cached statement, or those of the database. *)
Lemma stmt_columns_cases Φ tg q h k d sql :
  idle Φ tg q h k d -> Φ sql (stmt_columns sql d) \/ stmt_columns sql d = columns k sql.
Proof.
  intros (sc & m & (l & (c & Hc & _ & Hsc & <-) & Hk & Hm) & [Hh _] & HΦ & _).
  unfold stmt_columns, cached_columns. rewrite Hc, Hk, Hm. cbn. rewrite Hsc.
  destruct (assoc sql (cached sc)) as [t|] eqn:Ha; [|by right].
  destruct (handles_lookup _ _ _ _ _ Hh Ha) as (p & Hp & <-). cbn. rewrite Hp. left. exact (HΦ t p Hp).
Qed.

(** A statement of the text [sql] was compiled for the columns it has in [k]. *)
Definition up_to_date k (sql : string) : string -> list string -> Prop := only_for sql (columns k sql).

Lemma up_to_date_columns tg q h k d sql :
  idle (up_to_date k sql) tg q h k d -> stmt_columns sql d = columns k sql.
Proof. intros Hi. by destruct (stmt_columns_cases _ _ _ _ _ _ sql Hi) as [Hc|Hc]; [apply Hc|]. Qed.

Lemma may_up_to_date k sql s : may_compile (up_to_date k sql) k s.
Proof. by intros _ ->. Qed.
End compiled.
