(* ===== verification/SqliteExec.v ===== *)
(** * Executing statements on SQLite

    [sqlite_exec] through the statement cache does what executing each
    statement directly does, and [sqlite3_backend] implements the interfaces the
    layers above rely on ([SqlDriver], [Transactional], [ConnDriver]). *)

From S2P Require Import Prelude Types Mem Strbuf Dialect Hash Model Backend Query QuerySpec Tx.
From S2P Require Import Driver Result Core CoreProps StmtCache DriverState DriverSpec.
From S2P Require Import Reading Handles Sqlite SqliteSpec MigrationProps.

(** What a value becomes on its way to the library. *)
Definition to_sqlite (x : sqlval) : sqlite_value :=
  match x with
  | SNull => QNull
  | SInt z => QInt z
  | SDbl b => QFloat b
  | SText s => QText s
  | SBlob bs => QBlob bs
  | SBool b => QInt (if b then 1 else 0)
  end.

Section exec.
Context {D T X L K : Type} `{Countable T} `{!Sqlite3 D T L} `{!SqliteSpec D T L K}.
#[local] Abbreviation S := (proc D (stmts T) X L).
Implicit Types (w : world S) (d : S) (k : K) (h : D).

(** ** Parameters *)

Lemma param_value_ok v x w :
  resolve (w_heap w) v = Some x -> int_sized x -> param_value v w = Ret (to_sqlite x) w.
Proof.
  unfold resolve, param_value. intros Hr Hs. destruct (v_is_null v); [by simplify_eq|].
  destruct (v_type v).
  1-2: destruct (u_as_i (v_u v)); by simplify_eq/=.
  1-2: destruct (u_as_f (v_u v)); by simplify_eq/=.
  1-2: destruct (u_as_s (v_u v)) as [p|]; simplify_eq/=; run; case_decide;
    [rewrite bool_decide_true by done; by simplify_eq/=|]; rewrite bool_decide_false by done;
    destruct (read_cstr (w_heap w) p) as [s|] eqn:E; simplify_eq/=;
    by run_with (read_str_ok p s w E).
  - destruct (u_as_blob (v_u v)) as [[p n]|]; simplify_eq/=. run.
    case_decide; [rewrite bool_decide_true by done; by simplify_eq/=|].
    rewrite bool_decide_false by done.
    destruct (read_bytes (w_heap w) p n) as [bs|] eqn:E; simplify_eq/=.
    pose proof (read_bytes_size _ _ _ _ E). rewrite wrap_i32_id by (unfold in_i32; lia).
    destruct (Z.ltb_spec n 0); [lia|]. by run_with (read_blob_ok p n bs w E).
  - destruct (u_as_b (v_u v)); by simplify_eq/=.
Qed.

Lemma framed_on_stmt {A} t (f : T -> L -> A * L) : framed (on_stmt t f : M S A).
Proof. unfold on_stmt, on_live. framed. Qed.
Lemma framed_lib_error (handle : option D) : framed (set_lib_error handle : M S unit).
Proof. unfold set_lib_error. framed. Qed.
#[local] Hint Resolve framed_on_stmt framed_lib_error : framed.
Lemma framed_finalize t : framed (sqlite_finalize_stmt t : M S unit).
Proof. unfold sqlite_finalize_stmt. framed. Qed.
#[local] Hint Resolve framed_finalize : framed.
Lemma framed_get_stmt handle sql : framed (sqlite_get_stmt handle sql : M S (option T)).
Proof. unfold sqlite_get_stmt. framed. Qed.
Lemma framed_bind_values t i qs : framed (bind_values t i qs : M S unit).
Proof. revert i. induction qs as [|q qs IH]; intros i; cbn; unfold bind_value; framed; auto. Qed.
#[local] Hint Resolve framed_get_stmt framed_bind_values : framed.
Lemma framed_exec sql bind :
  (forall t, framed (bind t)) -> framed (exec_bound sql bind : M S corm_err).
Proof. intros Hb. unfold exec_bound, sqlite_cleanup_stmt. framed. Qed.

Lemma bind_from_values t i ps xs w :
  Forall2 (fun v x => resolve (w_heap w) v = Some x) ps xs -> Forall int_sized xs ->
  bind_from t i ps w = bind_values t i (map to_sqlite xs) w.
Proof.
  intros Hr Hs. revert i ps w Hr. induction Hs as [|x xs Hx Hs IH]; intros i ps w Hr.
  - by apply Forall2_nil_inv_r in Hr as ->.
  - apply Forall2_cons_inv_r in Hr as (v & ps' & Hv & Hr & ->). cbn [bind_from bind_values map].
    run_with (param_value_ok v x w Hv Hx).
    apply (framed_agree (bind_value t (i + 1) (to_sqlite x))); [unfold bind_value; framed|].
    intros ? w' Hh. apply IH. by rewrite Hh.
Qed.

(** [sqlite_exec] on values that can be read. *)
Lemma exec_values sql ps xs w :
  Forall2 (fun v x => resolve (w_heap w) v = Some x) ps xs -> Forall int_sized xs ->
  sqlite_exec sql ps w = exec_bound sql (fun t => bind_values t 0 (map to_sqlite xs)) w.
Proof.
  intros Hr Hs. unfold sqlite_exec, exec_bound.
  apply framed_agree; [framed|]. intros cn w1 Hh1.
  apply framed_agree; [framed|]. intros [t|] w2 Hh2; [|done].
  unfold mbind at 1 3, M_bind. unfold sqlite_bind_params.
  rewrite (bind_from_values t 0 ps xs w2); [done| |done]. by rewrite Hh2, Hh1.
Qed.

(** ** Without the cache *)

Definition readable (h : gmap loc block) (s : string * list corm_value)
    (y : string * list sqlval) : Prop :=
  fst s = fst y /\ Forall2 (fun v x => resolve h v = Some x) (snd s) (snd y) /\
  Forall int_sized (snd y).

(** A program of statements, executed one after the other by the driver and
    directly, whatever errors occur. *)
Fixpoint exec_all (ss : list (string * list corm_value)) : M S (list corm_err) :=
  match ss with
  | [] => mret []
  | (sql, ps) :: ss => e ← sqlite_exec sql ps; es ← exec_all ss; mret (e :: es)
  end.

Fixpoint direct_all k (ys : list (string * list sqlval)) : list corm_err * K :=
  match ys with
  | [] => ([], k)
  | (sql, xs) :: ys =>
      let '(e, k) := direct_exec k sql (map to_sqlite xs) in
      let '(es, k) := direct_all k ys in (e :: es, k)
  end.

(** The statement delivers no row. *)
Definition no_rows k (sql : string) (xs : list sqlval) : bool :=
  bool_decide ((sem k sql (bind_all 0 (map to_sqlite xs) ∅)).1.1 = []).

(** None of the statements delivers a row, the last one apart. *)
Fixpoint rowless k (ys : list (string * list sqlval)) : Prop :=
  match ys with
  | [] | [_] => True
  | (sql, xs) :: ys => no_rows k sql xs = true /\ rowless (direct_exec k sql (map to_sqlite xs)).2 ys
  end.

(** The last one delivers no row either. *)
Fixpoint ends_quiet k (ys : list (string * list sqlval)) : bool :=
  match ys with
  | [] => true
  | [(sql, xs)] => no_rows k sql xs
  | (sql, xs) :: ys => ends_quiet (direct_exec k sql (map to_sqlite xs)).2 ys
  end.

Lemma triple_exec_rows Φ mem tg (Htg : tg = true -> mem = true) sql qs h k :
  may_compile Φ k sql ->
  triple mem (idle Φ tg true h k) (exec_bound sql (fun t => bind_values t 0 qs)) (fun e d =>
    e = (direct_exec k sql qs).1 /\
    idle Φ tg (bool_decide ((sem k sql (bind_all 0 qs ∅)).1.1 = [])) h (direct_exec k sql qs).2 d).
Proof.
  intros Hmay. pose proof (sem_code k sql (bind_all 0 qs ∅)) as Hcode.
  pose proof (sem_not_compiling k sql (bind_all 0 qs ∅)) as Hnc. unfold direct_exec.
  destruct (sem k sql (bind_all 0 qs ∅)) as [[rows rc] k'] eqn:Es. cbn [fst snd] in Hcode |- *.
  eapply triple_conseq; [apply (triple_exec Φ mem tg Htg sql qs h k true
    (fun rc' k'' p => rc' = step_code rows rc /\ k'' = k' /\
       negb (stands_on_row p) = bool_decide (rows = []))); [|done]|done|].
  - intros t cols l <- Hl Hq. pose proof (step_first t _ l Hl eq_refl (Hq eq_refl)) as Hf. cbn in Hf.
    rewrite Es in Hf. destruct Hf as (-> & -> & ->). eexists. split; [done|]. split; [done|].
    split; [done|]. split; [done|]. by destruct rows.
  - intros e d [(Hc & -> & Hd)|(rc' & k'' & p & (-> & -> & Hp) & -> & Hd)].
    + destruct (Hnc Hc) as (rc2 & [= -> -> ->] & _). rewrite Hc. by split.
    + rewrite <- Hp. destruct (compiles k sql) eqn:Hc; [by split|].
      destruct (Hnc eq_refl) as (rc2 & [= -> -> ->] & Hrc2). cbn [step_code] in *. unfold succeeds.
      destruct (Z.eqb_spec rc2 SQLITE_DONE), (Z.eqb_spec rc2 SQLITE_ROW); try done.
Qed.

Lemma triple_exec_direct Φ mem tg (Htg : tg = true -> mem = true) sql qs h k :
  may_compile Φ k sql -> (sem k sql (bind_all 0 qs ∅)).1.1 = [] ->
  triple mem (idle Φ tg true h k) (exec_bound sql (fun t => bind_values t 0 qs)) (fun e d =>
    e = (direct_exec k sql qs).1 /\ idle Φ tg true h (direct_exec k sql qs).2 d).
Proof.
  intros Hmay Hrows. pose proof (triple_exec_rows Φ mem tg Htg sql qs h k Hmay) as Ht.
  by rewrite bool_decide_true in Ht.
Qed.

(** C36: the statement cache is transparent: through the cache - whatever it
    holds, whatever its capacity, with no cache at all, and even when memory runs
    out - a program of statements of which only the last may deliver rows reports
    exactly the errors and leaves exactly the database that preparing, binding and
    stepping each statement afresh gives.  (A statement that delivers a row is not
    reset by [sqlite_exec]: what the library lets the next statement do is then its
    own affair.) *)
Theorem sqlite_cache_transparent h k ss ys w :
  idle anything false true h k (w_db w) -> Forall2 (readable (w_heap w)) ss ys -> rowless k ys ->
  exists w', exec_all ss w = Ret (direct_all k ys).1 w' /\
    idle anything false (ends_quiet k ys) h (direct_all k ys).2 (w_db w') /\ w_heap w' = w_heap w.
Proof.
  intros Hi Hss. revert k w Hi Hss. revert ss.
  induction ys as [|[sql xs] ys IH]; intros ss k w Hi Hss Hr.
  { apply Forall2_nil_inv_r in Hss as ->. by exists w. }
  apply Forall2_cons_inv_r in Hss as ([sql' ps] & ss' & (Heq & Hres & Hsz) & Hss & ->).
  cbn in Heq. subst sql'. cbn [exec_all direct_all].
  destruct (triple_exec_rows anything false false (fun e => e) sql (map to_sqlite xs) h k
    (may_anything _ _) w) as (e & o & d & E & _ & -> & Hd); [done|done|].
  rewrite <- (exec_values sql ps xs w Hres Hsz) in E. run_with E. cbn [rowless ends_quiet] in Hr |- *.
  fold (no_rows k sql xs) in Hd. destruct (direct_exec k sql (map to_sqlite xs)) as [e1 k1]. cbn [fst snd] in *.
  destruct ys as [|y ys].
  { apply Forall2_nil_inv_r in Hss as ->. cbn. eexists. split; [done|]. by split. }
  destruct Hr as [Hr1 Hr]. rewrite Hr1 in Hd.
  destruct (IH ss' k1 (World o (w_heap w) (w_next w) d) Hd Hss Hr) as (w' & E' & Hd' & Hh).
  destruct (direct_all k1 (y :: ys)) as [es k2]. cbn [fst snd] in *. run_with E'. by exists w'.
Qed.

(** ** The interfaces *)

Definition sqlite_ready d : Prop := exists h k, idle anything false false h k d.

#[export] Instance sqlite_usable : Usable (sqlite3_backend (X := X) (T := T)) := sqlite_ready.

Lemma idle_ready Φ tg (q : bool) h k d : idle Φ tg q h k d -> sqlite_ready d.
Proof. intros (sc & m & Hh & Hc & _). exists h, k, sc, m. by repeat (split; [done|]). Qed.

(** Any step of a statement keeps the handles in order. *)
Lemma triple_exec_any mem sql qs h k :
  triple mem (idle anything false false h k) (exec_bound sql (fun t => bind_values t 0 qs))
    (fun _ d => sqlite_ready d).
Proof.
  eapply triple_conseq; [apply (triple_exec anything mem false (fun e => ltac:(done))
    sql qs h k false (fun _ _ _ => True)); [|apply may_anything]|done|].
  - intros t ? l _ Hl _. destruct (step_law t _ l Hl) as (? & cur & -> & _). by eexists.
  - intros e d [(_ & _ & Hd)|(rc & k' & p & _ & _ & Hd)]; by eexists _, _.
Qed.

(** With memory, no statement escapes the cache. *)
Lemma triple_exec_tight sql qs h k :
  triple true (idle anything true false h k) (exec_bound sql (fun t => bind_values t 0 qs))
    (fun _ d => exists k', idle anything true false h k' d).
Proof.
  eapply triple_conseq; [apply (triple_exec anything true true (fun _ => eq_refl)
    sql qs h k false (fun _ _ _ => True)); [|apply may_anything]|done|].
  - intros t ? l _ Hl _. destruct (step_law t _ l Hl) as (? & cur & -> & _). by eexists.
  - intros e d [(_ & _ & Hd)|(rc & k' & p & _ & _ & Hd)]; by eexists.
Qed.

(** What executing does to the state, memory sufficing. *)
Definition sqlite_effect (sql : string) (xs : list sqlval) (d : S) : corm_err * S :=
  default (CORM_OK, d) (effect (exec_bound sql (fun t => bind_values t 0 (map to_sqlite xs))) d).

Lemma sqlite_effect_ok sql xs d :
  sqlite_ready d ->
  effect (exec_bound sql (fun t => bind_values t 0 (map to_sqlite xs))) d =
    Some (sqlite_effect sql xs d) /\ sqlite_ready (sqlite_effect sql xs d).2.
Proof.
  intros (h & k & Hi). destruct (triple_effect _ _ _ d (triple_exec_any true sql (map to_sqlite xs) h k) Hi)
    as (e & d' & E & Hd'). unfold sqlite_effect. by rewrite E.
Qed.

Definition with_handle (f : D -> L -> Z) (d : S) : Z :=
  match p_db d with
  | Some c => match c_conn c with Some h => f h (p_env d) | None => 0 end
  | None => 0
  end.

Lemma handle_ask (f : D -> L -> Z) w :
  sqlite_ready (w_db w) ->
  (handle ← get_conn; h ← deref handle; ask (f h)) w = Ret (with_handle f (w_db w)) w.
Proof.
  intros (h & k & sc & m & (l & (c & Hc & Hcn & _ & <-) & _) & _).
  unfold with_handle, get_conn. rewrite Hc, Hcn, bind_assoc.
  run_with (get_corm_ok w c Hc). rewrite Hcn. by run.
Qed.

#[export] Instance sqlite_driver : SqlDriver (sqlite3_backend (X := X) (T := T)).
Proof.
  refine {| sql_carries := fun _ xs _ => Forall int_sized xs; sql_exec := sqlite_effect;
            sql_affected := with_handle sqlite3_changes;
            sql_last_id := with_handle sqlite3_last_insert_rowid;
            drv_exec := sqlite_exec; drv_affected := sqlite_affected;
            drv_last_id := sqlite_last_id |}; try reflexivity.
  - intros w Hu. by apply handle_ask.
  - intros w Hu. by apply handle_ask.
  - intros text xs d Hu _. by apply sqlite_effect_ok.
  - done.
  - intros w text ps xs Hp Hu Hs Hr. rewrite (exec_values text ps xs w Hr Hs).
    rewrite framed_effect; [|apply framed_exec; intros; apply framed_bind_values|done].
    destruct (sqlite_effect_ok text xs (w_db w) Hu) as [-> _].
    by destruct (sqlite_effect text xs (w_db w)).
Defined.

(** A statement without rows does what executing it directly does. *)
Lemma effect_direct Φ d sql xs h k :
  idle Φ true true h k d -> may_compile Φ k sql ->
  (sem k sql (bind_all 0 (map to_sqlite xs) ∅)).1.1 = [] ->
  let r := sql_exec (sqlite3_backend (X := X)) sql xs d in
  r.1 = (direct_exec k sql (map to_sqlite xs)).1 /\
  idle Φ true true h (direct_exec k sql (map to_sqlite xs)).2 r.2.
Proof.
  intros Hi Hmay Hrows. cbn zeta. change (sql_exec _) with sqlite_effect.
  destruct (triple_effect _ _ _ d
    (triple_exec_direct Φ true true (fun _ => eq_refl) sql (map to_sqlite xs) h k Hmay Hrows) Hi)
    as (e' & d' & E & -> & Hd').
  unfold sqlite_effect. by rewrite E.
Qed.

(** What [corm_exec] records about a statement does not matter to the driver. *)
Lemma idle_log Φ tg (q : bool) h k d log reads :
  idle Φ tg q h k d -> idle Φ tg q h k (Proc (p_db d) log (p_time d) reads (p_env d)).
Proof.
  intros (sc & m & (l & (c & Hc) & Hv) & Hi). exists sc, m. split; [|done].
  exists l. split; [|done]. by exists c.
Qed.

Lemma idle_report Φ tg (q : bool) h k d sql e c :
  p_db d = Some c -> idle Φ tg q h k d ->
  idle Φ tg q h k (Proc (Some (reported sql e c)) (p_log d) (p_time d) (p_reads d) (p_env d)).
Proof.
  intros Hc (sc & m & (l & (c' & Hc' & Hcn & Hsc & Hl) & Hv) & Hi). exists sc, m. split; [|done].
  exists l. split; [|done]. assert (c' = c) as -> by congruence. exists (reported sql e c).
  split; [done|]. unfold reported. destruct c, (is_err e); by cbn in *.
Qed.

Lemma idle_db Φ tg (q : bool) h k d : idle Φ tg q h k d -> db_of (p_env d) = k.
Proof. by intros (sc & m & (l & (c & _ & _ & _ & ->) & -> & _) & _). Qed.

#[export] Instance sqlite_conn : ConnDriver (sqlite3_backend (X := X) (T := T)).
Proof.
  constructor.
  - intros d (h & k & sc & m & (l & (c & Hc & _) & _) & _). by rewrite Hc.
  - intros d log reads (h & k & Hi). exists h, k. by apply idle_log.
  - intros d sql e c Hc (h & k & Hi). exists h, k. by apply idle_report.
Qed.
End exec.

(** ** Transactions *)

Definition tx_statements : list string := ["BEGIN TRANSACTION"; "COMMIT"; "ROLLBACK"].

(** What SQLite promises of the three statements: the state of the database is
    its content and, in a transaction, the content a rollback restores. *)
Class SqliteTx (D T L K C : Type) `{SqliteSpec D T L K} : Type := {
  content_of : K -> C;
  saved_of : K -> option C;
  tx_compiles k s : s ∈ tx_statements -> compiles k s = true;
  begin_step t cols l : stmts_of l !! t = Some (Prepared "BEGIN TRANSACTION" cols ∅ Ready) ->
    content_of (db_of (sqlite3_step t l).2) = content_of (db_of l) /\
    (succeeds (sqlite3_step t l).1 = true ->
       saved_of (db_of (sqlite3_step t l).2) = Some (content_of (db_of l)));
  commit_step t cols l : stmts_of l !! t = Some (Prepared "COMMIT" cols ∅ Ready) ->
    succeeds (sqlite3_step t l).1 = true ->
    content_of (db_of (sqlite3_step t l).2) = content_of (db_of l);
  rollback_step t cols l c : stmts_of l !! t = Some (Prepared "ROLLBACK" cols ∅ Ready) ->
    saved_of (db_of l) = Some c -> content_of (db_of (sqlite3_step t l).2) = c
}.
Arguments SqliteTx D T L K C {_ _ _ _}.

Section transactions.
Context {D T X L K C : Type} `{Countable T} `{!Sqlite3 D T L} `{!SqliteSpec D T L K}.
Context `{!SqliteTx D T L K C}.
#[local] Abbreviation S := (proc D (stmts T) X L).
Implicit Types (w : world S) (d : S) (k : K) (h : D).

(** Executing a statement of the transaction API, memory or not. *)
Lemma exec_tx sql h k w (R : corm_err -> K -> Prop) :
  idle anything false false h k (w_db w) -> sql ∈ tx_statements ->
  (forall t cols l, db_of l = k -> stmts_of l !! t = Some (Prepared sql cols ∅ Ready) ->
     R (if succeeds (sqlite3_step t l).1 then CORM_OK else CORM_ERR_BACKEND)
       (db_of (sqlite3_step t l).2)) ->
  exists e d w1, sqlite_exec sql [] w = Ret e (set_db d w1) /\ alloc_only w w1 /\
    exists k', R e k' /\ idle anything false false h k' d.
Proof.
  intros Hi Hsql HR.
  destruct (triple_exec (X := X) anything false false (fun e => e) sql [] h k false
    (fun rc k' _ => R (if succeeds rc then CORM_OK else CORM_ERR_BACKEND) k')) with (w := w)
    as (e & o & d & E & Ho & HQ); [|apply may_anything|done|done|].
  - intros t cols l Hk Hl _. destruct (step_law t _ l Hl) as (? & cur & -> & _). eexists.
    split; [done|]. split; [done|]. by apply (HR t cols).
  - exists e, d, (World o (w_heap w) (w_next w) (w_db w)). split; [exact E|]. split.
    + repeat (split; [done|]). intros Hp. rewrite (Ho Hp). destruct w. cbn in *. by rewrite Hp.
    + destruct HQ as [(Hc & _)|(rc & k' & p & HR' & -> & Hd)].
      * by rewrite tx_compiles in Hc.
      * exists k'. by split.
Qed.

(** The content of the database behind the connection. *)
Definition db_content (d : S) : C := content_of (db_of (p_env d)).
Definition db_saved (d : S) : option C := saved_of (db_of (p_env d)).

Lemma err_of_step (b : bool) : (if b then CORM_OK else CORM_ERR_BACKEND) = CORM_OK -> b = true.
Proof. by destruct b. Qed.

#[export] Instance sqlite_tx : Transactional (K := C) (sqlite3_backend (X := X) (T := T)).
Proof.
  refine {| content := db_content; saved := db_saved; tx_free := fun _ => True; tx_begin := sqlite_begin;
            tx_commit := sqlite_commit; tx_rollback := sqlite_rollback |}; try reflexivity.
  - intros w (h & k & Hi) _.
    destruct (exec_tx "BEGIN TRANSACTION" h k w (fun e k' => content_of k' = content_of k /\
      (e = CORM_OK -> saved_of k' = Some (content_of k))) Hi) as (e & d & w1 & E & Ha & k' & [Hc Hs] & Hd).
    + by left.
    + intros t cols l <- Hl. destruct (begin_step t cols l Hl) as [Hc Hs]. split; [done|].
      intros He. by apply Hs, err_of_step.
    + exists e, d, w1. split; [done|]. split; [done|]. split; [by exists h, k'|].
      unfold db_content, db_saved. rewrite (idle_db _ _ _ _ _ _ Hd), (idle_db _ _ _ _ _ _ Hi). done.
  - intros w (h & k & Hi).
    destruct (exec_tx "COMMIT" h k w (fun e k' => e = CORM_OK -> content_of k' = content_of k) Hi)
      as (e & d & w1 & E & Ha & k' & Hc & Hd).
    + by right; left.
    + intros t cols l <- Hl He. by apply (commit_step t cols l Hl), err_of_step.
    + exists e, d, w1. split; [done|]. split; [done|]. split; [by exists h, k'|].
      unfold db_content. by rewrite (idle_db _ _ _ _ _ _ Hd), (idle_db _ _ _ _ _ _ Hi).
  - intros w c (h & k & Hi) Hs. unfold db_saved in Hs. rewrite (idle_db _ _ _ _ _ _ Hi) in Hs.
    destruct (exec_tx "ROLLBACK" h k w (fun _ k' => content_of k' = c) Hi)
      as (e & d & w1 & E & Ha & k' & Hc & Hd).
    + by right; right; left.
    + intros t cols l <- Hl. by apply (rollback_step t cols).
    + exists e, d, w1. split; [done|]. split; [done|]. split; [by exists h, k'|].
      unfold db_content. by rewrite (idle_db _ _ _ _ _ _ Hd).
Defined.
End transactions.
