(* ===== verification/SqliteQuery.v ===== *)
(** * Queries on SQLite

    What [sqlite_query] reads: the rows the library delivers, one step at a
    time, become a result object that owns its texts and blobs and in which
    every cell has the type of its column. *)

From S2P Require Import Prelude Types Mem Strbuf Dialect Hash Model Backend Query Builder.
From S2P Require Import BuilderSpec QuerySpec Tx Driver Result ResultSpec Exec Rows Core CoreProps StmtCache.
From S2P Require Import DriverState DriverSpec Reading Handles Sqlite SqliteSpec SqliteExec.

(** ** Cells *)

(** The types the code gives to columns. *)
Definition decided (t : corm_field_type) : Prop :=
  t = CORM_INT64 \/ t = CORM_DOUBLE \/ t = CORM_TEXT \/ t = CORM_BLOB.

Lemma decide_type_decided s t : decided t \/ t = CORM_INT -> decided (decide_type s t).
Proof.
  unfold decide_type, decided. intros [Ht| ->].
  - rewrite bool_decide_false by (destruct Ht as [->|[->|[->| ->]]]; done).
    by rewrite andb_false_r.
  - rewrite bool_decide_true by done. rewrite andb_true_r.
    repeat case_match; auto.
Qed.

Lemma decide_type_id s t : decided t -> decide_type s t = t.
Proof.
  intros Ht. unfold decide_type.
  rewrite bool_decide_false by (destruct Ht as [->|[->|[->| ->]]]; done). by rewrite andb_false_r.
Qed.

Section query.
Context {D T X L K : Type} `{Countable T} `{!Sqlite3 D T L} `{!SqliteSpec D T L K}.
#[local] Abbreviation S := (proc D (stmts T) X L).
Implicit Types (w : world S) (d : S) (k : K) (h : D) (t : T) (q : sqlite_value).

(** The value of a cell of type [ty]: the conversion the column's type asks for;
    an empty blob is a NULL pointer. *)
Definition cell_value (ty : corm_field_type) q : sqlval :=
  match q with
  | QNull => SNull
  | _ =>
      match ty with
      | CORM_INT64 => SInt (to_int64 q)
      | CORM_DOUBLE => SDbl (to_double q)
      | CORM_TEXT => match to_text q with Some s => SText s | None => SNull end
      | _ => match to_blob q with [] => SNull | bs => SBlob bs end
      end
  end.

(** What the union of the cell holds; [None]: a NULL pointer that is not marked
    as NULL. *)
Definition cell_content (ty : corm_field_type) q : option sqlval :=
  match q with
  | QNull => Some SNull
  | _ => match cell_value ty q with SNull => None | x => Some x end
  end.

(** [v] has the type [ty], can be read as such in the heap [hp], and reads as the
    value of [q]. *)
Definition cell_ok (hp : gmap loc block) (ty : corm_field_type) q (v : corm_value) : Prop :=
  v_type v = ty /\ v_is_null v = bool_decide (q = QNull) /\
  resolve hp v = Some (cell_value ty q) /\
  forall x, cell_content ty q = Some x -> carries hp (v_u v) x.

(** [t] stands on [row]. *)
Definition on_row t (row : list sqlite_value) (l : L) : Prop :=
  exists p rest rc, stmts_of l !! t = Some p /\ pr_cur p = OnRow row rest rc.

Lemma ask_stmt_ok {A} t (f : T -> L -> A) w :
  is_live t (p_env (w_db w)) -> ask_stmt t f w = Ret (f t (p_env (w_db w))) w.
Proof.
  intros Hl. unfold ask_stmt, ask_live, ask, get_db, mbind, M_bind. cbn.
  by rewrite live_law, bool_decide_true.
Qed.

Lemma on_row_live t row l : on_row t row l -> is_live t l.
Proof. intros (p & rest & rc & Hp & _). unfold is_live. by rewrite Hp. Qed.

(** Step through a question about the statement. *)
Ltac ask_with H := rewrite (bind_Ret _ _ _ _ _ (H _ _)); run.

(** *** One cell *)

Lemma read_column_ok t i ty q row w base ls :
  plenty w -> heap_wf w -> heap_split (w_heap w) base ls ->
  on_row t row (p_env (w_db w)) -> row !! i = Some q -> decided ty \/ ty = CORM_INT ->
  exists v w', read_column t (Z.of_nat i) ty w = Ret v w' /\
    reading w w' base (ls ++ owned_of v) /\ param_wf v /\
    cell_ok (w_heap w') (decide_type (class_of q) ty) q v.
Proof.
  intros Hp Hwf Hs Hrow Hq Hty. pose proof (on_row_live _ _ _ Hrow) as Hl.
  pose proof (fun A (f : T -> L -> A) => ask_stmt_ok t f w Hl) as Hask.
  destruct Hrow as (p & rest & rc & Hpl & Hpc).
  destruct (cell_law t p row rest rc i q _ Hpl Hpc Hq) as (Ht & Hi & Hd & Hx & Hb & Hbl).
  pose proof (decide_type_decided (class_of q) ty Hty) as Hdt.
  unfold read_column. ask_with Hask. rewrite Ht. set (ty' := decide_type _ ty) in *. clearbody ty'.
  destruct (decide (q = QNull)) as [->|Hne].
  { cbn. eexists _, w. split; [done|]. assert (owned_of (Value ty' true (UInt 0)) = []) as ->.
    { unfold owned_of. by destruct Hdt as [->|[->|[->| ->]]]. }
    rewrite app_nil_r. split; [by apply reading_id|]. split; [|by split_and!; intros; simplify_eq/=].
    unfold param_wf. destruct Hdt as [->|[->|[->| ->]]]; cbn; try done; [|]; eexists; eauto. }
  assert (Z.eqb (class_of q) SQLITE_NULL = false) as -> by by destruct q.
  unfold cell_ok. rewrite bool_decide_false by done.
  assert (Hcc : cell_content ty' q = match cell_value ty' q with SNull => None | x => Some x end)
    by by destruct q.
  assert (Hcv : cell_value ty' q = match ty' with
    | CORM_INT64 => SInt (to_int64 q) | CORM_DOUBLE => SDbl (to_double q)
    | CORM_TEXT => match to_text q with Some s => SText s | None => SNull end
    | _ => match to_blob q with [] => SNull | bs => SBlob bs end end) by by destruct q.
  rewrite Hcc, Hcv. clear Hcc Hcv. destruct Hdt as [->|[->|[->| ->]]].
  - rewrite bind_assoc. ask_with Hask. rewrite Hi. eexists _, w. split; [done|]. rewrite app_nil_r.
    split; [by apply reading_id|]. by split_and!; intros; simplify_eq/=.
  - rewrite bind_assoc. ask_with Hask. rewrite Hd. eexists _, w. split; [done|]. rewrite app_nil_r.
    split; [by apply reading_id|]. by split_and!; intros; simplify_eq/=.
  - rewrite bind_assoc. ask_with Hask. rewrite Hx, bind_assoc.
    destruct (dup_text_ok (to_text q) w base ls Hp Hwf Hs) as (pt & w' & E & Hr & Ho).
    run_with E. eexists _, w'. split; [done|]. split; [by destruct pt|]. unfold resolve. cbn.
    destruct (to_text q) as [s|].
    + destruct Ho as (lo & -> & Hrd). split; [eexists; split; [done|]; right; by eexists|].
      rewrite decide_False, Hrd by done. split_and!; try done. intros x [= <-]. by exists lo.
    + subst pt. split; [eexists; split; [done|]; by left|]. by rewrite decide_True.
  - rewrite bind_assoc. ask_with Hask. rewrite Hb. destruct (to_blob q) as [|c bs] eqn:Ebs.
    + cbn. eexists _, w. split; [done|]. rewrite app_nil_r. split; [by apply reading_id|].
      split; [|done]. eexists _, _. split; [done|by left].
    + destruct (Z.ltb_spec 0 (Z.of_nat (length (c :: bs)))); [|cbn in *; lia].
      rewrite bind_assoc. ask_with Hask. rewrite Hbl, bind_assoc by done.
      destruct (dup_bytes_ok (Z.of_nat (length (c :: bs))) (c :: bs) w base ls) as (lo & w' & E & Hr & Hrd);
        [done..|]. run_with E. eexists _, w'. split; [done|].
      split; [done|]. split; [eexists _, _; split; [done|]; right; by eexists|].
      unfold resolve. cbn -[length read_bytes].
      change (Datatypes.S (length bs)) with (length (c :: bs)). rewrite Hrd.
      split_and!; try done. intros x [= <-]. by exists lo, (Z.of_nat (length (c :: bs))).
Qed.

(** *** One row *)

Definition row_types (ts : list corm_field_type) (row : list sqlite_value) : list corm_field_type :=
  zip_with (fun ty q => decide_type (class_of q) ty) ts row.

Definition row_ok (hp : gmap loc block) (ts : list corm_field_type) (row : list sqlite_value)
    (vs : list corm_value) : Prop := Forall3 (cell_ok hp) ts row vs.

Lemma cell_ok_mono hp hp' ty q v : heap_le hp hp' -> cell_ok hp ty q v -> cell_ok hp' ty q v.
Proof.
  intros Hle (Ht & Hn & Hr & Hc). split_and!; [done|done|by eapply resolve_mono|].
  intros x Hx. eapply carries_le; [by apply heap_le_data|auto].
Qed.

Lemma row_ok_mono hp hp' ts row vs : heap_le hp hp' -> row_ok hp ts row vs -> row_ok hp' ts row vs.
Proof. intros Hle Hr. induction Hr; constructor; [by eapply cell_ok_mono|done]. Qed.

Lemma read_row_ok t row i ts qs w base ls :
  plenty w -> heap_wf w -> heap_split (w_heap w) base ls -> on_row t row (p_env (w_db w)) ->
  (forall j q, qs !! j = Some q -> row !! (i + j)%nat = Some q) -> length qs = length ts ->
  Forall (fun ty => decided ty \/ ty = CORM_INT) ts ->
  exists vs w', read_row t (Z.of_nat i) ts w = Ret (vs, row_types ts qs) w' /\
    reading w w' base (ls ++ owned vs) /\ Forall param_wf vs /\
    row_ok (w_heap w') (row_types ts qs) qs vs.
Proof.
  intros Hp Hwf Hs Hrow. revert i qs w ls Hp Hwf Hs Hrow.
  induction ts as [|ty ts IH]; intros i qs w ls Hp Hwf Hs Hrow Hq Hlen Hts.
  - destruct qs; [|done]. exists [], w. rewrite app_nil_r. split; [done|].
    split; [by apply reading_id|]. split; constructor.
  - destruct qs as [|q qs]; [done|]. apply Forall_cons in Hts as [Hty Hts]. cbn [read_row].
    destruct (read_column_ok t i ty q row w base ls) as (v & w1 & E1 & R1 & Hv & Hok1); [try done..|].
    { rewrite <- (Nat.add_0_r i). by apply Hq. }
    run_with E1. replace (Z.of_nat i + 1) with (Z.of_nat (Datatypes.S i)) by lia.
    destruct R1 as [Hdb Hp1 Hwf1 Hle1 Hs1].
    destruct (IH (Datatypes.S i) qs w1 (ls ++ owned_of v)) as (vs & w2 & E2 & R2 & Hvs & Hok2);
      [try done..|].
    + by rewrite Hdb.
    + intros j q' Hj. rewrite Nat.add_succ_comm. by apply Hq.
    + by injection Hlen.
    + run_with E2. exists (v :: vs), w2. unfold row_types at 1. cbn [zip_with].
      pose proof Hok1 as (-> & _). split; [done|]. rewrite owned_cons, app_assoc.
      split; [eapply reading_trans; [by constructor|done]|].
      split; [by constructor|]. constructor; [|done]. by eapply cell_ok_mono, Hok1; apply R2.
Qed.

(** *** All rows *)

(** Stepping [t] from [l] delivers [rows], then the code [rc] and the state
    [l']. *)
Inductive delivers t : L -> list (list sqlite_value) -> Z -> L -> Prop :=
  | delivers_end (l : L) :
      (sqlite3_step t l).1 <> SQLITE_ROW ->
      delivers t l [] (sqlite3_step t l).1 (sqlite3_step t l).2
  | delivers_row (l : L) row rows rc (l' : L) :
      (sqlite3_step t l).1 = SQLITE_ROW -> on_row t row (sqlite3_step t l).2 ->
      delivers t (sqlite3_step t l).2 rows rc l' -> delivers t l (row :: rows) rc l'.

(** The types of the columns after [rows]. *)
Definition table_types (ts : list corm_field_type) (rows : list (list sqlite_value)) :
    list corm_field_type :=
  match rows with [] => ts | row :: _ => row_types ts row end.

Lemma row_types_decided ts row :
  Forall (fun ty => decided ty \/ ty = CORM_INT) ts -> Forall decided (row_types ts row).
Proof.
  intros Hts. unfold row_types. revert row. induction Hts as [|ty ts Hty Hts IH]; intros [|q row];
    constructor; [by apply decide_type_decided|apply IH].
Qed.

Lemma row_types_id ts row : Forall decided ts -> length row = length ts -> row_types ts row = ts.
Proof.
  intros Hts. unfold row_types. revert row. induction Hts as [|ty ts Hty Hts IH]; intros [|q row];
    try done. cbn. intros [= Hl]. by rewrite decide_type_id, IH.
Qed.

Lemma row_types_length ts row : length row = length ts -> length (row_types ts row) = length ts.
Proof. intros Hl. unfold row_types. rewrite length_zip_with. lia. Qed.

Lemma decided_or ts : Forall decided ts -> Forall (fun ty => decided ty \/ ty = CORM_INT) ts.
Proof. intros Hts. eapply Forall_impl; [exact Hts|]. auto. Qed.

Lemma on_stmt_ok {A} t (f : T -> L -> A * L) w :
  is_live t (p_env (w_db w)) ->
  on_stmt t f w = Ret (f t (p_env (w_db w))).1
                    (set_db (set_lib (f t (p_env (w_db w))).2 (w_db w)) w).
Proof.
  intros Hl. unfold on_stmt, on_live. unfold ask, get_db at 1, mbind, M_bind. cbn.
  rewrite live_law, bool_decide_true by done. rewrite lib_ok. by destruct w.
Qed.

(** The cells of the first [c] columns. *)
Definition cut (c : nat) (rows : list (list sqlite_value)) : list (list sqlite_value) := map (take c) rows.

Lemma cut_all c rows : Forall (fun row => length row = c) rows -> cut c rows = rows.
Proof.
  intros Hr. induction Hr as [|row rows Hrow _ IH]; [done|]. cbn. unfold cut in IH.
  by rewrite IH, take_ge by by rewrite Hrow.
Qed.

(** The rows may be wider than the types say: the rest is not read. *)
Lemma fetch_rows_ok t n c rows rc (l l' : L) fuel cap ts acc w base :
  delivers t l rows rc l' -> p_env (w_db w) = l -> is_live t l ->
  (length rows < fuel)%nat -> Z.of_nat (length acc + length rows) <= 2 ^ 30 ->
  length ts = c -> Forall (fun row => (c <= length row)%nat) rows -> 0 <= n ->
  Forall (fun ty => decided ty \/ ty = CORM_INT) ts ->
  plenty w -> heap_wf w -> heap_split (w_heap w) base (owned (concat acc)) ->
  Forall param_wf (concat acc) ->
  exists cells w', fetch_rows fuel t n cap ts acc w =
      Ret (Fetched rc (table_types ts (cut c rows)) (acc ++ cells)) w' /\
    w_db w' = set_lib l' (w_db w) /\ plenty w' /\ heap_wf w' /\ heap_le (w_heap w) (w_heap w') /\
    heap_split (w_heap w') base (owned (concat (acc ++ cells))) /\
    Forall param_wf (concat (acc ++ cells)) /\
    Forall2 (row_ok (w_heap w') (table_types ts (cut c rows))) (cut c rows) cells.
Proof.
  intros Hdel. revert fuel cap ts acc w.
  induction Hdel as [l Hend|l row rows rc l' Hrow Hon Hdel IH];
    intros fuel cap ts acc w Hl Hlive Hfuel Hcount Hc Hlen Hn Hts Hp Hwf Hs Hwfs;
    (destruct fuel as [|fuel]; [cbn in Hfuel; lia|]); cbn [fetch_rows];
    rewrite <- Hl in Hlive; pose proof (on_stmt_ok t sqlite3_step w Hlive) as Es;
    rewrite Hl in Es; run_with Es.
  - destruct (Z.eqb_spec (sqlite3_step t l).1 SQLITE_ROW) as [|_]; [done|].
    exists [], (set_db (set_lib (sqlite3_step t l).2 (w_db w)) w). rewrite app_nil_r.
    split_and!; first [done|apply heap_le_refl|constructor].
  - rewrite Hrow. rewrite Z.eqb_refl. set (w1 := set_db _ w).
    cbn [length] in Hcount, Hfuel.
    destruct (grow_array_ok cap (Z.of_nat (length acc)) w1) as [cap' Eg]; [done|lia|]. run_with Eg.
    unfold calloc_ok. destruct (Z.ltb_spec n 0); [lia|].
    run_with (malloc_ok_plenty w1 Hp).
    apply Forall_cons in Hlen as [Hlr Hlen]. set (qs := take c row).
    assert (Hqs : length qs = length ts) by (unfold qs; rewrite length_take; lia).
    destruct (read_row_ok t row 0 ts qs w1 base (owned (concat acc)))
      as (vs & w2 & E2 & R2 & Hvs & Hok); [done|done|done|done| |done|done|].
    { intros j q' Hj. by apply lookup_take_Some in Hj as [Hj _]. }
    change (Z.of_nat 0) with 0 in E2. run_with E2. destruct R2 as [Hdb2 Hp2 Hwf2 Hle2 Hs2].
    assert (Hdec2 : Forall decided (row_types ts qs)) by by apply row_types_decided.
    assert (Hlt : length (row_types ts qs) = length ts) by by apply row_types_length.
    assert (Hcat : concat (acc ++ [vs]) = concat acc ++ vs) by (rewrite concat_app; cbn; by rewrite app_nil_r).
    destruct (IH fuel cap' (row_types ts qs) (acc ++ [vs]) w2) as
      (cells & w3 & E3 & Hdb3 & Hp3 & Hwf3 & Hle3 & Hs3 & Hwfs3 & Hok3).
    + by rewrite Hdb2.
    + by apply on_row_live in Hon.
    + lia.
    + rewrite length_app. cbn [length]. lia.
    + by rewrite Hlt.
    + done.
    + done.
    + by apply decided_or.
    + done.
    + done.
    + unfold owned in *. by rewrite Hcat, map_app, concat_app.
    + rewrite Hcat. by apply Forall_app.
    + assert (Htt : table_types (row_types ts qs) (cut c rows) = row_types ts qs).
      { destruct rows as [|row' rows]; [done|]. cbn. apply row_types_id; [done|].
        apply Forall_cons in Hlen as [Hlr' _]. rewrite Hlt, length_take. lia. }
      rewrite Htt, <- app_assoc in *. change (table_types ts (cut c (row :: rows))) with (row_types ts qs). exists (vs :: cells), w3. split; [exact E3|].
      split; [by rewrite Hdb3, Hdb2|]. split; [done|]. split; [done|].
      split; [by eapply heap_le_trans|]. split; [done|]. split; [done|].
      constructor; [by eapply row_ok_mono|done].
Qed.

(** ** What the library delivers *)

(** The statement moved on; the others are as they were. *)
Definition moved t (p p' : prepared) (l l' : L) : Prop :=
  pr_sql p' = pr_sql p /\ stmts_of l' = <[t := p']> (stmts_of l).

Lemma moved_trans t p1 p2 p3 (l1 l2 l3 : L) :
  moved t p1 p2 l1 l2 -> moved t p2 p3 l2 l3 -> moved t p1 p3 l1 l3.
Proof. intros [H1 E1] [H2 E2]. split; [congruence|]. by rewrite E2, E1, insert_insert_eq. Qed.

(** The columns a statement of [p] has after a step in the database of [l]. *)
Definition columns_after (p : prepared) (l : L) (cols : list string) : Prop :=
  cols = pr_cols p \/
  stands_on_row p = false /\ compiles (db_of l) (pr_sql p) = true /\ cols = columns (db_of l) (pr_sql p).

(** Every live statement delivers finitely many rows, of the width of its
    result. *)
Lemma delivers_exists t p (l : L) :
  stmts_of l !! t = Some p ->
  exists rows rc l' p', delivers t l rows rc l' /\ moved t p p' l l' /\
    (length rows <= sqlite3_rows t l)%nat /\
    columns_after p l (pr_cols p') /\ Forall (fun row => length row = length (pr_cols p')) rows.
Proof.
  remember (sqlite3_rows t l) as n eqn:Hn. revert l p Hn.
  induction (lt_wf n) as [n _ IH]. intros l p Hn Hp.
  destruct (step_law t p l Hp) as (cols & cur & Hm & Hcols & Hrow).
  set (p1 := Prepared (pr_sql p) cols (pr_binds p) cur) in *.
  destruct (decide ((sqlite3_step t l).1 = SQLITE_ROW)) as [Hc|Hc].
  - destruct (Hrow Hc) as (Hlt & row & rest & rc & -> & Hw).
    assert (Hp1 : stmts_of (sqlite3_step t l).2 !! t = Some p1) by by rewrite Hm, lookup_insert_eq.
    destruct (IH _ ltac:(rewrite Hn; exact Hlt) (sqlite3_step t l).2 p1 eq_refl Hp1)
      as (rows & rc' & l' & p' & Hd & Hmv & Hle & Hca & Hws).
    assert (Hp' : pr_cols p' = cols) by (by destruct Hca as [?|[? _]]).
    exists (row :: rows), rc', l', p'. split; [|split; [|split; [|split]]].
    + constructor; [done| |done]. by exists p1, rest, rc.
    + by eapply (moved_trans t p p1).
    + cbn. lia.
    + by rewrite Hp'.
    + constructor; [by rewrite Hp'|done].
  - exists [], (sqlite3_step t l).1, (sqlite3_step t l).2, p1. split; [by constructor|].
    split; [done|]. split; [cbn; lia|]. split; [exact Hcols|constructor].
Qed.

Lemma delivers_det t (l : L) rows rc l' rows2 rc2 l2 :
  delivers t l rows rc l' -> delivers t l rows2 rc2 l2 -> rows2 = rows /\ rc2 = rc /\ l2 = l'.
Proof.
  intros H1. revert rows2 rc2 l2. induction H1 as [l Hc|l row rows rc l' Hc Hon H1 IH];
    intros rows2 rc2 l2 H2; inversion H2; subst; try done.
  match goal with Hd : delivers t _ _ rc2 l2 |- _ => destruct (IH _ _ _ Hd) as (-> & -> & ->) end.
  match goal with Hr : on_row t ?r _ |- (?r' :: _ = _ :: _) /\ _ =>
    destruct Hon as (p1 & ? & ? & E1 & E1'), Hr as (p2 & ? & ? & E2 & E2') end.
  rewrite E1 in E2. injection E2 as <-. rewrite E1' in E2'. by simplify_eq.
Qed.

(** A statement on a row delivers the rest, the others being quiet. *)
Lemma delivers_rest t p row rest rc (l : L) :
  stmts_of l !! t = Some p -> pr_cur p = OnRow row rest rc -> rc <> SQLITE_ROW ->
  quiet_but (stmts_of l) t ->
  exists l', delivers t l rest rc l' /\ db_of l' = db_of l /\
    moved t p (Prepared (pr_sql p) (pr_cols p) (pr_binds p) Finished) l l'.
Proof.
  revert l p row. induction rest as [|row' rest IH]; intros l p row Hp Hc Hrc Hq;
    destruct (step_next t p row _ rc l Hp Hc Hq) as (Hcode & Hdb & Hm); cbn in *.
  - exists (sqlite3_step t l).2. rewrite <- Hcode in *. split; [by constructor|]. split; [done|].
    by split.
  - set (p1 := Prepared (pr_sql p) (pr_cols p) (pr_binds p) (OnRow row' rest rc)) in *.
    assert (Hp1 : stmts_of (sqlite3_step t l).2 !! t = Some p1) by by rewrite Hm, lookup_insert_eq.
    destruct (IH (sqlite3_step t l).2 p1 row' Hp1 eq_refl Hrc) as (l' & Hd & Hdb' & Hmv).
    { rewrite Hm. by apply quiet_but_update. }
    exists l'. split; [|split; [congruence|by eapply (moved_trans t p p1)]].
    constructor; [done| |done]. by exists p1, rest, rc.
Qed.

(** The columns for which a statement is executed in [k]. *)
Definition run_columns k (p : prepared) : list string :=
  if compiles k (pr_sql p) then columns k (pr_sql p) else pr_cols p.

(** A fresh statement delivers the rows of its meaning. *)
Lemma delivers_sem t p (l : L) :
  stmts_of l !! t = Some p -> pr_cur p = Ready -> quiet_but (stmts_of l) t ->
  let '(rows, rc, k) := sem (db_of l) (pr_sql p) (pr_binds p) in
  exists l', delivers t l rows rc l' /\ db_of l' = k /\
    moved t p (Prepared (pr_sql p) (run_columns (db_of l) p) (pr_binds p) Finished) l l'.
Proof.
  intros Hp Hc Hq. pose proof (step_first t p l Hp Hc Hq) as Hf.
  pose proof (sem_code (db_of l) (pr_sql p) (pr_binds p)) as Hrc.
  destruct (sem (db_of l) (pr_sql p) (pr_binds p)) as [[rows rc] k]. cbn in Hrc.
  destruct Hf as (Hcode & Hdb & Hm). destruct rows as [|row rest]; cbn in *.
  - exists (sqlite3_step t l).2. rewrite <- Hcode in *. split; [by constructor|]. split; [done|].
    by split.
  - set (p1 := Prepared (pr_sql p) _ (pr_binds p) (OnRow row rest rc)) in *.
    assert (Hp1 : stmts_of (sqlite3_step t l).2 !! t = Some p1) by by rewrite Hm, lookup_insert_eq.
    destruct (delivers_rest t p1 row rest rc _ Hp1 eq_refl Hrc) as (l' & Hd & Hdb' & Hmv).
    { rewrite Hm. by apply quiet_but_update. }
    exists l'. split; [|split; [congruence|by eapply (moved_trans t p p1)]].
    constructor; [done| |done]. by exists p1, rest, rc.
Qed.

(** ** The result object *)

Lemma column_names_ok t names i n w :
  plenty w -> is_live t (p_env (w_db w)) ->
  (forall i name, names !! i = Some name ->
     sqlite3_column_name t (Z.of_nat i) (p_env (w_db w)) = Some name) ->
  (i + n <= length names)%nat ->
  column_names t (Z.of_nat i) n w = Ret (map Some (take n (drop i names))) w.
Proof.
  intros Hp Hl Hn. revert i. induction n as [|n IH]; intros i Hi; [done|]. cbn [column_names].
  destruct (lookup_lt_is_Some_2 names i) as [name Hname]; [lia|].
  rewrite (bind_Ret _ _ _ _ _ (ask_stmt_ok t _ w Hl)), (Hn i name Hname). run.
  unfold copy_text. rewrite bind_assoc. run_with (malloc_ok_plenty w Hp).
  replace (Z.of_nat i + 1) with (Z.of_nat (Datatypes.S i)) by lia. run_with (IH (Datatypes.S i) ltac:(lia)).
  by rewrite (drop_S _ _ _ Hname).
Qed.

Lemma result_new_eq n w :
  plenty w -> 0 <= n ->
  corm_result_new n 0 w = Ret (Some (w_next w)) (World [] (<[w_next w :=
    BResult (Result n (replicate (Z.to_nat n) None) (replicate (Z.to_nat n) CORM_INT) [] 0 (-1) 1)]>
    (w_heap w)) (Pos.succ (w_next w)) (w_db w)).
Proof.
  intros Hp Hn. destruct w as [o hp nx d]. unfold plenty in Hp. cbn in Hp. subst o.
  unfold corm_result_new, calloc_ok. destruct (Z.ltb_spec n 0); [lia|]. reflexivity.
Qed.

(** [res] holds [rows] under [names]. *)
Record table_ok (hp : gmap loc block) (names : list string) (rows : list (list sqlite_value))
    (res : corm_result) : Prop := {
  tb_count : r_column_count res = Z.of_nat (length names);
  tb_names : r_column_names res = map Some names;
  tb_types : r_column_types res = table_types (replicate (length names) CORM_INT) rows;
  tb_rows : Forall2 (row_ok hp (r_column_types res)) rows (r_rows res);
  tb_start : r_current_row res = -1 /\ r_refcount res = 1
}.

Lemma row_ok_length hp ts row vs : row_ok hp ts row vs -> length vs = length ts.
Proof. unfold row_ok. intros Hr. induction Hr; cbn; congruence. Qed.

Lemma build_result_ok t names rows cells w base :
  plenty w -> heap_wf w -> is_live t (p_env (w_db w)) ->
  (forall i name, names !! i = Some name ->
     sqlite3_column_name t (Z.of_nat i) (p_env (w_db w)) = Some name) ->
  heap_split (w_heap w) base (owned (concat cells)) -> Forall param_wf (concat cells) ->
  let ts := table_types (replicate (length names) CORM_INT) rows in
  length ts = length names -> Z.of_nat (length rows) < 2 ^ 31 ->
  Forall2 (row_ok (w_heap w) ts) rows cells ->
  exists l res w', build_result t (Z.of_nat (length names)) ts cells w = Ret (Some l) w' /\
    result_at w' l res base /\ table_ok (w_heap w') names rows res /\
    w_db w' = w_db w /\ plenty w' /\ heap_wf w' /\ heap_le (w_heap w) (w_heap w').
Proof.
  intros Hp Hwf Hl Hn Hs Hcw ts Hts Hlen Hrows. unfold build_result.
  rewrite (bind_Ret _ _ _ _ _ (result_new_eq (Z.of_nat (length names)) w Hp ltac:(lia))).
  rewrite Nat2Z.id. set (r0 := BResult _). set (nx := w_next w).
  pose proof (heap_wf_fresh w Hwf) as Hfr. fold nx in Hfr.
  set (w1 := World [] _ _ _).
  assert (Eg : get_result (Some nx) w1 = Ret (Result (Z.of_nat (length names))
    (replicate (length names) None) (replicate (length names) CORM_INT) [] 0 (-1) 1) w1).
  { unfold get_result, load, mbind, M_bind. cbn. by rewrite lookup_insert_eq. }
  run_with Eg. change 0 with (Z.of_nat 0) at 1.
  run_with (column_names_ok t names 0 (length names) w1 eq_refl Hl Hn ltac:(lia)).
  rewrite drop_0, firstn_all. set (res := Result _ _ _ _ _ _ _).
  assert (Ep : put_result (Some nx) res w1 =
    Ret tt (World [] (<[nx := BResult res]> (w_heap w)) (Pos.succ nx) (w_db w))).
  { unfold put_result, store, mbind, M_bind. cbn. rewrite lookup_insert_eq.
    unfold set_heap. cbn. by rewrite insert_insert_eq. }
  run_with Ep. eexists nx, res, _. split; [done|]. cbn -[row_blocks].
  assert (Hle : heap_le (w_heap w) (<[nx := BResult res]> (w_heap w))).
  { intros a b Ha. rewrite lookup_insert_ne; [done|]. intros <-. congruence. }
  pose proof (Forall2_length _ _ _ Hrows) as Hlr. split; [|split; [|split_and!; try done]].
  - constructor; cbn; [by rewrite lookup_insert_eq|by apply heap_split_new|done|].
    constructor; cbn; rewrite ?length_map; try lia.
    rewrite Forall_lookup. intros i vs Hi.
    destruct (Forall2_lookup_r _ _ _ _ _ Hrows Hi) as (row & _ & Hok).
    apply row_ok_length in Hok. lia.
  - constructor; try done. cbn. eapply Forall2_impl; [done|]. intros row vs. by apply row_ok_mono.
  - intros a Ha. cbn in *. destruct (decide (a = nx)) as [->|Hne]; [lia|].
    rewrite lookup_insert_ne in Ha by done. specialize (Hwf a Ha). fold nx in Hwf. lia.
Qed.

(** ** The whole query *)

(** Executing a query directly: its rows, [None] for an error, and the
    database. *)
Definition direct_query k (sql : string) (qs : list sqlite_value) :
    option (list (list sqlite_value)) * K :=
  if compiles k sql then
    let '(rows, rc, k') := sem k sql (bind_all 0 qs ∅) in
    (if rc =? SQLITE_DONE then Some rows else None, k')
  else (None, k).

(** What the caller gets. *)
Definition query_post w (names : list string) (o : option (list (list sqlite_value)))
    (e : corm_err) (out : option loc) w' : Prop :=
  match o with
  | None => e = CORM_ERR_BACKEND /\ out = None
  | Some rows => e = CORM_OK /\ exists lo res,
      out = Some lo /\ result_at w' lo res (w_heap w) /\ table_ok (w_heap w') names rows res
  end.

Lemma idle_after Φ (tg q : bool) h k t (p p' : prepared) (l l' : L) d :
  working Φ tg q h k t p d -> p_env d = l -> moved t p p' l l' -> Φ (pr_sql p) (pr_cols p') ->
  (q = true -> stands_on_row p' = false) -> idle Φ tg q h (db_of l') (set_lib l' d).
Proof.
  intros (sc & m & (l0 & (c & Hc & Hcn & Hsc & Hl0) & _ & Hm) & Hok & HΦ & Ht & Hq & Htg) Hl [Hs Hm'] Hcols Hp'.
  subst l l0. rewrite Hm in Hm'. exists sc, (<[t := p']> m). split.
  { exists l'. split; [by exists c|]. by split. }
  split; [by eapply cache_ok_update|]. split; [apply map_Forall_insert_2; [by rewrite Hs|done]|]. split.
  - intros Hqt t' p1 Hl1. destruct (decide (t' = t)) as [->|Hne].
    + rewrite lookup_insert_eq in Hl1. injection Hl1 as <-. by apply Hp'.
    + rewrite lookup_insert_ne in Hl1 by done. by apply (Hq Hqt t').
  - intros Htt. destruct (Htg Htt). split; [done|]. by eapply no_stray_update.
Qed.

(** What a working statement delivers, and means when the others are quiet. *)
Lemma working_delivers Φ (tg q : bool) h k t (p : prepared) d :
  may_compile Φ k (pr_sql p) -> working Φ tg q h k t p d -> pr_cur p = Ready ->
  exists rows rc l' p', delivers t (p_env d) rows rc l' /\
    (length rows <= sqlite3_rows t (p_env d))%nat /\ stmts_of l' !! t = Some p' /\
    Forall (fun row => length row = length (pr_cols p')) rows /\
    (pr_cols p' = pr_cols p \/ compiles k (pr_sql p) = true /\ pr_cols p' = columns k (pr_sql p)) /\
    idle Φ tg q h (db_of l') (set_lib l' d) /\ is_live t l' /\
    (q = true -> sem k (pr_sql p) (pr_binds p) = (rows, rc, db_of l') /\ pr_cols p' = run_columns k p).
Proof.
  intros Hmay Hw Hr. pose proof Hw as (sc & m & (l & (c & _ & _ & _ & Hl) & Hk & Hm) & _ & HΦ & Ht & Hq & _).
  subst l. assert (Hp : stmts_of (p_env d) !! t = Some p) by by rewrite Hm.
  destruct (delivers_exists t p (p_env d) Hp) as (rows & rc & l' & p' & Hd & Hmv & Hle & Hca & Hws).
  unfold columns_after in Hca. rewrite Hk in Hca.
  exists rows, rc, l', p'. split; [done|]. split; [done|].
  assert (Hsem : q = true -> (sem k (pr_sql p) (pr_binds p) = (rows, rc, db_of l') /\
    pr_cols p' = run_columns k p) /\ stands_on_row p' = false).
  { intros Hqt. pose proof (delivers_sem t p (p_env d) Hp Hr) as Hs. rewrite Hm, Hk in Hs.
    specialize (Hs (Hq Hqt)). destruct (sem k (pr_sql p) (pr_binds p)) as [[rows2 rc2] k2].
    destruct Hs as (l2 & Hd2 & Hdb & [_ Hm2]).
    destruct (delivers_det _ _ _ _ _ _ _ _ Hd Hd2) as (-> & -> & ->). rewrite Hdb.
    destruct Hmv as [_ Hm1]. rewrite Hm1 in Hm2. apply (f_equal (lookup t)) in Hm2.
    rewrite !lookup_insert_eq in Hm2. by injection Hm2 as ->. }
  assert (Hc' : Φ (pr_sql p) (pr_cols p')).
  { destruct Hca as [->|(_ & Hcomp & ->)]; [exact (HΦ t p Ht)|by apply Hmay]. }
  assert (Hidle : idle Φ tg q h (db_of l') (set_lib l' d)).
  { eapply idle_after; [done|done|done|done|]. intros Hqt. by apply Hsem. }
  destruct Hmv as [Hs Hm']. unfold is_live. rewrite Hm', lookup_insert_eq.
  split; [done|]. split; [done|]. split; [by destruct Hca as [?|(? & ? & ?)]; auto|].
  split; [done|]. split; [by eexists|]. intros Hqt. by apply Hsem.
Qed.

(** Results are not gigantic. *)
Context (Hsize : forall t (l : L), Z.of_nat (sqlite3_rows t l) < 2 ^ 30).

Lemma table_types_length (names : list string) rows :
  Forall (fun row => length row = length names) rows ->
  length (table_types (replicate (length names) CORM_INT) rows) = length names.
Proof.
  intros Hr. destruct Hr as [|row rows Hrow _]; cbn; [by rewrite length_replicate|].
  rewrite row_types_length; rewrite length_replicate; done.
Qed.

(** What the library delivers is collected, or its error reported.  The object has
    the columns that the statement had when it was asked for their number. *)
Lemma read_result_ok Φ sql cols0 handle (tg q : bool) h k t (b : gmap Z sqlite_value) w :
  may_compile Φ k sql ->
  (compiles k sql = true -> (length cols0 <= length (columns k sql))%nat) ->
  plenty w -> heap_wf w -> working Φ tg q h k t (Prepared sql cols0 b Ready) (w_db w) ->
  exists e out o cols k' w', read_result sql handle t w = Ret (e, out) w' /\
    plenty w' /\ heap_wf w' /\ heap_le (w_heap w) (w_heap w') /\ idle Φ tg q h k' (w_db w') /\
    query_post w (take (length cols0) cols) (cut (length cols0) <$> o) e out w' /\
    (cols = cols0 \/ compiles k sql = true /\ cols = columns k sql) /\
    (forall rows, o = Some rows -> Forall (fun row => length row = length cols) rows) /\
    (q = true -> cols = run_columns k (Prepared sql cols0 b Ready) /\
       let '(rows, rc, k2) := sem k sql b in
       o = (if rc =? SQLITE_DONE then Some rows else None) /\ k' = k2 /\
       (rows = [] -> o = None -> w_heap w' = w_heap w)).
Proof.
  intros Hmay Hwide Hp Hwf Hw. pose proof Hw as (sc & m & (l & (c & _ & _ & _ & <-) & _ & Hm) & _ & _ & Ht & _).
  set (l := p_env (w_db w)) in *. assert (Hpt : stmts_of l !! t = Some (Prepared sql cols0 b Ready)) by congruence.
  assert (Hl : is_live t l) by (unfold is_live; by rewrite Hpt).
  destruct (working_delivers Φ _ _ _ _ _ (Prepared sql cols0 b Ready) _ Hmay Hw eq_refl)
    as (rows & rc & l' & p' & Hd & Hle & Hp' & Hws & Hca & Hidle & Hl' & Hsem). fold l in Hd, Hle.
  cbn [pr_sql pr_binds pr_cols] in Hca, Hsem. set (cols := pr_cols p') in *. set (n := length cols0) in *.
  assert (Hn : (n <= length cols)%nat) by (destruct Hca as [->|[Hc ->]]; [done|by apply Hwide]).
  pose proof (count_law t _ l Hpt) as Hcount. cbn [pr_cols] in Hcount. fold n in Hcount.
  pose proof (Hsize t l) as Hsz.
  unfold read_result. rewrite (bind_Ret _ _ _ _ _ (ask_stmt_ok t _ w Hl)). fold l. rewrite Hcount.
  rewrite (bind_Ret _ _ _ _ _ (malloc_ok_plenty w Hp)). unfold calloc_ok.
  destruct (Z.ltb_spec (Z.of_nat n) 0); [lia|].
  rewrite (bind_Ret _ _ _ _ _ (malloc_ok_plenty w Hp)). cbn [negb orb].
  assert (Ea : ask (sqlite3_rows t) w = Ret (sqlite3_rows t l) w) by done.
  rewrite (bind_Ret _ _ _ _ _ Ea). cbv beta.
  rewrite Nat2Z.id.
  destruct (fetch_rows_ok t (Z.of_nat n) n rows rc l l' (Datatypes.S (sqlite3_rows t l)) 16
    (replicate n CORM_INT) [] w (w_heap w)) as
    (cells & w1 & E1 & Hdb1 & Hp1 & Hwf1 & Hle1 & Hs1 & Hc1 & Hok1); try done; try (cbn; lia).
  { apply length_replicate. }
  { eapply Forall_impl; [exact Hws|]. intros row Hrow. cbn in Hrow |- *. by rewrite Hrow. }
  { apply Forall_replicate. by right. }
  { split; [apply NoDup_nil_2|]. split; [by intros ? ?%not_elem_of_nil|].
    intros a. by rewrite decide_False by apply not_elem_of_nil. }
  run_with E1. cbn [app] in *. rewrite <- Hdb1 in Hidle.
  assert (Hws2 : forall rs, Some rows = Some rs -> Forall (fun row => length row = length cols) rs)
    by by intros rs [= <-].
  destruct (Z.eqb_spec rc SQLITE_DONE) as [->|Hrc]; cbn [negb].
  - assert (Hl1 : is_live t (p_env (w_db w1))) by by rewrite Hdb1.
    assert (Hn1 : forall i name, take n cols !! i = Some name ->
      sqlite3_column_name t (Z.of_nat i) (p_env (w_db w1)) = Some name).
    { rewrite Hdb1. intros i name [Hi _]%lookup_take_Some. cbn. by rewrite (name_law t p' l' Hp'). }
    assert (Hlen : length (take n cols) = n) by (rewrite length_take; lia).
    assert (Hcr : Forall (fun row => length row = length (take n cols)) (cut n rows)).
    { apply Forall_fmap. eapply Forall_impl; [exact Hws|]. intros row Hrow. cbn in Hrow |- *. by rewrite !length_take, Hrow. }
    assert (Hct : length (table_types (replicate (length (take n cols)) CORM_INT) (cut n rows)) =
      length (take n cols)) by by apply table_types_length.
    destruct (build_result_ok t (take n cols) (cut n rows) cells w1 (w_heap w) Hp1 Hwf1 Hl1 Hn1 Hs1 Hc1) as
      (lo & res & w2 & E2 & Hra & Htb & Hdb2 & Hp2 & Hwf2 & Hle2);
      [exact Hct|unfold cut; rewrite length_map; lia|by rewrite Hlen|].
    rewrite Hlen in E2. run_with E2.
    exists CORM_OK, (Some lo), (Some rows), cols, (db_of l'), w2.
    split_and!; try done; [by eapply heap_le_trans|by rewrite Hdb2|split; [done|by exists lo, res]|].
    intros Hq. destruct (Hsem Hq) as [-> Hrun]. by rewrite Hrun.
  - destruct (triple_run _ _ _ w1 (triple_cleanup Φ true tg sql h (db_of l') q) Hp1 Hidle)
      as (u & d2 & E2 & Hd2). run_with E2.
    destruct (triple_run _ _ _ (set_db d2 w1) (idle_lib_error Φ true tg handle h (db_of l') q) Hp1 Hd2)
      as (u' & d3 & E3 & Hd3). run_with E3.
    eexists _, _, None, cols, (db_of l'), _. split; [done|]. split_and!; try done.
    intros Hq. destruct (Hsem Hq) as [-> Hrun]. split; [done|]. destruct (Z.eqb_spec rc SQLITE_DONE); [done|].
    split_and!; [done|done|]. intros -> _. apply Forall2_nil_inv_l in Hok1 as ->.
    by apply heap_split_nil.
Qed.

Lemma get_conn_ok w c : p_db (w_db w) = Some c -> get_conn w = Ret (c_conn c) w.
Proof. intros Hc. unfold get_conn. by run_with (get_corm_ok w c Hc). Qed.

(** The whole query.  Its columns are counted before the first step, which may
    compile a cached statement again: then the object has the first columns of the
    new ones. *)
Lemma query_ok Φ sql ps xs (tg q : bool) h k w :
  may_compile Φ k sql ->
  (compiles k sql = true -> (length (stmt_columns sql (w_db w)) <= length (columns k sql))%nat) ->
  plenty w -> heap_wf w -> idle Φ tg q h k (w_db w) ->
  Forall2 (fun v x => resolve (w_heap w) v = Some x) ps xs -> Forall int_sized xs ->
  let n := length (stmt_columns sql (w_db w)) in
  exists e out o cols k' w', sqlite_query sql ps w = Ret (e, out) w' /\
    plenty w' /\ heap_wf w' /\ heap_le (w_heap w) (w_heap w') /\ idle Φ tg q h k' (w_db w') /\
    query_post w (take n cols) (cut n <$> o) e out w' /\
    (cols = stmt_columns sql (w_db w) \/ compiles k sql = true /\ cols = columns k sql) /\
    (forall rows, o = Some rows -> Forall (fun row => length row = length cols) rows) /\
    (q = true -> (o, k') = direct_query k sql (map to_sqlite xs) /\
       (is_Some o -> compiles k sql = true /\ cols = columns k sql) /\
       ((sem k sql (bind_all 0 (map to_sqlite xs) ∅)).1.1 = [] -> o = None -> w_heap w' = w_heap w)).
Proof.
  intros Hmay Hwide Hp Hwf Hi Hr Hsz n. unfold sqlite_query.
  pose proof Hi as (sc & m & (l & (c & Hc & Hcn & _) & _) & _).
  rewrite (bind_Ret _ _ _ _ _ (get_conn_ok w c Hc)), Hcn.
  destruct (triple_run _ _ _ w (triple_get_columns Φ true tg (fun _ => eq_refl) sql
    (stmt_columns sql (w_db w)) h k q Hmay) Hp (conj eq_refl Hi)) as (r & d2 & E2 & Hr2).
  run_with E2. destruct r as [t|].
  - unfold sqlite_bind_params.
    pose proof (bind_from_values t 0 ps xs (set_db d2 w) Hr Hsz) as Eb.
    destruct (triple_run _ _ _ (set_db d2 w) (triple_bind_values Φ true tg t 0
      (map to_sqlite xs) sql (stmt_columns sql (w_db w)) ∅ h k q) Hp Hr2) as (u & d3 & E3 & Hd3).
    rewrite <- Eb in E3. run_with E3.
    destruct (read_result_ok Φ sql _ (Some h) tg q h k t (bind_all 0 (map to_sqlite xs) ∅)
      (set_db d3 (set_db d2 w)) Hmay Hwide Hp Hwf Hd3)
      as (e & out & o & cols & k' & w' & E & Hp' & Hwf' & Hle & Hi' & Hpost & Hca & Hws & Hq).
    exists e, out, o, cols, k', w'. split; [done|]. split_and!; try done. intros Hqt.
    destruct (Hq Hqt) as [Hrun Hsem]. unfold direct_query, run_columns in *. cbn [pr_sql pr_cols] in Hrun.
    destruct (compiles k sql) eqn:Ec.
    + destruct (sem k sql _) as [[rows rc] k2]. by destruct Hsem as (-> & -> & Hh).
    + destruct (sem_not_compiling k sql (bind_all 0 (map to_sqlite xs) ∅) Ec) as (rc & Es & Hrc).
      rewrite Es in Hsem |- *. destruct Hsem as (-> & -> & Hh).
      destruct (Z.eqb_spec rc SQLITE_DONE); [done|]. split; [done|]. split; [by intros [? ?]|done].
  - destruct Hr2 as [Hcomp Hi2]. eexists _, _, None, (stmt_columns sql (w_db w)), k, _. split; [done|].
    split_and!; first [done|apply heap_le_refl|by left|idtac].
    intros _. unfold direct_query. rewrite Hcomp. split; [done|]. split; [by intros [? ?]|done].
Qed.

(** The cached statement, if there is one, was compiled for the columns the text
    has now. *)
Lemma query_current Φ sql ps xs (tg : bool) h k w :
  may_compile Φ k sql -> (compiles k sql = true -> stmt_columns sql (w_db w) = columns k sql) ->
  plenty w -> heap_wf w -> idle Φ tg true h k (w_db w) ->
  Forall2 (fun v x => resolve (w_heap w) v = Some x) ps xs -> Forall int_sized xs ->
  let o := (direct_query k sql (map to_sqlite xs)).1 in
  exists e out w', sqlite_query sql ps w = Ret (e, out) w' /\
    plenty w' /\ heap_wf w' /\ heap_le (w_heap w) (w_heap w') /\
    idle Φ tg true h (direct_query k sql (map to_sqlite xs)).2 (w_db w') /\
    query_post w (columns k sql) o e out w' /\
    (is_Some o -> compiles k sql = true) /\
    ((sem k sql (bind_all 0 (map to_sqlite xs) ∅)).1.1 = [] -> o = None -> w_heap w' = w_heap w).
Proof.
  intros Hmay Hcur Hp Hwf Hi Hr Hsz o.
  destruct (query_ok Φ sql ps xs tg true h k w Hmay ltac:(intros Hc; by rewrite Hcur) Hp Hwf Hi Hr Hsz)
    as (e & out & o' & cols & k' & w' & E & Hp' & Hwf' & Hle & Hi' & Hpost & _ & Hws & Hq).
  destruct (Hq eq_refl) as (Ho & Hcols & Hclean). unfold o. rewrite <- Ho.
  exists e, out, w'. split_and!; try done; [|by intros Hs; apply Hcols]. cbn [fst]. destruct o' as [rows|]; [|done].
  destruct (Hcols ltac:(by eexists)) as [Hc ->]. cbn [fmap option_fmap option_map] in Hpost.
  rewrite (Hcur Hc), firstn_all, cut_all in Hpost by by apply Hws. done.
Qed.

(** *** Types *)

Lemma cell_value_type ty q : decided ty -> has_type ty (cell_value ty q).
Proof.
  intros [->|[->|[->| ->]]]; destruct q; cbn; try done.
  all: first [by case_match | by destruct (to_blob _)].
Qed.

Lemma row_ok_typed hp ts row vs :
  row_ok hp ts row vs -> Forall decided ts ->
  Forall2 (fun ty v => v_type v = ty /\ exists x, resolve hp v = Some x /\ has_type ty x) ts vs.
Proof.
  unfold row_ok. intros Hr. induction Hr as [|ty q v ts row vs (Ht & _ & Hx & _) Hr IH]; [constructor|].
  intros [Hd Hds]%Forall_cons. constructor; [|by apply IH]. split; [done|].
  eexists. split; [exact Hx|]. by apply cell_value_type.
Qed.

Lemma table_typed hp names rows res : table_ok hp names rows res -> typed_result hp res.
Proof.
  intros [_ _ Hts Hrows _]. unfold typed_result. destruct rows as [|row rows].
  { apply Forall2_nil_inv_l in Hrows as ->. constructor. }
  assert (Hd : Forall decided (r_column_types res)).
  { rewrite Hts. apply row_types_decided. apply Forall_replicate. by right. }
  apply Forall_lookup. intros i vs Hi. destruct (Forall2_lookup_r _ _ _ _ _ Hrows Hi) as (r & _ & Hok).
  by eapply row_ok_typed.
Qed.
End query.
