(* ===== verification/SqliteDescribe.v ===== *)
(** * Describing a table on SQLite

    [sqlite_describe_table] turns the rows of [PRAGMA table_info] into an array
    of columns that the caller owns, and finalizes its statement, which does not
    go through the cache. *)

From S2P Require Import Prelude Types Mem Strbuf Dialect Hash Model Backend Query Builder.
From S2P Require Import BuilderSpec QuerySpec Columns Tx Driver Result ResultSpec Core CoreProps.
From S2P Require Import StmtCache DriverState DriverSpec Reading Describe Handles Sqlite SqliteSpec.
From S2P Require Import SqliteExec SqliteQuery.

(** The statement for the quoted name of a table. *)
Definition pragma (qtable : string) : string := "PRAGMA table_info(" +:+ (qtable +:+ ")").

Section describe.
Context {D T X L K : Type} `{Countable T} `{!Sqlite3 D T L} `{!SqliteSpec D T L K}.
#[local] Abbreviation S := (proc D (stmts T) X L).
Implicit Types (w : world S) (d : S) (k : K) (h : D) (t : T) (q : sqlite_value).

(** The row describes the column [name]. *)
Definition row_names (row : list sqlite_value) (name : string) : Prop :=
  exists q, row !! 1%nat = Some q /\ to_text q = Some name.

(** ** One row *)

Lemma describe_row_ok t row name w base ls :
  plenty w -> heap_wf w -> heap_split (w_heap w) base ls ->
  on_row t row (p_env (w_db w)) -> row_names row name ->
  exists c w', Sqlite.describe_row t w = Ret c w' /\ reading w w' base (ls ++ column_blocks c) /\
    column_wf c /\ read_cstr (w_heap w') (ci_name c) = Some name.
Proof.
  intros Hp Hwf Hs Hrow (q & Hq & Hname). pose proof (on_row_live _ _ _ Hrow) as Hl.
  destruct Hrow as (p & rest & rc & Hpl & Hpc).
  destruct (cell_law t p row rest rc 1 q _ Hpl Hpc Hq) as (_ & _ & _ & Hx & _).
  rewrite Hname in Hx. change (Z.of_nat 1) with 1 in Hx. unfold Sqlite.describe_row.
  rewrite (bind_Ret _ _ _ _ _ (ask_stmt_ok t _ w Hl)), (bind_Ret _ _ _ _ _ (ask_stmt_ok t _ w Hl)), Hx.
  destruct (dup_column_text (Some name) w base ls Hp Hwf Hs) as (p1 & w1 & E1 & R1 & O1 & N1).
  rewrite (bind_Ret _ _ _ _ _ E1). pose proof R1 as [Db1 Hp1 Hwf1 _ Hs1].
  destruct (dup_column_text (sqlite3_column_text t 2 (p_env (w_db w))) w1 base _ Hp1 Hwf1 Hs1)
    as (p2 & w2 & E2 & R2 & O2 & _). rewrite (bind_Ret _ _ _ _ _ E2).
  pose proof R2 as [Db2 Hp2 Hwf2 Hle2 Hs2]. rewrite Db1 in Db2.
  assert (Hl2 : is_live t (p_env (w_db w2))) by by rewrite Db2.
  rewrite !(bind_Ret _ _ _ _ _ (ask_stmt_ok t _ w2 Hl2)).
  destruct (dup_column_text (sqlite3_column_text t 4 (p_env (w_db w2))) w2 base _ Hp2 Hwf2 Hs2)
    as (p3 & w3 & E3 & R3 & O3 & _). rewrite (bind_Ret _ _ _ _ _ E3).
  eexists _, w3. split; [done|]. split; [|split].
  - unfold column_blocks. cbn [column_ptrs map concat ci_name ci_type_name ci_default_value].
    rewrite app_nil_r, !app_assoc. by eapply reading_trans, R3; eapply reading_trans, R2.
  - constructor; [done|constructor; [done|constructor; [done|constructor]]].
  - cbn [ci_name]. cbn [opt_cstr] in N1. eapply read_cstr_mono; [|exact N1].
    eapply heap_le_trans; [exact Hle2|apply R3].
Qed.

(** ** All rows *)

Lemma describe_rows_ok t rows rc (l l' : L) names fuel cap arr cols done w base :
  delivers t l rows rc l' -> p_env (w_db w) = l -> is_live t l -> Forall2 row_names rows names ->
  (length rows < fuel)%nat -> Z.of_nat (length cols + length rows) < 2 ^ 30 ->
  describing w arr cols base -> columns_named (w_heap w) cols done ->
  exists arr' cols' w',
    Sqlite.describe_rows fuel t arr cap (Z.of_nat (length cols)) w =
      Ret (Some (arr', Z.of_nat (length cols'))) w' /\
    w_db w' = set_lib l' (w_db w) /\ describing w' arr' cols' base /\
    columns_named (w_heap w') cols' (done ++ names).
Proof.
  intros Hdel. revert names fuel cap arr cols done w.
  induction Hdel as [l Hend|l row rows rc l' Hrow Hon Hdel IH];
    intros names fuel cap arr cols done w Hl Hlive Hnames Hfuel Hlen Hd Hn;
    (destruct fuel as [|fuel]; [cbn in Hfuel; lia|]); cbn [Sqlite.describe_rows];
    rewrite <- Hl in Hlive; pose proof (on_stmt_ok t sqlite3_step w Hlive) as Es;
    rewrite Hl in Es; rewrite (bind_Ret _ _ _ _ _ Es); clear Es.
  - apply Forall2_nil_inv_l in Hnames as ->. rewrite app_nil_r.
    destruct (Z.eqb_spec (sqlite3_step t l).1 SQLITE_ROW) as [|_]; [congruence|].
    eexists arr, cols, _. split; [reflexivity|]. split; [reflexivity|]. by destruct Hd.
  - rewrite Hrow, Z.eqb_refl. set (w1 := set_db _ w).
    assert (Hd1 : describing w1 arr cols base) by by destruct Hd.
    apply Forall2_cons_inv_l in Hnames as (name & names' & Hname & Hnames & ->).
    cbn [length] in Hlen, Hfuel.
    destruct (columns_room_ok w1 arr cols base cap Hd1) as (arr2 & cap2 & w2 & E2 & Hd2 & Db2 & Hs2);
      [lia|]. rewrite (bind_Ret _ _ _ _ _ E2). cbv iota.
    pose proof Hd2 as [[_ Hsp2 Hcw] Hp2 Hwf2].
    destruct (describe_row_ok t row name w2 base _ Hp2 Hwf2 Hsp2) as (c & w3 & E3 & R3 & Hc & Hcn);
      [by rewrite Db2|done|]. rewrite (bind_Ret _ _ _ _ _ E3).
    destruct (columns_add_ok w2 w3 arr2 cols base c Hd2 R3 Hc) as (w4 & E4 & Hd4 & Db4 & Hs4).
    rewrite (bind_Ret _ _ _ _ _ E4).
    assert (Db : w_db w4 = set_lib (sqlite3_step t l).2 (w_db w)).
    { rewrite Db4, (rd_db _ _ _ _ R3), Db2. reflexivity. }
    replace (Z.of_nat (length cols) + 1) with (Z.of_nat (length (cols ++ [c])))
      by (rewrite length_app; cbn [length]; lia).
    destruct (IH names' fuel cap2 arr2 (cols ++ [c]) (done ++ [name]) w4)
      as (arr5 & cols5 & w5 & E5 & Db5 & Hd5 & Hn5).
    + by rewrite Db.
    + by apply on_row_live in Hon.
    + done.
    + lia.
    + rewrite length_app. cbn [length]. lia.
    + done.
    + eapply columns_named_snoc; [|exact Hs4|exact Hcw|exact Hn|exact Hc|exact Hcn].
      etrans; [exact Hs2|]. etrans; [apply heap_le_strings, R3|exact Hs4].
    + rewrite <- app_assoc in Hn5. exists arr5, cols5, w5. split; [exact E5|].
      split; [by rewrite Db5, Db|]. by split.
Qed.

(** ** The whole function *)

Lemma idle_parts Φ tg (q : bool) h k d :
  idle Φ tg q h k d ->
  exists c sc m, p_db d = Some c /\ c_conn c = Some h /\ db_of (p_env d) = k /\
    stmts_of (p_env d) = m /\ (q = true -> quiet m) /\
    forall l', db_of l' = k -> stmts_of l' = m -> idle Φ tg q h k (set_lib l' d) /\
      c_stmt_cache c = sc.
Proof.
  intros (sc & m & (l & (c & Hc & Hcn & Hsc & <-) & Hk & Hm) & Hok & HΦ & Hq & Htg).
  exists c, sc, m. split_and!; try done. intros l' Hk' Hm'. split; [|done].
  exists sc, m. split; [|done]. exists l'. split; [by exists c|done].
Qed.

(** The library quotes the name as [qt] and knows what the statement delivers. *)
Lemma sqlite_describe_ok Φ (table qt : string) names rows rc (tg : bool) h k w :
  plenty w -> heap_wf w -> idle Φ tg true h k (w_db w) ->
  (forall l : L, exists l', sqlite3_mprintf_w table l = (Some qt, l') /\ db_of l' = db_of l /\
     stmts_of l' = stmts_of l) ->
  slen (pragma qt) < 512 -> compiles k (pragma qt) = true ->
  sem k (pragma qt) ∅ = (rows, rc, k) -> Forall2 row_names rows names ->
  Z.of_nat (length rows) < 2 ^ 30 ->
  exists arr cols w', sqlite_describe_table table w =
      Ret (CORM_OK, (Some arr, Z.of_nat (length cols))) w' /\
    columns_at (w_heap w') arr cols (w_heap w) /\ columns_named (w_heap w') cols names /\
    plenty w' /\ heap_wf w' /\ idle Φ tg true h k (w_db w').
Proof.
  intros Hp Hwf Hi Hmp Hlen Hcomp Hsem Hnames Hrows.
  destruct (idle_parts _ _ _ _ _ _ Hi) as (c & sc & m & Hc & Hcn & Hk & Hm & Hq & Hback).
  unfold sqlite_describe_table. rewrite (bind_Ret _ _ _ _ _ (get_conn_ok w c Hc)), Hcn.
  destruct (Hmp (p_env (w_db w))) as (l1 & E1 & Hk1 & Hm1).
  rewrite (bind_Ret _ _ _ _ _ (lib_ok _ w)), E1. cbn [fst snd]. rewrite bind_deref_Some.
  change (c_format _ [FS qt]) with (Some ("PRAGMA table_info(" +:+ (qt +:+ ")"))).
  fold (pragma qt). rewrite bind_deref_Some, bind_deref_Some, c_snprintf_fits
    by (unfold slen in Hlen; lia).
  set (w1 := set_db _ w). rewrite (bind_Ret _ _ _ _ _ (lib_ok _ w1)).
  change (p_env (w_db w1)) with l1.
  destruct (prepare_law h (pragma qt) l1) as (rc1 & ot & l2 & E2 & Hk2 & Hcase).
  rewrite E2. cbn [fst snd]. rewrite Hk1, Hk, Hcomp in Hcase.
  destruct Hcase as (-> & t & -> & Hfresh & Hm2). rewrite Z.eqb_refl, bind_deref_Some. cbn [negb].
  set (w2 := set_db _ w1). rewrite Hm1, Hm in Hfresh, Hm2.
  destruct (columns_new_ok w2 Hp Hwf) as (arr & w3 & E3 & Hd3 & Db3).
  rewrite (bind_Ret _ _ _ _ _ E3). change (w_heap w2) with (w_heap w) in Hd3.
  assert (Hl3 : p_env (w_db w3) = l2) by by rewrite Db3.
  assert (Hp2 : stmts_of l2 !! t = Some (Prepared (pragma qt) (columns k (pragma qt)) ∅ Ready))
    by by rewrite Hm2, lookup_insert_eq.
  pose proof (delivers_sem t _ l2 Hp2 eq_refl) as Hdel. cbn [pr_sql pr_binds] in Hdel.
  rewrite Hk2, Hk1, Hk, Hsem in Hdel. destruct Hdel as (l4 & Hdel & Hk4 & Hmv).
  { intros t' p' Hl Hne. rewrite Hm2, lookup_insert_ne in Hl by done. by apply (Hq eq_refl t'). }
  destruct (delivers_exists t _ l2 Hp2) as (rows' & rc' & l4' & p' & Hdel' & _ & Hfuel & _).
  destruct (delivers_det _ _ _ _ _ _ _ _ Hdel Hdel') as (-> & -> & ->).
  assert (Ef : ask (sqlite3_rows t) w3 = Ret (sqlite3_rows t l2) w3).
  { unfold ask, get_db, mbind, M_bind. by rewrite Hl3. }
  rewrite (bind_Ret _ _ _ _ _ Ef).
  destruct (describe_rows_ok t rows rc l2 l4 names (Datatypes.S (sqlite3_rows t l2)) 16 arr [] [] w3
    (w_heap w)) as (arr5 & cols & w5 & E5 & Db5 & Hd5 & Hn5);
    [done|done|by unfold is_live; rewrite Hp2|done|lia|cbn; lia|done|constructor|].
  change (Z.of_nat (length (@nil corm_column_info))) with 0 in E5. cbn [app] in Hn5.
  rewrite (bind_Ret _ _ _ _ _ E5).
  assert (Hl5 : p_env (w_db w5) = l4) by by rewrite Db5.
  destruct Hmv as [_ Hm4]. rewrite Hm2, insert_insert_eq in Hm4. set (p4 := Prepared _ _ _ _) in Hm4.
  assert (Hp4 : stmts_of l4 !! t = Some p4) by by rewrite Hm4, lookup_insert_eq.
  rewrite (bind_Ret _ _ _ _ _ (on_stmt_ok t sqlite3_finalize w5 ltac:(unfold is_live; by rewrite Hl5, Hp4))).
  rewrite Hl5. destruct (finalize_law t _ l4 Hp4) as [Hk6 Hm6].
  eexists arr5, cols, _. split; [reflexivity|]. destruct Hd5 as [Hat Hp5 Hwf5].
  split; [exact Hat|]. split; [exact Hn5|]. split; [exact Hp5|]. split; [exact Hwf5|].
  cbn [w_db set_db]. rewrite Db5, Db3.
  apply (Hback (sqlite3_finalize t l4).2); [congruence|].
  rewrite Hm6, Hm4. by apply delete_insert_id.
Qed.
End describe.
