(* ===== verification/SqliteLibrary.v ===== *)
(** * A library over a database

    An instance of [Sqlite3] and [SqliteSpec] for any [Database]: what a statement
    delivers and does to the database.  The library keeps the statements that were
    prepared and not finalized, with their bindings and the rows they are still to
    deliver.  [Engine.v] and [SmallSql.v] are databases. *)

From S2P Require Import Prelude Types Mem CLib Sqlite SqliteSpec.

(** ** Databases *)

(** [db_sem]: the rows of a statement, its last code and the database after it;
    a row has the columns of the statement in this database, and no result has more
    than [db_most] rows.  [db_open] is what opening a file finds, [db_run] executes a
    text, [db_changes] and [db_rowid] are those of the last statement. *)
Class Database (K : Type) : Type := {
  db_compiles : K -> string -> bool;
  db_columns : K -> string -> list string;
  db_sem : K -> string -> gmap Z sqlite_value -> list (list sqlite_value) * Z * K;
  db_most : nat;
  db_open : string -> K -> K;
  db_run : string -> K -> Z * K;
  db_changes : K -> Z;
  db_rowid : K -> Z;
  sem_width k sql b : Forall (fun row => length row = length (db_columns k sql)) (db_sem k sql b).1.1;
  sem_most k sql b : (length (db_sem k sql b).1.1 <= db_most)%nat;
  sem_ends k sql b : (db_sem k sql b).1.2 <> SQLITE_ROW;
  sem_refused k sql b : db_compiles k sql = false ->
    exists rc, db_sem k sql b = ([], rc, k) /\ rc <> SQLITE_DONE
}.

(** A row of exactly [n] cells. *)
Definition fit (n : nat) (row : list sqlite_value) : list sqlite_value :=
  take n row ++ replicate (n - length row) QNull.

Lemma fit_length n row : length (fit n row) = n.
Proof. unfold fit. rewrite length_app, length_take, length_replicate. lia. Qed.

Lemma fit_id row : fit (length row) row = row.
Proof. unfold fit. by rewrite take_ge, Nat.sub_diag, app_nil_r. Qed.

Lemma fit_same n row : length row = n -> fit n row = row.
Proof. intros <-. apply fit_id. Qed.

Lemma fit_all n rows : Forall (fun row => length row = n) rows -> map (fit n) rows = rows.
Proof. intros Hr. induction Hr as [|row rows <- Hr IH]; [done|]. cbn. by rewrite fit_id, IH. Qed.

(** ** The library *)

Record library (K : Type) : Type := Library {
  lib_db : K;
  lib_stmts : gmap positive prepared
}.
Arguments Library {K}.
Arguments lib_db {K}.
Arguments lib_stmts {K}.

Definition value_int (q : sqlite_value) : Z := match q with QInt z => z | _ => 0 end.
Definition value_double (q : sqlite_value) : Z :=
  match q with QFloat b => b | QInt z => strtod (pretty z) | _ => 0 end.
Definition value_text (q : sqlite_value) : option string :=
  match q with QText s => Some s | QInt z => Some (pretty z) | QNull => None | _ => Some "" end.
Definition value_blob (q : sqlite_value) : list ascii := match q with QBlob bs => bs | _ => [] end.

Definition rewind (p : prepared) : prepared := Prepared (pr_sql p) (pr_cols p) (pr_binds p) Ready.
Definition unbind (p : prepared) : prepared := Prepared (pr_sql p) (pr_cols p) ∅ (pr_cur p).
Definition bind_at (i : Z) (q : sqlite_value) (p : prepared) : prepared :=
  Prepared (pr_sql p) (pr_cols p) (<[i := q]> (pr_binds p)) (pr_cur p).

Section library.
Context {K : Type} `{!Database K}.
Implicit Types (e : library K) (k : K) (t : positive) (p : prepared).

(** A statement with rows of the width of its result, and a last code that ends
    them. *)
Definition tidy p : prepared :=
  Prepared (pr_sql p) (pr_cols p) (pr_binds p)
    match pr_cur p with
    | OnRow row rest rc =>
        OnRow (fit (length (pr_cols p)) row) (map (fit (length (pr_cols p))) (take db_most rest))
          (if rc =? SQLITE_ROW then SQLITE_DONE else rc)
    | c => c
    end.

(** The rows a statement is still to deliver, its last code and the database
    after its next step. *)
Definition pending p k : list (list sqlite_value) * Z * K :=
  match pr_cur p with
  | Ready => db_sem k (pr_sql p) (pr_binds p)
  | OnRow _ rest rc => (rest, rc, k)
  | Finished => ([], 21, k)
  end.

(** The first step of an execution compiles the statement again. *)
Definition recompiled p k : list string :=
  match pr_cur p with
  | Ready => if db_compiles k (pr_sql p) then db_columns k (pr_sql p) else pr_cols p
  | _ => pr_cols p
  end.

(** The statements that are not finalized. *)
Definition live_stmts e : gmap positive prepared := tidy <$> lib_stmts e.

Definition put_stmt t p e : library K := Library (lib_db e) (<[t := p]> (lib_stmts e)).

(** Apply [f] to a live statement. *)
Definition with_live t (f : prepared -> prepared) e : Z * library K :=
  match live_stmts e !! t with
  | Some p => (SQLITE_OK, put_stmt t (f p) e)
  | None => (21, e)
  end.

Definition lib_step t e : Z * library K :=
  match live_stmts e !! t with
  | Some p =>
      let '(rows, rc, k) := pending p (lib_db e) in
      (step_code rows rc,
       Library k (<[t := Prepared (pr_sql p) (recompiled p (lib_db e)) (pr_binds p) (step_cursor rows rc)]>
                    (lib_stmts e)))
  | None => (21, e)
  end.

(** A handle no live statement has. *)
Definition fresh_stmt e : positive := fresh (dom (lib_stmts e)).

Definition lib_cell t (i : Z) e : sqlite_value :=
  default QNull
    (p ← live_stmts e !! t;
     match pr_cur p with OnRow row _ _ => row !! Z.to_nat i | _ => None end).

#[export] Instance library_sqlite3 : Sqlite3 unit positive (library K) := {|
  sqlite3_open name e := (SQLITE_OK, Some tt, Library (db_open name (lib_db e)) (lib_stmts e));
  sqlite3_close _ e := (SQLITE_OK, e);
  sqlite3_exec _ sql e := let '(rc, k) := db_run sql (lib_db e) in (rc, Library k (lib_stmts e));
  sqlite3_errmsg _ _ := "SQL logic error";
  sqlite3_prepare_v2 _ sql e :=
    if db_compiles (lib_db e) sql then
      (SQLITE_OK, Some (fresh_stmt e),
       put_stmt (fresh_stmt e) (Prepared sql (db_columns (lib_db e) sql) ∅ Ready) e)
    else (1, None, e);
  sqlite3_live t e := bool_decide (is_Some (live_stmts e !! t));
  sqlite3_rows t e := match live_stmts e !! t with
                      | Some p => length (pending p (lib_db e)).1.1
                      | None => O
                      end;
  sqlite3_reset t := with_live t rewind;
  sqlite3_clear_bindings t := with_live t unbind;
  sqlite3_finalize t e := (SQLITE_OK, Library (lib_db e) (delete t (lib_stmts e)));
  sqlite3_bind t i q := with_live t (bind_at i q);
  sqlite3_step := lib_step;
  sqlite3_column_count t e :=
    match live_stmts e !! t with
    | Some p => Z.of_nat (length (pr_cols p))
    | None => 0
    end;
  sqlite3_column_name t i e :=
    p ← live_stmts e !! t; pr_cols p !! Z.to_nat i;
  sqlite3_column_type t i e := class_of (lib_cell t i e);
  sqlite3_column_int64 t i e := value_int (lib_cell t i e);
  sqlite3_column_double t i e := value_double (lib_cell t i e);
  sqlite3_column_text t i e := value_text (lib_cell t i e);
  sqlite3_column_bytes t i e := Z.of_nat (length (value_blob (lib_cell t i e)));
  sqlite3_column_blob t i e :=
    match value_blob (lib_cell t i e) with [] => None | bs => Some bs end;
  sqlite3_column_int t i e := wrap_i32 (value_int (lib_cell t i e));
  sqlite3_changes _ e := db_changes (lib_db e);
  sqlite3_last_insert_rowid _ e := db_rowid (lib_db e);
  sqlite3_mprintf_w s e := (Some s, e)
|}.

(** ** Its laws *)

Lemma fit_rows n rows : Forall (fun row : list sqlite_value => length row = n) (map (fit n) rows).
Proof. apply Forall_fmap, Forall_true. intros row. apply fit_length. Qed.

Lemma tidy_idem p : tidy (tidy p) = tidy p.
Proof.
  destruct p as [sql cols b [|row rest rc|]]; try done. unfold tidy. cbn. f_equal. f_equal.
  - apply fit_same, fit_length.
  - rewrite fit_all by apply Forall_take, fit_rows.
    by rewrite <- fmap_take, take_take, Nat.min_id.
  - by destruct (Z.eqb_spec rc SQLITE_ROW) as [->|Hne]; [|destruct (Z.eqb_spec rc SQLITE_ROW)].
Qed.

Lemma live_tidy t p e : live_stmts e !! t = Some p -> tidy p = p.
Proof.
  unfold live_stmts. rewrite lookup_fmap. destruct (lib_stmts e !! t); [|done].
  intros [= <-]. apply tidy_idem.
Qed.

Lemma live_put t p e : live_stmts (put_stmt t p e) = <[t := tidy p]> (live_stmts e).
Proof. unfold live_stmts, put_stmt. cbn. by rewrite fmap_insert. Qed.

(** What is pending has the width of the statement. *)
Lemma pending_rows p k :
  tidy p = p -> Forall (fun row => length row = length (recompiled p k)) (pending p k).1.1.
Proof.
  intros Ht. unfold pending, recompiled. destruct (pr_cur p) as [|row rest rc|] eqn:Ec; [| |done].
  - destruct (db_compiles k (pr_sql p)) eqn:Hc; [apply sem_width|].
    destruct (sem_refused k (pr_sql p) (pr_binds p) Hc) as (rc & -> & _). done.
  - rewrite <- Ht in Ec. unfold tidy in Ec. cbn in Ec. destruct (pr_cur p); simplify_eq. apply fit_rows.
Qed.

Lemma pending_code p k : tidy p = p -> (pending p k).1.2 <> SQLITE_ROW.
Proof.
  intros Ht. unfold pending. destruct (pr_cur p) as [|row rest rc|] eqn:Ec; [apply sem_ends| |done].
  rewrite <- Ht in Ec. unfold tidy in Ec. cbn in Ec. destruct (pr_cur p) as [|? ? rc'|]; simplify_eq.
  cbn. by destruct (Z.eqb_spec rc' SQLITE_ROW).
Qed.

Lemma pending_length p k : tidy p = p -> (length (pending p k).1.1 <= db_most)%nat.
Proof.
  intros Ht. unfold pending. destruct (pr_cur p) as [|row rest rc|] eqn:Ec; [apply sem_most| |cbn; lia].
  rewrite <- Ht in Ec. unfold tidy in Ec. cbn [pr_cur] in Ec.
  destruct (pr_cur p) as [|? rest' ?|]; simplify_eq. cbn [fst]. rewrite length_map, length_take. lia.
Qed.

Lemma tidy_step sql cols b rows rc :
  Forall (fun row : list sqlite_value => length row = length cols) rows ->
  (length rows <= db_most)%nat -> rc <> SQLITE_ROW ->
  tidy (Prepared sql cols b (step_cursor rows rc)) = Prepared sql cols b (step_cursor rows rc).
Proof.
  intros Hr Hl Hc. unfold tidy. destruct rows as [|row rows]; [done|]. apply Forall_cons in Hr as [Hr Hrs].
  cbn [length] in Hl. cbn [pr_sql pr_cols pr_binds pr_cur step_cursor]. f_equal.
  rewrite take_ge by lia. rewrite (fit_all _ _ Hrs), (fit_same _ _ Hr). by destruct (Z.eqb_spec rc SQLITE_ROW).
Qed.

Lemma with_live_spec t p f e :
  live_stmts e !! t = Some p -> tidy (f p) = f p ->
  lib_db (with_live t f e).2 = lib_db e /\ live_stmts (with_live t f e).2 = <[t := f p]> (live_stmts e).
Proof. intros Hp Hf. unfold with_live. rewrite Hp. cbn [snd]. rewrite live_put, Hf. by split. Qed.

Lemma lib_step_spec t p e :
  live_stmts e !! t = Some p ->
  let '(rows, rc, k) := pending p (lib_db e) in
  (lib_step t e).1 = step_code rows rc /\ lib_db (lib_step t e).2 = k /\
  live_stmts (lib_step t e).2 =
    <[t := Prepared (pr_sql p) (recompiled p (lib_db e)) (pr_binds p) (step_cursor rows rc)]> (live_stmts e).
Proof.
  intros Hp. pose proof (pending_rows p (lib_db e) (live_tidy _ _ _ Hp)) as Hr.
  pose proof (pending_code p (lib_db e) (live_tidy _ _ _ Hp)) as Hc.
  pose proof (pending_length p (lib_db e) (live_tidy _ _ _ Hp)) as Hn.
  unfold lib_step. rewrite Hp. destruct (pending p (lib_db e)) as [[rows rc] k].
  cbn in *. split; [done|]. split; [done|]. unfold live_stmts. cbn. rewrite fmap_insert. f_equal.
  by apply tidy_step.
Qed.

Lemma fresh_stmt_spec e : live_stmts e !! fresh_stmt e = None.
Proof.
  unfold live_stmts, fresh_stmt. rewrite lookup_fmap, fmap_None. apply not_elem_of_dom, is_fresh.
Qed.

(** After a row the statement stands on it, with fewer to come. *)
Lemma lib_step_row t p e :
  live_stmts e !! t = Some p -> (lib_step t e).1 = SQLITE_ROW ->
  (sqlite3_rows t (lib_step t e).2 < sqlite3_rows t e)%nat /\
  exists row rest rc, live_stmts (lib_step t e).2 !! t =
      Some (Prepared (pr_sql p) (recompiled p (lib_db e)) (pr_binds p) (OnRow row rest rc)) /\
    length row = length (recompiled p (lib_db e)).
Proof.
  intros Hp Hrow. pose proof (lib_step_spec t p e Hp) as Hs.
  pose proof (pending_rows p (lib_db e) (live_tidy _ _ _ Hp)) as Hr.
  pose proof (pending_code p (lib_db e) (live_tidy _ _ _ Hp)) as Hc.
  cbn [sqlite3_rows library_sqlite3]. rewrite Hp.
  destruct (pending p (lib_db e)) as [[rows rc] k]. destruct Hs as (H1 & _ & ->). cbn in *.
  rewrite lookup_insert_eq. rewrite H1 in Hrow. destruct rows as [|row rows]; [done|].
  cbn. split; [lia|]. exists row, rows, rc. split; [done|]. by apply Forall_cons in Hr as [? _].
Qed.

Lemma lib_cell_spec t p row rest rc i q e :
  live_stmts e !! t = Some p -> pr_cur p = OnRow row rest rc -> row !! i = Some q ->
  lib_cell t (Z.of_nat i) e = q.
Proof. intros Hp Hc Hq. unfold lib_cell. rewrite Hp. cbn. by rewrite Hc, Nat2Z.id, Hq. Qed.

#[export] Instance library_spec : SqliteSpec unit positive (library K) K.
Proof.
  refine {| db_of := lib_db; stmts_of := live_stmts; compiles := db_compiles;
            columns := db_columns; sem := db_sem; to_int64 := value_int;
            to_double := value_double; to_text := value_text; to_blob := value_blob |};
    try reflexivity.
  - intros k sql b. apply sem_ends.
  - intros k sql b Hc. by apply sem_refused.
  - intros h sql e. cbn. destruct (db_compiles (lib_db e) sql).
    + eexists _, _, _. split; [done|]. split; [done|]. split; [done|]. eexists. split; [done|].
      split; [apply fresh_stmt_spec|]. by rewrite live_put.
    + eexists _, _, _. split; [done|]. split; [done|]. split; [by left|done].
  - intros t p e Hp. by apply (with_live_spec t p rewind).
  - intros t p e Hp. apply (with_live_spec t p unbind); [done|]. apply live_tidy in Hp.
    change (tidy (unbind p)) with (unbind (tidy p)). by rewrite Hp.
  - intros t p i q e Hp Hr. rewrite <- Hr. apply (with_live_spec t p (bind_at i q)); [done|].
    unfold tidy, bind_at. cbn. by rewrite Hr.
  - intros t p e Hp. split; [done|]. unfold live_stmts. cbn. by rewrite fmap_delete.
  - intros t p e Hp. pose proof (lib_step_spec t p e Hp) as Hs.
    destruct (pending p (lib_db e)) as [[rows rc] k] eqn:Epd. destruct Hs as (_ & _ & Hm).
    eexists _, _. split; [exact Hm|]. split.
    { unfold recompiled, stands_on_row. destruct (pr_cur p); [|by left..].
      destruct (db_compiles _ _) eqn:Hc; [by right|by left]. }
    intros Hrow. destruct (lib_step_row t p e Hp Hrow) as (Hlt & row & rest & rc' & Hl & Hw).
    split; [exact Hlt|]. exists row, rest, rc'. split; [|done].
    cbn in Hm. rewrite Hm, lookup_insert_eq in Hl. by simplify_eq.
  - intros t p e Hp Hr _. pose proof (lib_step_spec t p e Hp) as Hs. unfold pending, recompiled in Hs.
    by rewrite Hr in Hs.
  - intros t p row rest rc e Hp Hr _. pose proof (lib_step_spec t p e Hp) as Hs.
    unfold pending, recompiled in Hs. by rewrite Hr in Hs.
  - intros t p e Hp. cbn. by rewrite Hp.
  - intros t p e Hp i. cbn. by rewrite Hp, Nat2Z.id.
  - intros t i e bs. cbn. by destruct (value_blob (lib_cell t i e)); intros [= <-].
  - intros t p row rest rc i q e Hp Hc Hq. cbn.
    rewrite (lib_cell_spec t p row rest rc i q e Hp Hc Hq). repeat (split; [done|]).
    by destruct (value_blob q).
Defined.

(** Results are bounded. *)
Lemma lib_size t e : (sqlite3_rows t e <= db_most)%nat.
Proof.
  cbn [sqlite3_rows library_sqlite3]. destruct (live_stmts e !! t) as [p|] eqn:Hp; [|lia].
  apply pending_length, (live_tidy _ _ _ Hp).
Qed.
End library.
