(* ===== verification/Engine.v ===== *)
(** * A small database engine

    A [Database] under the library of [SqliteLibrary.v], which satisfies [SqliteTx]: the
    database is the list of the statements executed with their bindings, a
    SELECT lists them.  The engine knows some statements by their text: the
    tables are those of the CREATE and ALTER statements, and the rows of a model
    those of its INSERT statements.  The witnesses of the
    driver's properties run on it. *)

From S2P Require Import Prelude Types Mem Dialect CLib Model Backend Query Builder BuilderSpec.
From S2P Require Import QuerySpec Sample.
From S2P Require Import Core Migration MigrationProps Examples StmtCache DriverState Handles Sqlite.
From S2P Require Import SqliteSpec SqliteExec SqliteDescribe SqliteLibrary.

(** ** Tables *)

Inductive ddl : Type :=
  | DCreate (table : string) (cols : list string)
  | DAlter (table col : string).

Definition run_ddl (d : ddl) (sch : schema_map) : schema_map :=
  match d with
  | DCreate t cols => match sch !! t with Some _ => sch | None => <[t := cols]> sch end
  | DAlter t col =>
      match sch !! t with
      | Some cols => if decide (col ∈ cols) then sch else <[t := cols ++ [col]]> sch
      | None => sch
      end
  end.

Definition sample_models {S} : list (model S * list field) :=
  [(user_model, user_fields); (note_model, note_fields)].

(** The model of the example program. *)
Definition basic_models {S} : list (model S * list field) :=
  [(users_model 256, users_fields 256)].

Definition ddl_texts : list (string * ddl) :=
  flat_map (fun p =>
    (create_table_text CORM_BACKEND_SQLITE p.1 p.2, DCreate (table_of p.1) (map fname p.2)) ::
    map (fun f => (alter_text CORM_BACKEND_SQLITE p.1 f, DAlter (table_of p.1) (fname f))) p.2)
    (sample_models ++ basic_models (S := unit)).

Definition find_ddl (sql : string) : option ddl :=
  snd <$> List.find (fun p => String.eqb p.1 sql) ddl_texts.

(** The tables before the first statement: [users] lacks a column. *)
Definition old_schema : schema_map := {["users" := ["id"; "name"]]}.

Definition replay (log : list string) : schema_map :=
  fold_left (fun sch sql => match find_ddl sql with Some d => run_ddl d sch | None => sch end)
    log old_schema.

(** The name in [PRAGMA table_info(name)]. *)
Definition pragma_table (sql : string) : string :=
  str_take (String.length sql - 19) (str_drop 18 sql).

Definition pragma_row (i : nat) (name : string) : list sqlite_value :=
  [QInt (Z.of_nat i); QText name; QText ""; QInt 0; QNull; QInt 0].

Definition is_pragma (sql : string) : bool := starts_with "PRAGMA table_info(" sql.

(** ** Rows of [users] *)

(** The INSERT of [user_model], and the SELECT of the first user with a name. *)
Definition orm_insert : string :=
  render CORM_BACKEND_SQLITE (@user_model unit) user_fields (a_set_op CORM_OP_INSERT aquery_empty).
Definition bob_only : string := "name = 'bob'".
Definition orm_select : string :=
  render CORM_BACKEND_SQLITE (@user_model unit) user_fields
    (a_set_limit 1 (a_set_where bob_only aquery_empty)).

Definition orm_all : string := render CORM_BACKEND_SQLITE (@user_model unit) user_fields aquery_empty.

(** The users that were inserted with bound values. *)
Definition bound_users (log : list (string * gmap Z sqlite_value)) : list (list sqlite_value) :=
  imap (fun i '(name, age) => [QInt (Z.of_nat i + 1); name; age])
    (omap (fun '(sql, b) =>
       if String.eqb sql orm_insert then name ← b !! 1; age ← b !! 2; Some (name, age) else None) log).

Definition find_bob (log : list (string * gmap Z sqlite_value)) : list (list sqlite_value) :=
  take 1 (base.filter (fun row => row !! 1%nat = Some (QText "bob")) (bound_users log)).

(** ** The engine *)

Record edb : Type := Edb {
  ed_log : list (string * gmap Z sqlite_value);
  ed_saved : option (list (string * gmap Z sqlite_value))
}.

Abbreviation engine := (library edb).

Definition engine_compiles (_ : edb) (sql : string) : bool := negb (starts_with "ERROR" sql).

Definition engine_columns (sql : string) : list string :=
  if String.eqb sql orm_select || String.eqb sql orm_all then map fname user_fields
  else if starts_with "SELECT" sql then ["id"; "text"]
  else if is_pragma sql then ["cid"; "name"; "type"; "notnull"; "dflt_value"; "pk"]
  else [].

(** Results have at most this many rows. *)
Definition max_rows : nat := 100.

(** What a query delivers. *)
Definition engine_query (k : edb) (sql : string) : option (list (list sqlite_value)) :=
  if starts_with "SELECT" sql then
    Some
      (if String.eqb sql orm_select then find_bob (ed_log k)
       else if String.eqb sql orm_all then bound_users (ed_log k)
       else imap (fun i e => [QInt (Z.of_nat i); QText (fst e)]) (ed_log k))
  else if is_pragma sql then
    Some (imap pragma_row (default [] (replay (map fst (ed_log k)) !! pragma_table sql)))
  else None.

Definition engine_sem (k : edb) (sql : string) (b : gmap Z sqlite_value) :
    list (list sqlite_value) * Z * edb :=
  if negb (engine_compiles k sql) then ([], 1, k)
  else match engine_query k sql with
  | Some rows => (map (fit (length (engine_columns sql))) (take max_rows rows), SQLITE_DONE, k)
  | None =>
      if String.eqb sql "BEGIN TRANSACTION" then
        match ed_saved k with
        | Some _ => ([], 1, k)
        | None => ([], SQLITE_DONE, Edb (ed_log k) (Some (ed_log k)))
        end
      else if String.eqb sql "COMMIT" then ([], SQLITE_DONE, Edb (ed_log k) None)
      else if String.eqb sql "ROLLBACK" then
        ([], SQLITE_DONE, Edb (default (ed_log k) (ed_saved k)) None)
      else ([], SQLITE_DONE, Edb (ed_log k ++ [(sql, b)]) (ed_saved k))
  end.

Lemma engine_sem_rows k sql b :
  Forall (fun row => length row = length (engine_columns sql)) (engine_sem k sql b).1.1.
Proof.
  unfold engine_sem. destruct (engine_compiles k sql); [|done]. cbn [negb].
  destruct (engine_query k sql) as [rows|].
  - cbn [fst]. apply Forall_fmap, Forall_true. intros row. apply fit_length.
  - repeat case_match; by simplify_eq/=.
Qed.

#[export] Instance engine_db : Database edb.
Proof.
  refine {| db_compiles := engine_compiles; db_columns _ := engine_columns; db_sem := engine_sem;
            db_most := max_rows;
            db_open _ k := k; db_run _ k := (SQLITE_OK, k); db_changes _ := 1;
            db_rowid k := Z.of_nat (length (ed_log k)) |}.
  - intros k sql b. apply engine_sem_rows.
  - intros k sql b. unfold engine_sem. destruct (engine_compiles k sql); cbn [negb]; [|cbn; lia].
    destruct (engine_query k sql) as [rows|].
    + cbn [fst]. rewrite length_map, length_take. lia.
    + repeat case_match; cbn; lia.
  - intros k sql b. unfold engine_sem. by repeat case_match; simplify_eq/=.
  - intros k sql b Hc. exists 1. unfold engine_sem. by rewrite Hc.
Defined.

#[export] Instance engine_tx :
  SqliteTx unit positive engine edb (list (string * gmap Z sqlite_value)).
Proof.
  refine {| content_of := ed_log; saved_of := ed_saved |}.
  - intros k s Hs. unfold tx_statements in Hs. rewrite !elem_of_cons in Hs.
    by destruct Hs as [->|[->|[->|?%not_elem_of_nil]]].
  - intros t cols e Hp. pose proof (lib_step_spec t _ e Hp) as Hs. cbn in Hs.
    destruct (ed_saved (lib_db e)) eqn:Esv; destruct Hs as (H1 & H2 & _); cbn; rewrite H1, H2;
      by (split; [|cbn]).
  - intros t cols e Hp _. pose proof (lib_step_spec t _ e Hp) as Hs. cbn in Hs.
    destruct Hs as (_ & H2 & _). cbn. by rewrite H2.
  - intros t cols e c Hp Hc. pose proof (lib_step_spec t _ e Hp) as Hs. cbn in Hs, Hc.
    destruct Hs as (_ & H2 & _). cbn. rewrite H2, Hc. done.
Defined.

(** The hypotheses about results hold of the engine. *)
Lemma engine_size t (e : engine) : Z.of_nat (sqlite3_rows t e) < 2 ^ 30.
Proof. pose proof (lib_size t e) as H. cbn [db_most engine_db] in H. unfold max_rows in H. lia. Qed.

Definition engine_state := proc unit (stmts positive) unit engine.

(** A connection to the engine with the cache [sc]. *)
Definition engine_conn (sc : option (stmts positive)) : corm unit (stmts positive) unit :=
  Corm (Some tt) CORM_DEFAULT_CONFIG registry_zero CORM_OK "" "" 0 0 None sc 0.

Definition engine_world (oracle : list bool) (sc : option (stmts positive)) (k : edb) :
    world (proc unit (stmts positive) unit engine) :=
  World oracle ∅ 1%positive
    (Proc (Some (engine_conn sc)) [] (fun _ => (0, 0)) 0 (Library k ∅)).

Lemma engine_idle Φ tg q oracle cap k :
  1 <= cap -> idle Φ tg q tt k (w_db (engine_world oracle (Some (Stmts cap [] true)) k)).
Proof.
  intros Hc. exists (Some (Stmts cap [] true)), ∅. split; [|split; [|split; [|split]]].
  - exists (Library k ∅). split; [by eexists|by split].
  - split; [constructor; try apply NoDup_nil_2; by intros ?? ?%not_elem_of_nil|].
    by intros s [= <-].
  - apply map_Forall_empty.
  - intros _ t p Ht. by rewrite lookup_empty in Ht.
  - intros _. split; [by eexists|]. intros t [p Ht]. by rewrite lookup_empty in Ht.
Qed.

