(* ===== verification/SqliteMigration.v ===== *)
(** * Migrating a SQLite database

    [SqliteSchema] is what a migration relies on of the library: the effect of
    the statements it builds on the tables, and the rows of
    [PRAGMA table_info].  With it the driver implements [SchemaDriver], so that
    the properties of [corm_auto_migrate] hold of SQLite. *)

From S2P Require Import Prelude Types Mem Strbuf Dialect Hash Model Backend Query Builder.
From S2P Require Import BuilderSpec QuerySpec Columns Tx Driver Result ResultSpec Core CoreProps.
From S2P Require Import Sample StmtCache Migration MigrationSpec MigrationProps Examples DriverState DriverSpec Reading Describe.
From S2P Require Import Handles Sqlite SqliteSpec SqliteExec SqliteQuery SqliteDescribe SqliteLibrary Engine.

Section schema.
Context {D T X L K : Type} `{Countable T} `{!Sqlite3 D T L} `{!SqliteSpec D T L K}.
#[local] Abbreviation S := (proc D (stmts T) X L).
Implicit Types (w : world S) (d : S) (k : K) (h : D).

(** Executing [sql] in [k] delivers no rows, reports [e] and leaves the tables
    [sch] of a database that is still [sane]. *)
Definition ddl_effect (sane : K -> Prop) (schema_of : K -> schema_map) k (sql : string) (e : corm_err)
    (sch : schema_map) : Prop :=
  (sem k sql ∅).1.1 = [] /\ (direct_exec k sql []).1 = e /\
  sane (direct_exec k sql []).2 /\ schema_of (direct_exec k sql []).2 = sch.

(** In [sane] databases the statements of the migration of [ms] do what they
    say.  [%w] only changes double quotes; a table has at most 32767 columns. *)
Class SqliteSchema (ms : list (model S * list field)) : Type := {
  sane : K -> Prop;
  schema_of : K -> schema_map;
  refuse_create : model S -> corm_err;
  refuse_alter : model S -> field -> corm_err;
  mprintf_law m fs l : (m, fs) ∈ ms -> exists l',
    sqlite3_mprintf_w (table_of m) l = (Some (table_of m), l') /\ db_of l' = db_of l /\
    stmts_of l' = stmts_of l;
  pragma_short m fs : (m, fs) ∈ ms -> slen (pragma (table_of m)) < 512;
  create_law m fs k : (m, fs) ∈ ms -> sane k ->
    ddl_effect sane schema_of k (create_table_text CORM_BACKEND_SQLITE m fs) (refuse_create m)
      (if decide (refuse_create m = CORM_OK) then created m fs (schema_of k) else schema_of k);
  alter_law m fs f k cols : (m, fs) ∈ ms -> f ∈ fs -> sane k ->
    schema_of k !! table_of m = Some cols -> fname f ∉ cols ->
    ddl_effect sane schema_of k (alter_text CORM_BACKEND_SQLITE m f) (refuse_alter m f)
      (if decide (refuse_alter m f = CORM_OK)
       then <[table_of m := cols ++ [fname f]]> (schema_of k) else schema_of k);
  index_law m fs f k : (m, fs) ∈ ms -> f ∈ fs -> sane k -> exists e,
    ddl_effect sane schema_of k (index_text CORM_BACKEND_SQLITE m f) e (schema_of k);
  pragma_law m fs k names : (m, fs) ∈ ms -> sane k -> schema_of k !! table_of m = Some names ->
    compiles k (pragma (table_of m)) = true /\ exists rows rc,
    sem k (pragma (table_of m)) ∅ = (rows, rc, k) /\ Forall2 row_names rows names /\
    Z.of_nat (length rows) <= 32767
}.

Context (ms : list (model S * list field)) `{!SqliteSchema ms}.

(** The connection is open, no statement stands on a row, none is out of the
    cache, and all were compiled in sane databases. *)
Definition sqlite_settled d : Prop := exists h k, idle (compiled_in sane) true true h k d /\ sane k.

Lemma settled_intro h k d : idle (compiled_in sane) true true h k d -> sane k -> sqlite_settled d.
Proof. intros Hi Hk. by exists h, k. Qed.

Lemma sqlite_ddl d sql e sch h k :
  idle (compiled_in sane) true true h k d -> sane k -> ddl_effect sane schema_of k sql e sch ->
  let r := sql_exec (sqlite3_backend (X := X)) sql [] d in
  sqlite_settled r.2 /\ r.1 = e /\ schema_of (db_of (p_env r.2)) = sch.
Proof.
  intros Hi Hk (Hrows & He & Hsane & Hs).
  destruct (effect_direct _ d sql [] h k Hi (may_compile_in _ _ _ Hk) Hrows) as [E Hd'].
  split; [by eapply settled_intro|]. split; [by rewrite E|]. by rewrite (idle_db _ _ _ _ _ _ Hd').
Qed.

#[export] Instance sqlite_schema : SchemaDriver (sqlite3_backend (X := X) (T := T)) ms.
Proof.
  refine {| schema := fun l => schema_of (db_of l); create_error := refuse_create;
            alter_error := refuse_alter; settled := sqlite_settled;
            sd_describe := sqlite_describe_table |}.
  - intros d (h & k & Hi & _). exact (idle_ready _ _ _ _ _ _ Hi).
  - intros d log reads (h & k & Hi & Hk). eapply settled_intro; [by apply idle_log|done].
  - intros d sql e c Hc (h & k & Hi & Hk). eapply settled_intro; [by apply idle_report|done].
  - constructor.
  - intros m fs d Hin (h & k & Hi & Hk). rewrite (idle_db _ _ _ _ _ _ Hi).
    exact (sqlite_ddl d _ _ _ h k Hi Hk (create_law m fs k Hin Hk)).
  - intros m fs f d cols Hin Hf (h & k & Hi & Hk). rewrite (idle_db _ _ _ _ _ _ Hi). intros Hc Hn.
    destruct (sqlite_ddl d _ _ _ h k Hi Hk (alter_law m fs f k cols Hin Hf Hk Hc Hn)) as (H1 & _ & H3).
    by split.
  - intros m fs f d Hin Hf (h & k & Hi & Hk). rewrite (idle_db _ _ _ _ _ _ Hi).
    destruct (index_law m fs f k Hin Hf Hk) as [e Hx].
    destruct (sqlite_ddl d _ _ _ h k Hi Hk Hx) as (H1 & _ & H3). by split.
  - reflexivity.
  - intros w m fs names Hin Hp Hwf (h & k & Hi & Hk) Hn. rewrite (idle_db _ _ _ _ _ _ Hi) in Hn |- *.
    destruct (pragma_law m fs k names Hin Hk Hn) as (Hc & rows & rc & Hs & Hr & Hl).
    destruct (sqlite_describe_ok (compiled_in sane) (table_of m) (table_of m) names rows rc true h k w)
      as (arr & cols & w' & E & Hat & Hnm & Hp' & Hwf' & Hi'); try done.
    + intros l. by apply (mprintf_law m fs).
    + by apply (pragma_short m fs).
    + lia.
    + exists arr, cols, w'. split_and!; try done; [by eapply settled_intro|].
      by rewrite (idle_db _ _ _ _ _ _ Hi').
Defined.
End schema.

(** ** The engine has a schema *)

Definition engine_schema_of (k : edb) : schema_map := replay (map fst (ed_log k)).

(** Neither an error, nor a query, nor a transaction. *)
Definition plain (sql : string) : bool :=
  negb (starts_with "ERROR" sql || starts_with "SELECT" sql || is_pragma sql ||
        String.eqb sql "BEGIN TRANSACTION" || String.eqb sql "COMMIT" || String.eqb sql "ROLLBACK").

Lemma replay_snoc log sql :
  replay (log ++ [sql]) =
    match find_ddl sql with Some d => run_ddl d (replay log) | None => replay log end.
Proof. unfold replay. by rewrite fold_left_app. Qed.

Lemma engine_ddl k sql :
  plain sql = true ->
  ddl_effect (D := unit) (T := positive) (L := engine) (fun _ => True) engine_schema_of k sql CORM_OK
    (match find_ddl sql with
     | Some d => run_ddl d (engine_schema_of k)
     | None => engine_schema_of k
     end).
Proof.
  intros Hp. unfold ddl_effect, direct_exec. cbn [compiles sem library_spec db_compiles db_sem engine_db bind_all].
  unfold engine_sem, engine_compiles, engine_query. unfold plain in Hp.
  destruct (starts_with "ERROR" sql), (starts_with "SELECT" sql), (is_pragma sql),
    (String.eqb sql "BEGIN TRANSACTION"), (String.eqb sql "COMMIT"), (String.eqb sql "ROLLBACK"); try done.
  split; [done|]. split; [done|]. split; [done|]. unfold engine_schema_of. cbn [snd negb ed_log orb].
  rewrite map_app. apply replay_snoc.
Qed.

(** *** Its statements, and how many columns its tables have *)

Definition all_columns : list string := ["id"; "name"; "age"; "deleted"; "score"].

Definition tame (d : ddl) : Prop :=
  match d with
  | DCreate _ cols => NoDup cols /\ cols ⊆ all_columns
  | DAlter _ c => c ∈ all_columns
  end.

#[export] Instance tame_dec d : Decision (tame d).
Proof. destruct d; apply _. Defined.

Lemma find_ddl_tame sql d : find_ddl sql = Some d -> tame d.
Proof.
  unfold find_ddl. destruct (List.find _ _) as [p|] eqn:Hf; [|done]. intros [= <-].
  apply List.find_some in Hf as [Hin _].
  assert (Ht : Forall tame (map snd ddl_texts)) by (apply (bool_decide_unpack _); by vm_compute).
  rewrite Forall_forall in Ht. apply Ht. apply list_elem_of_fmap_2. by apply list_elem_of_In.
Qed.

Definition schema_tame (sch : schema_map) : Prop :=
  forall t cols, sch !! t = Some cols -> NoDup cols /\ cols ⊆ all_columns.

Lemma run_ddl_tame d sch : tame d -> schema_tame sch -> schema_tame (run_ddl d sch).
Proof.
  intros Hd Hs t cols. destruct d as [t' cols'|t' c]; cbn in *.
  - destruct (sch !! t') eqn:E; [apply Hs|].
    rewrite lookup_insert_Some. intros [[_ <-]|[_ Hl]]; [done|by apply (Hs t)].
  - destruct (sch !! t') as [cs|] eqn:E; [|apply Hs]. case_decide as Hc; [apply Hs|].
    rewrite lookup_insert_Some. intros [[_ <-]|[_ Hl]]; [|by apply (Hs t)].
    destruct (Hs t' cs E) as [Hn Hi]. split.
    + apply NoDup_app. split; [done|]. split; [|apply NoDup_singleton].
      by intros x Hx ->%list_elem_of_singleton.
    + intros x [Hx| ->%list_elem_of_singleton]%elem_of_app; [by apply Hi|done].
Qed.

Lemma replay_tame log : schema_tame (replay log).
Proof.
  induction log as [|sql log IH] using rev_ind.
  - intros t cols Hc. unfold replay, old_schema in Hc. cbn in Hc.
    apply lookup_singleton_Some in Hc as [_ <-]. apply (bool_decide_unpack _). by vm_compute.
  - rewrite replay_snoc. destruct (find_ddl sql) as [d|] eqn:E; [|done].
    apply run_ddl_tame; [by eapply find_ddl_tame|done].
Qed.

Lemma replay_columns log t cols : replay log !! t = Some cols -> (length cols <= 5)%nat.
Proof.
  intros Hc. destruct (replay_tame log t cols Hc) as [Hn Hi].
  exact (submseteq_length _ _ (NoDup_submseteq _ _ Hn Hi)).
Qed.

Ltac sample_cases H :=
  rewrite ?elem_of_cons in H;
  repeat (destruct H as [H|H]; [|try (exfalso; exact (not_elem_of_nil _ H))]).

(** Check something about each known model, or each of its fields. *)
Ltac known_cases Hin :=
  unfold sample_models, basic_models in Hin; cbn [app] in Hin; sample_cases Hin; injection Hin as -> ->.
Ltac each_model Hin := known_cases Hin; vm_compute; repeat split.
Ltac each_field Hin Hf :=
  known_cases Hin; unfold user_fields, note_fields, users_fields in Hf; sample_cases Hf; subst;
  vm_compute; repeat split.

Section samples.
Context {S : Type} (m : model S) (fs : list field) (Hin : (m, fs) ∈ sample_models ++ basic_models).

Lemma find_create :
  let sql := create_table_text CORM_BACKEND_SQLITE m fs in
  plain sql = true /\ find_ddl sql = Some (DCreate (table_of m) (map fname fs)).
Proof. each_model Hin. Qed.

Lemma find_alter f :
  f ∈ fs -> let sql := alter_text CORM_BACKEND_SQLITE m f in
  plain sql = true /\ find_ddl sql = Some (DAlter (table_of m) (fname f)).
Proof. intros Hf. each_field Hin Hf. Qed.

Lemma find_index f :
  f ∈ fs -> let sql := index_text CORM_BACKEND_SQLITE m f in plain sql = true /\ find_ddl sql = None.
Proof. intros Hf. each_field Hin Hf. Qed.

Lemma sample_pragma :
  let sql := pragma (table_of m) in
  slen sql < 512 /\ starts_with "ERROR" sql = false /\ starts_with "SELECT" sql = false /\
  is_pragma sql = true /\ pragma_table sql = table_of m /\ length (engine_columns sql) = 6%nat.
Proof. each_model Hin. Qed.
End samples.

Lemma pragma_rows_named i names :
  Forall2 (row_names (D := unit) (T := positive) (L := engine)) (imap (fun j => pragma_row (i + j)) names) names.
Proof.
  revert i. induction names as [|name names IH]; intros i; [constructor|]. cbn. constructor.
  - by exists (QText name).
  - specialize (IH (Datatypes.S i)). erewrite imap_ext; [exact IH|].
    intros j ??. cbn. by rewrite Nat.add_succ_r.
Qed.

Definition engine_schema_for (ms : list (model engine_state * list field))
    (Hms : ms ⊆ sample_models ++ basic_models) :
  SqliteSchema (D := unit) (T := positive) (X := unit) (L := engine) ms.
Proof.
  refine {| sane := fun _ => True; schema_of := engine_schema_of; refuse_create := fun _ => CORM_OK;
            refuse_alter := fun _ _ => CORM_OK |}.
  - intros m fs l _. by exists l.
  - intros m fs Hin%Hms. apply (sample_pragma m fs Hin).
  - intros m fs k Hin%Hms _. destruct (find_create m fs Hin) as [E1 E2].
    pose proof (engine_ddl k _ E1) as Hd. by rewrite E2 in Hd.
  - intros m fs f k cols Hin%Hms Hf _ Hc Hn. destruct (find_alter m fs Hin f Hf) as [E1 E2].
    pose proof (engine_ddl k _ E1) as Hd. rewrite E2 in Hd. cbn in Hd.
    rewrite Hc, decide_False in Hd by done. exact Hd.
  - intros m fs f k Hin%Hms Hf _. destruct (find_index m fs Hin f Hf) as [E1 E2].
    exists CORM_OK. pose proof (engine_ddl k _ E1) as Hd. by rewrite E2 in Hd.
  - intros m fs k names Hin%Hms _ Hn. destruct (sample_pragma m fs Hin) as (_ & E1 & E2 & E3 & E4 & E5).
    cbn [compiles sem library_spec db_compiles db_sem engine_db]. unfold engine_sem, engine_compiles, engine_query.
    rewrite E1, E2, E3, E4, E5. split; [done|]. pose proof (replay_columns _ _ _ Hn) as Hlen.
    unfold engine_schema_of in Hn. rewrite Hn. exists (imap pragma_row names), SQLITE_DONE.
    split; [|split].
    + cbn [negb default from_option id]. rewrite take_ge by (rewrite length_imap; unfold max_rows; lia).
      rewrite fit_all; [done|]. apply Forall_lookup. intros i row Hi. rewrite list_lookup_imap in Hi.
      by destruct (names !! i); simplify_eq/=.
    + exact (pragma_rows_named 0 names).
    + rewrite length_imap. lia.
Defined.

#[export] Instance engine_schema :
  SqliteSchema (D := unit) (T := positive) (X := unit) (L := engine) sample_models.
Proof. apply engine_schema_for. intros p Hp. apply elem_of_app. by left. Defined.

(** ** The properties at concrete inputs *)

Lemma sample_models_ready :
  Forall (fun p => ready CORM_BACKEND_SQLITE p.1 p.2) (sample_models (S := engine_state)).
Proof.
  assert (Hf : forall fs, forallb (fun f => (slen (fname f) <=? 100)) fs = true ->
    Forall (fun f => f_default_value f = None /\ f_fk_ref f = None) fs ->
    Forall (fun f => slen (fname f) <= 2 ^ 20 /\ opt_ok (f_default_value f) /\ opt_ok (f_fk_ref f)) fs).
  { intros fs H1 H2. rewrite Forall_forall in *. intros f Hin. rewrite forallb_forall in H1.
    specialize (H1 f (proj1 (list_elem_of_In _ _) Hin)). apply Z.leb_le in H1.
    destruct (H2 f Hin) as [-> ->]. cbn [opt_ok]. split; [lia|done]. }
  apply Forall_cons. split; [|apply Forall_cons; split; [|constructor]]; cbn [fst snd].
  - split; [|unfold fits; vm_compute; discriminate].
    split; [exact user_model_ok|vm_compute; discriminate|apply Hf; [done|by repeat constructor]].
  - split; [|unfold fits; vm_compute; discriminate].
    split; [exact note_model_ok|vm_compute; discriminate|apply Hf; [done|by repeat constructor]].
Defined.

(** A connection with room for two statements, to a database that has the table
    [users] without the column [age] and no table [notes]. *)
Definition old_world : world engine_state :=
  engine_world [] (Some (Stmts 2 [] true)) (Edb [] None).

Definition new_schema : schema_map :=
  <["notes" := ["id"; "name"; "deleted"]]> {["users" := ["id"; "name"; "age"]]}.

Lemma old_settled : settled sqlite3_backend sample_models (w_db old_world).
Proof. exists tt, (Edb [] None). split; [apply engine_idle; lia|exact I]. Defined.

Lemma old_heap : heap_wf old_world.
Proof. intros l [b Hl]. cbn in Hl. by rewrite lookup_empty in Hl. Defined.

Lemma old_migrated :
  migrated (create_error (sqlite3_backend (X := unit)) sample_models)
    (alter_error sqlite3_backend sample_models) sample_models (schema_at sqlite3_backend sample_models old_world) =
  (CORM_OK, new_schema).
Proof. vm_compute. reflexivity. Defined.

Lemma auto_migrate_schema_witness :
  exists w', corm_auto_migrate (Some (Some sqlite3_backend))
      (Some [Some user_model; Some note_model]) 2 old_world = Ret CORM_OK w' /\
    schema_at sqlite3_backend sample_models w' = new_schema /\ w_heap w' = ∅.
Proof.
  pose proof (auto_migrate_schema sqlite3_backend sample_models old_world eq_refl
    old_heap old_settled sample_models_ready) as H.
  cbv zeta in H. rewrite old_migrated in H. exact H.
Defined.

Lemma auto_migrate_complete_witness :
  exists w1 w2, corm_auto_migrate (Some (Some sqlite3_backend))
      (Some [Some user_model; Some note_model]) 2 old_world = Ret CORM_OK w1 /\
    corm_auto_migrate (Some (Some sqlite3_backend))
      (Some [Some user_model; Some note_model]) 2 w1 = Ret CORM_OK w2 /\
    schema_at sqlite3_backend sample_models w2 = schema_at sqlite3_backend sample_models w1.
Proof.
  destruct (migrate_loop_leads sqlite3_backend sample_models sample_models ltac:(done)
    sample_models_ready old_world eq_refl old_heap old_settled) as (w1 & E1 & _).
  rewrite old_migrated in E1.
  destruct (auto_migrate_complete sqlite3_backend sample_models old_world w1 eq_refl
    old_heap old_settled sample_models_ready E1) as (_ & _ & w2 & E2 & E3).
  exists w1, w2. split; [exact E1|]. split; [exact E2|exact E3].
Defined.

(** ** Tables of a sample server

    What the statements of a migration of the sample models do to the tables, by
    their texts, for the servers of the witnesses. *)

Definition known_ddl (bt : corm_backend_type) : list (string * ddl) :=
  flat_map (fun p =>
    (create_table_text bt p.1 p.2, DCreate (table_of p.1) (map fname p.2)) ::
    map (fun f => (alter_text bt p.1 f, DAlter (table_of p.1) (fname f))) p.2)
    (sample_models (S := unit)).

Definition find_known (bt : corm_backend_type) (sql : string) : option ddl :=
  snd <$> List.find (fun p => String.eqb p.1 sql) (known_ddl bt).

(** The tables after [sql]. *)
Definition run_known (bt : corm_backend_type) (sql : string) (sch : schema_map) : schema_map :=
  match find_known bt sql with Some d => run_ddl d sch | None => sch end.

Section samples.
Context {S : Type} (m : model S) (fs : list field) (Hin : (m, fs) ∈ sample_models) (bt : corm_backend_type).

Lemma find_known_create :
  find_known bt (create_table_text bt m fs) = Some (DCreate (table_of m) (map fname fs)).
Proof. destruct bt; each_model Hin. Qed.

Lemma find_known_alter f :
  f ∈ fs -> find_known bt (alter_text bt m f) = Some (DAlter (table_of m) (fname f)).
Proof. intros Hf. destruct bt; each_field Hin Hf. Qed.

Lemma find_known_index f : f ∈ fs -> find_known bt (index_text bt m f) = None.
Proof. intros Hf. destruct bt; each_field Hin Hf. Qed.
End samples.

Lemma find_known_tame bt sql d : find_known bt sql = Some d -> tame d.
Proof.
  unfold find_known. destruct (List.find _ _) as [p|] eqn:Hf; [|done]. intros [= <-].
  apply List.find_some in Hf as [Hin _].
  assert (Ht : Forall tame (map snd (known_ddl bt))) by (apply (bool_decide_unpack _); destruct bt; by vm_compute).
  rewrite Forall_forall in Ht. apply Ht. apply list_elem_of_fmap_2. by apply list_elem_of_In.
Qed.

Lemma run_known_tame bt sql sch : schema_tame sch -> schema_tame (run_known bt sql sch).
Proof.
  intros Hs. unfold run_known. destruct (find_known bt sql) eqn:E; [|done]. apply run_ddl_tame; [|done].
  by eapply find_known_tame.
Qed.

Lemma tame_columns sch t cols : schema_tame sch -> sch !! t = Some cols -> (length cols <= 5)%nat.
Proof.
  intros Hs Hc. destruct (Hs t cols Hc) as [Hn Hi]. exact (submseteq_length _ _ (NoDup_submseteq _ _ Hn Hi)).
Qed.
