(* ===== verification/SqliteSession.v ===== *)
(** * Sessions on SQLite

    What a client of the library may do between [corm_open] and [corm_close] on
    a SQLite database whose statements behave: every call returns and leaves the
    connection settled, and nothing of it is left in memory in the end. *)

From S2P Require Import Prelude Types Mem Strbuf Dialect Hash Model Backend Query Builder.
From S2P Require Import BuilderSpec QuerySpec Columns Tx Driver Result ResultSpec Exec Rows Core CoreProps.
From S2P Require Import StmtCache Migration MigrationSpec MigrationProps Stdio Examples DriverState.
From S2P Require Import DriverSpec Reading Describe Handles Sqlite SqliteSpec SqliteExec SqliteQuery.
From S2P Require Import SqliteDescribe SqliteMigration.

Section closing.
Context {D T X L K : Type} `{Countable T} `{!Sqlite3 D T L} `{!SqliteSpec D T L K}.
#[local] Abbreviation S := (proc D (stmts T) X L).
Implicit Types (w : world S) (d : S) (k : K) (h : D) (t : T).

(** ** Closing *)

Lemma triple_destroy mem (h : D) s0 s (m : gmap T prepared) k :
  st_close s = true -> handles_ok pr_sql (st_list s) m -> no_stray (st_list s) m ->
  triple mem (holds h s0 k m) (stmt_cache_destroy (X := X) sqlite_finalize_stmt (Some s))
    (fun _ d => holds h s0 k ∅ d).
Proof.
  intros Hc. unfold stmt_cache_destroy, destroy_entry. rewrite Hc.
  generalize (st_list s) as l. intros l. revert m.
  induction l as [|[sql t] l IH]; intros m Hh Hn; cbn [for_each snd].
  - apply triple_ret. intros d Hd. assert (m = ∅) as ->; [|done].
    apply map_empty. intros t. destruct (m !! t) eqn:E; [|done].
    exfalso. apply (not_elem_of_nil t), (Hn t). by eexists.
  - pose proof Hh as Hh'. apply handles_cons in Hh as (Hh & _ & Ht & p & Hp & _).
    eapply (triple_bind _ _ _ _ (fun _ d => holds h s0 k (delete t m) d)).
    + apply triple_exists. intros la. apply triple_pure_r. intros [Hk Hm].
      eapply triple_conseq; [apply triple_finalize|done|].
      * unfold is_live. by rewrite Hm, Hp.
      * intros ? d Hd. exists (finalized t la). split; [done|]. unfold finalized.
        destruct (finalize_law t p la) as [-> ->]; [by rewrite Hm|]. by rewrite Hm.
    + intros []. apply IH; [by apply handles_delete|by eapply no_stray_tail].
Qed.

(** Closing the connection: every statement is finalized before the handle is
    closed. *)
Lemma close_ok Φ (q : bool) h k w :
  plenty w -> idle Φ true q h k (w_db w) ->
  exists w' l, (let _ := stmts_api (X := X) sqlite_finalize_stmt in
      corm_close (Some (Some sqlite3_backend))) w = Ret CORM_OK w' /\
    stmts_of l = ∅ /\ p_db (w_db w') = None /\ p_env (w_db w') = (sqlite3_close (Some h) l).2 /\
    w_heap w' = w_heap w /\ plenty w'.
Proof.
  intros Hp (sc & m & Hh & [Hok Hc] & _ & _ & Hn). destruct (Hn eq_refl) as [[s ->] Hns].
  destruct (Hc s eq_refl) as [Hcl _]. cbn in Hok, Hns.
  pose proof Hh as (l0 & (c & Hcc & Hcn & Hsc & _) & _).
  unfold corm_close. cbn zeta. run_with (get_corm_ok w c Hcc). rewrite Hsc.
  destruct (triple_run _ _ _ w (triple_destroy true h _ s m k Hcl Hok Hns) Hp Hh)
    as ([] & d1 & E1 & (l & (c1 & Hc1 & Hcn1 & _ & Hl1) & _ & Hm1)).
  cbn [cache_destroy stmts_api]. run_with E1. run_with (get_corm_ok (set_db d1 w) c1 Hc1).
  rewrite Hcn1. cbn [be_close sqlite3_backend]. run. rewrite !bind_assoc.
  unfold sqlite_close, get_conn. rewrite !bind_assoc.
  run_with (get_corm_ok (set_db d1 w) c1 Hc1). rewrite Hcn1.
  destruct w as [o hp nx d]. cbn in *. unfold set_db. cbn. destruct d1 as [pd lg tm rd env]. cbn in *. subst.
  unfold lib, upd_corm, put_corm, get_corm, get_db, put_db, mbind, M_bind, mret, M_ret. cbn.
  destruct (sqlite3_close (Some h) l) as [rc env'] eqn:Ec. cbn.
  eexists _, l. split; [done|]. cbn. by rewrite Ec.
Qed.
End closing.

(** ** An open session *)

(** What a query of the statement [sql] relies on of the [sane] databases: where it
    compiles it has the columns [names], its rows have the shape [shape], and it
    delivers no row when it fails. *)
Record query_law {D T L K : Type} `{SqliteSpec D T L K} (sane : K -> Prop) (sql : string)
    (names : list string) (shape : list sqlite_value -> Prop) : Prop := QueryLaw {
  ql_columns : forall k, sane k -> compiles k sql = true -> columns k sql = names;
  ql_rows : forall k, sane k -> match (direct_query k sql []).1 with
    | Some rows => Forall shape rows
    | None => (sem k sql ∅).1.1 = []
    end;
  ql_sane : forall k, sane k -> sane (direct_query k sql []).2
}.

Section session.
Context {D T X L K : Type} `{Countable T} `{!Sqlite3 D T L} `{!SqliteSpec D T L K}.
#[local] Abbreviation S := (proc D (stmts T) X L).
Context (ms : list (model S * list field)) `{!SqliteSchema ms}.
Context (Hsize : forall t (l : L), Z.of_nat (sqlite3_rows t l) < 2 ^ 30).
Implicit Types (w : world S) (d : S) (k : K) (h : D).
Let db : option (option (backend S)) := Some (Some sqlite3_backend).

(** Between two calls: memory remains, the client owns the heap [base], and the
    connection is settled. *)
Record session (base : gmap loc block) w : Prop := {
  se_plenty : plenty w;
  se_wf : heap_wf w;
  se_heap : w_heap w = base;
  se_settled : sqlite_settled ms (w_db w)
}.

Lemma session_db base w d : session base w -> sqlite_settled ms d -> session base (set_db d w).
Proof. by intros []. Qed.

Lemma settled_ready d : sqlite_settled ms d -> usable (sqlite3_backend (X := X)) d.
Proof. exact (settled_usable (b := sqlite3_backend) (ms := ms) d). Qed.

(** A statement without rows that keeps the database sane. *)
Definition harmless (sql : string) : Prop := forall k, sane (ms := ms) k ->
  (sem k sql ∅).1.1 = [] /\ sane (ms := ms) (direct_exec k sql []).2.

Lemma harmless_settled d sql :
  sqlite_settled ms d -> harmless sql ->
  sqlite_settled ms (sql_exec (sqlite3_backend (X := X)) sql [] d).2.
Proof.
  intros (h & k & Hi & Hk) Hs. destruct (Hs k Hk) as [Hr Hk'].
  destruct (effect_direct _ d sql [] h k Hi (may_compile_in _ _ _ Hk) Hr) as [_ Hi'].
  by eapply settled_intro.
Qed.

Lemma session_exec sql base w :
  harmless sql -> session base w ->
  exists e w', corm_exec db sql w = Ret e w' /\ session base w'.
Proof.
  intros Hh Hs. pose proof Hs as [Hp _ _ Hd].
  destruct (corm_exec_step sqlite3_backend sql w Hp (settled_ready _ Hd)) as [E _]; [constructor|].
  eexists _, _. split; [exact E|]. apply session_db; [done|].
  refine (exec_step_settled sqlite3_backend ms sql (w_db w) Hd _). apply harmless_settled; [|done].
  exact (settled_ticked sqlite3_backend ms (w_db w) Hd).
Qed.

Lemma session_tx sql base w :
  harmless sql -> session base w ->
  exists e w', sqlite_exec sql [] w = Ret e w' /\ session base w'.
Proof.
  intros Hh Hs. pose proof Hs as [Hp _ _ Hd].
  pose proof (drv_exec_law (SqlDriver := sqlite_driver) w sql [] [] Hp (settled_ready _ Hd)
    (List.Forall_nil _) (List.Forall2_nil _)) as E.
  eexists _, _. split; [exact E|]. apply session_db; [done|]. by apply harmless_settled.
Qed.

Lemma session_migrate base w :
  Forall (fun p => ready CORM_BACKEND_SQLITE p.1 p.2) ms -> session base w ->
  exists e w', corm_auto_migrate db (Some (map (fun p => Some p.1) ms)) (Z.of_nat (length ms)) w =
    Ret e w' /\ session base w'.
Proof.
  intros Hr [Hp Hwf Hh Hd].
  destruct (migrate_loop_leads sqlite3_backend ms ms ltac:(done) Hr w Hp Hwf Hd)
    as (w' & E & [Hh' Hp' Hwf' Hd' _]).
  eexists _, w'. split; [unfold corm_auto_migrate, db; rewrite bind_deref_Some, Nat2Z.id; exact E|].
  constructor; [done|by apply Hwf'|congruence|done].
Qed.

(** ** Looking at a result *)

(** The client also owns the result [lo] of [rows], on the row number [i]. *)
Record viewing (base : gmap loc block) lo (types : list corm_field_type)
    (rows : list (list sqlite_value)) (i : Z) w : Prop := {
  vw_plenty : plenty w;
  vw_wf : heap_wf w;
  vw_settled : sqlite_settled ms (w_db w);
  vw_result : exists res, result_at w lo res base /\ r_refcount res = 1 /\
    r_current_row res = i /\ r_column_types res = types /\
    Forall2 (row_ok (w_heap w) types) rows (r_rows res)
}.

(** The types of the columns of [sql] once [rows] were read. *)
Definition types_of (n : nat) (rows : list (list sqlite_value)) : list corm_field_type :=
  table_types (replicate n CORM_INT) rows.

Definition raw_post base n (shape : list sqlite_value -> Prop) (r : corm_err * option loc) w : Prop :=
  if is_err r.1 then r.2 = None /\ session base w
  else exists lo rows, r.2 = Some lo /\ Forall shape rows /\
    viewing base lo (types_of n rows) rows (-1) w.

Lemma after_statement_settled sql start e w :
  sqlite_settled ms (w_db w) ->
  exists d, after_statement sql start e w = Ret tt (set_db d w) /\ sqlite_settled ms d.
Proof.
  intros Hd. pose proof Hd as (h & k & Hi & Hk).
  destruct Hi as (sc & m & (l & (c & Hc & _) & _) & _).
  rewrite (after_statement_spec sql start e w c Hc). eexists. split; [done|].
  refine (settled_log (b := sqlite3_backend) (ms := ms) _ _ _
    (settled_report (b := sqlite3_backend) (ms := ms) _ sql e c Hc Hd)).
Qed.

Lemma result_at_db w d lo res base : result_at w lo res base -> result_at (set_db d w) lo res base.
Proof. by intros []. Qed.

Lemma session_raw sql names shape base w :
  query_law (sane (ms := ms)) sql names shape -> session base w ->
  exists r w', corm_raw db sql w = Ret r w' /\ raw_post base (length names) shape r w'.
Proof.
  intros [Hc Hr Hsn] [Hp Hwf Hh (h & k & Hi & Hk)].
  pose proof (idle_log _ _ _ _ _ _ (p_log (w_db w)) (p_reads (w_db w) + 1)%nat Hi) as Hi1.
  assert (Hcur : compiles k sql = true -> stmt_columns sql (w_db (tick w)) = columns k sql).
  { intros Hcomp. destruct (stmt_columns_cases _ _ _ _ _ _ sql Hi1) as [(k0 & Hk0 & Hc0 & Heq)|Heq]; [|done].
    etrans; [exact Heq|]. by rewrite (Hc k0), (Hc k). }
  destruct (query_current Hsize _ sql [] [] true h k (tick w) (may_compile_in _ k sql Hk) Hcur Hp Hwf Hi1)
    as (e & out & w1 & E1 & Hp1 & Hwf1 & Hle1 & Hi2 & Hpost & Hcomp & Hclean); [constructor..|].
  specialize (Hr k Hk). specialize (Hsn k Hk). cbn [map] in Hpost, Hcomp, Hclean, Hi2.
  destruct (direct_query k sql []) as [o k1]. cbn [fst snd] in Hr, Hsn, Hpost, Hcomp, Hclean, Hi2.
  destruct (after_statement_settled sql (p_time (w_db w) (p_reads (w_db w))) e w1) as (d2 & E2 & Hd2);
    [by eapply settled_intro|].
  unfold corm_raw, db. rewrite (bind_Ret _ _ _ _ _ (clock_ok w)).
  cbn [be_query sqlite3_backend]. rewrite bind_deref_Some.
  rewrite (bind_Ret _ _ _ _ _ E1), (bind_Ret _ _ _ _ _ E2). eexists _, _. split; [done|].
  unfold raw_post. destruct o as [rows|]; cbn [query_post fst snd] in *.
  - destruct Hpost as (-> & lo & res & -> & Hat & Ht). cbn. exists lo, rows.
    split; [done|]. split; [done|]. destruct Ht as [_ _ Hty Hrows [Hstart Hrf]].
    constructor; [done|done|done|]. exists res. rewrite <- Hh. split; [exact (result_at_db _ _ _ _ _ Hat)|].
    unfold types_of. rewrite <- (Hc k Hk (Hcomp ltac:(by eexists))), <- Hty. by rewrite Hstart, Hrf.
  - destruct Hpost as [-> ->]. cbn. split; [done|].
    constructor; [done|done| |done]. cbn. by rewrite (Hclean Hr eq_refl).
Qed.

Lemma view_release base lo types rows i w :
  viewing base lo types rows i w ->
  exists w', corm_result_release (Some lo) w = Ret tt w' /\ session base w'.
Proof.
  intros [Hp Hwf Hd (res & Ha & Hrf & _)]. exists (set_heap base w).
  split; [exact (release_last w lo res base Ha Hrf)|]. constructor; [done| |done|done].
  intros l [b Hl]. cbn in Hl. apply Hwf. destruct Ha as [_ (_ & _ & Hb) _ _].
  rewrite Hb in Hl. case_decide; [done|by eexists].
Qed.

(** Only the number of the current row changes. *)
Lemma view_move base lo types rows i j w res :
  viewing base lo types rows i w -> get_result (Some lo) w = Ret res w -> -1 <= j ->
  exists w', put_result (Some lo) (set_current j res) w = Ret tt w' /\
    viewing base lo types rows j w'.
Proof.
  intros [Hp Hwf Hd (res' & Ha & Hrf & _ & Ht & Hrows)] Eg Hj.
  rewrite (get_result_ok _ _ _ _ Ha) in Eg. injection Eg as ->.
  destruct (put_result_ok w lo res base (set_current j res) Ha) as (w' & E & Ha' & _);
    [by destruct res|by destruct res|apply set_current_wf, Ha|].
  destruct (put_result_step w lo res (set_current j res) (ra_load _ _ _ _ Ha) Hp Hwf)
    as (E' & Hp' & Hwf' & Hle).
  rewrite E' in E. injection E as <-. eexists. split; [exact E'|]. constructor; [done|done|done|].
  exists (set_current j res). split; [done|]. destruct res. cbn in *.
  split_and!; try done. eapply Forall2_impl; [done|]. intros row vs Hok.
  unfold row_ok in *. eapply Forall3_impl; [exact Hok|]. intros ty q v (H1 & H2 & H3 & H4).
  split_and!; [done|done|by eapply resolve_text|]. intros x Hx. eapply carries_le; [by apply text_le_data|auto].
Qed.

Lemma view_count base lo types rows i w :
  viewing base lo types rows i w ->
  exists res, get_result (Some lo) w = Ret res w /\ r_row_count res = Z.of_nat (length rows) /\
    r_current_row res = i /\ Z.of_nat (length rows) < 2 ^ 31.
Proof.
  intros [_ _ _ (res & Ha & _ & Hi & _ & Hr)]. exists res.
  split; [exact (get_result_ok _ _ _ _ Ha)|]. destruct Ha as [_ _ _ []].
  apply Forall2_length in Hr. lia.
Qed.

Lemma view_next base lo types rows i w :
  viewing base lo types rows i w -> -1 <= i < Z.of_nat (length rows) ->
  exists w', corm_result_next (Some lo) w = Ret (i + 1 <? Z.of_nat (length rows)) w' /\
    viewing base lo types rows (i + 1) w'.
Proof.
  intros Hv Hi. destruct (view_count _ _ _ _ _ _ Hv) as (res & E & Hn & Hc & Hl).
  destruct (view_move _ _ _ _ _ (i + 1) w res Hv E) as (w' & E' & Hv'); [lia|].
  unfold corm_result_next. rewrite (bind_Ret _ _ _ _ _ E), Hc.
  rewrite wrap_i32_id by (unfold in_i32; lia). rewrite (bind_Ret _ _ _ _ _ E').
  exists w'. split; [|done]. rewrite <- Hn. by destruct res.
Qed.

Lemma view_reset base lo types rows i w :
  viewing base lo types rows i w ->
  exists w', corm_result_reset (Some lo) w = Ret tt w' /\ viewing base lo types rows (-1) w'.
Proof.
  intros Hv. destruct (view_count _ _ _ _ _ _ Hv) as (res & E & _).
  destruct (view_move _ _ _ _ _ (-1) w res Hv E) as (w' & E' & Hv'); [done|].
  unfold corm_result_reset. rewrite (bind_Ret _ _ _ _ _ E). by exists w'.
Qed.

(** A cell of the row. *)
Lemma view_cell base lo types rows i row ty q col w :
  viewing base lo types rows (Z.of_nat i) w -> rows !! i = Some row -> row !! col = Some q ->
  types !! col = Some ty ->
  exists v, corm_result_value (Some lo) (Z.of_nat i) (Z.of_nat col) w = Ret (Some v) w /\
    cell_ok (w_heap w) ty q v.
Proof.
  intros [_ _ _ (res & Ha & _ & _ & Ht & Hrows)] Hrow Hq Hty.
  destruct (Forall2_lookup_l _ _ _ _ _ Hrows Hrow) as (vs & Hvs & Hok).
  destruct (Forall3_lookup_l _ _ _ _ _ _ Hok Hty) as (q' & v & Hq' & Hv & Hcell).
  rewrite Hq in Hq'. injection Hq' as <-. exists v. split; [|done].
  rewrite (result_value_spec _ _ _ _ _ _ Ha). destruct (ra_wf _ _ _ _ Ha).
  pose proof (lookup_lt_Some _ _ _ Hvs). pose proof (lookup_lt_Some _ _ _ Hty). rewrite Ht in *.
  destruct (Z.leb_spec 0 (Z.of_nat i)), (Z.ltb_spec (Z.of_nat i) (r_row_count res)),
    (Z.leb_spec 0 (Z.of_nat col)), (Z.ltb_spec (Z.of_nat col) (r_column_count res)); try lia.
  unfold cell_at. cbn. rewrite !Nat2Z.id, Hvs. cbn. by rewrite Hv.
Qed.

(** ** Opening *)

(** What opening the database [body] relies on: a successful open gives a handle
    to a sane database without statements, which the two pragmas of the driver
    keep. *)
Record open_law (body : string) : Prop := OpenLaw {
  ol_open : forall l, stmts_of l = ∅ -> (sqlite3_open body l).1.1 = SQLITE_OK ->
    exists h, (sqlite3_open body l).1.2 = Some h /\ stmts_of (sqlite3_open body l).2 = ∅ /\
      sane (ms := ms) (db_of (sqlite3_open body l).2);
  ol_pragma : forall h sql l, sql ∈ ["PRAGMA journal_mode=WAL"; "PRAGMA foreign_keys=ON"] ->
    sane (ms := ms) (db_of l) ->
    stmts_of (sqlite3_exec h sql l).2 = stmts_of l /\
    sane (ms := ms) (db_of (sqlite3_exec h sql l).2)
}.

(** A new connection: its registry is empty. *)
Definition opened (base : gmap loc block) w : Prop :=
  session base w /\ exists c, p_db (w_db w) = Some c /\ c_registry c = fresh_registry.

(** The state after [sqlite_open]. *)
Lemma sqlite_open_ok body n reg w :
  open_law body -> stmts_of (p_env (w_db w)) = ∅ -> 1 <= n ->
  (exists c, p_db (w_db w) = Some c /\ c_stmt_cache c = Some (Stmts n [] false) /\ c_registry c = reg) ->
  exists e d c, sqlite_open body w = Ret e (set_db d w) /\ p_db d = Some c /\ c_registry c = reg /\
    (e = CORM_OK -> sqlite_settled ms d).
Proof.
  intros [Hopen Hprag] Hl Hn (c & Hc & Hsc & Hr). specialize (Hopen _ Hl).
  destruct w as [o hp nx [pd lg tm rd env]], c as [cn cf rg le em es li ra lo sc ct]. cbn in *. subst.
  unfold sqlite_open, set_lib_error, corm_set_err_msg, lib, ask, upd_corm, get_corm, put_corm, get_db, put_db, mbind, M_bind. cbn.
  destruct (sqlite3_open body env) as [[rc oh] l1]. cbn in Hopen |- *.
  destruct (Z.eqb_spec rc SQLITE_OK) as [->|Hrc]; cbn [negb].
  - destruct (Hopen eq_refl) as (h & -> & Hs1 & Hk1). cbn.
    destruct (Hprag h "PRAGMA journal_mode=WAL" l1) as [Hs2 Hk2]; [by left|done|].
    destruct (sqlite3_exec h "PRAGMA journal_mode=WAL" l1) as [rc2 l2]. cbn in *.
    destruct (Hprag h "PRAGMA foreign_keys=ON" l2) as [Hs3 Hk3]; [by right; left|done|].
    destruct (sqlite3_exec h "PRAGMA foreign_keys=ON" l2) as [rc3 l3]. cbn in *.
    eexists CORM_OK, _, _. split; [done|]. cbn. split; [done|]. split; [done|]. intros _.
    exists h, (db_of l3). split; [|done]. exists (Some (Stmts n [] true)), ∅.
    split; [exists l3; split; [by eexists|split; [done|congruence]]|]. split; [|split; [|split]].
    + split; [constructor; try apply NoDup_nil_2; by intros ?? ?%not_elem_of_nil|by intros s [= <-]].
    + apply map_Forall_empty.
    + intros _ t p Ht. by rewrite lookup_empty in Ht.
    + intros _. split; [by eexists|]. intros t [p Ht]. by rewrite lookup_empty in Ht.
  - cbn. destruct (sqlite3_close oh l1) as [rc2 l2].
    eexists CORM_ERR_BACKEND, _, _. split; [done|]. by split_and!.
Qed.

(** The statement cache of a program that uses this driver. *)
#[local] Instance sqlite_api : CacheApi S (stmts T) := stmts_api sqlite_finalize_stmt.

Lemma session_open (g : list (backend S)) (dsn : string) body w :
  corm_dsn_parse (Some dsn) true true = (CORM_OK, Some (CORM_BACKEND_SQLITE, body)) ->
  corm_get_backend g CORM_BACKEND_SQLITE = Some sqlite3_backend -> open_law body ->
  plenty w -> heap_wf w -> stmts_of (p_env (w_db w)) = ∅ ->
  exists e w', corm_open g (Some dsn) true w =
      Ret (e, if is_err e then None else Some sqlite3_backend) w' /\
    w_heap w' = w_heap w /\
    (if is_err e then p_db (w_db w') = None else opened (w_heap w) w').
Proof.
  intros Hd Hg Hlaw Hp Hwf Hl. unfold corm_open.
  set (c0 := with_registry fresh_registry (zero_corm CORM_DEFAULT_CONFIG) : corm D (stmts T) X).
  assert (Ecc : cache_create (cache_size CORM_DEFAULT_CONFIG) (set_corm (Some c0) w) =
    Ret (CORM_OK, Some (Stmts 64 [] false)) (set_corm (Some c0) w)).
  { cbn. run_with (malloc_ok_plenty (set_corm (Some c0) w) Hp). done. }
  rewrite (open_steps g dsn _ _ body w _ _ _ Hp Hd Ecc eq_refl), Hg. cbn [be_open sqlite3_backend].
  set (w1 := set_corm _ _).
  destruct (sqlite_open_ok body 64 fresh_registry w1 Hlaw Hl ltac:(done)) as (e & d1 & c1 & E & Hc1 & Hr1 & Hs1);
    [by eexists|].
  run_with E. destruct (is_err e) eqn:He.
  - eexists e, _. rewrite He. by split_and!.
  - assert (e = CORM_OK) as -> by by destruct e. rewrite (bind_Ret _ _ _ _ _ (clock_ok _)).
    rewrite (bind_Ret _ _ _ _ _ (upd_corm_ok (tick (set_db d1 w1)) c1 _ Hc1)).
    eexists CORM_OK, _. split; [done|]. split; [done|]. specialize (Hs1 eq_refl).
    split; [constructor; [done|done|done|]|by exists (with_created (clock_ms (p_time d1 (p_reads d1))) c1); destruct c1].
    destruct Hs1 as (h & k & (sc & m & (l & (c & Hc & Hcn & Hsc & Hl2) & Hv) & Hi) & Hk).
    exists h, k. split; [|done]. exists sc, m. split; [|done]. exists l. split; [|done].
    assert (c = c1) as -> by (cbn in Hc; congruence). destruct c1. by eexists.
Qed.

(** Registering a valid model. *)
Lemma session_register (m : model X) base w :
  corm_validate_model (Some m) w = Ret CORM_OK w -> is_Some (m_table_name m) -> opened base w ->
  exists e w', register_model m w = Ret e w' /\ session base w'.
Proof.
  intros Hv [name Hname] [[Hp Hwf Hh (h & k & Hi & Hk)] (c & Hc & Hr)].
  unfold register_model. run_with (get_corm_ok w c Hc). unfold corm_register_model.
  rewrite bind_assoc, (bind_Ret _ _ _ _ _ Hv). cbn [is_err err_code]. rewrite Hname.
  assert (Hf : hash_wf (models_by_table (c_registry c))) by by rewrite Hr.
  destruct (insert_ok _ name m w Hf Hp) as (t & E & _). cbn. run. rewrite bind_assoc. run_with E.
  rewrite (bind_Ret _ _ _ _ _ (upd_corm_ok w c _ Hc)). eexists _, _. split; [done|].
  constructor; [done|done|done|]. destruct Hi as (sc & mm & (l & (c' & Hc' & Hcn & Hsc & Hl) & Hv') & Hi).
  assert (c' = c) as -> by congruence. exists h, k. split; [|done]. exists sc, mm. split; [|done].
  exists l. split; [|done]. destruct c. by eexists.
Qed.
End session.
