(* ===== verification/SmallSql.v ===== *)
(** * A small SQL database

    An instance of [Sqlite3] that reads the SQL text it is given: a lexer, a parser
    and an evaluator for the statements that the generator, the migration and the
    programs of [examples/] and [tests/] send - CREATE TABLE and INDEX, ALTER and
    DROP TABLE, INSERT of several rows, SELECT from one table with conditions, order
    and limit, UPDATE, DELETE, transactions, savepoints and [PRAGMA table_info].
    Values have the type affinity of their column, an integer primary key is
    numbered, NOT NULL and PRIMARY KEY are checked, REFERENCES for inserted rows,
    and the catalogue is the table [sqlite_master].  The few words of MySQL that the
    generator and the migration use are understood too ([SmallMysql.v]).
    [ProgramRuns.v] runs the programs on it. *)

From S2P Require Import Prelude Types Mem Strbuf CLib Core StmtCache DriverState Sqlite SqliteSpec SqliteExec SqliteLibrary.

(** ** Words *)

Inductive token : Type :=
  | TWord (s : string)               (* a name or a key word *)
  | TName (s : string)               (* a name in quotes *)
  | TNum (s : string)
  | TText (s : string)
  | TBlob (bs : list ascii)
  | TMark (i : Z)                    (* the [i]-th question mark *)
  | TSym (c : ascii).

Fixpoint lower_all (s : string) : string :=
  match s with EmptyString => EmptyString | String c s => String (lower c) (lower_all s) end.

Definition QUOTE : ascii := "039".

Fixpoint span (f : ascii -> bool) (s : string) : string * string :=
  match s with
  | EmptyString => (EmptyString, EmptyString)
  | String c s' => if f c then let '(a, b) := span f s' in (String c a, b) else (EmptyString, s)
  end.

Definition word_char (c : ascii) : bool := is_alnum c || Ascii.eqb c "_".
Definition num_char (c : ascii) : bool := is_digit c || Ascii.eqb c ".".

(** The text up to the next [q], and what is behind it. *)
Definition quoted_text (q : ascii) (s : string) : string * string :=
  let '(a, b) := span (fun c => negb (Ascii.eqb c q)) s in (a, str_drop 1 b).

(** Pairs of hexadecimal digits. *)
Fixpoint hex_bytes (s : string) : list ascii :=
  match s with
  | String a (String b s) =>
      ascii_of_N (Z.to_N (16 * default 0 (hex_val a) + default 0 (hex_val b))) :: hex_bytes s
  | _ => []
  end.

(** Each round consumes a character. *)
Fixpoint lex (fuel : nat) (marks : Z) (s : string) : list token :=
  match fuel, s with
  | Datatypes.S fuel, String c s' =>
      if is_space c then lex fuel marks s'
      else if Ascii.eqb c QUOTE then
        let '(a, b) := quoted_text c s' in TText a :: lex fuel marks b
      else if String.eqb (String c EmptyString) dquote || Ascii.eqb c "`" then
        let '(a, b) := quoted_text c s' in TName a :: lex fuel marks b
      else if is_digit c then let '(a, b) := span num_char s in TNum a :: lex fuel marks b
      else if starts_with (String "x" (String QUOTE EmptyString)) s then
        let '(a, b) := quoted_text QUOTE (str_drop 2 s) in TBlob (hex_bytes a) :: lex fuel marks b
      else if word_char c then let '(a, b) := span word_char s in TWord a :: lex fuel marks b
      else if Ascii.eqb c "?" then TMark (marks + 1) :: lex fuel (marks + 1) s'
      else TSym c :: lex fuel marks s'
  | _, _ => []
  end.

Definition words (sql : string) : list token := lex (Datatypes.S (String.length sql)) 0 sql.

(** ** Statements *)

Inductive expr : Type :=
  | EVal (q : sqlite_value)
  | EMark (i : Z)
  | ECol (s : string).

Inductive cond : Type :=
  | CTrue
  | CCmp (op : string) (a b : expr)
  | CNull (a : expr)
  | CNotNull (a : expr)
  | CIn (a : expr) (bs : list expr)
  | CBetween (a b c : expr)
  | CAnd (p q : cond)
  | COr (p q : cond).

Record column : Type := Column {
  col_name : string;
  col_type : string;
  col_default : sqlite_value;
  col_not_null : bool;
  col_pk : bool;
  col_ref : option (string * string) (* table and column *)
}.

Inductive items : Type := IAll | ICount | INames (names : list string).

Inductive stmt : Type :=
  | QCreate (table : string) (cols : list column) (sql : string)
  | QIndex (name table : string) (sql : string)
  | QAlter (table : string) (col : column)
  | QDrop (table : string)
  | QInsert (table : string) (cols : list string) (rows : list (list expr))
  | QValues (es : list expr)
  | QSelect (what : items) (table : string) (where_ : cond) (order : option (string * bool))
      (limit : option (Z * Z))
  | QUpdate (table : string) (sets : list (string * expr)) (where_ : cond)
  | QDelete (table : string) (where_ : cond)
  | QBegin
  | QCommit
  | QRollback
  | QSavepoint (s : string)
  | QRelease (s : string)
  | QRollbackTo (s : string)
  | QInfo (table : string)
  | QIgnored.

(** ** The parser *)

Definition parser (A : Type) : Type := list token -> option (A * list token).

#[export] Instance parser_ret : MRet parser := fun A a ts => Some (a, ts).
#[export] Instance parser_bind : MBind parser := fun A B k p ts =>
  match p ts with Some (a, ts) => k a ts | None => None end.

Definition failure {A} : parser A := fun _ => None.
Definition orelse {A} (p q : parser A) : parser A := fun ts =>
  match p ts with None => q ts | r => r end.
Definition optional {A} (p : parser A) : parser (option A) := orelse (a ← p; mret (Some a)) (mret None).

Definition sym (c : ascii) : parser unit := fun ts =>
  match ts with
  | TSym c' :: ts => if Ascii.eqb c c' then Some (tt, ts) else None
  | _ => None
  end.

(** Key words have no case. *)
Definition kw (w : string) : parser unit := fun ts =>
  match ts with
  | TWord s :: ts => if String.eqb (lower_all s) (lower_all w) then Some (tt, ts) else None
  | _ => None
  end.
Fixpoint kws (ws : list string) : parser unit :=
  match ws with [] => mret tt | w :: ws => kw w;; kws ws end.
Definition has_kws (ws : list string) : parser bool :=
  orelse (kws ws;; mret true) (mret false).

(** A key word is a name only in quotes. *)
Definition reserved (s : string) : bool :=
  existsb (String.eqb (lower_all s))
    ["select"; "from"; "where"; "group"; "order"; "limit"; "and"; "or"; "not"; "null"; "values";
     "insert"; "into"; "update"; "set"; "delete"; "create"; "table"; "index"; "alter"; "drop"; "primary";
     "references"; "default"; "unique"; "in"; "is"; "between"; "as"; "on"; "exists"].

Definition name : parser string := fun ts =>
  match ts with
  | TWord s :: ts => if reserved s then None else Some (s, ts)
  | TName s :: ts => Some (s, ts)
  | _ => None
  end.

(** One or more, separated by commas; each takes a word. *)
Fixpoint list_of {A} (fuel : nat) (p : parser A) : parser (list A) :=
  match fuel with
  | O => failure
  | Datatypes.S fuel =>
      a ← p;
      more ← optional (sym ",");
      match more with Some _ => l ← list_of fuel p; mret (a :: l) | None => mret [a] end
  end.
Definition commas_of {A} (p : parser A) : parser (list A) := fun ts => list_of (length ts) p ts.
Definition in_parens {A} (p : parser A) : parser A := sym "(";; a ← p; sym ")";; mret a.

Definition at_end : parser unit := fun ts => match ts with [] => Some (tt, []) | _ => None end.

Definition number (s : string) : sqlite_value :=
  if str_count "."%char s =? 0 then QInt (strtoll s) else QFloat (strtod s).

Definition p_expr : parser expr := fun ts =>
  match ts with
  | TNum s :: ts => Some (EVal (number s), ts)
  | TText s :: ts => Some (EVal (QText s), ts)
  | TBlob bs :: ts => Some (EVal (QBlob bs), ts)
  | TMark i :: ts => Some (EMark i, ts)
  | _ => orelse (kw "NULL";; mret (EVal QNull)) (s ← name; mret (ECol s)) ts
  end.

Definition p_operator : parser string := fun ts =>
  match ts with
  | TSym "<" :: TSym "=" :: ts => Some ("<=", ts)
  | TSym ">" :: TSym "=" :: ts => Some (">=", ts)
  | TSym "<" :: TSym ">" :: ts | TSym "!" :: TSym "=" :: ts => Some ("<>", ts)
  | TSym "<" :: ts => Some ("<", ts)
  | TSym ">" :: ts => Some (">", ts)
  | TSym "=" :: ts => Some ("=", ts)
  | _ => None
  end.

Definition p_test : parser cond :=
  a ← p_expr;
  orelse (kws ["IS"; "NULL"];; mret (CNull a))
  (orelse (kws ["IS"; "NOT"; "NULL"];; mret (CNotNull a))
  (orelse (kws ["IN"];; bs ← in_parens (commas_of p_expr); mret (CIn a bs))
  (orelse (kws ["BETWEEN"];; b ← p_expr; kws ["AND"];; c ← p_expr; mret (CBetween a b c))
          (op ← p_operator; b ← p_expr; mret (CCmp op a b))))).

(** AND binds tighter than OR; each level consumes a word. *)
Fixpoint p_cond (fuel : nat) : parser cond :=
  match fuel with
  | O => failure
  | Datatypes.S fuel =>
      p ← p_conj fuel;
      more ← has_kws ["OR"];
      if (more : bool) then q ← p_cond fuel; mret (COr p q) else mret p
  end
with p_conj (fuel : nat) : parser cond :=
  match fuel with
  | O => failure
  | Datatypes.S fuel =>
      p ← orelse (in_parens (p_cond fuel)) p_test;
      more ← has_kws ["AND"];
      if (more : bool) then q ← p_conj fuel; mret (CAnd p q) else mret p
  end.

Definition p_condition : parser cond := fun ts => p_cond (2 * length ts) ts.
Definition p_where : parser cond :=
  more ← has_kws ["WHERE"]; if (more : bool) then p_condition else mret CTrue.

(** What follows the type of a column; the type may have a size. *)
Fixpoint p_constraints (fuel : nat) (c : column) : parser column :=
  match fuel with
  | O => mret c
  | Datatypes.S fuel =>
      let '(Column n t d nn pk ref) := c in
      orelse (kws ["PRIMARY"; "KEY"];; optional (kws ["AUTOINCREMENT"]);;
              p_constraints fuel (Column n t d nn true ref))
      (orelse (kws ["NOT"; "NULL"];; p_constraints fuel (Column n t d true pk ref))
      (orelse (kws ["UNIQUE"];; p_constraints fuel c)
      (orelse (kws ["AUTO_INCREMENT"];; p_constraints fuel (Column n "INTEGER" d nn pk ref))
      (orelse (kws ["DEFAULT"];; e ← p_expr;
               p_constraints fuel (Column n t (match e with EVal q => q | _ => QNull end) nn pk ref))
      (orelse (kws ["REFERENCES"];; r ← name; m ← in_parens name;
               p_constraints fuel (Column n t d nn pk (Some (r, m))))
              (mret c))))))
  end.

Definition p_column : parser column :=
  n ← name;
  t ← name;
  optional (in_parens p_expr);;
  p_constraints 8 (Column n t QNull false false None).

(** A column, or the names of the primary key. *)
Definition p_part : parser (column + list string) :=
  orelse (kws ["PRIMARY"; "KEY"];; ns ← in_parens (commas_of name); mret (inr ns))
         (c ← p_column; mret (inl c)).

Definition columns_of (parts : list (column + list string)) : list column :=
  let keys := mjoin (omap (fun p => match p with inr ns => Some ns | _ => None end) parts) in
  let cols := omap (fun p => match p with inl c => Some c | _ => None end) parts in
  map (fun c => if bool_decide (col_name c ∈ keys)
                then Column (col_name c) (col_type c) (col_default c) (col_not_null c) true (col_ref c)
                else c) cols.

Definition p_items : parser items :=
  orelse (sym "*";; mret IAll)
  (orelse (kws ["COUNT"];; sym "(";; sym "*";; sym ")";; optional (kws ["AS"];; name);;
           mret ICount)
          (ns ← commas_of name; mret (INames ns))).

(** The name and whether the order is descending. *)
Definition p_order : parser (string * bool) :=
  n ← name;
  desc ← has_kws ["DESC"];
  if (desc : bool) then mret (n, true) else optional (kws ["ASC"]);; mret (n, false).

Definition p_int : parser Z := fun ts =>
  match ts with TNum s :: ts => Some (strtoll s, ts) | _ => None end.

(** After a key word. *)
Definition p_after {A} (ws : list string) (p : parser A) : parser (option A) :=
  more ← has_kws ws; if (more : bool) then a ← p; mret (Some a) else mret None.

Definition p_limit : parser (option (Z * Z)) :=
  p_after ["LIMIT"] (n ← p_int; off ← p_after ["OFFSET"] p_int; mret (n, default 0 off)).

Definition p_set : parser (string * expr) := n ← name; sym "=";; e ← p_expr; mret (n, e).

(** The statements by their first words. *)
Definition statements : list (list string * parser stmt) :=
  [(["CREATE"; "TABLE"],
    optional (kws ["IF"; "NOT"; "EXISTS"]);; t ← name; ps ← in_parens (commas_of p_part);
    mret (QCreate t (columns_of ps) ""));
   (["CREATE"; "INDEX"],
    optional (kws ["IF"; "NOT"; "EXISTS"]);; n ← name; kws ["ON"];; t ← name;
    in_parens (commas_of name);; mret (QIndex n t ""));
   (["ALTER"; "TABLE"], t ← name; kws ["ADD"; "COLUMN"];; c ← p_column; mret (QAlter t c));
   (["DROP"; "TABLE"], optional (kws ["IF"; "EXISTS"]);; t ← name; mret (QDrop t));
   (["INSERT"; "INTO"],
    t ← name; cs ← in_parens (commas_of name); kws ["VALUES"];;
    rows ← commas_of (in_parens (commas_of p_expr)); mret (QInsert t cs rows));
   (["SELECT"], es ← commas_of p_expr; at_end;; mret (QValues es));
   (["SELECT"],
    optional (kws ["DISTINCT"]);; what ← p_items; kws ["FROM"];; t ← name; c ← p_where;
    order ← p_after ["ORDER"; "BY"] p_order; limit ← p_limit; mret (QSelect what t c order limit));
   (["UPDATE"], t ← name; kws ["SET"];; sets ← commas_of p_set; c ← p_where; mret (QUpdate t sets c));
   (["DELETE"; "FROM"], t ← name; c ← p_where; mret (QDelete t c));
   (["BEGIN"], optional (kws ["TRANSACTION"]);; mret QBegin);
   (["START"; "TRANSACTION"], mret QBegin);
   (["COMMIT"], mret QCommit);
   (["ROLLBACK"; "TO"], optional (kws ["SAVEPOINT"]);; s ← name; mret (QRollbackTo s));
   (["ROLLBACK"], mret QRollback);
   (["SAVEPOINT"], s ← name; mret (QSavepoint s));
   (["RELEASE"], optional (kws ["SAVEPOINT"]);; s ← name; mret (QRelease s));
   (["PRAGMA"; "table_info"], t ← in_parens name; mret (QInfo t));
   (["SHOW"; "COLUMNS"; "FROM"], t ← name; mret (QInfo t));
   (["PRAGMA"], fun ts => Some (QIgnored, []))].

Definition p_statement : parser stmt :=
  foldr (fun '(ws, p) rest => orelse (kws ws;; p) rest) failure statements.

(** One statement, all of the text; the catalogue keeps the text. *)
Definition parse (sql : string) : option stmt :=
  match (s ← p_statement; optional (sym ";");; mret s) (words sql) with
  | Some (QCreate t cs _, []) => Some (QCreate t cs sql)
  | Some (QIndex n t _, []) => Some (QIndex n t sql)
  | Some (s, []) => Some s
  | _ => None
  end.

(** ** Values *)

(** Doubles are ordered as their patterns, by magnitude. *)
Definition float_key (b : Z) : Z := if Z.testbit b 63 then - (b - 2 ^ 63) else b.
Definition as_float (z : Z) : Z := strtod (pretty z).

(** NULL has no order. *)
Definition compare_values (a b : sqlite_value) : option comparison :=
  match a, b with
  | QNull, _ | _, QNull => None
  | QInt x, QInt y => Some (x ?= y)
  | QInt x, QFloat y => Some (float_key (as_float x) ?= float_key y)
  | QFloat x, QInt y => Some (float_key x ?= float_key (as_float y))
  | QFloat x, QFloat y => Some (float_key x ?= float_key y)
  | QText s, QText t => Some (String.compare s t)
  | QBlob s, QBlob t => Some (String.compare (string_of_list_ascii s) (string_of_list_ascii t))
  | _, _ => Some (class_of a ?= class_of b)
  end.

(** What a column stores for a value. *)
Definition affine (c : column) (q : sqlite_value) : sqlite_value :=
  match q with
  | QInt z =>
      if existsb (String.eqb (col_type c)) ["REAL"; "FLOAT"; "DOUBLE"] then QFloat (as_float z)
      else if existsb (String.eqb (col_type c)) ["TEXT"; "VARCHAR"] then QText (pretty z) else q
  | _ => q
  end.

(** ** Rows *)

Abbreviation row := (list sqlite_value).

Record table : Type := Table {
  tb_cols : list column;
  tb_rows : list row;
  tb_last : Z                        (* the last number of the primary key *)
}.

Definition column_index (cols : list column) (s : string) : option nat :=
  fst <$> list_find (fun c => col_name c = s) cols.

Section rows.
Context (cols : list column) (binds : gmap Z sqlite_value).

Definition eval (r : row) (e : expr) : sqlite_value :=
  match e with
  | EVal q => q
  | EMark i => default QNull (binds !! i)
  | ECol s => default QNull (i ← column_index cols s; r !! i)
  end.

Definition compares (op : string) (a b : sqlite_value) : bool :=
  match compare_values a b with
  | None => false
  | Some c =>
      existsb (fun '(o, cs) => String.eqb op o && existsb (fun d => bool_decide (c = d)) cs)
        [("=", [Eq]); ("<>", [Lt; Gt]); ("<", [Lt]); ("<=", [Lt; Eq]); (">", [Gt]); (">=", [Gt; Eq])]
  end.

Fixpoint satisfies (r : row) (c : cond) : bool :=
  match c with
  | CTrue => true
  | CCmp op a b => compares op (eval r a) (eval r b)
  | CNull a => bool_decide (eval r a = QNull)
  | CNotNull a => negb (bool_decide (eval r a = QNull))
  | CIn a bs => existsb (fun b => compares "=" (eval r a) (eval r b)) bs
  | CBetween a b c => compares ">=" (eval r a) (eval r b) && compares "<=" (eval r a) (eval r c)
  | CAnd p q => satisfies r p && satisfies r q
  | COr p q => satisfies r p || satisfies r q
  end.

(** The positions of the primary key; a single integer one is numbered. *)
Definition key_columns : list nat :=
  omap (fun '(i, c) => if col_pk c then Some i else None) (imap pair cols).
Definition numbered (c : column) : bool :=
  col_pk c && String.eqb (col_type c) "INTEGER" && (length key_columns =? 1)%nat.

(** The value of the column in a row to be inserted; [es] are the values of the
    columns named. *)
Definition insert_value (names : list string) (es : list expr) (last : Z) (c : column) : sqlite_value :=
  let q := match list_find (fun n => n = col_name c) names with
           | Some (i, _) => default QNull (eval [] <$> es !! i)
           | None => col_default c
           end in
  match affine c q with
  | QNull => if numbered c then QInt (last + 1) else QNull
  | q => q
  end.

(** What a value refers to is there. *)
Definition refers (m : gmap string table) (c : column) (q : sqlite_value) : bool :=
  match col_ref c, q with
  | None, _ | _, QNull => true
  | Some (t, n), q =>
      match m !! t with
      | Some tb => match column_index (tb_cols tb) n with
                   | Some i => existsb (fun r => bool_decide (r !! i = Some q)) (tb_rows tb)
                   | None => false
                   end
      | None => false
      end
  end.

(** NOT NULL and REFERENCES hold, and no other row has the primary key. *)
Definition row_allowed (m : gmap string table) (rows : list row) (r : row) : bool :=
  forallb (fun '(c, q) => negb (col_not_null c && bool_decide (q = QNull)) && refers m c q) (zip cols r) &&
  match key_columns with
  | [] => true
  | ks => negb (existsb (fun r' => forallb (fun i => bool_decide (r' !! i = r !! i)) ks) rows)
  end.

(** The value of the primary key. *)
Definition row_key (r : row) : option Z :=
  match list_find (fun c => col_pk c = true) cols with
  | Some (i, _) => match r !! i with Some (QInt z) => Some z | _ => None end
  | None => None
  end.

Fixpoint insert_rows (m : gmap string table) (names : list string) (rows : list (list expr)) (t : table) : option table :=
  match rows with
  | [] => Some t
  | es :: rows =>
      let r := map (insert_value names es (tb_last t)) cols in
      if row_allowed m (tb_rows t) r then
        insert_rows m names rows
          (Table (tb_cols t) (tb_rows t ++ [r]) (Z.max (tb_last t) (default (tb_last t + 1) (row_key r))))
      else None
  end.

Definition set_columns (sets : list (string * expr)) (r : row) : row :=
  foldl (fun r' '(n, e) =>
    match list_find (fun c => col_name c = n) cols with
    | Some (i, c) => <[i := affine c (eval r e)]> r'
    | None => r'
    end) r sets.

Fixpoint insert_sorted (i : nat) (desc : bool) (r : row) (rs : list row) : list row :=
  match rs with
  | [] => [r]
  | r' :: rs' =>
      let c := compare_values (default QNull (r !! i)) (default QNull (r' !! i)) in
      if bool_decide (c = Some (if desc then Gt else Lt)) then r :: rs
      else r' :: insert_sorted i desc r rs'
  end.

Definition sort_rows (order : option (string * bool)) (rs : list row) : list row :=
  match order with
  | Some (n, desc) =>
      match column_index cols n with
      | Some i => foldl (fun acc r => insert_sorted i desc r acc) [] rs
      | None => rs
      end
  | None => rs
  end.

Definition project (what : items) (rs : list row) : list row :=
  match what with
  | IAll => rs
  | ICount => [[QInt (Z.of_nat (length rs))]]
  | INames ns => map (fun r => map (fun n => eval r (ECol n)) ns) rs
  end.

(** Is the column known? *)
Definition expr_ok (e : expr) : bool :=
  match e with ECol s => bool_decide (is_Some (column_index cols s)) | _ => true end.
Fixpoint cond_ok (c : cond) : bool :=
  match c with
  | CTrue => true
  | CCmp _ a b => expr_ok a && expr_ok b
  | CNull a | CNotNull a => expr_ok a
  | CIn a bs => expr_ok a && forallb expr_ok bs
  | CBetween a b c => expr_ok a && expr_ok b && expr_ok c
  | CAnd p q | COr p q => cond_ok p && cond_ok q
  end.
Definition names_ok (ns : list string) : bool := forallb (fun n => expr_ok (ECol n)) ns.
End rows.

(** ** The database *)

(** The open savepoints, the innermost first; BEGIN has no name. *)
Record sqldb : Type := SqlDb {
  sd_tables : gmap string table;
  sd_saved : list (option string * gmap string table);
  sd_changes : Z;
  sd_rowid : Z
}.

(** The catalogue is a table. *)
Definition catalogue_columns : list column :=
  map (fun n => Column n "TEXT" QNull false false None) ["type"; "name"; "tbl_name"; "sql"].
Definition empty_db : sqldb := SqlDb {["sqlite_master" := Table catalogue_columns [] 0]} [] 0 0.

Definition listed (kind n t sql : string) (m : gmap string table) : gmap string table :=
  alter (fun tb => Table (tb_cols tb) (tb_rows tb ++ [[QText kind; QText n; QText t; QText sql]]) (tb_last tb))
    "sqlite_master" m.
Definition is_listed (kind n : string) (m : gmap string table) : bool :=
  existsb (fun r => bool_decide (take 2 r = [QText kind; QText n])) (from_option tb_rows [] (m !! "sqlite_master")).

Definition with_tables (m : gmap string table) (d : sqldb) : sqldb :=
  SqlDb m (sd_saved d) (sd_changes d) (sd_rowid d).
Definition with_saved (s : list (option string * gmap string table)) (d : sqldb) : sqldb :=
  SqlDb (sd_tables d) s (sd_changes d) (sd_rowid d).

(** The tables at the savepoint [s], and the savepoints around it. *)
Fixpoint saved_at (s : string) (l : list (option string * gmap string table)) :
    option (gmap string table * list (option string * gmap string table)) :=
  match l with
  | [] => None
  | (n, m) :: l => if bool_decide (n = Some s) then Some (m, l) else saved_at s l
  end.

Definition info_row (i : nat) (c : column) : row :=
  [QInt (Z.of_nat i); QText (col_name c); QText (col_type c);
   QInt (if col_not_null c then 1 else 0); col_default c; QInt (if col_pk c then 1 else 0)].

(** Are the tables and columns known? *)
Definition compiled (m : gmap string table) (s : stmt) : bool :=
  match s with
  | QInsert t ns _ => from_option (fun tb => names_ok (tb_cols tb) ns) false (m !! t)
  | QValues es => forallb (expr_ok []) es
  | QSelect what t c _ _ =>
      from_option (fun tb => cond_ok (tb_cols tb) c &&
        match what with INames ns => names_ok (tb_cols tb) ns | _ => true end) false (m !! t)
  | QUpdate t sets c =>
      from_option (fun tb => names_ok (tb_cols tb) (map fst sets) &&
        forallb (fun p => expr_ok (tb_cols tb) p.2) sets && cond_ok (tb_cols tb) c) false (m !! t)
  | QDelete t c => from_option (fun tb => cond_ok (tb_cols tb) c) false (m !! t)
  | QIndex _ t _ => bool_decide (is_Some (m !! t))
  | QAlter t c => from_option (fun tb => negb (names_ok (tb_cols tb) [col_name c])) false (m !! t)
  | _ => true
  end.

(** The columns of the result. *)
Definition result_columns (m : gmap string table) (s : stmt) : list string :=
  match s with
  | QValues es => map (fun _ => "?") es
  | QSelect IAll t _ _ _ => from_option (fun tb => map col_name (tb_cols tb)) [] (m !! t)
  | QSelect ICount _ _ _ _ => ["COUNT(*)"]
  | QSelect (INames ns) _ _ _ _ => ns
  | QInfo _ => ["cid"; "name"; "type"; "notnull"; "dflt_value"; "pk"]
  | _ => []
  end.

Definition max_result : nat := 1000.

Definition limited (limit : option (Z * Z)) (rs : list row) : list row :=
  match limit with Some (n, off) => take (Z.to_nat n) (drop (Z.to_nat off) rs) | None => rs end.

Definition done (d : sqldb) : list row * Z * sqldb := ([], SQLITE_DONE, d).
Definition refused (code : Z) (d : sqldb) : list row * Z * sqldb := ([], code, d).
Definition SQLITE_ERROR : Z := 1.
Definition SQLITE_CONSTRAINT : Z := 19.

(** Rows, last code and the database after the statement. *)
Definition run (d : sqldb) (s : stmt) (binds : gmap Z sqlite_value) : list row * Z * sqldb :=
  let m := sd_tables d in
  match s with
  | QCreate t cols sql =>
      match m !! t with
      | Some _ => done d
      | None => done (with_tables (<[t := Table cols [] 0]> (listed "table" t t sql m)) d)
      end
  | QIndex n t sql =>
      done (if is_listed "index" n m then d else with_tables (listed "index" n t sql m) d)
  | QAlter t c =>
      match m !! t with
      | Some tb =>
          if col_not_null c && bool_decide (col_default c = QNull) && bool_decide (tb_rows tb <> [])
          then refused SQLITE_ERROR d
          else done (with_tables (<[t := Table (tb_cols tb ++ [c])
                 (map (fun r => r ++ [affine c (col_default c)]) (tb_rows tb)) (tb_last tb)]> m) d)
      | None => refused SQLITE_ERROR d
      end
  | QDrop t => done (with_tables (delete t m) d)
  | QInsert t ns rows =>
      match m !! t with
      | Some tb =>
          match insert_rows (tb_cols tb) binds m ns rows tb with
          | Some tb' => done (SqlDb (<[t := tb']> m) (sd_saved d) (Z.of_nat (length rows)) (tb_last tb'))
          | None => refused SQLITE_CONSTRAINT d
          end
      | None => refused SQLITE_ERROR d
      end
  | QValues es => ([map (eval [] binds []) es], SQLITE_DONE, d)
  | QSelect what t c order limit =>
      match m !! t with
      | Some tb =>
          let rs := List.filter (fun r => satisfies (tb_cols tb) binds r c) (tb_rows tb) in
          (limited limit (project (tb_cols tb) binds what (sort_rows (tb_cols tb) order rs)),
           SQLITE_DONE, d)
      | None => refused SQLITE_ERROR d
      end
  | QUpdate t sets c =>
      match m !! t with
      | Some tb =>
          let hit r := satisfies (tb_cols tb) binds r c in
          let rs := map (fun r => if hit r then set_columns (tb_cols tb) binds sets r else r) (tb_rows tb) in
          if forallb (row_allowed (tb_cols tb) m []) rs
          then done (SqlDb (<[t := Table (tb_cols tb) rs (tb_last tb)]> m) (sd_saved d)
                       (Z.of_nat (length (List.filter hit (tb_rows tb)))) (sd_rowid d))
          else refused SQLITE_CONSTRAINT d
      | None => refused SQLITE_ERROR d
      end
  | QDelete t c =>
      match m !! t with
      | Some tb =>
          let hit r := satisfies (tb_cols tb) binds r c in
          done (SqlDb (<[t := Table (tb_cols tb) (List.filter (fun r => negb (hit r)) (tb_rows tb)) (tb_last tb)]> m)
                  (sd_saved d) (Z.of_nat (length (List.filter hit (tb_rows tb)))) (sd_rowid d))
      | None => refused SQLITE_ERROR d
      end
  | QBegin => match sd_saved d with [] => done (with_saved [(None, m)] d) | _ => refused SQLITE_ERROR d end
  | QCommit => match sd_saved d with [] => refused SQLITE_ERROR d | _ => done (with_saved [] d) end
  | QRollback =>
      match last (sd_saved d) with
      | Some (_, m') => done (with_saved [] (with_tables m' d))
      | None => refused SQLITE_ERROR d
      end
  | QSavepoint s => done (with_saved ((Some s, m) :: sd_saved d) d)
  | QRelease s =>
      match saved_at s (sd_saved d) with
      | Some (_, l) => done (with_saved l d)
      | None => refused SQLITE_ERROR d
      end
  | QRollbackTo s =>
      match saved_at s (sd_saved d) with
      | Some (m', l) => done (with_saved ((Some s, m') :: l) (with_tables m' d))
      | None => refused SQLITE_ERROR d
      end
  | QInfo t => (imap info_row (from_option tb_cols [] (m !! t)), SQLITE_DONE, d)
  | QIgnored => done d
  end.

(** ** Under the library *)

(** Results have at most [max_result] rows, of the width of the statement. *)
Definition small_sem (k : sqldb) (sql : string) (b : gmap Z sqlite_value) : list row * Z * sqldb :=
  match parse sql with
  | Some s =>
      if compiled (sd_tables k) s then
        let '(rows, rc, k') := run k s b in
        (map (fit (length (result_columns (sd_tables k) s))) (take max_result rows), rc, k')
      else ([], SQLITE_ERROR, k)
  | None => ([], SQLITE_ERROR, k)
  end.

Lemma run_code k s b : (run k s b).1.2 <> SQLITE_ROW.
Proof. unfold run, done, refused. by repeat case_match; simplify_eq/=. Qed.

#[export] Instance small_db : Database sqldb.
Proof.
  refine {| db_compiles k sql := from_option (compiled (sd_tables k)) false (parse sql);
            db_columns k sql := from_option (result_columns (sd_tables k)) [] (parse sql);
            db_sem := small_sem; db_most := max_result;
            db_open name k := if String.eqb name ":memory:" then empty_db else k;
            db_run sql k := let '(_, rc, k') := small_sem k sql ∅ in
                            (if rc =? SQLITE_DONE then SQLITE_OK else rc, k');
            db_changes := sd_changes; db_rowid := sd_rowid |}.
  - intros k sql b. unfold small_sem. destruct (parse sql) as [s|]; [|done].
    destruct (compiled (sd_tables k) s); [|done]. destruct (run k s b) as [[rows rc] k']. cbn [fst].
    apply Forall_fmap, Forall_true. intros r. apply fit_length.
  - intros k sql b. unfold small_sem. destruct (parse sql) as [s|]; [|cbn; lia].
    destruct (compiled (sd_tables k) s); [|cbn; lia]. destruct (run k s b) as [[rows rc] k'].
    cbn [fst]. rewrite length_map, length_take. lia.
  - intros k sql b. unfold small_sem. destruct (parse sql) as [s|]; [|done].
    destruct (compiled (sd_tables k) s); [|done]. pose proof (run_code k s b) as Hc.
    by destruct (run k s b) as [[rows rc] k'].
  - intros k sql b Hc. exists SQLITE_ERROR. unfold small_sem. destruct (parse sql) as [s|]; [|done].
    cbn in Hc. by rewrite Hc.
Defined.

(** A statement that delivers no row. *)
Lemma small_step t sql cols b s (e : library sqldb) rc k' :
  live_stmts e !! t = Some (Prepared sql cols b Ready) -> parse sql = Some s ->
  compiled (sd_tables (lib_db e)) s = true -> run (lib_db e) s b = ([], rc, k') ->
  (lib_step t e).1 = rc /\ lib_db (lib_step t e).2 = k'.
Proof.
  intros Hp Hs Hc Hr. pose proof (lib_step_spec t _ e Hp) as H. unfold pending in H. cbn in H.
  unfold small_sem in H. rewrite Hs, Hc, Hr in H. by destruct H as (H1 & H2 & _).
Qed.

(** Transactions: what BEGIN saved is the outermost savepoint. *)
#[export] Instance small_tx :
  SqliteTx unit positive (library sqldb) sqldb (gmap string table).
Proof.
  refine {| content_of := sd_tables; saved_of k := snd <$> last (sd_saved k) |}.
  - intros k s Hs. unfold tx_statements in Hs. rewrite !elem_of_cons in Hs.
    by destruct Hs as [->|[->|[->|?%not_elem_of_nil]]].
  - intros t cols e Hp. destruct (sd_saved (lib_db e)) eqn:Es;
      (destruct (small_step t _ _ _ QBegin e _ _ Hp eq_refl eq_refl ltac:(cbn; by rewrite Es)) as [H1 H2]);
      cbn; rewrite H1, H2; by (split; [|cbn]).
  - intros t cols e Hp _. destruct (sd_saved (lib_db e)) eqn:Es;
      (destruct (small_step t _ _ _ QCommit e _ _ Hp eq_refl eq_refl ltac:(cbn; by rewrite Es)) as [H1 H2]);
      cbn; by rewrite H2.
  - intros t cols e c Hp Hc. cbn in Hc. destruct (last (sd_saved (lib_db e))) as [[n m]|] eqn:Es; [|done].
    injection Hc as ->.
    destruct (small_step t _ _ _ QRollback e _ _ Hp eq_refl eq_refl ltac:(cbn; by rewrite Es)) as [H1 H2].
    cbn. by rewrite H2.
Defined.

(** The hypotheses about results hold of it. *)
Lemma small_size t (e : library sqldb) : Z.of_nat (sqlite3_rows t e) < 2 ^ 30.
Proof. pose proof (lib_size t e) as H. cbn [db_most small_db] in H. unfold max_result in H. lia. Qed.

(** A process that has not opened anything. *)
Definition sql_state := proc unit (stmts positive) unit (library sqldb).
Definition sql_world (heap : gmap loc block) (next : loc) : world sql_state :=
  World [] heap next (Proc None [] (fun _ => (0, 0)) 0 (Library empty_db ∅)).
