(* ===== verification/SqliteProps.v ===== *)
(** * Properties of the SQLite driver

    What queries return, and the life of the prepared statements; the property
    about executing statements is in [SqliteExec.v].  The witnesses run on
    [Engine.v] and [SmallSql.v]. *)

From S2P Require Import Prelude Types Mem Strbuf Dialect Hash Model Backend Query Builder.
From S2P Require Import BuilderSpec QuerySpec Tx Driver Result ResultSpec Core CoreProps StmtCache.
From S2P Require Import DriverState DriverSpec Reading Handles Sqlite SqliteSpec SqliteExec SqliteQuery SqliteLibrary Engine.
From S2P Require Import SqliteSession SmallSql.

(** A call of the driver in a program. *)
Inductive call : Type :=
  | CallExec (sql : string) (ps : list corm_value)
  | CallQuery (sql : string) (ps : list corm_value).

Definition call_params (c : call) : list corm_value :=
  match c with CallExec _ ps | CallQuery _ ps => ps end.

(** The values can be read and sent. *)
Definition sendable (hp : gmap loc block) (c : call) : Prop :=
  exists xs, Forall2 (fun v x => resolve hp v = Some x) (call_params c) xs /\ Forall int_sized xs.

Section properties.
Context {D T X L K : Type} `{Countable T} `{!Sqlite3 D T L} `{!SqliteSpec D T L K}.
#[local] Abbreviation S := (proc D (stmts T) X L).
Implicit Types (w : world S) (d : S) (k : K) (h : D) (t : T).

(** ** Programs *)

Fixpoint run_calls (cs : list call) : M S unit :=
  match cs with
  | [] => mret tt
  | CallExec sql ps :: cs => _ ← sqlite_exec sql ps; run_calls cs
  | CallQuery sql ps :: cs => _ ← sqlite_query sql ps; run_calls cs
  end.

Lemma sendable_mono hp hp' c : heap_le hp hp' -> sendable hp c -> sendable hp' c.
Proof.
  intros Hle (xs & Hr & Hs). exists xs. split; [|done]. eapply Forall2_impl; [exact Hr|].
  intros v x. by apply resolve_mono.
Qed.

(** A query whose statement is in the cache has at least as many columns as it had
    when the cached statement was compiled: no column it selects was dropped. *)
Definition wide_enough (sql : string) d : Prop :=
  compiles (db_of (p_env d)) sql = true ->
  (length (stmt_columns sql d) <= length (columns (db_of (p_env d)) sql))%nat.

(** This is so at every query of the program that starts in [w]. *)
Fixpoint steady (cs : list call) w : Prop :=
  match cs with
  | [] => True
  | CallExec sql ps :: cs =>
      match sqlite_exec sql ps w with Ret _ w' => steady cs w' | Stuck => True end
  | CallQuery sql ps :: cs =>
      wide_enough sql (w_db w) /\
      match sqlite_query sql ps w with Ret _ w' => steady cs w' | Stuck => True end
  end.

Context (Hsize : forall t (l : L), Z.of_nat (sqlite3_rows t l) < 2 ^ 30).

Lemma run_calls_ok cs h k w :
  plenty w -> heap_wf w -> idle anything true false h k (w_db w) -> Forall (sendable (w_heap w)) cs ->
  steady cs w ->
  exists k' w', run_calls cs w = Ret tt w' /\ plenty w' /\ idle anything true false h k' (w_db w').
Proof.
  revert k w. induction cs as [|c cs IH]; intros k w Hp Hwf Hi Hcs Hst; [by exists k, w|].
  apply Forall_cons in Hcs as [(xs & Hr & Hs) Hcs].
  destruct c as [sql ps|sql ps]; cbn [run_calls call_params steady] in *.
  - destruct (triple_run _ _ _ w (triple_exec_tight sql (map to_sqlite xs) h k) Hp Hi)
      as (e & d & E & k1 & Hd). rewrite <- (exec_values sql ps xs w Hr Hs) in E. rewrite E in Hst.
    run_with E. by apply (IH k1).
  - destruct Hst as [Hw Hst]. unfold wide_enough in Hw. rewrite (idle_db _ _ _ _ _ _ Hi) in Hw.
    destruct (query_ok Hsize anything sql ps xs true false h k w (may_anything _ _) Hw Hp Hwf Hi Hr Hs)
      as (e & out & o & cols & k1 & w1 & E & Hp1 & Hwf1 & Hle1 & Hi1 & _). rewrite E in Hst. run_with E.
    apply (IH k1); [done..| |done]. eapply Forall_impl; [exact Hcs|]. intros c. by apply sendable_mono.
Qed.

(** ** The properties *)

(** C37: what [sqlite_query] returns is well typed: it returns either an error
    without a result object, or a new object that owns exactly the texts and
    blobs of its rows, in which every cell has the type of its column and can be
    read as a value of this type.  Its columns are counted before the statement is
    stepped: with [n] the number of columns the statement was compiled for - when
    it was put into the cache, or now - the object holds the first [n] columns and
    the first [n] cells of every row of the statement; so a column that was added
    in the meantime is missing.  When no other statement stands on a row, the rows
    and the columns are those the statement has in the database.  It must not have
    lost columns since it was compiled (Example [dropped_column_is_stuck]). *)
Theorem sqlite_query_typed sql ps xs (q : bool) h k w :
  wide_enough sql (w_db w) -> plenty w -> heap_wf w -> idle anything false q h k (w_db w) ->
  Forall2 (fun v x => resolve (w_heap w) v = Some x) ps xs -> Forall int_sized xs ->
  let seen := stmt_columns sql (w_db w) in
  let n := length seen in
  exists e out o cols k' w', sqlite_query sql ps w = Ret (e, out) w' /\
    idle anything false q h k' (w_db w') /\
    (cols = seen \/ compiles k sql = true /\ cols = columns k sql) /\
    match o with
    | None => e = CORM_ERR_BACKEND /\ out = None
    | Some rows => Forall (fun row => length row = length cols) rows /\
        e = CORM_OK /\ exists lo res, out = Some lo /\
        result_at w' lo res (w_heap w) /\ typed_result (w_heap w') res /\
        table_ok (w_heap w') (take n cols) (cut n rows) res
    end /\
    (q = true -> (o, k') = direct_query k sql (map to_sqlite xs) /\ (is_Some o -> cols = columns k sql)).
Proof.
  intros Hw Hp Hwf Hi Hr Hs seen n. unfold wide_enough in Hw. rewrite (idle_db _ _ _ _ _ _ Hi) in Hw.
  destruct (query_ok Hsize anything sql ps xs false q h k w (may_anything _ _) Hw Hp Hwf Hi Hr Hs)
    as (e & out & o & cols & k' & w' & E & _ & _ & _ & Hi' & Hpost & Hca & Hws & Hq).
  exists e, out, o, cols, k', w'. split; [done|]. split; [done|]. split; [done|]. split.
  - destruct o as [rows|]; [|done]. split; [by apply Hws|]. destruct Hpost as (-> & lo & res & -> & Hat & Ht).
    split; [done|]. exists lo, res. split_and!; try done. by eapply table_typed.
  - intros Hqt. destruct (Hq Hqt) as (H1 & H2 & _). split; [done|]. intros Ho. by apply H2.
Qed.

(** C38: no statement leaks: memory permitting, any program of executions and
    queries - whatever errors the database reports, and whatever it does to the
    schema as long as no query is repeated after it has lost columns - followed by
    [corm_close] returns without using a finalized statement, and when the handle
    is closed every statement that was prepared is finalized. *)
Theorem sqlite_no_statement_leak cs h k w :
  plenty w -> heap_wf w -> idle anything true false h k (w_db w) -> Forall (sendable (w_heap w)) cs ->
  steady cs w ->
  exists w' l, (let _ := stmts_api (X := X) sqlite_finalize_stmt in
      run_calls cs;; corm_close (Some (Some sqlite3_backend))) w = Ret CORM_OK w' /\
    stmts_of l = ∅ /\ p_db (w_db w') = None /\ p_env (w_db w') = (sqlite3_close (Some h) l).2.
Proof.
  intros Hp Hwf Hi Hcs Hst. destruct (run_calls_ok cs h k w Hp Hwf Hi Hcs Hst)
    as (k' & w1 & E & Hp1 & Hi1). cbn zeta. rewrite (bind_Ret _ _ _ _ _ E).
  destruct (close_ok _ false h k' w1 Hp1 Hi1) as (w' & l & E' & Hl & Hd & He & _). by exists w', l.
Qed.
End properties.

(** ** The properties at concrete inputs *)

Definition insert_sql : string := "INSERT INTO t VALUES (?)".
Definition insert_7 : string * list corm_value := (insert_sql, [Value CORM_INT false (UInt 7)]).

(** The same statement twice, one that does not compile, one more, and a query
    that is left on its row. *)
Definition sample_program : list (string * list corm_value) :=
  [insert_7; ("ERROR", []); insert_7; ("DELETE FROM t", []); ("SELECT * FROM t", [])].
Definition sample_values : list (string * list sqlval) :=
  [(insert_sql, [SInt 7]); ("ERROR", []); (insert_sql, [SInt 7]); ("DELETE FROM t", []);
   ("SELECT * FROM t", [])].

Definition empty_edb : edb := Edb [] None.

Lemma sqlite_cache_transparent_witness :
  exists w', exec_all sample_program (engine_world [false] (Some (Stmts 1 [] true)) empty_edb) =
      Ret [CORM_OK; CORM_ERR_BACKEND; CORM_OK; CORM_OK; CORM_OK] w' /\
    idle anything false false tt (Edb [(insert_sql, {[1 := QInt 7]}); (insert_sql, {[1 := QInt 7]});
      ("DELETE FROM t", ∅)] None) (w_db w') /\ w_heap w' = ∅.
Proof.
  refine (sqlite_cache_transparent tt empty_edb sample_program sample_values
    (engine_world [false] (Some (Stmts 1 [] true)) empty_edb) _ _ _).
  - apply engine_idle. lia.
  - repeat constructor.
  - vm_compute. repeat split.
Defined.

(** *** On the SQL database *)

Definition star_t : string := "SELECT * FROM t".

(** A table that has got a second column since [SELECT *] was compiled and cached
    for the first one. *)
Definition altered : sqldb :=
  foldl (fun k sql => (small_sem k sql ∅).2) empty_db
    ["CREATE TABLE t (a INTEGER)"; "INSERT INTO t (a) VALUES (7)"; "ALTER TABLE t ADD COLUMN b INTEGER"].
Definition altered_world : world sql_state :=
  World [] ∅ 1%positive
    (Proc (Some (engine_conn (Some (Stmts 4 [(star_t, 1%positive)] true)))) [] (fun _ => (0, 0)) 0
       (Library altered {[1%positive := Prepared star_t ["a"] ∅ Finished]})).

Lemma empty_heap_wf {S} o n (d : S) : heap_wf (World o ∅ n d).
Proof. intros l [b Hl]. cbn in Hl. by rewrite lookup_empty in Hl. Defined.

Lemma altered_idle Φ tg : Φ star_t ["a"] -> idle Φ tg true tt altered (w_db altered_world).
Proof.
  intros HΦ. exists (Some (Stmts 4 [(star_t, 1%positive)] true)), {[1%positive := Prepared star_t ["a"] ∅ Finished]}.
  split; [|split; [|split; [|split]]].
  - exists (p_env (w_db altered_world)). split; [by eexists|]. split; [done|].
    cbn. unfold live_stmts. cbn. by rewrite map_fmap_singleton.
  - split; [|by intros s [= <-]]. constructor; cbn; [apply NoDup_singleton..|].
    intros sql t Hin%list_elem_of_singleton. injection Hin as -> ->.
    exists (Prepared star_t ["a"] ∅ Finished). by rewrite lookup_singleton_eq.
  - by apply map_Forall_singleton.
  - intros _ t p Hl. apply lookup_singleton_Some in Hl as [<- <-]. done.
  - intros _. split; [by eexists|]. intros t [p Hl]. apply lookup_singleton_Some in Hl as [<- _].
    by apply list_elem_of_here.
Qed.

(** The second column is missing. *)
Lemma sqlite_query_typed_witness :
  exists e out o cols k' w', sqlite_query star_t [] altered_world = Ret (e, out) w' /\
    idle anything false true tt k' (w_db w') /\
    (cols = ["a"] \/ true = true /\ cols = ["a"; "b"]) /\
    match o with
    | None => e = CORM_ERR_BACKEND /\ out = None
    | Some rows => Forall (fun row => length row = length cols) rows /\
        e = CORM_OK /\ exists lo res, out = Some lo /\
        result_at w' lo res ∅ /\ typed_result (w_heap w') res /\
        table_ok (D := unit) (T := positive) (L := library sqldb) (w_heap w') (take 1 cols) (cut 1 rows) res
    end /\
    (true = true -> (o, k') = (Some [[QInt 7; QNull]], altered) /\ (is_Some o -> cols = ["a"; "b"])).
Proof.
  refine (sqlite_query_typed small_size star_t [] [] true tt altered altered_world _ _ _ _ _ _).
  - intros _. vm_compute. lia.
  - reflexivity.
  - apply empty_heap_wf.
  - by apply altered_idle.
  - constructor.
  - constructor.
Defined.

(** A connection to the SQL database with room for [cap] statements. *)
Definition small_conn_world (cap : Z) : world sql_state :=
  World [] ∅ 1%positive
    (Proc (Some (engine_conn (Some (Stmts cap [] true)))) [] (fun _ => (0, 0)) 0 (Library empty_db ∅)).

Lemma small_idle Φ tg q cap : 1 <= cap -> idle Φ tg q tt empty_db (w_db (small_conn_world cap)).
Proof.
  intros Hc. exists (Some (Stmts cap [] true)), ∅. split; [|split; [|split; [|split]]].
  - exists (Library empty_db ∅). split; [by eexists|by split].
  - split; [constructor; try apply NoDup_nil_2; by intros ?? ?%not_elem_of_nil|].
    by intros s [= <-].
  - apply map_Forall_empty.
  - intros _ t p Ht. by rewrite lookup_empty in Ht.
  - intros _. split; [by eexists|]. intros t [p Ht]. by rewrite lookup_empty in Ht.
Qed.

(** Nine statements through a cache for two: the table gets a column between two
    queries of all columns, and some statements fail. *)
Definition sample_calls : list call :=
  [CallExec "CREATE TABLE t (a INTEGER)" [];
   CallExec "INSERT INTO t (a) VALUES (?)" [Value CORM_INT false (UInt 7)]; CallQuery star_t [];
   CallExec "ALTER TABLE t ADD COLUMN b INTEGER" []; CallQuery star_t []; CallExec "SELEKT" [];
   CallQuery "SELECT c FROM t" []; CallQuery star_t []; CallExec star_t []].

Lemma sqlite_no_statement_leak_witness :
  exists w' l, (let _ := stmts_api sqlite_finalize_stmt in
      run_calls sample_calls;; corm_close (Some (Some sqlite3_backend))) (small_conn_world 2) =
        Ret CORM_OK w' /\
    stmts_of l = ∅ /\ p_db (w_db w') = None /\ p_env (w_db w') = (sqlite3_close (Some tt) l).2.
Proof.
  refine (sqlite_no_statement_leak small_size sample_calls tt empty_db (small_conn_world 2) _ _ _ _ _).
  - reflexivity.
  - apply empty_heap_wf.
  - apply small_idle. lia.
  - repeat (apply Forall_cons; split; [first [exists []; by repeat constructor|exists [SInt 7]; by repeat constructor]|]).
    constructor.
  - vm_compute. repeat split; intros; lia.
Defined.

(** The names of the columns and the number of rows of the last query. *)
Definition last_columns (cs : list call) (sql : string) : option (list (option string) * Z) :=
  match (run_calls cs;; sqlite_query sql []) (small_conn_world 4) with
  | Ret (_, Some lo) w =>
      match w_heap w !! lo with Some (BResult res) => Some (r_column_names res, r_row_count res) | _ => None end
  | _ => None
  end.

(** A column that was added is missing from the first repetition of the query. *)
Definition table_with_column : list call :=
  [CallExec "CREATE TABLE t (a INTEGER)" []; CallQuery star_t [];
   CallExec "ALTER TABLE t ADD COLUMN b INTEGER" []].
Example added_column_is_missed :
  (last_columns table_with_column star_t, last_columns (table_with_column ++ [CallQuery star_t []]) star_t) =
  (Some ([Some "a"], 0), Some ([Some "a"; Some "b"], 0)).
Proof. vm_compute. reflexivity. Qed.

(** After columns were lost the name of one of them is NULL, which [strdup] reads. *)
Example dropped_column_is_stuck :
  run_calls [CallExec "CREATE TABLE t (a INTEGER, b INTEGER)" []; CallQuery star_t [];
    CallExec "DROP TABLE t" []; CallExec "CREATE TABLE t (a INTEGER)" []; CallQuery star_t []]
    (small_conn_world 8) = Stuck.
Proof. vm_compute. reflexivity. Qed.
