(* ===== verification/SqliteOrm.v ===== *)
(** * Records on SQLite, from the query object to the rows

    The layers put together: a query built by any script of builder calls,
    [corm_find], the statement cache, the SQLite library and the result object. *)

From S2P Require Import Prelude Types Mem Strbuf Dialect Model Backend Query Builder BuilderSpec.
From S2P Require Import QuerySpec QueryRefine QueryProps Tx Driver Result ResultSpec Exec Rows ExecSpec.
From S2P Require Import ExecProps Core CoreProps StmtCache DriverState DriverSpec Reading Handles.
From S2P Require Import Sqlite SqliteSpec SqliteExec SqliteQuery Sample SqliteLibrary Engine.

Section orm.
Context {D T X L K : Type} `{Countable T} `{!Sqlite3 D T L} `{!SqliteSpec D T L K}.
#[local] Abbreviation S := (proc D (stmts T) X L).
Implicit Types (w : world S) (k : K) (h : D).
Context (m : model S) (fs : list field) (Hm : model_ok m fs).
Context (Hsize : forall t (l : L), Z.of_nat (sqlite3_rows t l) < 2 ^ 30).
Let b : backend S := sqlite3_backend.

(** The statement and the values of a find with the query [a]. *)
Definition find_text (a : aquery) : string := render CORM_BACKEND_SQLITE m fs (select_of fs a).
Definition find_values (a : aquery) : list sqlite_value := map to_sqlite (a_params (select_of fs a)).

(** A SELECT that fails delivers no row. *)
Definition fails_early k (sql : string) (qs : list sqlite_value) : Prop :=
  (direct_query k sql qs).1 = None -> (sem k sql (bind_all 0 qs ∅)).1.1 = [].

(** What a find leaves: the outcome [o], and what the client frees next. *)
Lemma find_on_sqlite os w a (tg : bool) h k :
  let Φ := up_to_date k (find_text a) in
  plenty w -> heap_wf w -> idle Φ tg true h k (w_db w) ->
  asteps (w_heap w) CORM_BACKEND_SQLITE os aquery_empty = Some a ->
  aquery_okb (select_of fs a) = true -> fits (find_text a) ->
  Forall int_sized (a_params (select_of fs a)) ->
  let r := direct_query k (find_text a) (find_values a) in
  exists e q out w1,
    (q ← corm_query_new (Some b) (Some m); q ← exec_qops os q; corm_find q) w = Ret (e, q, out) w1 /\
    idle Φ tg true h r.2 (w_db w1) /\
    match r.1 with
    | None => e = CORM_ERR_BACKEND /\ out = None
    | Some rows => e = CORM_OK /\ exists lo res, out = Some lo /\
        w_heap w1 !! lo = Some (BResult res) /\ typed_result (w_heap w1) res /\
        table_ok (w_heap w1) (columns k (find_text a)) rows res
    end /\
    (fails_early k (find_text a) (find_values a) ->
     exists w2, (corm_result_release out;; corm_query_free (Some q)) w1 = Ret tt w2 /\
       w_heap w2 = w_heap w /\ w_db w2 = w_db w1).
Proof.
  intros Φ Hp Hwf Hi Ha Hok Hfit Hsz r.
  destruct (script_spec b m os w a Hp Hwf Ha) as (q0 & w0 & E0 & Hq0 & _ & Hp0 & Hd0 & Hqd & Hqm).
  destruct (find_spec b m fs Hm q0 w0 _ a sqlite_query Hq0 Hp0 Hqd Hqm eq_refl Hok Hfit)
    as (q & w1 & (Hq & Hp1 & Hd1 & _) & Ef).
  rewrite <- Hd0, <- Hd1 in Hi.
  destruct (query_current Hsize Φ (find_text a) (q_params q) (a_params (select_of fs a)) tg h k w1)
    as (e & out & w2 & E & Hp2 & Hwf2 & _ & Hi2 & Hpost & _ & Hclean);
    [apply may_up_to_date|intros _; exact (up_to_date_columns _ _ _ _ _ _ Hi)|done|apply Hq|done|apply Hq|done|].
  fold (find_values a) in Hi2, Hpost, Hclean. fold r in Hi2, Hpost, Hclean. destruct r as [o k'] eqn:Er.
  cbn [fst snd] in *. exists e, q, out, w2. split_and!; [|exact Hi2| |].
  - rewrite <- bind_assoc, (bind_Ret _ _ _ _ _ E0), Ef. by run_with E.
  - destruct o as [rows|]; [|exact Hpost]. destruct Hpost as (-> & lo & res & -> & Hat & Ht).
    split; [done|]. exists lo, res. split_and!; [done|apply Hat|by eapply table_typed|done].
  - intros Hearly. assert (Hfree : forall w3, w_heap w3 = w_heap w1 ->
      corm_query_free (Some q) w3 = Ret tt (set_heap (w_heap w) w3)).
    { intros w3 Hh. apply free_params_spec; [apply Hq|]. rewrite Hh. apply Hq. }
    destruct o as [rows|].
    + destruct Hpost as (-> & lo & res & -> & Hat & Ht).
      run_with (release_last _ _ _ _ Hat (proj2 (tb_start _ _ _ _ Ht))).
      eexists. split; [by apply Hfree|done].
    + destruct Hpost as [-> ->]. unfold fails_early in Hearly. fold r in Hearly. rewrite Er in Hearly.
      eexists. split; [apply Hfree; exact (Hclean (Hearly eq_refl) eq_refl)|done].
Qed.

(** ** The first row *)

(** What the cells of a row of the result hold. *)
Definition contents (types : list corm_field_type) (row : list sqlite_value) : list (option sqlval) :=
  zip_with cell_content types row.

Lemma table_row hp names rows res i row :
  table_ok hp names rows res -> rows !! i = Some row ->
  row_has hp res i (contents (r_column_types res) row).
Proof.
  intros Ht Hi j x Hj. destruct (Forall2_lookup_l _ _ _ _ _ (tb_rows _ _ _ _ Ht) Hi) as (vs & Hvs & Hok).
  unfold contents in Hj. apply lookup_zip_with_Some in Hj as (ty & q & Hx & Hty & Hq).
  destruct (Forall3_lookup_l _ _ _ _ _ _ Hok Hty) as (q' & v & Hq' & Hv & _ & _ & _ & Hc).
  assert (q' = q) as -> by congruence. exists v. split; [|by apply Hc].
  unfold cell_at. rewrite !Nat2Z.id, Hvs. exact Hv.
Qed.

Definition first_of (a : aquery) : aquery := a_set_offset 0 (a_set_limit 1 a).

Lemma first_repr q w base a :
  q_repr q w base a -> q_repr (set_q_offset 0 (set_q_limit 1 q)) w base (first_of a).
Proof.
  intros [Hc Hs Hw Hv Hcap Hwf]. constructor; destruct q, a; try done.
  destruct Hc. by constructor.
Qed.

(** What a query of the first row reports and makes of the record [rc]; [None]: a
    cell is not of the kind of its member. *)
Definition first_outcome k (a : aquery) (rc : rec) : option (corm_err * rec) :=
  let sql := find_text (first_of a) in
  match (direct_query k sql (find_values (first_of a))).1 with
  | None => Some (CORM_ERR_BACKEND, rc)
  | Some [] => Some (CORM_ERR_NOTFOUND, rc)
  | Some (row :: rows) =>
      let types := table_types (replicate (length (columns k sql)) CORM_INT) (row :: rows) in
      rc' ← load_row (columns k sql) (contents types row) fs rc; Some (CORM_OK, rc')
  end.

(** What a find with the query [a] relies on. *)
Record findable (a : aquery) : Prop := {
  fd_ok : aquery_okb (select_of fs a) = true;
  fd_fits : fits (find_text a);
  fd_values : Forall int_sized (a_params (select_of fs a));
  fd_early : forall k, fails_early k (find_text a) (find_values a)
}.

Lemma fields_named : Forall (fun f => is_Some (f_name f)) fs.
Proof.
  apply Forall_forall. intros f Hin. pose proof (ident_valid m fs Hm f Hin) as Hv.
  by destruct (f_name f).
Qed.

(** A find with the query object [q], up to the result that is still there. *)
Lemma find_open q w base a (tg : bool) h k :
  let Φ := up_to_date k (find_text a) in
  q_repr q w base a -> plenty w -> q_db q = Some b -> q_model q = Some m ->
  idle Φ tg true h k (w_db w) -> findable a ->
  let r := direct_query k (find_text a) (find_values a) in
  exists e q' out w' mid, corm_find (Some q) w = Ret (e, q', out) w' /\ q_model q' = Some m /\
    Forall param_wf (q_params q') /\ heap_split mid base (owned (q_params q')) /\
    idle Φ tg true h r.2 (w_db w') /\
    match r.1 with
    | None => e = CORM_ERR_BACKEND /\ out = None /\ w_heap w' = mid
    | Some rows => e = CORM_OK /\ exists lo res, out = Some lo /\ result_at w' lo res mid /\
        r_refcount res = 1 /\ table_ok (w_heap w') (columns k (find_text a)) rows res /\
        r_row_count res = Z.of_nat (length rows)
    end.
Proof.
  intros Φ Hq0 Hp Hqd Hqm Hi [Hok Hfit Hsz Hearly] r.
  destruct (find_spec b m fs Hm q w _ a sqlite_query Hq0 Hp Hqd Hqm eq_refl Hok Hfit)
    as (q2 & w1 & (Hq & Hp1 & Hd1 & _ & Hm2) & Ef).
  rewrite <- Hd1 in Hi.
  destruct (query_current Hsize Φ (find_text a) (q_params q2) (a_params (select_of fs a)) tg h k w1)
    as (e & out & w2 & E & Hp2 & Hwf2 & _ & Hi2 & Hpost & _ & Hclean);
    [apply may_up_to_date|intros _; exact (up_to_date_columns _ _ _ _ _ _ Hi)|done|apply Hq|done|apply Hq|done|].
  fold (find_values a) in Hi2, Hpost, Hclean. fold r in Hi2, Hpost, Hclean.
  specialize (Hearly k). unfold fails_early in Hearly. fold r in Hearly. destruct r as [o k'].
  exists e, q2, out, w2, (w_heap w1). cbn [fst snd] in *. split_and!; [|congruence|apply Hq|apply Hq|exact Hi2|].
  - rewrite Ef. by run_with E.
  - destruct o as [rows|].
    + destruct Hpost as (-> & lo & res & -> & Hat & Ht). split; [done|]. exists lo, res.
      split_and!; try done; [apply (tb_start _ _ _ _ Ht)|].
      by rewrite <- (rw_rows _ (ra_wf _ _ _ _ Hat)), (Forall2_length _ _ _ (tb_rows _ _ _ _ Ht)).
    + destruct Hpost as [-> ->]. auto.
Qed.

Lemma first_on_sqlite q w base a r rc e rc' (tg : bool) h k :
  let Φ := up_to_date k (find_text (first_of a)) in
  q_repr q w base a -> plenty w -> q_db q = Some b -> q_model q = Some m ->
  idle Φ tg true h k (w_db w) -> findable (first_of a) ->
  accepts (m_after_find m) (Some r) -> heap_rec base r = Some rc ->
  first_outcome k a rc = Some (e, rc') ->
  exists q' w', corm_first (Some q) r w = Ret (e, q') w' /\ Forall param_wf (q_params q') /\
    heap_split (w_heap w') (put_rec r rc' base) (owned (q_params q')) /\
    idle Φ tg true h (direct_query k (find_text (first_of a)) (find_values (first_of a))).2 (w_db w').
Proof.
  intros Φ Hq0 Hp Hqd Hqm Hi Hfd Hhook Hr Hout. apply first_repr in Hq0.
  destruct (find_open _ w base (first_of a) tg h k Hq0 Hp) as
    (e' & q2 & out & w2 & mid & Ew & Hm2 & Hpw & Hs & Hi2 & Hpost); [by destruct q..|done|done|].
  unfold first_outcome in Hout. cbv zeta in *. set (a1 := first_of a) in *.
  unfold corm_first. run. run_with Ew.
  destruct (direct_query k (find_text a1) (find_values a1)).1 as [rows|].
  - destruct Hpost as (-> & lo & res & -> & Hat & Hone & Ht & Hcount). change (is_err CORM_OK) with false. cbv iota.
    pose proof (get_result_ok _ _ _ _ Hat) as Eg. rewrite bind_assoc, (bind_Ret _ _ _ _ _ Eg), bind_ret_l, Hcount.
    destruct rows as [|row rows]; cbn [length] in *.
    + simplify_eq. change (Z.of_nat 0 =? 0) with true. cbv iota.
      rewrite (bind_Ret _ _ _ _ _ (release_last _ _ _ _ Hat Hone)). eexists _, _. split; [done|].
      split; [done|]. split; [by rewrite put_rec_same|done].
    + destruct (Z.eqb_spec (Z.of_nat (Datatypes.S (length rows))) 0); [lia|].
      destruct (load_row _ _ fs rc) as [rc2|] eqn:El; simplify_eq/=.
      assert (Hr1 : heap_rec mid r = Some rc) by (eapply heap_rec_mono, Hr; eapply heap_split_le, Hs).
      assert (Hr2 : heap_rec (w_heap w2) r = Some rc) by (eapply heap_rec_mono, Hr1; eapply heap_split_le, Hat).
      rewrite (bind_Ret _ _ _ _ _ Eg), Hm2, bind_deref_Some, (mo_fields _ _ Hm), bind_deref_Some.
      pose proof (table_row _ _ _ _ 0 row Ht eq_refl) as Hrow. rewrite (tb_types _ _ _ _ Ht) in Hrow.
      rewrite (bind_Ret _ _ _ _ _ (map_row_ok fs res (columns k (find_text a1)) 0 _ r w2 rc rc'
        (ra_wf _ _ _ _ Hat) (tb_names _ _ _ _ Ht) fields_named Hrow Hr2 El)).
      rewrite (bind_Ret _ _ _ _ _ (Hhook _)).
      rewrite (bind_Ret _ _ _ _ _ (release_last _ _ _ _ (result_at_put _ _ _ _ r rc' rc Hat Hr1) Hone)).
      eexists _, _. split; [done|]. split; [done|]. split; [|done]. by eapply heap_split_put.
  - destruct Hpost as (-> & -> & Hh). simplify_eq. eexists _, _. split; [done|].
    split; [done|]. split; [|done]. by rewrite put_rec_same.
Qed.

Definition cond_ops (cond : option string) : list qop :=
  match cond with Some c => [QWhere c] | None => [] end.

(** A convenience function starts with a new query and a script. *)
Lemma with_script {A} os w q0 w0 (none : M S A) (pre : option (query S) -> M S (option (query S)))
    (rest : option (query S) -> M S A) :
  plenty w -> heap_wf w -> (forall q w, pre q w = exec_qops os q w) ->
  (q ← corm_query_new (Some b) (Some m); exec_qops os q) w = Ret (Some q0) w0 ->
  (q ← corm_query_new (Some b) (Some m);
   match q with None => none | Some _ => q ← pre q; rest q end) w = rest (Some q0) w0.
Proof.
  intros Hp Hwf Hpre E0. destruct (query_new_spec b m w Hp Hwf) as (q1 & E & _).
  rewrite (bind_Ret _ _ _ _ _ E) in E0. rewrite (bind_Ret _ _ _ _ _ E).
  rewrite <- Hpre in E0. by rewrite (bind_Ret _ _ _ _ _ E0).
Qed.

Lemma cond_script cond q w :
  (match cond with Some _ => corm_query_where q cond | None => mret q end : M S _) w =
    exec_qops (cond_ops cond) q w.
Proof.
  destruct cond as [c|]; [|done]. cbn [cond_ops exec_qops exec_qop]. unfold mbind, M_bind.
  by destruct (corm_query_where q (Some c) w).
Qed.

Lemma find_one_spec cond a r rc e rc' w (tg : bool) h k :
  let Φ := up_to_date k (find_text (first_of a)) in
  plenty w -> heap_wf w -> idle Φ tg true h k (w_db w) ->
  asteps (w_heap w) CORM_BACKEND_SQLITE (cond_ops cond) aquery_empty = Some a ->
  findable (first_of a) -> accepts (m_after_find m) (Some r) ->
  heap_rec (w_heap w) r = Some rc -> first_outcome k a rc = Some (e, rc') ->
  exists w', corm_find_one (Some b) (Some m) cond r w = Ret e w' /\
    w_heap w' = put_rec r rc' (w_heap w) /\
    idle Φ tg true h (direct_query k (find_text (first_of a)) (find_values (first_of a))).2 (w_db w').
Proof.
  intros Φ Hp Hwf Hi Ha Hfd Hhook Hr Hout.
  destruct (script_spec b m (cond_ops cond) w a Hp Hwf Ha) as (q0 & w0 & E0 & Hq0 & _ & Hp0 & Hd0 & Hqd & Hqm).
  rewrite <- Hd0 in Hi.
  destruct (first_on_sqlite q0 w0 _ a r rc e rc' tg h k Hq0 Hp0 Hqd Hqm Hi Hfd Hhook Hr Hout)
    as (q & w1 & E1 & Hpw & Hs & Hi1).
  exists (set_heap (put_rec r rc' (w_heap w)) w1). split; [|done].
  unfold corm_find_one. rewrite (with_script _ _ _ _ _ _ _ Hp Hwf (cond_script cond) E0).
  run_with E1. by rewrite (bind_Ret _ _ _ _ _ (free_params_spec _ _ _ Hpw Hs)).
Qed.

(** ** There and back *)

(** The cell of a value that was bound. *)
Lemma bound_content x :
  x <> SNull -> x <> SBlob [] ->
  cell_content (decide_type (class_of (to_sqlite x)) CORM_INT) (to_sqlite x) = Some (db_val x).
Proof.
  intros Hn Hb. destruct x as [|z|c|s|bs|c]; cbn; try done.
  - by rewrite to_int64_int.
  - by rewrite to_double_float.
  - by rewrite to_text_text.
  - rewrite to_blob_blob. by destruct bs.
  - by rewrite to_int64_int.
Qed.

(** The row has the values [xs] in the columns of the fields that are not
    numbered by the database. *)
Definition gives_back (names : list string) (row : list sqlite_value) (xs : list sqlval) : Prop :=
  length row = length names /\
  forall i f x, fields_without CORM_FLAG_AUTOINC fs !! i = Some f -> xs !! i = Some x ->
    exists j, column_of names (fname f) = Some j /\ row !! j = Some (to_sqlite x).

Definition insert_text : string := render CORM_BACKEND_SQLITE m fs (a_set_op CORM_OP_INSERT aquery_empty).

Lemma first_types (names : list string) row rows j q :
  length row = length names -> row !! j = Some q ->
  contents (table_types (replicate (length names) CORM_INT) (row :: rows)) row !! j =
    Some (cell_content (decide_type (class_of q) CORM_INT) q).
Proof.
  intros Hl Hj. unfold contents. cbn [table_types]. apply lookup_zip_with_Some.
  pose proof (lookup_lt_Some _ _ _ Hj). eexists _, q. split; [done|]. split; [|done].
  unfold row_types. apply lookup_zip_with_Some. eexists _, q. split; [done|]. split; [|done].
  apply lookup_replicate. split; [done|lia].
Qed.

(** The loaded record has the values that were bound. *)
Lemma loaded_values names row rows xs rc rc' i f x y r w hp :
  gives_back names row xs ->
  load_row names (contents (table_types (replicate (length names) CORM_INT) (row :: rows)) row) fs rc = Some rc' ->
  NoDup (map f_offset fs) -> (forall f c, f ∈ fs -> rc !! f_offset f = Some c -> cell_fits hp r f c) ->
  fields_without CORM_FLAG_AUTOINC fs !! i = Some f -> xs !! i = Some x -> coerce f x = Some y ->
  x <> SBlob [] -> heap_rec (w_heap w) r = Some rc' ->
  exists v, corm_field_get_value r f w = Ret v w /\ resolve (w_heap w) v = Some y.
Proof.
  intros [Hlen Hg] Hl Hn Hfit Hf Hx Hy Hb Hr. destruct (Hg i f x Hf Hx) as (j & Hj & Hq).
  assert (Hin : f ∈ fs) by (eapply without_sub, list_elem_of_lookup_2, Hf).
  assert (Hnn : x <> SNull) by (intros ->; unfold coerce in Hy; by destruct (f_type f)).
  pose proof (first_types names row rows j _ Hlen Hq) as Hc. rewrite bound_content in Hc by done.
  destruct (load_row_member _ _ _ _ _ f j (db_val x) Hl Hn Hin Hj Hc) as (old & c & Ho & Hs & Hc').
  by eapply (stored_get r f rc' old c x y w hp), Hfit.
Qed.

Lemma bound_not_empty (hp : gmap loc block) v bs : bind_val hp v = Some (SBlob bs) -> bs <> [].
Proof.
  intros Hb ->. pose proof (proj2 (bind_val_spec _ _ _ Hb)) as Hr.
  pose proof (resolve_inv _ _ _ Hr ltac:(done)) as Hi. unfold bind_val in Hb.
  destruct (v_type v); cbn in Hi; try (destruct Hi as (? & ? & ?); done); try (destruct Hi as (? & ? & ? & ? & ? & ?); done).
  destruct Hi as (p & n & bs & Hu & Hp & Hrd & [= <-]). rewrite Hu in Hb. cbn in Hb.
  rewrite decide_False in Hb by done. apply read_bytes_size in Hrd. cbn in Hrd. subst n. done.
Qed.

Lemma create_on_sqlite Φ r want xs w h k :
  plenty w -> heap_wf w -> idle Φ true true h k (w_db w) -> may_compile Φ k insert_text ->
  accepts (m_before_create m) (Some r) -> accepts (m_after_create m) (Some r) ->
  record_vals (w_heap w) r fs = Some xs -> Z.of_nat (length xs) <= 2 ^ 29 -> Forall int_sized xs ->
  fits insert_text -> (sem k insert_text (bind_all 0 (map to_sqlite xs) ∅)).1.1 = [] ->
  let res := direct_exec k insert_text (map to_sqlite xs) in
  exists id w1, corm_create_one (Some b) (Some m) r want w = Ret (res.1, id) w1 /\
    w_heap w1 = w_heap w /\ plenty w1 /\ heap_wf w1 /\ idle Φ true true h res.2 (w_db w1).
Proof.
  intros Hp Hwf Hi Hmay Hb Ha Hx Hn Hsz Hf Hrows res.
  destruct (query_new_spec b m w Hp Hwf) as (q & E & Hq & Hd & Hqm).
  destruct (create_spec b m fs Hm q w w r xs want (Hb w) Hq Hp Hd Hqm Ha Hx Hn) as
    (q' & w' & E2 & Hq' & Hdb & Hp'); [by eapply idle_ready|done|done|].
  destruct (effect_direct Φ (w_db w) insert_text xs h k Hi Hmay Hrows) as [He Hi'].
  change (sql_exec (sqlite3_backend (X := X)) insert_text xs (w_db w)) with
    (sql_exec b (render (be_type b) m fs (a_set_op CORM_OP_INSERT aquery_empty)) xs (w_db w)) in He, Hi'.
  rewrite <- Hdb in Hi'. rewrite He in E2.
  eexists _, (set_heap (w_heap w) w'). split.
  { unfold corm_create_one. run_with E. run_with E2.
    by rewrite (bind_Ret _ _ _ _ _ (query_free_spec q' w' _ _ Hq')). }
  split; [done|]. split; [done|]. split; [|done].
  intros l [blk Hl]. cbn in *. apply (qr_heap _ _ _ _ Hq'). exists blk.
  eapply heap_split_le; [apply Hq'|done].
Qed.

Lemma record_vals_not_empty hp r xs : record_vals hp r fs = Some xs -> Forall (fun x => x <> SBlob []) xs.
Proof.
  unfold record_vals. intros Hx%mapM_Some. apply Forall_lookup. intros i x Hi ->.
  destruct (Forall2_lookup_r _ _ _ _ _ Hx Hi) as (f & _ & Hf).
  destruct (field_value hp r f) as [v|]; [|done]. by apply (bound_not_empty hp v [] Hf).
Qed.

(** ** The properties *)

(** C33: [corm_find_one] on SQLite, memory permitting: it executes the SELECT of
    the condition with LIMIT 1 and reports the driver's error, CORM_ERR_NOTFOUND
    for no row, or CORM_OK; then every member of the record whose column is in
    the result has the value of the first row, converted to the member's type,
    and the others are kept.  Nothing else of the heap changes: the query and the
    result are freed.  A statement of this text that is in the cache must have been
    compiled for the columns it has now. *)
Theorem find_one_loads cond a r rc e rc' w (tg : bool) h k :
  let Φ := up_to_date k (find_text (first_of a)) in
  plenty w -> heap_wf w -> idle Φ tg true h k (w_db w) ->
  asteps (w_heap w) CORM_BACKEND_SQLITE (cond_ops cond) aquery_empty = Some a ->
  findable (first_of a) -> accepts (m_after_find m) (Some r) ->
  heap_rec (w_heap w) r = Some rc -> first_outcome k a rc = Some (e, rc') ->
  exists w', corm_find_one (Some b) (Some m) cond r w = Ret e w' /\
    w_heap w' = put_rec r rc' (w_heap w) /\
    idle Φ tg true h (direct_query k (find_text (first_of a)) (find_values (first_of a))).2 (w_db w').
Proof. intros. by eapply find_one_spec. Qed.

(** C31: what [corm_create_one] stores, [corm_find_one] gives back: on a SQLite
    database that executes the INSERT and answers the SELECT with a row that has
    the values that were bound, finding into a record of the same model makes
    every member that is not numbered by the database read as the value the first
    record had, converted to the member's type; memory permitting, both calls
    report CORM_OK.  The INSERT does not change the columns of the SELECT, and a
    statement of its text that is already in the cache was compiled for them. *)
Theorem record_round_trip cond a r1 r2 want xs rc rc' e w h k row rows :
  plenty w -> heap_wf w -> idle (up_to_date k (find_text (first_of a))) true true h k (w_db w) ->
  accepts (m_before_create m) (Some r1) -> accepts (m_after_create m) (Some r1) ->
  accepts (m_after_find m) (Some r2) ->
  record_vals (w_heap w) r1 fs = Some xs -> Z.of_nat (length xs) <= 2 ^ 29 -> Forall int_sized xs ->
  fits insert_text -> (sem k insert_text (bind_all 0 (map to_sqlite xs) ∅)).1.1 = [] ->
  (direct_exec k insert_text (map to_sqlite xs)).1 = CORM_OK ->
  asteps (w_heap w) CORM_BACKEND_SQLITE (cond_ops cond) aquery_empty = Some a ->
  findable (first_of a) ->
  let k1 := (direct_exec k insert_text (map to_sqlite xs)).2 in
  let sql := find_text (first_of a) in
  columns k1 sql = columns k sql ->
  (direct_query k1 sql (find_values (first_of a))).1 = Some (row :: rows) ->
  gives_back (columns k1 sql) row xs ->
  heap_rec (w_heap w) r2 = Some rc -> first_outcome k1 a rc = Some (e, rc') ->
  NoDup (map f_offset fs) ->
  (forall f c, f ∈ fs -> rc !! f_offset f = Some c -> cell_fits (w_heap w) r2 f c) ->
  exists id w1 w2, corm_create_one (Some b) (Some m) r1 want w = Ret (CORM_OK, id) w1 /\
    corm_find_one (Some b) (Some m) cond r2 w1 = Ret CORM_OK w2 /\
    forall i f x y, fields_without CORM_FLAG_AUTOINC fs !! i = Some f -> xs !! i = Some x ->
      coerce f x = Some y ->
      exists v, corm_field_get_value r2 f w2 = Ret v w2 /\ resolve (w_heap w2) v = Some y.
Proof.
  intros Hp Hwf Hi Hb Hac Haf Hx Hn Hsz Hf Hrows Hok Ha Hfd k1 sql Hsame Hq Hg Hr Hout Hoff Hfit.
  destruct (create_on_sqlite _ r1 want xs w h k Hp Hwf Hi (may_up_to_date _ _ _) Hb Hac Hx Hn Hsz Hf Hrows)
    as (id & w1 & E1 & Hh1 & Hp1 & Hwf1 & Hi1). rewrite Hok in E1. fold k1 in Hi1.
  fold sql in Hi1. unfold up_to_date in Hi1. rewrite <- Hsame in Hi1.
  pose proof Hout as Hout'. unfold first_outcome in Hout'. fold sql in Hout'. rewrite Hq in Hout'. cbv zeta in Hout'.
  destruct (load_row _ _ fs rc) as [rc2|] eqn:El; [|done]. cbn in Hout'. injection Hout' as <- <-.
  rewrite <- Hh1 in Ha, Hr.
  destruct (find_one_spec cond a r2 rc CORM_OK rc2 w1 true h k1 Hp1 Hwf1 Hi1 Ha Hfd Haf Hr Hout)
    as (w2 & E2 & Hh2 & _).
  exists id, w1, w2. split; [done|]. split; [done|]. intros i f x y Hi2 Hxi Hy.
  pose proof (record_vals_not_empty _ _ _ Hx) as Hne. rewrite Forall_lookup in Hne.
  eapply (loaded_values (columns k1 sql) row rows xs rc rc2 i f x y); try done; [by eapply Hne|].
  rewrite Hh2. by eapply put_rec_get.
Qed.
End orm.

(** ** The properties at concrete inputs *)

(** Two users in memory, one of them in the database. *)
Definition bob_bound : gmap Z sqlite_value := {[1 := QText "bob"; 2 := QInt 41]}.

Definition orm_world (k : edb) : world engine_state :=
  World [] {[1%positive := BRecs [user_rec 5 "ann" 30; user_rec 7 "bob" 41]]} 2%positive
    (Proc (Some (engine_conn (Some (Stmts 4 [] true)))) [] (fun _ => (0, 0)) 0 (Library k ∅)).

Lemma orm_world_wf k : heap_wf (orm_world k).
Proof.
  intros l [b H]. cbn in *. destruct (decide (l = 1%positive)) as [->|Hne]; [lia|].
  by rewrite lookup_singleton_ne in H.
Defined.

Lemma orm_world_idle Φ k : idle Φ true true tt k (w_db (orm_world k)).
Proof. exact (engine_idle Φ true true [] 4 k ltac:(lia)). Defined.

Definition bob_query : aquery := a_set_where bob_only aquery_empty.

(** The engine answers every SELECT. *)
Lemma engine_answers k sql qs :
  starts_with "ERROR" sql = false -> starts_with "SELECT" sql = true ->
  is_Some (direct_query (D := unit) (T := positive) (L := engine) k sql qs).1.
Proof.
  intros He Hs. unfold direct_query. cbn [compiles sem library_spec db_compiles db_sem engine_db].
  unfold engine_sem, engine_compiles, engine_query. rewrite He, Hs. by eexists.
Qed.

Lemma bob_findable :
  findable (D := unit) (T := positive) (X := unit) (L := engine) user_model user_fields (first_of bob_query).
Proof.
  constructor.
  - vm_compute. reflexivity.
  - unfold fits. vm_compute. discriminate.
  - exact (Forall_nil_2 _).
  - intros k Hk. match type of Hk with (direct_query _ ?sql ?qs).1 = _ =>
      destruct (engine_answers k sql qs eq_refl eq_refl) as [rows Hr] end. by rewrite Hk in Hr.
Defined.

Lemma find_one_loads_witness :
  let k := Edb [(orm_insert, bob_bound)] None in
  exists w', corm_find_one (Some sqlite3_backend) (Some user_model) (Some bob_only)
      (1%positive, O) (orm_world k) = Ret CORM_OK w' /\
    w_heap w' = {[1%positive := BRecs [user_rec 1 "bob" 41; user_rec 7 "bob" 41]]}.
Proof.
  intros k. destruct (find_one_loads user_model user_fields user_model_ok engine_size (Some bob_only)
    bob_query (1%positive, O) (user_rec 5 "ann" 30) CORM_OK (user_rec 1 "bob" 41) (orm_world k) true tt k)
    as (w' & E & Hh & _).
  - reflexivity.
  - apply orm_world_wf.
  - apply orm_world_idle.
  - reflexivity.
  - exact bob_findable.
  - intros w. reflexivity.
  - reflexivity.
  - vm_compute. reflexivity.
  - exists w'. split; [exact E|]. rewrite Hh. reflexivity.
Defined.

(** The second record is stored, then found into the first one. *)
Lemma record_round_trip_witness :
  exists id w1 w2, corm_create_one (Some sqlite3_backend) (Some user_model) (1%positive, 1%nat) true
      (orm_world (Edb [] None)) = Ret (CORM_OK, id) w1 /\
    corm_find_one (Some sqlite3_backend) (Some user_model) (Some bob_only) (1%positive, O) w1 =
      Ret CORM_OK w2 /\
    exists v, corm_field_get_value (1%positive, O) field_age w2 = Ret v w2 /\
      resolve (w_heap w2) v = Some (SInt 41).
Proof.
  destruct (record_round_trip user_model user_fields user_model_ok engine_size (Some bob_only)
    bob_query (1%positive, 1%nat) (1%positive, O) true [SText "bob"; SInt 41] (user_rec 5 "ann" 30)
    (user_rec 1 "bob" 41) CORM_OK (orm_world (Edb [] None)) tt (Edb [] None)
    [QInt 1; QText "bob"; QInt 41] []) as (id & w1 & w2 & E1 & E2 & Hv).
  - reflexivity.
  - apply orm_world_wf.
  - apply orm_world_idle.
  - intros w. reflexivity.
  - intros w. reflexivity.
  - intros w. reflexivity.
  - vm_compute. reflexivity.
  - vm_compute. discriminate.
  - repeat constructor.
  - unfold fits. vm_compute. discriminate.
  - vm_compute. reflexivity.
  - vm_compute. reflexivity.
  - reflexivity.
  - exact bob_findable.
  - reflexivity.
  - vm_compute. reflexivity.
  - split; [reflexivity|].
    assert (Ei : fields_without CORM_FLAG_AUTOINC user_fields = [field_name; field_age]) by (vm_compute; reflexivity).
    rewrite Ei. intros [|[|i]] f x Hf Hx; [| |done]; injection Hf as <-; injection Hx as <-.
    + exists 1%nat. split; vm_compute; reflexivity.
    + exists 2%nat. split; vm_compute; reflexivity.
  - reflexivity.
  - vm_compute. reflexivity.
  - apply (bool_decide_unpack _). vm_compute. exact I.
  - intros f c Hin Hc. repeat (apply elem_of_cons in Hin as [->|Hin]; [vm_compute in Hc; simplify_eq; by vm_compute|]).
    by apply not_elem_of_nil in Hin.
  - exists id, w1, w2. split; [exact E1|]. split; [exact E2|].
    exact (Hv 1%nat field_age (SInt 41) (SInt 41) eq_refl eq_refl eq_refl).
Defined.
