(* ===== verification/SqliteLists.v ===== *)
(** * Lists of records and counts on SQLite

    [corm_find_all] and [corm_count] from the query to the caller's memory. *)

From S2P Require Import Prelude Types Mem Strbuf Dialect Model Backend Query Builder BuilderSpec.
From S2P Require Import QuerySpec QueryRefine QueryProps Tx Driver Result ResultSpec Exec Rows Batch ExecSpec.
From S2P Require Import ExecProps Core CoreProps StmtCache DriverState DriverSpec Reading Handles.
From S2P Require Import Sqlite SqliteSpec SqliteExec SqliteQuery Sample SqliteLibrary Engine SqliteOrm.

Section lists.
Context {D T X L K : Type} `{Countable T} `{!Sqlite3 D T L} `{!SqliteSpec D T L K}.
#[local] Abbreviation S := (proc D (stmts T) X L).
Implicit Types (w : world S) (k : K) (h : D).
Context (m : model S) (fs : list field) (Hm : model_ok m fs).
Context (Hsize : forall t (l : L), Z.of_nat (sqlite3_rows t l) < 2 ^ 30).
Let b : backend S := sqlite3_backend.






(** What the driver's union holds as an integer. *)
Definition int_of (x : option sqlval) : option Z :=
  match x with Some (SInt z) => Some z | Some SNull => Some 0 | _ => None end.

Definition count_ops (cond : option string) : list qop := QSelect "COUNT(*)" :: cond_ops cond.

(** What [corm_count] reports; [None]: the first cell is not an integer. *)
Definition count_outcome k (a : aquery) : option (corm_err * Z) :=
  let sql := find_text m fs a in
  match (direct_query k sql (find_values fs a)).1 with
  | None => Some (CORM_ERR_BACKEND, 0)
  | Some [] => Some (CORM_OK, 0)
  | Some (row :: rows) =>
      let types := table_types (replicate (length (columns k sql)) CORM_INT) (row :: rows) in
      x ← head (contents types row); z ← int_of x; Some (CORM_OK, wrap_i32 z)
  end.

Lemma first_int_ok w lo res base x z :
  result_at w lo res base -> row_has (w_heap w) res 0 [x] -> int_of x = Some z ->
  first_int (Some lo) w = Ret z w.
Proof.
  intros Hat Hrow Hz. destruct x as [x|]; [|done]. destruct (Hrow 0%nat x eq_refl) as (v & Hv & Hc).
  unfold first_int. run_with (get_result_ok _ _ _ _ Hat).
  change (cell_at res 0 0 = Some v) in Hv. rewrite Hv. run.
  destruct x; simplify_eq/=; by rewrite Hc.
Qed.

Lemma row_has_head hp res i x xs : row_has hp res i (x :: xs) -> row_has hp res i [x].
Proof. intros Hr [|j] y Hj; [|done]. by apply (Hr 0%nat). Qed.

(** [corm_count] on SQLite, memory permitting: the first integer of the answer to
    the SELECT COUNT of the condition, 0 for an error or an empty answer; the heap
    is as it was. *)
Theorem count_on_sqlite cond a e n w (tg : bool) h k :
  let Φ := up_to_date k (find_text m fs a) in
  plenty w -> heap_wf w -> idle Φ tg true h k (w_db w) ->
  asteps (w_heap w) CORM_BACKEND_SQLITE (count_ops cond) aquery_empty = Some a ->
  findable m fs a -> count_outcome k a = Some (e, n) ->
  exists w', corm_count (Some b) (Some m) cond true w = Ret (e, Some n) w' /\
    w_heap w' = w_heap w /\
    idle Φ tg true h (direct_query k (find_text m fs a) (find_values fs a)).2 (w_db w').
Proof.
  intros Φ Hp Hwf Hi Ha Hfd Hout.
  destruct (script_spec b m (count_ops cond) w a Hp Hwf Ha) as (q0 & w0 & E0 & Hq0 & _ & Hp0 & Hd0 & Hqd & Hqm).
  rewrite <- Hd0 in Hi. unfold corm_count.
  destruct (find_open m fs Hm Hsize q0 w0 _ a tg h k Hq0 Hp0 Hqd Hqm Hi Hfd) as
    (e' & q2 & out & w2 & mid & Ew & _ & Hpw & Hs & Hi2 & Hpost).
  unfold count_outcome in Hout. cbv zeta in *.
  assert (Hfree : forall w3, w_heap w3 = mid -> corm_query_free (Some q2) w3 = Ret tt (set_heap (w_heap w) w3)).
  { intros w3 <-. by apply free_params_spec. }
  destruct (query_new_spec b m w Hp Hwf) as (q1 & E & _). rewrite (bind_Ret _ _ _ _ _ E) in E0.
  rewrite (bind_Ret _ _ _ _ _ E).
  cbn [count_ops exec_qops exec_qop] in E0. apply bind_inv in E0 as (q3 & w3 & E2 & E3).
  rewrite <- cond_script in E3. rewrite (bind_Ret _ _ _ _ _ E2), (bind_Ret _ _ _ _ _ E3), (bind_Ret _ _ _ _ _ Ew).
  destruct (direct_query k (find_text m fs a) (find_values fs a)).1 as [rows|].
  - destruct Hpost as (-> & lo & res & -> & Hat & Hone & Ht & Hcount). change (is_err CORM_OK) with false. cbv iota.
    pose proof (get_result_ok _ _ _ _ Hat) as Eg. unfold corm_result_row_count.
    rewrite bind_assoc, (bind_Ret _ _ _ _ _ Eg), bind_ret_l, Hcount. pose proof (release_last _ _ _ _ Hat Hone) as Er.
    assert (Hend : forall n : option Z, (corm_result_release (Some lo);; corm_query_free (Some q2);; mret (CORM_OK, n)) w2 =
      Ret (CORM_OK, n) (set_heap (w_heap w) w2)).
    { intros n'. rewrite (bind_Ret _ _ _ _ _ Er).
      by rewrite (bind_Ret _ _ _ _ _ (Hfree (set_heap mid w2) eq_refl)). }
    destruct rows as [|row rows]; rewrite andb_true_r.
    + simplify_eq. change (0 <? Z.of_nat (length [])) with false. cbv iota. rewrite bind_ret_l, Hend. by eexists.
    + pose proof (table_row _ _ _ _ 0 row Ht eq_refl) as Hrow. rewrite (tb_types _ _ _ _ Ht) in Hrow.
      destruct (contents _ row) as [|x xs]; [done|]. cbn [head] in Hout. cbn [mbind option_bind] in Hout.
      destruct (int_of x) as [z|] eqn:Ez; [|done]. cbn [mbind option_bind] in Hout. simplify_eq.
      assert ((0 <? Z.of_nat (length (row :: rows))) = true) as -> by (apply Z.ltb_lt; cbn [length]; lia).
      rewrite bind_assoc, (bind_Ret _ _ _ _ _ (first_int_ok _ _ _ _ x z Hat (row_has_head _ _ _ _ _ Hrow) Ez)).
      rewrite bind_ret_l, Hend. by eexists.
  - destruct Hpost as (-> & -> & Hh). injection Hout as <- <-. change (is_err CORM_ERR_BACKEND) with true.
    assert (En : corm_result_release None w2 = Ret tt w2) by done. cbv iota.
    rewrite (bind_Ret _ _ _ _ _ En), (bind_Ret _ _ _ _ _ (Hfree _ Hh)). by eexists.
Qed.

End lists.

(** ** The theorem at a concrete input *)




(** A batch inside a transaction ends it: the BEGIN of the batch fails, which is
    ignored, and its COMMIT commits the caller's transaction, so that a rollback
    comes too late for the UPDATE. *)
Example batch_ends_transaction :
  match (e0 ← corm_begin (Some sqlite3_backend);
         '(e, _) ← corm_update_batch (Some sqlite3_backend) (Some user_model) (Some (1%positive, O)) 1;
         corm_rollback (Some sqlite3_backend);; mret (e0, e)) (orm_world (Edb [] None)) with
  | Ret es w => Some (es, length (ed_log (db_of (p_env (w_db w)))), ed_saved (db_of (p_env (w_db w))))
  | Stuck => None
  end = Some (CORM_OK, CORM_OK, 1%nat, None).
Proof. vm_compute. reflexivity. Qed.
