(* ===== verification/ExamplesProps.v ===== *)
(** * Properties of the example programs

    [basic_main] on the SQLite driver, from [corm_open] to [corm_close].
    [BasicDb] is what the program relies on of the database: in the states that
    a session reaches, where the texts of the program that have a result compile,
    a row of users has the four columns of the model and a count has one. *)

From S2P Require Import Prelude Types Mem Strbuf Dialect Hash Float CLib Model Backend Query Builder.
From S2P Require Import BuilderSpec QuerySpec Columns Tx Driver Result ResultSpec Core CoreProps.
From S2P Require Import StmtCache Migration MigrationSpec MigrationProps Stdio Examples DriverState.
From S2P Require Import DriverSpec Reading Describe Handles Sqlite SqliteSpec SqliteExec SqliteQuery.
From S2P Require Import SqliteDescribe SqliteLibrary Engine SqliteMigration SqliteSession SmallSql.

(** A row of [SELECT * FROM users], and one of [SELECT COUNT( * )]. *)
Definition user_shape (row : list sqlite_value) : Prop :=
  exists id name age score, row = [QInt id; QText name; QInt age; QFloat score].
Definition count_shape (row : list sqlite_value) : Prop := exists n, row = [QInt n].

Definition basic_statements : list string :=
  ["BEGIN TRANSACTION"; "COMMIT";
   "INSERT INTO users (name, age, score) VALUES ('Alice', 30, 95.5)";
   "INSERT INTO users (name, age, score) VALUES ('Bob', 25, 87.0)";
   "INSERT INTO users (name, age, score) VALUES ('Charlie', 35, 92.3)"; insert_dave].

Lemma users_model_ok {S} : model_ok (@users_model S 256) (users_fields 256).
Proof.
  constructor.
  - split; [done|]. split; [done|]. split; [done|]. exists (users_fields 256). split; [done|].
    split; [by repeat constructor|]. apply (bool_decide_unpack _). by vm_compute.
  - done.
  - done.
  - apply list_elem_of_here.
Qed.

Lemma basic_ready {S} : Forall (fun p => ready CORM_BACKEND_SQLITE p.1 p.2) (basic_models (S := S)).
Proof.
  apply Forall_singleton. split; [|unfold fits; vm_compute; discriminate].
  split; [exact users_model_ok|vm_compute; discriminate|].
  repeat apply Forall_cons_2; try apply Forall_nil_2; (split; [vm_compute; discriminate|]); split; vm_compute; done.
Qed.

Section basic.
Context {D T X L K : Type} `{Countable T} `{!Sqlite3 D T L} `{!SqliteSpec D T L K}.
#[local] Abbreviation S := (proc D (stmts T) X L).
Implicit Types (w : world S) (k : K) (h : D).

Class BasicDb : Type := {
  bd_schema :: SqliteSchema (basic_models (S := S));
  bd_size t (l : L) : Z.of_nat (sqlite3_rows t l) < 2 ^ 30;
  bd_open : open_law basic_models ":memory:";
  bd_statements sql : sql ∈ basic_statements -> harmless (X := X) basic_models sql;
  bd_users_names : list string;
  bd_users_four : length bd_users_names = 4%nat;
  bd_users : query_law (sane (ms := basic_models (S := S))) select_users bd_users_names user_shape;
  bd_count_names : list string;
  bd_count_one : length bd_count_names = 1%nat;
  bd_count : query_law (sane (ms := basic_models (S := S))) count_users bd_count_names count_shape
}.
Context `{!BasicDb}.
#[local] Abbreviation alive := (session (basic_models (S := S))).
#[local] Abbreviation looking := (viewing (basic_models (S := S))).
Let db : option (option (backend S)) := Some (Some sqlite3_backend).

(** ** Loops over a result *)

Lemma does_while {A} base lo types rows (body : A -> io S A) n : forall i a,
  (forall j row a, rows !! j = Some row ->
     does (looking base lo types rows (Z.of_nat j)) (body a)
       (fun _ => looking base lo types rows (Z.of_nat j))) ->
  (i + n = Datatypes.S (length rows))%nat -> (0 < n)%nat ->
  does (looking base lo types rows (Z.of_nat i - 1)) (while_next n (Some lo) body a)
    (fun _ => looking base lo types rows (Z.of_nat (length rows))).
Proof.
  induction n as [|n IH]; intros i a Hb Hn Hpos; [lia|]. cbn [while_next].
  eapply (does_bind _ _ _ (fun more w => more = (Z.of_nat i <? Z.of_nat (length rows)) /\
    looking base lo types rows (Z.of_nat i) w)).
  { apply does_call. intros w Hv.
    destruct (view_next _ _ _ _ _ _ w Hv) as (w' & E & Hv'); [lia|].
    replace (Z.of_nat i - 1 + 1) with (Z.of_nat i) in * by lia. eauto 10. }
  intros more. apply does_pure. intros ->. destruct (Z.ltb_spec (Z.of_nat i) (Z.of_nat (length rows))).
  - destruct (lookup_lt_is_Some_2 rows i) as [row Hrow]; [lia|].
    eapply does_bind; [by apply (Hb i row)|]. intros a'.
    replace (Z.of_nat i) with (Z.of_nat (Datatypes.S i) - 1) by lia. apply IH; [done|lia|lia].
  - replace i with (length rows) by lia. by apply does_ret.
Qed.

Lemma does_each_row {A} base lo types rows i (body : A -> io S A) a :
  (forall j row a, rows !! j = Some row ->
     does (looking base lo types rows (Z.of_nat j)) (body a)
       (fun _ => looking base lo types rows (Z.of_nat j))) ->
  does (looking base lo types rows i) (each_row (Some lo) body a)
    (fun _ => looking base lo types rows (Z.of_nat (length rows))).
Proof.
  intros Hb. unfold each_row.
  eapply (does_bind _ _ _ (fun _ => looking base lo types rows (-1))).
  { apply does_call. intros w Hv. destruct (view_reset _ _ _ _ _ _ w Hv) as (w' & E & Hv'). eauto. }
  intros _. eapply (does_bind _ _ _ (fun res w => r_row_count res = Z.of_nat (length rows) /\
    looking base lo types rows (-1) w)).
  { apply does_call. intros w Hv. destruct (view_count _ _ _ _ _ _ w Hv) as (res & E & Hn & _). eauto 10. }
  intros res. apply does_pure. intros ->. rewrite Nat2Z.id.
  apply (does_while base lo types rows body (Datatypes.S (length rows)) 0); [done|lia|lia].
Qed.

(** ** Cells of the current row *)

Section cells.
Context (base : gmap loc block) (lo : loc) (types : list corm_field_type).
Context (rows : list (list sqlite_value)) (j col : nat) (row : list sqlite_value).
Context (Hrow : rows !! j = Some row).
#[local] Abbreviation here := (looking base lo types rows (Z.of_nat j)).

Lemma cell_int z w :
  row !! col = Some (QInt z) -> types !! col = Some CORM_INT64 -> here w ->
  corm_result_int (Some lo) (Z.of_nat j) (Z.of_nat col) w = Ret z w.
Proof.
  intros Hq Ht Hv. destruct (view_cell _ _ _ _ _ _ _ _ _ _ w Hv Hrow Hq Ht) as (v & E & Hty & Hn & Hr & _).
  unfold corm_result_int. run_with E. rewrite Hn. cbn. unfold resolve in Hr. rewrite Hn, Hty in Hr. cbn in Hr.
  destruct (u_as_i (v_u v)) as [z'|]; [|done]. rewrite to_int64_int in Hr. by simplify_eq/=.
Qed.

Lemma cell_double b w :
  row !! col = Some (QFloat b) -> types !! col = Some CORM_DOUBLE -> here w ->
  corm_result_double (Some lo) (Z.of_nat j) (Z.of_nat col) w = Ret b w.
Proof.
  intros Hq Ht Hv. destruct (view_cell _ _ _ _ _ _ _ _ _ _ w Hv Hrow Hq Ht) as (v & E & Hty & Hn & Hr & _).
  unfold corm_result_double. run_with E. rewrite Hn. cbn. unfold resolve in Hr. rewrite Hn, Hty in Hr. cbn in Hr.
  destruct (u_as_f (v_u v)) as [z'|]; [|done]. rewrite to_double_float in Hr. by simplify_eq/=.
Qed.

Lemma cell_text s w :
  row !! col = Some (QText s) -> types !! col = Some CORM_TEXT -> here w ->
  exists p, corm_result_string (Some lo) (Z.of_nat j) (Z.of_nat col) w = Ret p w /\
    p <> PNull /\ read_cstr (w_heap w) p = Some s.
Proof.
  intros Hq Ht Hv. destruct (view_cell _ _ _ _ _ _ _ _ _ _ w Hv Hrow Hq Ht) as (v & E & Hty & Hn & Hr & _).
  unfold corm_result_string. run_with E. rewrite Hn. cbn. unfold resolve in Hr. rewrite Hn, Hty in Hr. cbn in Hr.
  destruct (u_as_s (v_u v)) as [p|]; [|done]. cbn in Hr. rewrite to_text_text in Hr. case_decide; [done|].
  destruct (read_cstr (w_heap w) p) as [s'|] eqn:Es; simplify_eq/=. by exists p.
Qed.

(** Reading a cell keeps whatever holds. *)
Context (P : world S -> Prop) (HP : forall w, P w -> here w).

Lemma does_current {A} (f : option loc -> Z -> Z -> M S A) (Q : A -> world S -> Prop) :
  (forall w, P w -> exists a, f (Some lo) (Z.of_nat j) (Z.of_nat col) w = Ret a w /\ Q a w) ->
  does P (call (r ← get_result (Some lo); f (Some lo) (r_current_row r) (Z.of_nat col)))
    (fun a w => Q a w /\ P w).
Proof.
  intros Hf. apply does_call. intros w Hw.
  destruct (view_count _ _ _ _ _ _ w (HP w Hw)) as (res & E & _ & Hc & _).
  run_with E. rewrite Hc. destruct (Hf w Hw) as (a & Ea & HQ). eauto 10.
Qed.

Lemma does_int z :
  row !! col = Some (QInt z) -> types !! col = Some CORM_INT64 ->
  does P (call (current_int (Some lo) (Z.of_nat col))) (fun a w => a = z /\ P w).
Proof.
  intros Hq Ht. apply (does_current corm_result_int (fun a _ => a = z)). intros w Hw. exists z.
  split; [by apply cell_int, HP|done].
Qed.

Lemma does_double b :
  row !! col = Some (QFloat b) -> types !! col = Some CORM_DOUBLE ->
  does P (call (current_double (Some lo) (Z.of_nat col))) (fun a w => a = b /\ P w).
Proof.
  intros Hq Ht. apply (does_current corm_result_double (fun a _ => a = b)). intros w Hw. exists b.
  split; [by apply cell_double, HP|done].
Qed.

Lemma does_text s :
  row !! col = Some (QText s) -> types !! col = Some CORM_TEXT ->
  does P (call (current_string (Some lo) (Z.of_nat col)))
    (fun p w => (p <> PNull /\ read_cstr (w_heap w) p = Some s) /\ P w).
Proof.
  intros Hq Ht.
  apply (does_current corm_result_string (fun p w => p <> PNull /\ read_cstr (w_heap w) p = Some s)).
  intros w Hw. by apply cell_text, HP.
Qed.
End cells.

(** ** The parts of the program *)

Lemma does_print (I : world S -> Prop) fmt args {B} (k : io S B) (Q : B -> world S -> Prop) :
  is_Some (printf_text fmt args) -> does I k Q -> does I (printf fmt args;; k) Q.
Proof. intros Ht Hk. eapply does_bind; [by apply does_printf|]. by intros []. Qed.

(** A call, then the rest. *)
Lemma does_then (I : world S -> Prop) {A B} (m : M S A) (k : A -> io S B)
    (R : A -> world S -> Prop) (Q : B -> world S -> Prop) :
  (forall w, I w -> exists a w', m w = Ret a w' /\ R a w') -> (forall a, does (R a) (k a) Q) ->
  does I (call m ≫= k) Q.
Proof. intros Hm Hk. eapply does_bind; [by apply does_call|done]. Qed.

Ltac printed := first [apply does_print; [by eexists|] | apply does_printf; by eexists].

Lemma user_types rows j row :
  Forall user_shape rows -> rows !! j = Some row ->
  types_of 4 rows = [CORM_INT64; CORM_TEXT; CORM_INT64; CORM_DOUBLE].
Proof.
  intros Hs Hj. destruct rows as [|r rows]; [done|]. apply Forall_cons in Hs as [(id & n & a & sc & ->) _].
  done.
Qed.

Lemma does_text_or p s dflt (P : world S -> Prop) :
  does (fun w => (p <> PNull /\ read_cstr (w_heap w) p = Some s) /\ P w) (call (text_or p dflt))
    (fun a w => a = s /\ P w).
Proof.
  apply does_call. intros w [[Hp Hr] Hw]. unfold text_or. rewrite bool_decide_false by done.
  rewrite (read_str_ok p s w Hr). eauto.
Qed.

Lemma does_print_user base lo rows j row n :
  Forall user_shape rows -> rows !! j = Some row ->
  does (looking base lo (types_of 4 rows) rows (Z.of_nat j)) (print_user (Some lo) n)
    (fun _ => looking base lo (types_of 4 rows) rows (Z.of_nat j)).
Proof.
  intros Hs Hj. rewrite (user_types rows j row Hs Hj).
  rewrite Forall_forall in Hs. destruct (Hs row) as (id & name & age & score & ->);
    [by eapply list_elem_of_lookup_2|]. unfold print_user.
  eapply does_bind; [eapply (does_int base lo _ rows j 0 _ Hj); done|].
  intros a. apply does_pure. intros ->.
  eapply does_bind; [eapply (does_text base lo _ rows j 1 _ Hj); done|]. intros p.
  eapply does_bind; [eapply (does_int base lo _ rows j 2 _ Hj); [by intros w [_ Hw]|done|done]|].
  intros a. apply does_pure. intros ->.
  eapply does_bind; [eapply (does_double base lo _ rows j 3 _ Hj); [by intros w [_ Hw]|done|done]|].
  intros a. apply does_pure. intros ->. eapply does_bind; [apply does_text_or|].
  intros a. apply does_pure. intros ->. printed. by apply does_ret.
Qed.

(** A query, and what to do with its result. *)
Lemma does_raw sql names shape n base {B} (k : corm_err * option loc -> io S B) (Q : B -> world S -> Prop) :
  query_law (sane (ms := basic_models (S := S))) sql names shape -> length names = n ->
  (forall e, is_err e = true -> does (alive base) (k (e, None)) Q) ->
  (forall lo rows, Forall shape rows ->
     does (looking base lo (types_of n rows) rows (-1)) (k (CORM_OK, Some lo)) Q) ->
  does (alive base) (call (raw_into db sql None) ≫= k) Q.
Proof.
  intros Hlaw <- Hbad Hgood w Hw.
  destruct (session_raw (basic_models (S := S)) bd_size sql names shape base w Hlaw Hw)
    as ([e out] & w1 & E & Hpost).
  unfold mbind, io_bind, call, raw_into. run_with E.
  unfold raw_post in Hpost. cbn [fst snd] in Hpost. destruct (is_err e) eqn:He.
  - destruct Hpost as [-> Hw1]. destruct (Hbad e He w1 Hw1) as (b & o & w2 & E2 & HQ).
    rewrite E2. eauto.
  - destruct Hpost as (lo & rows & -> & Hsh & Hv). assert (e = CORM_OK) as -> by by destruct e.
    destruct (Hgood lo rows Hsh w1 Hv) as (b & o & w2 & E2 & HQ). rewrite E2. eauto.
Qed.

Lemma does_release base lo types rows i :
  does (looking base lo types rows i) (call (corm_result_release (Some lo))) (fun _ => alive base).
Proof. apply does_call. intros w Hv. destruct (view_release _ _ _ _ _ _ _ Hv) as (w' & E & Hw'). eauto. Qed.

Lemma does_show_users base : does (alive base) (show_users db) (fun _ => alive base).
Proof.
  unfold show_users. apply (does_raw _ bd_users_names user_shape 4); [exact bd_users|exact bd_users_four|..].
  - intros e He. rewrite He. cbn [orb]. eapply (does_bind _ _ _ (fun _ => alive base)); [by printed|].
    intros []. by printed.
  - intros lo rows Hs. cbn [is_err err_code is_null negb orb Z.eqb].
    eapply (does_bind _ _ _ (fun _ => alive base)); [|by intros []; printed].
    eapply (does_bind _ _ _ (fun res w => looking base lo (types_of 4 rows) rows (-1) w)).
    { apply does_call. intros w Hv. destruct (view_count _ _ _ _ _ _ w Hv) as (res & E & _). eauto. }
    intros res. printed.
    eapply (does_bind _ _ _ (fun _ => looking base lo (types_of 4 rows) rows (Z.of_nat (length rows))));
      [|intros ?; apply does_release]. apply does_each_row.
    intros j row n Hj. by apply (does_print_user _ _ _ _ row).
Qed.

Lemma does_count base lo rows :
  Forall count_shape rows -> rows <> [] ->
  does (looking base lo (types_of 1 rows) rows 0)
    (n ← call (corm_result_int (Some lo) 0 0); printf (ln "%lld") [PI n])
    (fun _ => looking base lo (types_of 1 rows) rows 0).
Proof.
  intros Hs Hne. destruct rows as [|row rows]; [done|]. apply Forall_cons in Hs as [[n ->] _].
  set (all := [QInt n] :: rows). eapply (does_then _ _ _ (fun _ => looking base lo (types_of 1 all) all 0));
    [|intros z; by printed].
  intros w Hv. exists n, w. split; [|done].
  exact (cell_int base lo (types_of 1 all) all 0 0 [QInt n] eq_refl n w eq_refl eq_refl Hv).
Qed.

Lemma does_show_total base title :
  printf_text title [] = Some title -> does (alive base) (show_total db title) (fun _ => alive base).
Proof.
  intros Ht. unfold show_total. apply (does_raw _ bd_count_names count_shape 1); [exact bd_count|exact bd_count_one|..].
  - intros e He. by apply does_ret.
  - intros lo rows Hs. apply does_print; [by eexists|].
    eapply (does_then _ _ _ (fun _ => looking base lo (types_of 1 rows) rows (-1)));
      [intros w Hv; destruct (view_reset _ _ _ _ _ _ w Hv) as (w' & E & Hv'); eauto|].
    intros ?. eapply (does_then _ _ _ (fun more w => looking base lo (types_of 1 rows) rows 0 w /\
      (more = true -> rows <> []))).
    { intros w Hv. destruct (view_next _ _ _ _ _ _ w Hv) as (w' & E & Hv'); [lia|].
      change (-1 + 1) with 0 in *. eexists _, _. split; [exact E|]. split; [done|].
      by destruct rows. }
    intros more. eapply (does_bind _ _ _ (fun _ => looking base lo (types_of 1 rows) rows 0));
      [|intros ?; apply does_release]. destruct more.
    + intros w [Hv Hne]. exact (does_count base lo rows Hs (Hne eq_refl) w Hv).
    + apply does_ret. by intros w [? _].
Qed.

Lemma does_exec base sql :
  sql ∈ basic_statements -> does (alive base) (call (corm_exec db sql)) (fun _ => alive base).
Proof.
  intros Hs. apply does_call. intros w Hw.
  destruct (session_exec basic_models sql base w (bd_statements sql Hs) Hw) as (e & w' & E & Hw'). eauto.
Qed.

Lemma does_tx base sql :
  sql ∈ basic_statements -> does (alive base) (call (sqlite_exec sql [])) (fun _ => alive base).
Proof.
  intros Hs. apply does_call. intros w Hw.
  destruct (session_tx basic_models sql base w (bd_statements sql Hs) Hw) as (e & w' & E & Hw'). eauto.
Qed.

Lemma does_if_ok base e text :
  is_Some (printf_text (ln text) []) -> does (alive base) (print_if_ok e text) (fun _ => alive base).
Proof. intros Ht. unfold print_if_ok. destruct (is_err e); [by apply does_ret|by apply does_printf]. Qed.

Lemma does_transaction base : does (alive base) (transaction_demo sqlite3_backend) (fun _ => alive base).
Proof.
  unfold transaction_demo.
  eapply does_bind; [apply (does_tx base "BEGIN TRANSACTION"); by left|]. intros e.
  eapply does_bind; [by apply does_if_ok; eexists|]. intros ?.
  eapply does_bind; [apply (does_exec base insert_dave); set_solver|]. intros e2.
  eapply does_bind; [by apply does_if_ok; eexists|]. intros ?.
  eapply does_bind; [apply (does_tx base "COMMIT"); set_solver|]. intros e3.
  eapply does_bind; [by apply does_if_ok; eexists|]. intros ?. by printed.
Qed.

Lemma does_report (I : world S -> Prop) e good bad : does I (report e good bad) (fun _ => I).
Proof. unfold report. by printed. Qed.

Lemma does_insert base name sql :
  sql ∈ basic_statements -> does (alive base) (insert_report db name sql) (fun _ => alive base).
Proof.
  intros Hs. eapply does_bind; [by apply does_exec|]. intros e. apply does_report.
Qed.

(** ** The whole program *)

#[local] Existing Instance sqlite_api.

(** The connection is gone; its statements were finalized before it was closed. *)
Definition closed (base : gmap loc block) w : Prop :=
  w_heap w = base /\ p_db (w_db w) = None /\
  exists h l, stmts_of l = ∅ /\ p_env (w_db w) = (sqlite3_close (Some h) l).2.

Lemma does_closing base : does (alive base) (closing db) (fun _ => closed base).
Proof.
  unfold closing. eapply (does_then _ _ _ (fun _ => closed base)); [|intros e; apply does_report].
  intros w [Hp _ Hh (h & k & Hi & _)]. destruct (close_ok _ true h k w Hp Hi) as (w' & l & E & Hl & Hd & He & Hh' & _).
  exists CORM_OK, w'. split; [exact E|]. split; [congruence|]. split; [done|]. by exists h, l.
Qed.


Lemma does_migrate base :
  does (alive base) (migrate_report [users_model 256] db) (fun _ => alive base).
Proof.
  unfold migrate_report. eapply (does_then _ _ _ (fun _ => alive base)).
  - intros w Hw. exact (session_migrate basic_models base w basic_ready Hw).
  - intros e. eapply (does_bind _ _ _ (fun _ => alive base)); [by destruct (is_err e); printed|].
    intros ?. by printed.
Qed.

Lemma does_register base :
  does (opened basic_models base) (call (register_model (users_model 256))) (fun _ => alive base).
Proof.
  apply does_call. intros w Hw.
  apply (session_register basic_models (users_model 256) base w); [done|by eexists|done].
Qed.

Lemma does_session base :
  does (opened basic_models base) (basic_session sqlite3_backend)
    (fun code w => code = 0 /\ closed base w).
Proof.
  unfold basic_session. do 2 printed.
  eapply does_bind; [apply does_register|]. intros ?. do 2 printed.
  eapply does_bind; [apply does_migrate|]. intros ?. printed.
  do 3 (eapply does_bind; [apply does_insert; set_solver|]; intros ?). do 2 printed.
  eapply does_bind; [apply does_show_users|]. intros ?. printed.
  eapply does_bind; [apply does_transaction|]. intros ?.
  eapply does_bind; [by apply does_show_total|]. intros ?. printed.
  eapply does_bind; [apply does_closing|]. intros ?. do 3 printed. by apply does_ret.
Qed.

(** C20: the example program on SQLite, from opening the database to closing it,
    over every database that obeys [BasicDb] - of which the SQL database of
    [SmallSql.v] is one ([small_basic]), whose columns do change with the schema:
    memory permitting the program is never stuck - no NULL or dangling pointer is used, no
    member of a union is read as another, no finalized statement is passed to the
    library - and ends with the code 0, or 1 when the database cannot be opened;
    every block that was allocated on the way is freed, every statement that was
    prepared is finalized before the handle is closed, and the connection is
    gone. *)
Theorem basic_clean (g : list (backend S)) w :
  corm_get_backend g CORM_BACKEND_SQLITE = Some sqlite3_backend ->
  plenty w -> heap_wf w -> stmts_of (p_env (w_db w)) = ∅ ->
  exists code out w', basic_main g w = Ret (code, out) w' /\
    w_heap w' = w_heap w /\ p_db (w_db w') = None /\
    (code = 1 \/ code = 0 /\
     exists h l, stmts_of l = ∅ /\ p_env (w_db w') = (sqlite3_close (Some h) l).2).
Proof.
  intros Hg Hp Hwf Hl.
  set (I := fun w1 => w1 = w). set (base := w_heap w).
  assert (H1 : does I (basic_main g) (fun code w' =>
    (code = 1 /\ w_heap w' = base /\ p_db (w_db w') = None) \/ (code = 0 /\ closed base w'))).
  { unfold basic_main. do 5 printed.
    eapply (does_then _ _ _ (fun r w' => r.2 = (if is_err r.1 then None else Some sqlite3_backend) /\
      if is_err r.1 then w_heap w' = base /\ p_db (w_db w') = None else opened basic_models base w')).
    - intros w0 ->. destruct (session_open basic_models g "sqlite3://:memory:" ":memory:" w eq_refl Hg bd_open Hp Hwf Hl)
        as (e & w' & E & Hh & Hw'). exists (e, if is_err e then None else Some sqlite3_backend), w'.
      split; [exact E|]. split; [done|]. cbn [fst]. by destruct (is_err e).
    - intros [e out]. apply does_pure. cbn [fst snd]. intros ->. destruct (is_err e).
      + do 2 printed. apply does_ret. by left.
      + eapply (does_then _ _ _ (fun b w' => b = sqlite3_backend /\ opened basic_models base w')).
        { intros w' Hw'. by exists sqlite3_backend, w'. }
        intros b. apply does_pure. intros ->.
        eapply does_conseq; [apply does_session|done|]. by right. }
  destruct (H1 w eq_refl) as (code & out & w' & E & HQ). exists code, out, w'. split; [done|].
  destruct HQ as [(-> & Hh & Hd)|(-> & Hh & Hd & Hc)]; split_and!; auto.
Qed.
End basic.

(** ** The program on the SQL database

    [SmallSql.v] is such a database: the laws hold where the table [users] is not
    there, or has the four columns of the model and rows of their types. *)

Definition users_create : string :=
  create_table_text CORM_BACKEND_SQLITE (@users_model unit 256) (users_fields 256).

Definition users_columns : list column :=
  Eval vm_compute in match parse users_create with Some (QCreate _ cols _) => cols | _ => [] end.

Definition users_ok (tb : table) : Prop := tb_cols tb = users_columns /\ Forall user_shape (tb_rows tb).
Definition sane_users (k : sqldb) : Prop := forall tb, sd_tables k !! "users" = Some tb -> users_ok tb.

(** The names of the columns of the tables. *)
Definition names_of (m : gmap string table) : schema_map := (fun tb => map col_name (tb_cols tb)) <$> m.

Lemma listed_users kind n t sql m : listed kind n t sql m !! "users" = m !! "users".
Proof. by apply lookup_alter_ne. Qed.

Lemma names_listed kind n t sql m : names_of (listed kind n t sql m) = names_of m.
Proof.
  apply map_eq. intros i. unfold names_of, listed. rewrite !lookup_fmap.
  destruct (decide (i = "sqlite_master")) as [->|Hne]; [|by rewrite lookup_alter_ne].
  rewrite lookup_alter_eq. by destruct (m !! "sqlite_master").
Qed.

(** *** Statements by what they are parsed to *)

Section parsed.
Context (k : sqldb) (sql : string) (s : stmt) (Hs : parse sql = Some s).

Lemma small_refused :
  compiled (sd_tables k) s = false ->
  small_sem k sql ∅ = ([], 1, k) /\ direct_exec k sql [] = (CORM_ERR_BACKEND, k).
Proof.
  intros Hc. unfold direct_exec, small_sem. cbn [compiles library_spec db_compiles small_db].
  rewrite Hs. cbn [from_option]. by rewrite Hc.
Qed.

Lemma small_executed rc k' :
  compiled (sd_tables k) s = true -> run k s ∅ = ([], rc, k') ->
  small_sem k sql ∅ = ([], rc, k') /\
  direct_exec k sql [] = (if succeeds rc then CORM_OK else CORM_ERR_BACKEND, k').
Proof.
  intros Hc Hr. assert (E : small_sem k sql ∅ = ([], rc, k')) by (unfold small_sem; rewrite Hs, Hc, Hr; done).
  split; [exact E|]. unfold direct_exec. cbn [compiles sem library_spec db_compiles db_sem small_db bind_all].
  rewrite E, Hs. cbn [from_option]. by rewrite Hc.
Qed.

(** A statement that is executed without error. *)
Lemma small_ddl k' :
  compiled (sd_tables k) s = true -> run k s ∅ = ([], SQLITE_DONE, k') -> sane_users k' ->
  ddl_effect (D := unit) (T := positive) (L := library sqldb) sane_users (fun k => names_of (sd_tables k)) k sql
    CORM_OK (names_of (sd_tables k')).
Proof.
  intros Hc Hr Hk. destruct (small_executed _ _ Hc Hr) as [E1 E2]. unfold ddl_effect.
  cbn [sem library_spec db_sem small_db]. rewrite E1, E2.
  split; [done|]. split; [done|]. split; [exact Hk|done].
Qed.
End parsed.

(** *** The statements of the migration *)

Lemma users_create_law k :
  sane_users k ->
  ddl_effect (D := unit) (T := positive) (L := library sqldb) sane_users (fun k => names_of (sd_tables k)) k
    users_create CORM_OK (created (@users_model unit 256) (users_fields 256) (names_of (sd_tables k))).
Proof.
  intros Hk. assert (Hp : parse users_create = Some (QCreate "users" users_columns users_create))
    by (vm_compute; reflexivity).
  unfold created, names_of at 2. rewrite lookup_fmap. change (table_of _) with "users".
  destruct (sd_tables k !! "users") as [tb|] eqn:Ht; cbn [fmap option_fmap option_map].
  - apply (small_ddl _ _ _ Hp k); [done| |done]. cbn [run]. by rewrite Ht.
  - set (m := listed "table" "users" "users" users_create (sd_tables k)).
    replace (<["users" := _]> (names_of (sd_tables k))) with
      (names_of (<["users" := Table users_columns [] 0]> m)).
    + set (k' := with_tables (<["users" := Table users_columns [] 0]> m) k).
      apply (small_ddl k _ _ Hp k'); [done|unfold run; by rewrite Ht|].
      intros tb. unfold k', with_tables. cbn [sd_tables]. rewrite lookup_insert_eq. intros [= <-]. by split.
    + unfold names_of at 1. rewrite fmap_insert. fold (names_of m). unfold m. by rewrite names_listed.
Qed.

Lemma users_index_law f k :
  f ∈ users_fields 256 -> sane_users k -> exists e,
    ddl_effect (D := unit) (T := positive) (L := library sqldb) sane_users (fun k => names_of (sd_tables k)) k
      (index_text CORM_BACKEND_SQLITE (@users_model unit 256) f) e (names_of (sd_tables k)).
Proof.
  intros Hf Hk. set (sql := index_text _ _ _).
  assert (exists n, parse sql = Some (QIndex n "users" sql)) as [n Hp].
  { unfold users_fields in Hf. sample_cases Hf; subst f; eexists; vm_compute; reflexivity. }
  destruct (sd_tables k !! "users") as [tb|] eqn:Ht.
  - exists CORM_OK. assert (Hc : compiled (sd_tables k) (QIndex n "users" sql) = true) by (cbn; by rewrite Ht).
    destruct (is_listed "index" n (sd_tables k)) eqn:El.
    + apply (small_ddl k _ _ Hp k Hc); [cbn [run]; by rewrite El|done].
    + rewrite <- (names_listed "index" n "users" sql).
      set (k' := with_tables (listed "index" n "users" sql (sd_tables k)) k).
      apply (small_ddl k _ _ Hp k' Hc); [unfold run; by rewrite El|].
      intros tb'. unfold k', with_tables. cbn [sd_tables]. rewrite listed_users. apply Hk.
  - exists CORM_ERR_BACKEND. destruct (small_refused k _ _ Hp) as [E1 E2]; [cbn; by rewrite Ht|].
    unfold ddl_effect. cbn [sem library_spec db_sem small_db]. rewrite E1, E2.
    split; [done|]. split; [done|]. split; [exact Hk|done].
Qed.

Lemma users_pragma_law k names :
  sane_users k -> names_of (sd_tables k) !! "users" = Some names ->
  compiles (D := unit) (T := positive) (L := library sqldb) k (pragma "users") = true /\ exists rows rc,
    sem (D := unit) (T := positive) (L := library sqldb) k (pragma "users") ∅ = (rows, rc, k) /\
    Forall2 (row_names (D := unit) (T := positive) (L := library sqldb)) rows names /\
    Z.of_nat (length rows) <= 32767.
Proof.
  intros Hk. assert (Hp : parse (pragma "users") = Some (QInfo "users")) by (vm_compute; reflexivity).
  unfold names_of. rewrite lookup_fmap. destruct (sd_tables k !! "users") as [tb|] eqn:Ht; [|done].
  intros [= <-]. destruct (Hk tb Ht) as [Hc _].
  cbn [compiles sem library_spec db_compiles db_sem small_db]. unfold small_sem. rewrite Hp. cbn [compiled].
  split; [done|]. cbn [run]. rewrite Ht. cbn [from_option]. rewrite Hc.
  eexists _, _. split; [done|]. split; [|vm_compute; discriminate].
  repeat (apply Forall2_cons; split; [by eexists (QText _)|]). constructor.
Qed.

#[export] Instance small_schema :
  SqliteSchema (D := unit) (T := positive) (X := unit) (L := library sqldb) basic_models.
Proof.
  assert (Hin : forall m fs, (m, fs) ∈ @basic_models sql_state -> m = users_model 256 /\ fs = users_fields 256)
    by by intros m fs [= -> ->]%list_elem_of_singleton.
  refine {| sane := sane_users; schema_of := fun k => names_of (sd_tables k); refuse_create := fun _ => CORM_OK;
            refuse_alter := fun _ _ => CORM_OK |}; intros m fs.
  - intros l _. by exists l.
  - by intros [-> ->]%Hin.
  - intros k [-> ->]%Hin. exact (users_create_law k).
  - intros f k cols [-> ->]%Hin Hf Hk. unfold names_of at 1. rewrite lookup_fmap. change (table_of _) with "users".
    destruct (sd_tables k !! "users") as [tb|] eqn:Ht; [|done]. intros [= <-] Hn. destruct (Hk tb Ht) as [Hc _].
    destruct Hn. rewrite Hc. unfold users_fields in Hf. apply (bool_decide_unpack _).
    sample_cases Hf; subst f; vm_compute; exact I.
  - intros f k [-> ->]%Hin. exact (users_index_law f k).
  - intros k names [-> ->]%Hin. exact (users_pragma_law k names).
Defined.

(** *** Rows *)

Lemma insert_rows_shape cols binds m names (shape : row -> Prop) rows : forall t t',
  (forall es last, es ∈ rows -> shape (map (insert_value cols binds names es last) cols)) ->
  insert_rows cols binds m names rows t = Some t' -> Forall shape (tb_rows t) ->
  tb_cols t' = tb_cols t /\ Forall shape (tb_rows t').
Proof.
  induction rows as [|es rows IH]; intros t t' Hsh; cbn [insert_rows]; [by intros [= <-]|].
  destruct (row_allowed _ _ _ _); [|done]. intros E Ht. apply IH in E; [done| |].
  - intros es' last Hin. apply Hsh. by right.
  - cbn. apply Forall_app. split; [done|]. apply Forall_singleton. apply Hsh. by left.
Qed.

Lemma insert_sorted_shape i desc (shape : row -> Prop) r rs :
  shape r -> Forall shape rs -> Forall shape (insert_sorted i desc r rs).
Proof.
  intros Hr Hrs. induction Hrs as [|r' rs Hr' Hrs IH]; cbn; [by constructor|].
  destruct (bool_decide _); repeat constructor; auto.
Qed.

Lemma sort_rows_shape cols order (shape : row -> Prop) rs :
  Forall shape rs -> Forall shape (sort_rows cols order rs).
Proof.
  intros Hrs. destruct order as [[n desc]|]; [|done]. cbn. destruct (column_index cols n) as [i|]; [|done].
  generalize (Forall_nil_2 shape). generalize (@nil row) as acc.
  induction Hrs as [|r rs Hr Hrs IH]; intros acc Ha; [done|]. cbn. by apply IH, insert_sorted_shape.
Qed.

Lemma filter_shape (shape : row -> Prop) f rs : Forall shape rs -> Forall shape (List.filter f rs).
Proof. intros Hrs. induction Hrs as [|r rs Hr _ IH]; [done|]. cbn. destruct (f r); [by constructor|done]. Qed.

Lemma fit_shape n (shape : row -> Prop) rows :
  Forall shape rows -> (forall r, shape r -> length r = n) -> Forall shape (map (fit n) (take max_result rows)).
Proof.
  intros Hs Hn. apply Forall_fmap, Forall_take. eapply Forall_impl; [exact Hs|].
  intros r Hr. cbn. by rewrite fit_same by by apply Hn.
Qed.

Lemma user_insert_law sql es k :
  parse sql = Some (QInsert "users" ["name"; "age"; "score"] [es]) ->
  (forall last, user_shape (map (insert_value users_columns ∅ ["name"; "age"; "score"] es last) users_columns)) ->
  sane_users k ->
  (small_sem k sql ∅).1.1 = [] /\ sane_users (direct_exec (D := unit) (T := positive) (L := library sqldb) k sql []).2.
Proof.
  intros Hp Hes Hk. destruct (sd_tables k !! "users") as [tb|] eqn:Ht.
  - destruct (Hk tb Ht) as [Hc Hr].
    assert (Hcomp : compiled (sd_tables k) (QInsert "users" ["name"; "age"; "score"] [es]) = true).
    { cbn [compiled]. rewrite Ht. cbn [from_option]. rewrite Hc. vm_compute. reflexivity. }
    pose proof (small_executed k sql _ Hp) as Hx. cbn [run] in Hx. rewrite Ht, Hc in Hx.
    destruct (insert_rows users_columns ∅ (sd_tables k) _ [es] tb) as [tb'|] eqn:Ei.
    + destruct (Hx _ _ Hcomp eq_refl) as [E1 E2]. rewrite E1, E2. split; [done|].
      intros tb2. cbn [snd sd_tables]. rewrite lookup_insert_eq. intros [= <-].
      destruct (insert_rows_shape _ _ _ _ user_shape [es] tb tb'
        ltac:(intros ? last ->%list_elem_of_singleton; apply Hes) Ei Hr) as [H1 H2].
      split; [congruence|done].
    + destruct (Hx _ _ Hcomp eq_refl) as [E1 E2]. by rewrite E1, E2.
  - destruct (small_refused k sql _ Hp) as [E1 E2]; [cbn; by rewrite Ht|]. by rewrite E1, E2.
Qed.

(** *** The queries *)

Lemma small_query_law sql what order n names (shape : row -> Prop) :
  parse sql = Some (QSelect what "users" CTrue order None) -> match what with INames _ => False | _ => True end ->
  result_columns {["users" := Table users_columns [] 0]} (QSelect what "users" CTrue order None) = names ->
  length names = n -> (forall r, shape r -> length r = n) ->
  (forall rs, Forall user_shape rs -> Forall shape (project users_columns ∅ what rs)) ->
  query_law (D := unit) (T := positive) (L := library sqldb) sane_users sql names shape.
Proof.
  intros Hp Hw Hn Hlen Hsh Hproj.
  assert (Hc : forall k, compiles (D := unit) (T := positive) (L := library sqldb) k sql = true ->
    exists tb, sd_tables k !! "users" = Some tb).
  { intros k. cbn [compiles library_spec db_compiles small_db]. rewrite Hp. cbn.
    destruct (sd_tables k !! "users") as [tb|]; [by exists tb|done]. }
  assert (Hcols : forall k, sane_users k -> compiles (D := unit) (T := positive) (L := library sqldb) k sql = true ->
    columns (D := unit) (T := positive) (L := library sqldb) k sql = names).
  { intros k Hk Hcomp. destruct (Hc k Hcomp) as [tb Ht]. destruct (Hk tb Ht) as [Htc _].
    cbn [columns library_spec db_columns small_db]. rewrite Hp. cbn [from_option]. rewrite <- Hn.
    destruct what; [|done|done]. cbn. rewrite Ht. cbn. by rewrite Htc. }
  constructor; [exact Hcols| |].
  - intros k Hk. unfold direct_query. destruct (compiles k sql) eqn:Ecomp.
    + pose proof (Hcols k Hk Ecomp) as Ek. destruct (Hc k Ecomp) as [tb Ht]. destruct (Hk tb Ht) as [Htc Htr].
      cbn [columns compiles sem library_spec db_columns db_compiles db_sem small_db bind_all] in *. unfold small_sem.
      rewrite Hp in Ek, Ecomp |- *. cbn [from_option] in Ek, Ecomp. rewrite Ecomp, Ek, Hlen. cbn [run]. rewrite Ht, Htc.
      cbn. apply fit_shape; [|done]. apply Hproj, sort_rows_shape, filter_shape, Htr.
    + cbn [compiles sem library_spec db_compiles db_sem small_db] in *. unfold small_sem.
      rewrite Hp in Ecomp |- *. cbn [from_option] in Ecomp. cbn [fst]. by rewrite Ecomp.
  - intros k Hk. unfold direct_query. destruct (compiles k sql) eqn:Ecomp; [|done].
    destruct (Hc k Ecomp) as [tb Ht]. cbn [compiles sem library_spec db_compiles db_sem small_db bind_all] in *.
    unfold small_sem. rewrite Hp in Ecomp |- *. cbn [from_option] in Ecomp. rewrite Ecomp. cbn [run]. by rewrite Ht.
Qed.

#[export] Instance small_basic : BasicDb (D := unit) (T := positive) (X := unit) (L := library sqldb).
Proof.
  refine {| bd_schema := small_schema; bd_users_names := map col_name users_columns; bd_count_names := ["COUNT(*)"] |}.
  - exact small_size.
  - constructor.
    + intros l Hl _. exists tt. split; [done|]. split; [exact Hl|]. intros tb. by vm_compute.
    + intros h sql l Hsql Hk. assert (Hp : parse sql = Some QIgnored) by (sample_cases Hsql; subst; by vm_compute).
      unfold sqlite3_exec. cbn [library_sqlite3 db_run small_db].
      destruct (small_executed (lib_db l) sql _ Hp SQLITE_DONE (lib_db l)) as [E _]; [done..|].
      rewrite E. by split.
  - intros sql Hsql k Hk. unfold basic_statements in Hsql. cbn [sem library_spec db_sem small_db].
    sample_cases Hsql.
    3-6: eapply user_insert_law; [subst sql; vm_compute; reflexivity| |exact Hk];
      intros last; eexists _, _, _, _; vm_compute; reflexivity.
    + assert (Hp : parse sql = Some QBegin) by (subst sql; by vm_compute).
      pose proof (small_executed k sql _ Hp) as Hx. cbn [run] in Hx.
      destruct (sd_saved k); destruct (Hx _ _ eq_refl eq_refl) as [E1 E2]; by rewrite E1, E2.
    + assert (Hp : parse sql = Some QCommit) by (subst sql; by vm_compute).
      pose proof (small_executed k sql _ Hp) as Hx. cbn [run] in Hx.
      destruct (sd_saved k); destruct (Hx _ _ eq_refl eq_refl) as [E1 E2]; by rewrite E1, E2.
  - done.
  - apply (small_query_law _ IAll (Some ("score", true)) 4); try done.
    by intros r (id & name & age & score & ->).
  - done.
  - apply (small_query_law _ ICount None 1); try done.
    + by intros r [n ->].
    + intros rs _. apply Forall_singleton. by eexists.
Defined.

(** A process that has not opened anything, the SQLite driver registered. *)
Definition start_world : world sql_state := sql_world ∅ 1%positive.

Definition sqlite_table : list (backend sql_state) :=
  (corm_register_sqlite3_backend []).2.

#[local] Existing Instance sqlite_api.

Lemma basic_clean_witness :
  exists code out w', basic_main sqlite_table start_world = Ret (code, out) w' /\
    w_heap w' = ∅ /\ p_db (w_db w') = None /\
    (code = 1 \/ code = 0 /\
     exists h l, stmts_of l = ∅ /\ p_env (w_db w') = (sqlite3_close (Some h) l).2).
Proof.
  refine (basic_clean sqlite_table start_world eq_refl eq_refl _ _).
  - intros l [b Hl]. cbn in Hl. by rewrite lookup_empty in Hl.
  - reflexivity.
Defined.

(** What is printed, call by call. *)
Definition printed_by {S A} (o : outcome S (A * list string)) : list string :=
  match o with Ret (_, out) _ => out | Stuck => [] end.

(** The rows it prints, and their number. *)
Example basic_output :
  let out := printed_by (basic_main sqlite_table start_world) in
  (base.filter (fun s => starts_with "   Found" s || starts_with "   1" s || starts_with "   2" s ||
                         starts_with "   3" s = true) out, take 2 (drop 27 out)) =
  ([ln "   Found 3 record(s):"; ln "   1. [1] Alice — Age: 30, Score: 95.5";
    ln "   2. [3] Charlie — Age: 35, Score: 92.3"; ln "   3. [2] Bob — Age: 25, Score: 87.0"],
   ["7. Total users in database: "; ln "4"]).
Proof. vm_compute. reflexivity. Qed.
