(* ===== verification/Mysql.v ===== *)
(** * The MySQL driver ([src/backend/mysql.c])

    The functions of [libmysqlclient] are the class [MySQL], over the types of
    its connections [D], statements [T], stored results [R] and its state [L].
    Using a closed statement or a freed result is undefined and therefore stuck.
    The DSN is parsed in [ServerDsn.v]. *)

From S2P Require Import Prelude Types Mem Strbuf CLib ServerDsn Dialect Hash Model Backend Tx.
From S2P Require Import Result Core StmtCache DriverState.

(** ** The library *)

(** [enum_field_types] *)
Definition MYSQL_TYPE_DECIMAL : Z := 0.
Definition MYSQL_TYPE_TINY : Z := 1.
Definition MYSQL_TYPE_SHORT : Z := 2.
Definition MYSQL_TYPE_LONG : Z := 3.
Definition MYSQL_TYPE_FLOAT : Z := 4.
Definition MYSQL_TYPE_DOUBLE : Z := 5.
Definition MYSQL_TYPE_LONGLONG : Z := 8.
Definition MYSQL_TYPE_INT24 : Z := 9.
Definition MYSQL_TYPE_BLOB : Z := 252.
Definition MYSQL_TYPE_STRING : Z := 254.

(** A parameter as [mysql_stmt_bind_param] finds it in a [MYSQL_BIND]: the type
    of its buffer and what the buffer holds. *)
Inductive mysql_param : Type :=
  | BindNull
  | BindLonglong (z : Z)
  | BindDouble (bits : Z)
  | BindString (s : string)
  | BindTiny (b : bool)
  | BindBlob (bs : list ascii).

Record mysql_field : Type := MysqlField {
  mf_name : string;
  mf_type : Z;
  mf_max_length : Z
}.

(** What [mysql_stmt_fetch] stores for one column: [*is_null], [*length] and the
    bytes at the beginning of the buffer. *)
Record mysql_cell : Type := MysqlCell {
  mc_is_null : bool;
  mc_length : Z;
  mc_bytes : list ascii
}.

(** [mysql_stmt_live] and [mysql_res_live] tell that the object was not released
    yet, [mysql_stmt_rows] and [mysql_res_rows] bound the rows still to come; a
    buffer for a result column is given by its type and its length. *)
Class MySQL (D T R L : Type) : Type := {
  mysql_init : L -> option D * L;
  mysql_connect_timeout : D -> Z -> L -> Z * L;
  mysql_real_connect : D -> string -> string -> string -> option string -> Z -> L -> bool * L;
  mysql_error : D -> L -> string;
  mysql_close : D -> L -> unit * L;
  mysql_ping : D -> L -> Z * L;
  mysql_query : D -> string -> L -> Z * L;
  mysql_insert_id : D -> L -> Z;
  mysql_affected_rows : D -> L -> Z;
  mysql_real_escape_string : D -> string -> L -> string;
  mysql_store_result : D -> L -> option R * L;
  mysql_res_live : R -> L -> bool;
  mysql_res_rows : R -> L -> nat;
  mysql_num_fields : R -> L -> Z;
  mysql_num_rows : R -> L -> Z;
  mysql_fetch_fields : R -> L -> list mysql_field;
  mysql_fetch_row : R -> L -> option (list (option (list ascii))) * L;
  mysql_free_result : R -> L -> unit * L;
  mysql_stmt_init : D -> L -> option T * L;
  mysql_stmt_live : T -> L -> bool;
  mysql_stmt_rows : T -> L -> nat;
  mysql_stmt_prepare : T -> string -> L -> Z * L;
  mysql_stmt_error : T -> L -> string;
  mysql_stmt_close : T -> L -> Z * L;
  mysql_stmt_bind_param : T -> list mysql_param -> L -> Z * L;
  mysql_stmt_execute : T -> L -> Z * L;
  mysql_stmt_insert_id : T -> L -> Z;
  mysql_stmt_affected_rows : T -> L -> Z;
  mysql_stmt_result_metadata : T -> L -> option R * L;
  mysql_stmt_store_result : T -> L -> Z * L;
  mysql_stmt_num_rows : T -> L -> Z;
  mysql_stmt_bind_result : T -> list (Z * Z) -> L -> Z * L;
  mysql_stmt_fetch : T -> L -> Z * list mysql_cell * L
}.

(** [mysql_field_to_corm_type] *)
Definition mysql_field_to_corm_type (t : Z) : corm_field_type :=
  if existsb (Z.eqb t) [MYSQL_TYPE_TINY; MYSQL_TYPE_SHORT; MYSQL_TYPE_LONG; MYSQL_TYPE_INT24;
                        MYSQL_TYPE_LONGLONG] then CORM_INT64
  else if existsb (Z.eqb t) [MYSQL_TYPE_FLOAT; MYSQL_TYPE_DOUBLE; MYSQL_TYPE_DECIMAL] then CORM_DOUBLE
  else if t =? MYSQL_TYPE_BLOB then CORM_BLOB
  else CORM_TEXT.

Section mysql.
Context {D T R X L : Type} `{!MySQL D T R L}.
#[local] Abbreviation S := (proc D (stmts T) X L).

Definition on_stmt {A} (t : T) (f : T -> L -> A * L) : M S A := on_live mysql_stmt_live t f.
Definition ask_stmt {A} (t : T) (f : T -> L -> A) : M S A := ask_live mysql_stmt_live t f.
Definition on_res {A} (r : R) (f : R -> L -> A * L) : M S A := on_live mysql_res_live r f.
Definition ask_res {A} (r : R) (f : R -> L -> A) : M S A := ask_live mysql_res_live r f.

Definition set_conn_error (h : D) : M S unit := m ← ask (mysql_error h); corm_set_err_msg m.
Definition set_stmt_error (t : T) : M S unit := m ← ask_stmt t mysql_stmt_error; corm_set_err_msg m.

Definition close_stmt (t : T) : M S unit := on_stmt t mysql_stmt_close;; mret tt.

(** ** Connections *)

Definition mysql_open (dsn : string) : M S corm_err :=
  sv ← deref (mysql_parse dsn);
  handle ← lib mysql_init;
  match handle with
  | None => corm_set_err_msg "mysql_init failed";; mret CORM_ERR_NOMEM
  | Some handle =>
      c ← get_corm;
      let ms := timeout_ms (c_config c) in
      lib (mysql_connect_timeout handle (if 0 <? ms then Z.quot ms 1000 else 30));;
      ok ← lib (mysql_real_connect handle (sv_host sv) (sv_user sv) (sv_pass sv)
                 (if String.eqb (sv_dbname sv) "" then None else Some (sv_dbname sv))
                 (sv_port sv mod 2 ^ 32));
      if negb ok then
        set_conn_error handle;; lib (mysql_close handle);; mret CORM_ERR_BACKEND
      else
        upd_corm (with_conn (Some handle));;
        stmt_cache_set_destroy_fn;;
        mret CORM_OK
  end.

Definition corm_mysql_close : M S corm_err :=
  handle ← get_conn;
  match handle with
  | Some h => lib (mysql_close h);; upd_corm (with_conn None);; mret CORM_OK
  | None => mret CORM_OK
  end.

Definition corm_mysql_ping : M S corm_err :=
  handle ← get_conn;
  match handle with
  | None => mret CORM_ERR_BACKEND
  | Some h => rc ← lib (mysql_ping h); mret (if rc =? 0 then CORM_OK else CORM_ERR_BACKEND)
  end.

(** ** Parameters *)

(** [strlen] of a NULL string is stuck, and so is reading [len] bytes at NULL. *)
Definition bind_param (val : corm_value) : M S mysql_param :=
  if v_is_null val then mret BindNull
  else
    match v_type val with
    | CORM_INT | CORM_INT64 => z ← deref (u_as_i (v_u val)); mret (BindLonglong z)
    | CORM_FLOAT | CORM_DOUBLE => b ← deref (u_as_f (v_u val)); mret (BindDouble b)
    | CORM_STRING | CORM_TEXT => p ← deref (u_as_s (v_u val)); s ← read_str p; mret (BindString s)
    | CORM_BOOL => b ← deref (u_as_b (v_u val)); mret (BindTiny b)
    | CORM_BLOB =>
        '(p, len) ← deref (u_as_blob (v_u val));
        if bool_decide (p = PNull) && (len =? 0) then mret (BindBlob [])
        else bs ← read_blob p len; mret (BindBlob bs)
    end.

Fixpoint bind_each (params : list corm_value) : M S (list mysql_param) :=
  match params with
  | [] => mret []
  | val :: params => q ← bind_param val; qs ← bind_each params; mret (q :: qs)
  end.

(** NULL without parameters or without memory. *)
Definition mysql_bind_params (params : list corm_value) : M S (option (list mysql_param)) :=
  match params with
  | [] => mret None
  | _ =>
      ok ← malloc_ok;
      if negb (ok : bool) then mret None else qs ← bind_each params; mret (Some qs)
  end.

(** ** Statements *)

(** The first part of [mysql_exec] and [mysql_stmt_query]: the cached statement
    or a new one, which goes to the cache. *)
Definition prepared_stmt (handle : option D) (sql : string) : M S (corm_err * option T) :=
  cached ← stmt_cache_get sql;
  match cached with
  | Some t => mret (CORM_OK, Some t)
  | None =>
      h ← deref handle;
      stmt ← lib (mysql_stmt_init h);
      match stmt with
      | None => corm_set_err_msg "mysql_stmt_init failed";; mret (CORM_ERR_NOMEM, None)
      | Some t =>
          rc ← on_stmt t (fun t => mysql_stmt_prepare t sql);
          if negb (rc =? 0) then
            set_stmt_error t;; close_stmt t;; mret (CORM_ERR_BACKEND, None)
          else
            stmt_cache_put close_stmt sql t;; mret (CORM_OK, Some t)
      end
  end.

(** A failed call on a statement: the message, then the statement is closed; its
    entry of the cache stays. *)
Definition stmt_failed (t : T) : M S corm_err :=
  set_stmt_error t;; close_stmt t;; mret CORM_ERR_BACKEND.

(** Binding: [None] when all went well. *)
Definition bind_all (t : T) (params : list corm_value) : M S (option corm_err) :=
  bind ← mysql_bind_params params;
  match bind with
  | None => close_stmt t;; mret (Some CORM_ERR_NOMEM)
  | Some qs =>
      rc ← on_stmt t (fun t => mysql_stmt_bind_param t qs);
      if negb (rc =? 0) then e ← stmt_failed t; mret (Some e) else mret None
  end.

Definition mysql_exec (sql : string) (params : list corm_value) : M S corm_err :=
  handle ← get_conn;
  match params with
  | [] =>
      h ← deref handle;
      rc ← lib (mysql_query h sql);
      if negb (rc =? 0) then set_conn_error h;; mret CORM_ERR_BACKEND
      else
        id ← ask (mysql_insert_id h);
        upd_corm (with_last_id (wrap_i64 id));;
        n ← ask (mysql_affected_rows h);
        upd_corm (with_affected (wrap_i32 n));;
        mret CORM_OK
  | _ =>
      '(e, stmt) ← prepared_stmt handle sql;
      match stmt with
      | None => mret e
      | Some t =>
          e ← bind_all t params;
          match e with
          | Some e => mret e
          | None =>
              rc ← on_stmt t mysql_stmt_execute;
              if negb (rc =? 0) then stmt_failed t
              else
                id ← ask_stmt t mysql_stmt_insert_id;
                upd_corm (with_last_id (wrap_i64 id));;
                n ← ask_stmt t mysql_stmt_affected_rows;
                upd_corm (with_affected (wrap_i32 n));;
                mret CORM_OK
          end
      end
  end.

(** ** Result objects *)

(** The first [n] fields; stuck when the library has fewer. *)
Definition fields_of (r : R) (n : Z) : M S (list mysql_field) :=
  fs ← ask_res r mysql_fetch_fields;
  if Z.of_nat (length fs) <? n then stuck else mret (take (Z.to_nat n) fs).

Definition column_types (fs : list mysql_field) : list corm_field_type :=
  map (fun f => mysql_field_to_corm_type (mf_type f)) fs.

(** The value of a cell that is not NULL, from its text and its bytes. *)
Definition text_value (t : corm_field_type) (text : string) (bs : list ascii) : M S corm_value :=
  match t with
  | CORM_INT64 => mret (Value t false (UInt (strtoll text)))
  | CORM_DOUBLE => mret (Value t false (UDbl (strtod text)))
  | CORM_BLOB =>
      let n := Z.of_nat (length bs) in
      p ← dup_bytes n (Some bs);
      mret (Value t false (UBlob p (if bool_decide (p = PNull) then 0 else n)))
  | _ => p ← dup_text (Some text); mret (Value CORM_TEXT false (UStr p))
  end.

(** A cell of a row of texts; the library ends each with a NUL. *)
Definition simple_cell (t : corm_field_type) (c : option (list ascii)) : M S corm_value :=
  match c with
  | None => mret (Value t true (UInt 0))
  | Some bs => text ← deref (cstr_of_bytes (bs ++ [NUL])); text_value t text bs
  end.

Fixpoint simple_row (types : list corm_field_type) (row : list (option (list ascii))) :
    M S (list corm_value) :=
  match types, row with
  | [], _ => mret []
  | t :: types, c :: row => v ← simple_cell t c; vs ← simple_row types row; mret (v :: vs)
  | _ :: _, [] => stuck
  end.

Fixpoint simple_rows (fuel : nat) (r : R) (l : loc) (types : list corm_field_type) (i : nat) :
    M S unit :=
  match fuel with
  | O => stuck
  | Datatypes.S fuel =>
      row ← on_res r mysql_fetch_row;
      match row with
      | None => mret tt
      | Some row =>
          vs ← simple_row types row;
          put_row l i vs;;
          simple_rows fuel r l types (Datatypes.S i)
      end
  end.

(** The names that could be copied, and whether these are all. *)
Fixpoint simple_names (fs : list mysql_field) : M S (list string * bool) :=
  match fs with
  | [] => mret ([], true)
  | f :: fs =>
      ok ← malloc_ok;
      if (ok : bool) then '(ns, b) ← simple_names fs; mret (mf_name f :: ns, b)
      else mret ([], false)
  end.

(** Out of memory in the loop over the names, those before are freed there and
    once more by [corm_result_release]. *)
Definition mysql_simple_query (handle : D) : M S (corm_err * option loc) :=
  res ← lib (mysql_store_result handle);
  match res with
  | None => mret (CORM_OK, None)
  | Some r =>
      col_count ← ask_res r mysql_num_fields;
      row_count ← ask_res r mysql_num_rows;
      let col_count := wrap_i32 col_count in
      out ← corm_result_new col_count (wrap_i32 row_count);
      match out with
      | None => on_res r mysql_free_result;; mret (CORM_ERR_NOMEM, None)
      | Some l =>
          fs ← fields_of r col_count;
          '(names, ok) ← simple_names fs;
          if negb (ok : bool) then
            match names with
            | [] => on_res r mysql_free_result;; corm_result_release (Some l);;
                    mret (CORM_ERR_NOMEM, None)
            | _ => stuck
            end
          else
            set_columns l (map Some names) (column_types fs);;
            fuel ← ask (mysql_res_rows r);
            simple_rows (Datatypes.S fuel) r l (column_types fs) 0;;
            on_res r mysql_free_result;;
            mret (CORM_OK, Some l)
      end
  end.

(** ** Results of prepared statements *)

(** Type and length of the buffer for a column of type [t]. *)
Definition buffer_spec (t : corm_field_type) (f : mysql_field) : Z * Z :=
  match t with
  | CORM_INT64 => (MYSQL_TYPE_LONGLONG, 8)
  | CORM_DOUBLE => (MYSQL_TYPE_DOUBLE, 8)
  | CORM_BLOB => (MYSQL_TYPE_BLOB, if 0 <? mf_max_length f then mf_max_length f else 65536)
  | _ => (MYSQL_TYPE_STRING, if 0 <? mf_max_length f then wrap_u64 (mf_max_length f + 1) else 4096)
  end.

Definition buffer_specs (fs : list mysql_field) : list (Z * Z) :=
  zip_with buffer_spec (column_types fs) fs.

(** [calloc(1, n)]; the driver does not look whether it succeeds. *)
Fixpoint alloc_buffers (specs : list (Z * Z)) : M S (list (option (list ascii))) :=
  match specs with
  | [] => mret []
  | (_, n) :: specs =>
      ok ← malloc_ok;
      bufs ← alloc_buffers specs;
      mret ((if (ok : bool) then Some (replicate (Z.to_nat n) NUL) else None) :: bufs)
  end.

(** The library writes [bs] to the beginning of a buffer; [None]: to NULL or
    past its end. *)
Definition write_buffer (b : option (list ascii)) (bs : list ascii) : option (option (list ascii)) :=
  match bs, b with
  | [], _ => Some b
  | _, None => None
  | _, Some old =>
      if (length bs <=? length old)%nat then Some (Some (bs ++ drop (length bs) old)) else None
  end.

Fixpoint write_buffers (bufs : list (option (list ascii))) (cells : list mysql_cell) :
    option (list (option (list ascii))) :=
  match bufs, cells with
  | b :: bufs, c :: cells =>
      b ← write_buffer b (mc_bytes c); bufs ← write_buffers bufs cells; Some (b :: bufs)
  | _, _ => Some bufs
  end.

(** A cell out of its buffer. *)
Definition stmt_cell (t : corm_field_type) (buf : option (list ascii)) (c : mysql_cell) :
    M S corm_value :=
  if mc_is_null c then mret (Value t true (UInt 0))
  else
    match t with
    | CORM_INT64 => b ← deref buf; mret (Value t false (UInt (wrap_i64 (le_value b))))
    | CORM_DOUBLE => b ← deref buf; mret (Value t false (UDbl (le_value b)))
    | CORM_BLOB =>
        let n := mc_length c in
        p ← dup_bytes n (Some (default [] buf));
        mret (Value t false (UBlob p (if bool_decide (p = PNull) then 0 else n)))
    | _ => text ← deref (b ← buf; cstr_of_bytes b);
           p ← dup_text (Some text); mret (Value CORM_TEXT false (UStr p))
    end.

Fixpoint stmt_row (types : list corm_field_type) (bufs : list (option (list ascii)))
    (cells : list mysql_cell) : M S (list corm_value) :=
  match types, bufs, cells with
  | [], _, _ => mret []
  | t :: types, b :: bufs, c :: cells =>
      v ← stmt_cell t b c; vs ← stmt_row types bufs cells; mret (v :: vs)
  | _, _, _ => stuck
  end.

(** Any code but 0 ends the loop, that of a truncated row too. *)
Fixpoint stmt_rows (fuel : nat) (t : T) (l : loc) (types : list corm_field_type)
    (bufs : list (option (list ascii))) (i : nat) : M S unit :=
  match fuel with
  | O => stuck
  | Datatypes.S fuel =>
      '(rc, cells) ← on_stmt t mysql_stmt_fetch;
      bufs ← deref (write_buffers bufs cells);
      if negb (rc =? 0) then mret tt
      else
        vs ← stmt_row types bufs cells;
        put_row l i vs;;
        stmt_rows fuel t l types bufs (Datatypes.S i)
  end.

(** The six arrays: are all there, and is [buffers] there. *)
Definition alloc_arrays (col_count : Z) : M S (bool * bool) :=
  result_bind ← calloc_ok col_count;
  is_null ← calloc_ok col_count;
  lengths ← calloc_ok col_count;
  errors ← calloc_ok col_count;
  buffers ← calloc_ok col_count;
  buf_lens ← calloc_ok col_count;
  mret (result_bind && is_null && lengths && errors && buffers && buf_lens, buffers).

(** The rows of an executed statement into [res], which is released on errors;
    the loop that frees [buffers[i]] does not ask whether there is an array. *)
Definition read_rows (t : T) (meta : R) (l : loc) (col_count : Z) (fs : list mysql_field) :
    M S corm_err :=
  '(ok, buffers) ← alloc_arrays col_count;
  if negb ok then
    (if negb buffers && (0 <? col_count) then stuck else mret tt);;
    on_res meta mysql_free_result;; close_stmt t;; corm_result_release (Some l);;
    mret CORM_ERR_NOMEM
  else
    bufs ← alloc_buffers (buffer_specs fs);
    rc ← on_stmt t (fun t => mysql_stmt_bind_result t (buffer_specs fs));
    if negb (rc =? 0) then
      set_stmt_error t;;
      on_res meta mysql_free_result;; close_stmt t;; corm_result_release (Some l);;
      mret CORM_ERR_BACKEND
    else
      fuel ← ask (mysql_stmt_rows t);
      stmt_rows (Datatypes.S fuel) t l (column_types fs) bufs 0;;
      on_res meta mysql_free_result;; close_stmt t;;
      mret CORM_OK.

(** [strdup] of the names, unchecked. *)
Fixpoint dup_names (fs : list mysql_field) : M S (list (option string)) :=
  match fs with
  | [] => mret []
  | f :: fs => n ← copy_text (Some (mf_name f)); ns ← dup_names fs; mret (n :: ns)
  end.

(** [mysql_stmt_query] after the execution. *)
Definition stmt_result (t : T) : M S (corm_err * option loc) :=
  meta ← on_stmt t mysql_stmt_result_metadata;
  match meta with
  | None => close_stmt t;; mret (CORM_OK, None)
  | Some meta =>
      col_count ← ask_res meta mysql_num_fields;
      let col_count := wrap_i32 col_count in
      rc ← on_stmt t mysql_stmt_store_result;
      if negb (rc =? 0) then
        set_stmt_error t;; on_res meta mysql_free_result;; close_stmt t;;
        mret (CORM_ERR_BACKEND, None)
      else
        row_count ← ask_stmt t mysql_stmt_num_rows;
        let row_count := wrap_i32 row_count in
        out ← corm_result_new col_count row_count;
        match out with
        | None => on_res meta mysql_free_result;; close_stmt t;; mret (CORM_ERR_NOMEM, None)
        | Some l =>
            fs ← fields_of meta col_count;
            names ← dup_names fs;
            set_columns l names (column_types fs);;
            e ← (if 0 <? row_count then read_rows t meta l col_count fs
                 else on_res meta mysql_free_result;; close_stmt t;; mret CORM_OK);
            mret (e, if decide (e = CORM_OK) then Some l else None)
        end
  end.

Definition mysql_stmt_query (handle : option D) (sql : string) (params : list corm_value) :
    M S (corm_err * option loc) :=
  '(e, stmt) ← prepared_stmt handle sql;
  match stmt with
  | None => mret (e, None)
  | Some t =>
      e ← (match params with [] => mret None | _ => bind_all t params end);
      match e with
      | Some e => mret (e, None)
      | None =>
          rc ← on_stmt t mysql_stmt_execute;
          if negb (rc =? 0) then e ← stmt_failed t; mret (e, None) else stmt_result t
      end
  end.

Definition corm_mysql_query (sql : string) (params : list corm_value) :
    M S (corm_err * option loc) :=
  handle ← get_conn;
  match params with
  | [] =>
      h ← deref handle;
      rc ← lib (mysql_query h sql);
      if negb (rc =? 0) then set_conn_error h;; mret (CORM_ERR_BACKEND, None)
      else mysql_simple_query h
  | _ => mysql_stmt_query handle sql params
  end.

(** ** Transactions and the rest of the table *)

Definition corm_mysql_begin : M S corm_err := mysql_exec "START TRANSACTION" [].
Definition corm_mysql_commit : M S corm_err := mysql_exec "COMMIT" [].
Definition corm_mysql_rollback : M S corm_err := mysql_exec "ROLLBACK" [].

Definition mysql_escape (dst : bool) (src : string) (len : Z) : M S (Z * option string) :=
  handle ← get_conn;
  match handle with
  | Some h =>
      if (dst : bool) then
        t ← ask (mysql_real_escape_string h (str_take (Z.to_nat len) src));
        mret (slen t, Some t)
      else mret (wrap_u64 (len * 2 + 1), None)
  | None => mret (wrap_u64 (len * 2 + 1), None)
  end.

Definition mysql_last_id : M S Z :=
  handle ← get_conn; h ← deref handle; id ← ask (mysql_insert_id h); mret (wrap_i64 id).

Definition mysql_affected : M S Z :=
  handle ← get_conn; h ← deref handle; n ← ask (mysql_affected_rows h); mret (wrap_i32 n).

(** Column [i] of a row of [SHOW COLUMNS]. *)
Definition row_text (row : list (option (list ascii))) (i : nat) : M S (option string) :=
  c ← deref (row !! i);
  match c with
  | None => mret None
  | Some bs => s ← deref (cstr_of_bytes (bs ++ [NUL])); mret (Some s)
  end.

Definition describe_row (row : list (option (list ascii))) : M S corm_column_info :=
  name ← row_text row 0; name ← dup_text name;
  type ← row_text row 1; type ← dup_text type;
  null ← row_text row 2;
  key ← row_text row 3;
  def ← row_text row 4; def ← dup_text def;
  mret (ColumnInfo name type
    (match null with Some s => if String.eqb s "YES" then 0 else 1 | None => 0 end)
    (match key with Some s => if String.eqb s "PRI" then 1 else 0 | None => 0 end) def).

Fixpoint describe_rows (fuel : nat) (r : R) (arr : loc) (cap n : Z) : M S (option (loc * Z)) :=
  match fuel with
  | O => stuck
  | Datatypes.S fuel =>
      row ← on_res r mysql_fetch_row;
      match row with
      | None => mret (Some (arr, n))
      | Some row =>
          room ← columns_room arr cap n;
          match room with
          | None => corm_column_info_free (Some arr) n;; mret None
          | Some (arr, cap) =>
              col ← describe_row row;
              columns_add arr col;;
              describe_rows fuel r arr cap (n + 1)
          end
      end
  end.

(** [escaped] has 256 bytes, whatever the length of the name. *)
Definition mysql_describe_table (table_name : string) : M S (corm_err * (option loc * Z)) :=
  handle ← get_conn;
  match handle with
  | None => mret (CORM_ERR_BACKEND, (None, 0))
  | Some h =>
      escaped ← ask (mysql_real_escape_string h table_name);
      if 256 <=? slen escaped then stuck
      else
        text ← deref (c_format "SHOW COLUMNS FROM `%s`" [FS escaped]);
        rc ← lib (mysql_query h (c_snprintf 512 text));
        if negb (rc =? 0) then set_conn_error h;; mret (CORM_ERR_BACKEND, (None, 0))
        else
          res ← lib (mysql_store_result h);
          match res with
          | None => mret (CORM_OK, (None, 0))
          | Some r =>
              out ← columns_new;
              match out with
              | None => on_res r mysql_free_result;; mret (CORM_ERR_NOMEM, (None, 0))
              | Some arr =>
                  fuel ← ask (mysql_res_rows r);
                  cols ← describe_rows (Datatypes.S fuel) r arr 32 0;
                  on_res r mysql_free_result;;
                  mret (match cols with
                        | Some (arr, n) => (CORM_OK, (Some arr, n))
                        | None => (CORM_ERR_NOMEM, (None, 0))
                        end)
              end
          end
  end.

Definition mysql_backend : backend S := {|
  be_name := "mysql";
  be_type := CORM_BACKEND_MYSQL;
  be_open := Some mysql_open;
  be_close := Some corm_mysql_close;
  be_ping := Some corm_mysql_ping;
  be_exec := Some mysql_exec;
  be_query := Some corm_mysql_query;
  be_begin := Some corm_mysql_begin;
  be_commit := Some corm_mysql_commit;
  be_rollback := Some corm_mysql_rollback;
  be_escape_string := Some mysql_escape;
  be_last_insert_id := Some mysql_last_id;
  be_rows_affected := Some mysql_affected;
  be_describe_table := Some mysql_describe_table
|}.

Definition corm_register_mysql_backend (g : list (backend S)) : corm_err * list (backend S) :=
  corm_register_backend g CORM_BACKEND_MYSQL mysql_backend.
End mysql.

(** Without [CORM_HAVE_MYSQL] the table is empty. *)
Definition mysql_stub_backend {S} : backend S :=
  Backend "mysql (unavailable)" CORM_BACKEND_MYSQL None None None None None None None None
    None None None None.
