(* ===== verification/MysqlQuery.v ===== *)
(** * Queries on MySQL

    What [corm_mysql_query] makes of the rows of a query without parameters: the
    text of every cell is converted by the type of its column. *)

From S2P Require Import Prelude Types Mem Strbuf CLib ServerDsn Dialect Hash Model Backend Query.
From S2P Require Import Builder BuilderSpec QuerySpec Tx Result ResultSpec Core CoreProps StmtCache.
From S2P Require Import DriverState DriverSpec Reading Mysql.

(** What the documentation of the library says.  A stored result is there, its
    sizes are those of its rows, and fetching hands them out one by one; a
    statement that was closed is not there any more. *)
Class MysqlSpec (D T R L : Type) `{!MySQL D T R L} : Type := {
  rows_left : R -> L -> list (list (option (list ascii)));
  store_result_law h (l : L) r :
    (mysql_store_result h l).1 = Some r ->
    let l' := (mysql_store_result h l).2 in
    mysql_res_live r l' = true /\
    (mysql_num_rows r l' < 2 ^ 31 /\ mysql_num_rows r l' = Z.of_nat (length (rows_left r l'))) /\
    (mysql_num_fields r l' < 2 ^ 31 /\
     mysql_num_fields r l' = Z.of_nat (length (mysql_fetch_fields r l'))) /\
    Forall (fun row => length row = length (mysql_fetch_fields r l')) (rows_left r l');
  fetch_row_law r (l : L) :
    mysql_res_live r l = true ->
    mysql_res_live r (mysql_fetch_row r l).2 = true /\
    match rows_left r l with
    | [] => (mysql_fetch_row r l).1 = None /\ rows_left r (mysql_fetch_row r l).2 = []
    | row :: rows => (mysql_fetch_row r l).1 = Some row /\ rows_left r (mysql_fetch_row r l).2 = rows
    end;
  rows_bound r (l : L) : (length (rows_left r l) <= mysql_res_rows r l)%nat;
  stmt_close_law t (l : L) : mysql_stmt_live t (mysql_stmt_close t l).2 = false
}.

(** The text of a cell ends at its first NUL. *)
Definition cell_text (bs : list ascii) : string := default "" (cstr_of_bytes (bs ++ [NUL])).

Lemma cell_text_some bs : cstr_of_bytes (bs ++ [NUL]) = Some (cell_text bs).
Proof.
  unfold cell_text. assert (H : is_Some (cstr_of_bytes (bs ++ [NUL]))).
  { induction bs as [|c bs [s IH]]; [by eexists|]. cbn. rewrite IH. cbn.
    destruct (Ascii.eqb c NUL); by eexists. }
  by destruct H as [s ->].
Qed.

(** The value a cell denotes in a column of type [ty]. *)
Definition cell_value (ty : corm_field_type) (c : option (list ascii)) : sqlval :=
  match c with
  | None => SNull
  | Some bs =>
      match ty with
      | CORM_INT64 => SInt (strtoll (cell_text bs))
      | CORM_DOUBLE => SDbl (strtod (cell_text bs))
      | CORM_BLOB => SBlob bs
      | _ => SText (cell_text bs)
      end
  end.

Definition row_values (fs : list mysql_field) (row : list (option (list ascii))) : list sqlval :=
  zip_with cell_value (column_types fs) row.

Lemma field_type_cases n :
  mysql_field_to_corm_type n = CORM_INT64 \/ mysql_field_to_corm_type n = CORM_DOUBLE \/
  mysql_field_to_corm_type n = CORM_BLOB \/ mysql_field_to_corm_type n = CORM_TEXT.
Proof. unfold mysql_field_to_corm_type. repeat case_match; auto. Qed.

(** The object [res] holds [rows] under the columns [fs]. *)
Record holds_rows (hp : gmap loc block) (fs : list mysql_field)
    (rows : list (list (option (list ascii)))) (res : corm_result) : Prop := {
  hr_names : r_column_names res = map (fun f => Some (mf_name f)) fs;
  hr_types : r_column_types res = column_types fs;
  hr_rows : Forall2 (row_reads hp (column_types fs)) (map (row_values fs) rows) (r_rows res);
  hr_new : r_current_row res = -1 /\ r_refcount res = 1
}.

Section query.
Context {D T R X L : Type} `{!MySQL D T R L} `{!MysqlSpec D T R L}.
#[local] Abbreviation S := (proc D (stmts T) X L).
Implicit Types (w : world S) (r : R) (l : L).

Lemma res_ask_ok {A} r (f : R -> L -> A) w :
  mysql_res_live r (p_env (w_db w)) = true -> ask_res r f w = Ret (f r (p_env (w_db w))) w.
Proof.
  intros Hl. unfold ask_res, ask_live, ask, get_db, mbind, M_bind. cbn. by rewrite Hl.
Qed.

Lemma on_res_ok {A} r (f : R -> L -> A * L) w :
  mysql_res_live r (p_env (w_db w)) = true ->
  on_res r f w = Ret (f r (p_env (w_db w))).1 (set_db (set_lib (f r (p_env (w_db w))).2 (w_db w)) w).
Proof.
  intros Hl. unfold on_res, on_live. unfold ask, get_db at 1, mbind, M_bind. cbn. rewrite Hl, lib_ok.
  by destruct w.
Qed.

(** *** Cells and rows *)

Lemma simple_cell_ok n c w base ls :
  plenty w -> heap_wf w -> heap_split (w_heap w) base ls ->
  let ty := mysql_field_to_corm_type n in
  exists v w', simple_cell ty c w = Ret v w' /\ reading w w' base (ls ++ owned_of v) /\
    param_wf v /\ reads_as (w_heap w') ty (cell_value ty c) v.
Proof.
  intros Hp Hwf Hs ty. pose proof (field_type_cases n) as Hty. fold ty in Hty. clearbody ty.
  unfold simple_cell, cell_value. destruct c as [bs|].
  2: { eexists _, w. split; [done|]. assert (owned_of (Value ty true (UInt 0)) = []) as ->.
       { unfold owned_of. by destruct Hty as [->|[->|[->| ->]]]. }
       rewrite app_nil_r. split; [by apply reading_id|]. split; [|done].
       unfold param_wf. destruct Hty as [->|[->|[->| ->]]]; cbn; try done; repeat eexists; eauto. }
  rewrite cell_text_some. run. unfold text_value. destruct Hty as [->|[->|[->| ->]]].
  1-2: eexists _, w; split; [done|]; rewrite app_nil_r; split; [by apply reading_id|done].
  - destruct (dup_bytes_ok (Z.of_nat (length bs)) bs w base ls Hp Hwf Hs eq_refl) as (lo & w' & E & Hrd & Hb).
    run_with E. eexists _, w'. split; [done|]. split; [done|].
    split; [eexists _, _; split; [done|]; right; by eexists|].
    split; [done|]. split; [done|]. unfold resolve. cbn -[read_bytes]. by rewrite Hb.
  - destruct (dup_text_ok (Some (cell_text bs)) w base ls Hp Hwf Hs) as (p & w' & E & Hrd & (lo & -> & Hc)).
    run_with E. eexists _, w'. split; [done|]. split; [done|].
    split; [eexists; split; [done|]; right; by eexists|].
    split; [done|]. split; [done|]. unfold resolve. cbn -[read_cstr]. by rewrite Hc.
Qed.

Lemma simple_row_ok fs row w base ls :
  plenty w -> heap_wf w -> heap_split (w_heap w) base ls -> length row = length fs ->
  exists vs w', simple_row (column_types fs) row w = Ret vs w' /\
    reading w w' base (ls ++ owned vs) /\ Forall param_wf vs /\
    row_reads (w_heap w') (column_types fs) (row_values fs row) vs.
Proof.
  revert row w ls. induction fs as [|f fs IH]; intros row w ls Hp Hwf Hs Hlen.
  - exists [], w. rewrite app_nil_r. split; [done|]. split; [by apply reading_id|]. split; constructor.
  - destruct row as [|c row]; [done|]. injection Hlen as Hlen. cbn [column_types map simple_row].
    destruct (simple_cell_ok (mf_type f) c w base ls Hp Hwf Hs) as (v & w1 & E1 & R1 & Hv & Hx).
    run_with E1. pose proof R1 as [Hdb Hp1 Hwf1 _ Hs1].
    destruct (IH row w1 (ls ++ owned_of v) Hp1 Hwf1 Hs1 Hlen) as (vs & w2 & E2 & R2 & Hvs & Hxs).
    unfold column_types in E2. run_with E2. exists (v :: vs), w2. split; [done|].
    rewrite owned_cons, app_assoc. split; [by eapply reading_trans|]. split; [by constructor|].
    constructor; [|done]. destruct Hx as (? & ? & Hx). split; [done|]. split; [done|].
    eapply resolve_mono; [apply R2|done].
Qed.

Lemma simple_names_ok fs w : plenty w -> simple_names fs w = Ret (map mf_name fs, true) w.
Proof.
  intros Hp. induction fs as [|f fs IH]; [done|]. cbn [simple_names map].
  rewrite (bind_Ret _ _ _ _ _ (malloc_ok_plenty w Hp)). by rewrite (bind_Ret _ _ _ _ _ IH).
Qed.

(** *** All rows *)

Lemma simple_rows_ok r lo fs names rows fuel done w base :
  mysql_res_live r (p_env (w_db w)) = true -> rows_left r (p_env (w_db w)) = rows ->
  (length rows < fuel)%nat -> Forall (fun row => length row = length fs) rows ->
  filling w lo (Z.of_nat (length fs)) names (column_types fs) done (length rows) base ->
  exists cells w' l', simple_rows fuel r lo (column_types fs) (length done) w = Ret tt w' /\
    filling w' lo (Z.of_nat (length fs)) names (column_types fs) (done ++ cells) 0 base /\
    w_db w' = set_lib l' (w_db w) /\ mysql_res_live r l' = true /\ rows_left r l' = [] /\
    text_le (w_heap w) (w_heap w') /\
    Forall2 (row_reads (w_heap w') (column_types fs)) (map (row_values fs) rows) cells.
Proof.
  revert fuel done w. induction rows as [|row rows IH]; intros fuel done w Hl Hrows Hfuel Hlen Hf;
    (destruct fuel as [|fuel]; [cbn in Hfuel; lia|]); cbn [simple_rows];
    pose proof (on_res_ok r mysql_fetch_row w Hl) as Eo;
    destruct (fetch_row_law r _ Hl) as [Hl' Hlaw]; rewrite Hrows in Hlaw; destruct Hlaw as [Hrow Hleft];
    rewrite Hrow in Eo; rewrite (bind_Ret _ _ _ _ _ Eo);
    set (l' := (mysql_fetch_row r (p_env (w_db w))).2) in *; set (w1 := set_db _ w).
  - exists [], w1, l'. rewrite app_nil_r. split; [done|].
    split; [destruct Hf as [[? ? ? ?] ? ?]; by constructor|]. split; [done|].
    split; [done|]. split; [done|]. split; [apply text_le_refl|constructor].
  - apply Forall_cons in Hlen as [Hrl Hlen]. cbn [length] in Hf.
    assert (Hf1 : filling w1 lo (Z.of_nat (length fs)) names (column_types fs) done
      (Datatypes.S (length rows)) base) by (destruct Hf as [[? ? ? ?] ? ?]; by constructor).
    destruct (simple_row_ok fs row w1 base (owned (concat done) ++ [lo])) as (vs & w2 & E2 & R2 & Hvs & Hx);
      [apply Hf1|apply Hf1|by eapply filling_split|done|].
    rewrite (bind_Ret _ _ _ _ _ E2).
    assert (Hlv : length vs = Z.to_nat (Z.of_nat (length fs))).
    { apply Forall3_length_lr in Hx. rewrite Nat2Z.id, <- Hx. unfold column_types. by rewrite length_map. }
    destruct (put_row_ok w1 w2 lo _ _ _ done _ base vs Hf1 R2 Hvs Hlv) as (w3 & E3 & Hf3 & Hdb3 & Hle3).
    rewrite (bind_Ret _ _ _ _ _ E3).
    assert (Hdb : w_db w3 = set_lib l' (w_db w)) by (rewrite Hdb3; apply R2).
    destruct (IH fuel (done ++ [vs]) w3) as (cells & w4 & l4 & E4 & Hf4 & Hdb4 & Hl4 & Hleft4 & Hle4 & Hxs);
      rewrite ?Hdb; [done|done|cbn in Hfuel; lia|done|done|].
    rewrite length_app, Nat.add_1_r in E4. exists (vs :: cells), w4, l4. split; [done|].
    rewrite <- app_assoc in Hf4. split; [done|]. split; [by rewrite Hdb4, Hdb|].
    split; [done|]. split; [done|]. split.
    + eapply text_le_trans; [apply heap_le_text, R2|by eapply text_le_trans].
    + constructor; [|done]. by eapply row_reads_text, row_reads_text.
Qed.

(** *** The answer *)

Lemma store_answer r w :
  let l := p_env (w_db w) in
  mysql_res_live r l = true ->
  mysql_num_fields r l = Z.of_nat (length (mysql_fetch_fields r l)) ->
  fields_of r (mysql_num_fields r l) w = Ret (mysql_fetch_fields r l) w.
Proof.
  intros l Hl Hn. unfold fields_of. rewrite (bind_Ret _ _ _ _ _ (res_ask_ok r _ w Hl)). fold l.
  rewrite Hn. destruct (Z.ltb_spec (Z.of_nat (length (mysql_fetch_fields r l)))
    (Z.of_nat (length (mysql_fetch_fields r l)))); [lia|].
  by rewrite Nat2Z.id, firstn_all.
Qed.

Lemma simple_query_ok h r w :
  plenty w -> heap_wf w -> (mysql_store_result h (p_env (w_db w))).1 = Some r ->
  let l := (mysql_store_result h (p_env (w_db w))).2 in
  exists lo res w' l', mysql_simple_query h w = Ret (CORM_OK, Some lo) w' /\
    result_at w' lo res (w_heap w) /\
    holds_rows (w_heap w') (mysql_fetch_fields r l) (rows_left r l) res /\
    rows_left r l' = [] /\ p_env (w_db w') = (mysql_free_result r l').2.
Proof.
  intros Hp Hwf Hr l. destruct (store_result_law h _ r Hr) as (Hl & [Hrs Hrc] & [Hfs Hfc] & Hrows).
  fold l in Hl, Hrs, Hrc, Hfs, Hfc, Hrows. set (fs := mysql_fetch_fields r l) in *.
  unfold mysql_simple_query. rewrite (bind_Ret _ _ _ _ _ (lib_ok _ w)), Hr. fold l.
  set (w1 := set_db (set_lib l (w_db w)) w).
  pose proof (fun A (f : R -> L -> A) => res_ask_ok r f w1 Hl) as Hask.
  rewrite (bind_Ret _ _ _ _ _ (Hask _ _)), (bind_Ret _ _ _ _ _ (Hask _ _)).
  change (p_env (w_db w1)) with l. cbv zeta. rewrite !wrap_i32_id by (unfold in_i32; lia).
  destruct (filling_new (mysql_num_fields r l) (mysql_num_rows r l) w1 Hp Hwf)
    as (lo & w2 & E2 & Hf2 & Hd2); [lia..|].
  rewrite (bind_Ret _ _ _ _ _ E2). cbv beta iota.
  assert (Hl2 : p_env (w_db w2) = l) by by rewrite Hd2.
  pose proof (store_answer r w2) as Efs. rewrite Hl2 in Efs. fold fs in Efs.
  rewrite (bind_Ret _ _ _ _ _ (Efs Hl Hfc)).
  rewrite (bind_Ret _ _ _ _ _ (simple_names_ok fs w2 (fl_plenty _ _ _ _ _ _ _ _ Hf2))). cbn [negb].
  rewrite Hfc in Hf2.
  destruct (set_columns_ok w2 lo _ _ _ (map Some (map mf_name fs)) (column_types fs) [] _ _ Hf2)
    as (w3 & E3 & Hf3 & Hd3 & _); [unfold column_types; rewrite ?length_map; lia..|].
  rewrite (bind_Ret _ _ _ _ _ E3).
  assert (Hd : w_db w3 = w_db w1) by congruence.
  assert (Ea : ask (mysql_res_rows r) w3 = Ret (mysql_res_rows r l) w3).
  { change l with (p_env (w_db w1)). by rewrite <- Hd. }
  rewrite (bind_Ret _ _ _ _ _ Ea). rewrite Hrc, Nat2Z.id in Hf3.
  destruct (simple_rows_ok r lo fs (map Some (map mf_name fs)) (rows_left r l) (Datatypes.S (mysql_res_rows r l)) [] w3 (w_heap w))
    as (cells & w4 & l4 & E4 & Hf4 & Hd4 & Hl4 & Hleft & _ & Hx);
    [by rewrite Hd|by rewrite Hd|pose proof (rows_bound r l); lia|done|done|].
  rewrite (bind_Ret _ _ _ _ _ E4).
  assert (Hl4' : mysql_res_live r (p_env (w_db w4)) = true) by by rewrite Hd4.
  rewrite (bind_Ret _ _ _ _ _ (on_res_ok r mysql_free_result w4 Hl4')). cbn [app] in *.
  eexists lo, _, _, l4. split; [done|]. split; [by destruct (fl_at _ _ _ _ _ _ _ _ Hf4); constructor|].
  split; [|split; [done|cbn; by rewrite Hd4]].
  constructor; [by cbn; rewrite map_map|done| |done]. cbn [partial r_rows replicate].
  by rewrite app_nil_r.
Qed.
End query.
