(* ===== verification/MysqlReuse.v ===== *)
(** * Statements of MySQL that are used again

    [corm_mysql_query] closes its prepared statement on every path and leaves it
    in the statement cache.  Partial correctness is enough to say so: [preserves]
    and [closes] are about what holds when a program returns. *)

From S2P Require Import Prelude Types Mem Strbuf CLib ServerDsn Dialect Hash Model Backend Query.
From S2P Require Import QuerySpec Tx Result Core CoreProps StmtCache StmtCacheSpec.
From S2P Require Import DriverState DriverSpec Mysql MysqlQuery.

(** ** Parts of the state that a program preserves *)

Section preserves.
Context {S B : Type} (f : S -> B).

Definition preserves {A} (m : M S A) : Prop :=
  forall w a w', m w = Ret a w' -> f (w_db w') = f (w_db w).

Lemma preserves_ret {A} (a : A) : preserves (mret a).
Proof. by intros w ? w' [= _ <-]. Qed.
Lemma preserves_stuck {A} : preserves (stuck : M S A).
Proof. by intros w a w' ?. Qed.
Lemma preserves_bind {A C} (m : M S A) (k : A -> M S C) :
  preserves m -> (forall a, preserves (k a)) -> preserves (m ≫= k).
Proof.
  intros Hm Hk w b w' E. apply bind_inv in E as (a & w1 & E1 & E2). rewrite (Hk a _ _ _ E2). by apply (Hm _ a).
Qed.
Lemma preserves_deref {A} (o : option A) : preserves (deref o : M S A).
Proof. destruct o; [apply preserves_ret|apply preserves_stuck]. Qed.
Lemma preserves_for_each {A C} (xs : list A) (body : A -> C -> M S C) c :
  (forall x y, preserves (body x y)) -> preserves (for_each xs body c).
Proof.
  intros Hb. revert c. induction xs as [|x xs IH]; intros c; [apply preserves_ret|].
  cbn [for_each]. by apply preserves_bind.
Qed.

(** Memory is no part of the state. *)
Lemma preserves_malloc_ok : preserves malloc_ok.
Proof. intros w a w' E. unfold malloc_ok in E. by destruct (w_oracle w); simplify_eq/=. Qed.
Lemma preserves_new_block b : preserves (new_block b).
Proof. by intros w a w' [= _ <-]. Qed.
Lemma preserves_load l : preserves (load l).
Proof. intros w a w' E. unfold load in E. by destruct (w_heap w !! l); simplify_eq/=. Qed.
Lemma preserves_store l b : preserves (store l b).
Proof. intros w a w' E. unfold store in E. by destruct (w_heap w !! l); simplify_eq/=. Qed.
Lemma preserves_dealloc l : preserves (dealloc l).
Proof. intros w a w' E. unfold dealloc in E. by destruct (w_heap w !! l); simplify_eq/=. Qed.
Lemma preserves_read_str p : preserves (read_str p).
Proof. intros w a w' E. unfold read_str in E. by destruct (read_cstr (w_heap w) p); simplify_eq/=. Qed.
Lemma preserves_read_blob p n : preserves (read_blob p n).
Proof. intros w a w' E. unfold read_blob in E. by destruct (read_bytes (w_heap w) p n); simplify_eq/=. Qed.
Lemma preserves_get_db : preserves get_db.
Proof. by intros w a w' [= _ <-]. Qed.
End preserves.

Create HintDb preserves discriminated.
#[export] Hint Resolve preserves_ret preserves_stuck preserves_deref preserves_malloc_ok preserves_new_block preserves_load
  preserves_store preserves_dealloc preserves_read_str preserves_read_blob preserves_get_db : preserves.

Ltac preserves_step :=
  match goal with
  | |- preserves _ (_ ≫= _) => apply preserves_bind; [|intros ?]
  | |- preserves _ (for_each _ _ _) => apply preserves_for_each; intros ??
  | |- preserves _ (let _ := _ in _) => cbv zeta
  | |- preserves _ (match ?x with _ => _ end) => destruct x
  | |- preserves _ _ => solve [auto with preserves nocore]
  end.
Ltac preserves := intros; repeat preserves_step.

(** ** The driver *)

Section driver.
Context {D T R X L : Type} `{!MySQL D T R L} `{!MysqlSpec D T R L}.
#[local] Abbreviation S := (proc D (stmts T) X L).
Implicit Types (w : world S) (t : T).

(** The statement the cache holds for [sql]. *)
Definition cached_stmt (sql : string) (d : S) : option T :=
  c ← p_db d; s ← c_stmt_cache c; assoc sql (st_list s).

Definition dead t (l : L) : Prop := mysql_stmt_live t l = false.

Section any.
Context {B : Type} (f : S -> B).
Lemma preserves_ask {A} (g : L -> A) : preserves f (ask g).
Proof. unfold ask. preserves. Qed.
#[local] Hint Resolve preserves_ask : preserves.
Lemma preserves_get_corm : preserves f (get_corm : M S (corm D (stmts T) X)).
Proof. unfold get_corm. preserves. Qed.
#[local] Hint Resolve preserves_get_corm : preserves.
Lemma preserves_ask_res {A} (r : R) (g : R -> L -> A) : preserves f (ask_res r g).
Proof. unfold ask_res, ask_live. preserves. Qed.
Lemma preserves_ask_stmt {A} t (g : T -> L -> A) : preserves f (ask_stmt t g).
Proof. unfold ask_stmt, ask_live. preserves. Qed.
Lemma preserves_get_conn : preserves f get_conn.
Proof. unfold get_conn. preserves. Qed.

(** What only works on memory preserves everything. *)
Lemma preserves_result_new n m : preserves f (corm_result_new n m).
Proof.
  assert (Ha : forall k, preserves f (alloc_rows k)) by (induction k; cbn [alloc_rows]; preserves).
  unfold corm_result_new, calloc_ok. preserves.
Qed.
Lemma preserves_get_result r : preserves f (get_result r).
Proof. unfold get_result. preserves. Qed.
Lemma preserves_put_result r x : preserves f (put_result r x).
Proof. unfold put_result. preserves. Qed.
#[local] Hint Resolve preserves_get_result preserves_put_result : preserves.
Lemma preserves_free p : preserves f (free p).
Proof. unfold free. preserves. Qed.
#[local] Hint Resolve preserves_free : preserves.
Lemma preserves_release r : preserves f (corm_result_release r).
Proof. unfold corm_result_release, free_cells, free_cell. preserves. Qed.
Lemma preserves_set_columns l names types : preserves f (set_columns l names types).
Proof. unfold set_columns. preserves. Qed.
Lemma preserves_put_row l i vs : preserves f (put_row l i vs).
Proof. unfold put_row. preserves. Qed.
Lemma preserves_copy_text o : preserves f (copy_text o).
Proof. unfold copy_text. preserves. Qed.
#[local] Hint Resolve preserves_copy_text : preserves.
Lemma preserves_dup_names fs : preserves f (dup_names fs).
Proof. induction fs; cbn [dup_names]; preserves. Qed.
Lemma preserves_fields_of r n : preserves f (fields_of r n).
Proof. unfold fields_of. pose proof (@preserves_ask_res). preserves. Qed.
Lemma preserves_stmt_row types bufs cells : preserves f (stmt_row types bufs cells).
Proof.
  revert bufs cells. induction types; intros [] []; cbn [stmt_row]; preserves.
  unfold stmt_cell, dup_text, dup_bytes, malloc. preserves.
Qed.
Lemma preserves_alloc_buffers specs : preserves f (alloc_buffers specs).
Proof. induction specs as [|[]]; cbn [alloc_buffers]; preserves. Qed.
Lemma preserves_bind_params ps : preserves f (mysql_bind_params ps).
Proof.
  assert (Hb : forall qs, preserves f (bind_each qs)).
  { induction qs; cbn [bind_each]; preserves. unfold bind_param. preserves. }
  unfold mysql_bind_params. preserves.
Qed.
End any.

#[local] Hint Resolve preserves_ask preserves_get_corm preserves_ask_res preserves_ask_stmt preserves_get_conn
  preserves_result_new preserves_get_result preserves_put_result preserves_free preserves_release preserves_set_columns
  preserves_put_row preserves_copy_text preserves_dup_names preserves_fields_of preserves_stmt_row preserves_alloc_buffers
  preserves_bind_params : preserves.

(** *** What preserves the cached statement *)

Section cached.
Context (sql : string).
#[local] Abbreviation K := (preserves (cached_stmt sql)).

Lemma cached_lib {A} (g : L -> A * L) : K (lib g : M S A).
Proof. intros w a w' E. rewrite lib_ok in E. by injection E as _ <-. Qed.
#[local] Hint Resolve cached_lib : preserves.
Lemma cached_on_stmt {A} t (g : T -> L -> A * L) : K (on_stmt t g : M S A).
Proof. unfold on_stmt, on_live. preserves. Qed.
Lemma cached_on_res {A} (r : R) (g : R -> L -> A * L) : K (on_res r g : M S A).
Proof. unfold on_res, on_live. preserves. Qed.
#[local] Hint Resolve cached_on_stmt cached_on_res : preserves.
Lemma cached_err_msg m : K (corm_set_err_msg m : M S unit).
Proof.
  intros w a w' E. unfold corm_set_err_msg in E. destruct (p_db (w_db w)) as [c|] eqn:Hc.
  - rewrite (upd_corm_ok w c _ Hc) in E. injection E as _ <-. unfold cached_stmt. rewrite Hc. by destruct c.
  - unfold upd_corm, get_corm, get_db, mbind, M_bind in E. cbn in E. by rewrite Hc in E.
Qed.
#[local] Hint Resolve cached_err_msg : preserves.
Lemma cached_stmt_error t : K (set_stmt_error t : M S unit).
Proof. unfold set_stmt_error. preserves. Qed.
Lemma cached_close t : K (close_stmt t : M S unit).
Proof. unfold close_stmt. preserves. Qed.
#[local] Hint Resolve cached_stmt_error cached_close : preserves.
Lemma cached_failed t : K (stmt_failed t : M S corm_err).
Proof. unfold stmt_failed. preserves. Qed.
#[local] Hint Resolve cached_failed : preserves.
Lemma cached_bind_all t ps : K (bind_all t ps : M S (option corm_err)).
Proof. unfold bind_all. preserves. Qed.
Lemma cached_rows fuel t l types bufs i : K (stmt_rows fuel t l types bufs i : M S unit).
Proof. revert bufs i. induction fuel; intros bufs i; cbn [stmt_rows]; preserves. Qed.
#[local] Hint Resolve cached_rows : preserves.
Lemma cached_read_rows t meta l n fs : K (read_rows t meta l n fs : M S corm_err).
Proof. unfold read_rows, alloc_arrays, calloc_ok. preserves. Qed.
#[local] Hint Resolve cached_read_rows : preserves.
Lemma cached_result t : K (stmt_result t : M S (corm_err * option loc)).
Proof. unfold stmt_result. preserves. Qed.
End cached.

(** *** What closes a statement *)

Definition closes t {A} (m : M S A) : Prop :=
  forall w a w', m w = Ret a w' -> dead t (p_env (w_db w')).

Lemma closes_bind t {A C} (m : M S A) (k : A -> M S C) :
  (forall a, closes t (k a)) -> closes t (m ≫= k).
Proof. intros Hk w c w' E. apply bind_inv in E as (a & w1 & _ & E). by apply (Hk a w1 c). Qed.

Lemma closes_then t {A C} (m : M S A) (k : A -> M S C) :
  closes t m -> (forall a, preserves p_env (k a)) -> closes t (m ≫= k).
Proof.
  intros Hm Hk w c w' E. apply bind_inv in E as (a & w1 & E1 & E2). unfold dead.
  rewrite (Hk a _ _ _ E2). by apply (Hm w a).
Qed.

Lemma closes_stuck t {A} : closes t (stuck : M S A).
Proof. by intros w a w' ?. Qed.

Lemma closes_close t : closes t (close_stmt t).
Proof.
  apply closes_then; [|preserves]. unfold on_stmt, on_live. apply closes_bind. intros [].
  - intros w a w' E. rewrite lib_ok in E. injection E as _ <-. apply stmt_close_law.
  - apply closes_stuck.
Qed.

Ltac closes :=
  repeat match goal with
  | |- closes ?t (close_stmt ?t) => apply closes_close
  | |- closes ?t (close_stmt ?t ≫= _) => apply closes_then; [apply closes_close|preserves]
  | |- closes _ (_ ≫= _) => apply closes_bind; intros ?
  | |- closes _ (match ?x with _ => _ end) => destruct x
  | |- closes _ (let _ := _ in _) => cbv zeta
  | |- closes _ stuck => apply closes_stuck
  end.

Lemma failed_closes t : closes t (stmt_failed t).
Proof. unfold stmt_failed. closes. Qed.

Lemma read_rows_closes t meta l n fs : closes t (read_rows t meta l n fs).
Proof. unfold read_rows. closes. Qed.

Lemma result_closes t : closes t (stmt_result t).
Proof.
  unfold stmt_result. apply closes_bind. intros [meta|]; [|closes].
  do 2 (apply closes_bind; intros ?). cbv zeta. destruct (negb _); [closes|].
  do 2 (apply closes_bind; intros ?). destruct a2 as [l|]; [|closes].
  do 3 (apply closes_bind; intros ?). apply closes_then; [|preserves].
  destruct (0 <? _); [apply read_rows_closes|closes].
Qed.

Lemma bind_all_closes t ps w e w' :
  bind_all t ps w = Ret (Some e) w' -> dead t (p_env (w_db w')).
Proof.
  unfold bind_all. intros E. apply bind_inv in E as ([qs|] & w1 & _ & E).
  - apply bind_inv in E as (rc & w2 & _ & E). destruct (negb _); [|done].
    apply bind_inv in E as (e' & w3 & E3 & [= _ <-]). by eapply failed_closes.
  - apply bind_inv in E as (u & w2 & E2 & [= _ <-]). by eapply closes_close.
Qed.

(** Whatever happens after the statement was found or prepared, it is closed in
    the end and the cache is as it was. *)
Lemma query_closes h sql ps w r w' :
  mysql_stmt_query h sql ps w = Ret r w' ->
  exists e o w1, prepared_stmt h sql w = Ret (e, o) w1 /\
    cached_stmt sql (w_db w') = cached_stmt sql (w_db w1) /\
    forall t, o = Some t -> dead t (p_env (w_db w')).
Proof.
  unfold mysql_stmt_query. intros E. apply bind_inv in E as ([e o] & w1 & E1 & E).
  exists e, o, w1. split; [done|]. destruct o as [t|]; [|by injection E as <- <-].
  apply bind_inv in E as (b & w2 & E2 & E).
  assert (Hb : cached_stmt sql (w_db w2) = cached_stmt sql (w_db w1)).
  { destruct ps; [by injection E2 as <- <-|]. by apply (cached_bind_all sql t (c :: ps) w1 b). }
  destruct b as [e'|].
  - injection E as <- <-. split; [done|]. intros ? [= <-]. destruct ps as [|v ps]; [done|].
    by eapply bind_all_closes.
  - apply bind_inv in E as (rc & w3 & E3 & E). rewrite <- Hb, <- (cached_on_stmt sql t _ _ _ _ E3).
    destruct (negb _).
    + apply bind_inv in E as (e' & w4 & E4 & [= <- <-]). split; [by apply (cached_failed sql t w3 e')|].
      intros ? [= <-]. by eapply failed_closes.
    + split; [by apply (cached_result sql t w3 r)|]. intros ? [= <-]. by eapply result_closes.
Qed.

(** *** The cache around a statement *)

Lemma assoc_touch k (l : list (string * T)) : assoc k (touch k l) = assoc k l.
Proof. unfold touch. destruct (assoc k l) eqn:E; [|by rewrite E]. cbn. by rewrite String.eqb_refl. Qed.

Lemma assoc_make_room k n (l : list (string * T)) : assoc k l = None -> assoc k (make_room n l) = None.
Proof.
  unfold make_room. destruct (_ <=? _); [|done]. intros Ha. induction l as [|[k' t] l IH]; [done|].
  cbn in *. destruct (String.eqb k' k) eqn:E; [done|]. destruct l as [|[k2 t2] l]; [done|].
  cbn [assoc]. rewrite E. by apply IH.
Qed.

Lemma cache_get_ok sql w o w' :
  stmt_cache_get sql w = Ret o w' ->
  o = cached_stmt sql (w_db w) /\ cached_stmt sql (w_db w') = cached_stmt sql (w_db w) /\
  p_env (w_db w') = p_env (w_db w).
Proof.
  unfold stmt_cache_get. intros E. apply bind_inv in E as (c & w1 & E1 & E).
  destruct (p_db (w_db w)) as [c'|] eqn:Hc.
  2: { unfold get_corm, get_db, mbind, M_bind in E1. cbn in E1. by rewrite Hc in E1. }
  rewrite (get_corm_ok w c' Hc) in E1. injection E1 as <- <-. unfold cached_stmt at 1 3. rewrite Hc. cbn.
  destruct (c_stmt_cache c') as [s|] eqn:Hs; cbn.
  - apply bind_inv in E as (u & w2 & E2 & [= <- <-]). unfold set_stmts in E2.
    rewrite (upd_corm_ok w c' _ Hc) in E2. injection E2 as _ <-. split; [done|]. split; [|done].
    unfold cached_stmt. destruct c', s. cbn. by rewrite assoc_touch.
  - injection E as <- <-. split; [done|]. split; [|done]. unfold cached_stmt. by rewrite Hc; cbn; rewrite Hs.
Qed.

Lemma set_stmts_inv sql (s : stmts T) w (u : unit) w' :
  set_stmts s w = Ret u w' -> cached_stmt sql (w_db w') = assoc sql (st_list s).
Proof.
  unfold set_stmts. destruct (p_db (w_db w)) as [c|] eqn:Hc.
  - rewrite (upd_corm_ok w c _ Hc). intros [= _ <-]. by destruct c.
  - unfold upd_corm, get_corm, get_db, mbind, M_bind. cbn. by rewrite Hc.
Qed.

(** After a statement was offered to the cache, it is there or none is. *)
Lemma cache_put_inv sql t w e w' :
  cached_stmt sql (w_db w) = None -> stmt_cache_put close_stmt sql t w = Ret e w' ->
  cached_stmt sql (w_db w') = None \/ cached_stmt sql (w_db w') = Some t.
Proof.
  intros Hn E. unfold stmt_cache_put in E. apply bind_inv in E as (c & w1 & E1 & E).
  destruct (p_db (w_db w)) as [c'|] eqn:Hc.
  2: { unfold get_corm, get_db, mbind, M_bind in E1. cbn in E1. by rewrite Hc in E1. }
  rewrite (get_corm_ok w c' Hc) in E1. injection E1 as <- <-.
  destruct (c_stmt_cache c') as [s|] eqn:Hs; [|injection E as <- <-; by left].
  assert (Ha : assoc sql (st_list s) = None) by (unfold cached_stmt in Hn; rewrite Hc in Hn; cbn in Hn; by rewrite Hs in Hn).
  rewrite Ha in E. apply bind_inv in E as (u & w2 & E2 & E). apply (set_stmts_inv sql) in E2.
  apply bind_inv in E as (u' & w3 & E3 & E).
  assert (H3 : cached_stmt sql (w_db w3) = None).
  { assert (Hk : preserves (cached_stmt sql) (match evicted (st_capacity s) (st_list s) with
      | Some old => destroy_entry close_stmt s old | None => mret tt end)).
    { unfold destroy_entry. pose proof (cached_close sql). preserves. }
    rewrite (Hk _ _ _ E3), E2. destruct s. cbn in *. by apply assoc_make_room. }
  apply bind_inv in E as (b1 & w4 & E4 & E). apply (preserves_malloc_ok (cached_stmt sql)) in E4.
  destruct b1; cbn [negb] in E; [|injection E as <- <-; left; congruence].
  apply bind_inv in E as (b2 & w5 & E5 & E). apply (preserves_malloc_ok (cached_stmt sql)) in E5.
  destruct b2; cbn [negb] in E; [|injection E as <- <-; left; congruence].
  apply bind_inv in E as (u'' & w6 & E6 & [= <- <-]). apply (set_stmts_inv sql) in E6. right.
  rewrite E6. destruct s. cbn. by rewrite String.eqb_refl.
Qed.

(** What the cache holds after [prepared_stmt] is the statement it returned. *)
Lemma prepared_inv h sql w e o w' t :
  prepared_stmt h sql w = Ret (e, o) w' -> cached_stmt sql (w_db w') = Some t -> o = Some t.
Proof.
  unfold prepared_stmt. intros E Ht. apply bind_inv in E as (cd & w1 & E1 & E).
  apply cache_get_ok in E1 as (-> & Hc & _). destruct (cached_stmt sql (w_db w)) as [t'|].
  { injection E as <- <- <-. congruence. }
  apply bind_inv in E as (hd & w2 & E2 & E).
  apply (preserves_deref (cached_stmt sql)) in E2. apply bind_inv in E as (st & w3 & E3 & E).
  apply cached_lib with (sql := sql) in E3. destruct st as [t2|].
  - apply bind_inv in E as (rc & w4 & E4 & E). apply cached_on_stmt with (sql := sql) in E4.
    destruct (negb _).
    + apply bind_inv in E as (u & w5 & E5 & E). apply cached_stmt_error with (sql := sql) in E5.
      apply bind_inv in E as (u' & w6 & E6 & [= <- <- <-]). apply cached_close with (sql := sql) in E6. congruence.
    + apply bind_inv in E as (u & w5 & E5 & [= <- <- <-]).
      apply cache_put_inv in E5 as [?|?]; congruence.
  - apply bind_inv in E as (u & w4 & E4 & [= <- <- <-]). apply cached_err_msg with (sql := sql) in E4. congruence.
Qed.

Lemma bind_all_dead t ps w :
  ps <> [] -> dead t (p_env (w_db w)) -> bind_all t ps w = Stuck.
Proof.
  intros Hps Hd. unfold bind_all. destruct (mysql_bind_params ps w) as [o w1|] eqn:E;
    [|unfold mbind, M_bind; by rewrite E].
  rewrite (bind_Ret _ _ _ _ _ E). apply (preserves_bind_params p_env) in E.
  assert (Hs : forall A (g : T -> L -> A * L), on_stmt t g w1 = Stuck).
  { intros A g. unfold on_stmt, on_live, ask, get_db, mbind, M_bind. cbn. by rewrite E, Hd. }
  destruct o as [qs|]; unfold close_stmt; unfold mbind, M_bind; by rewrite Hs.
Qed.

(** A closed statement in the cache makes every use of its text undefined. *)
Lemma dead_statement sql t ps w :
  ps <> [] -> cached_stmt sql (w_db w) = Some t -> dead t (p_env (w_db w)) ->
  corm_mysql_query sql ps w = Stuck /\ mysql_exec sql ps w = Stuck.
Proof.
  intros Hps Hc Hd.
  assert (Hb : forall h, exists w1, prepared_stmt h sql w = Ret (CORM_OK, Some t) w1 /\
    bind_all t ps w1 = Stuck).
  { intros h. unfold prepared_stmt. destruct (stmt_cache_get sql w) as [o w1|] eqn:E.
    - pose proof (cache_get_ok _ _ _ _ E) as (Ho & _ & He). rewrite Hc in Ho. subst o.
      exists w1. rewrite (bind_Ret _ _ _ _ _ E). split; [done|]. apply bind_all_dead; [done|]. unfold dead.
      by rewrite He.
    - exfalso. unfold cached_stmt in Hc. destruct (p_db (w_db w)) as [c|] eqn:Hdb; [|done].
      unfold stmt_cache_get in E. rewrite (bind_Ret _ _ _ _ _ (get_corm_ok w c Hdb)) in E.
      destruct (c_stmt_cache c) as [s|]; [|done]. unfold set_stmts in E.
      by rewrite (bind_Ret _ _ _ _ _ (upd_corm_ok w c _ Hdb)) in E. }
  assert (Hg : exists h, get_conn w = Ret h w).
  { unfold cached_stmt in Hc. destruct (p_db (w_db w)) as [c|] eqn:Hdb; [|done]. unfold get_conn.
    exists (c_conn c). by rewrite (bind_Ret _ _ _ _ _ (get_corm_ok w c Hdb)). }
  destruct Hg as [h Hg]. destruct (Hb h) as (w1 & E1 & E2). destruct ps as [|v ps]; [done|].
  unfold corm_mysql_query, mysql_exec, mysql_stmt_query.
  rewrite !(bind_Ret _ _ _ _ _ Hg), !(bind_Ret _ _ _ _ _ E1).
  split; unfold mbind, M_bind; by rewrite E2.
Qed.
End driver.
