(* ===== verification/MysqlProps.v ===== *)
(** * Properties of the MySQL driver

    The rows of a query without parameters, and the statements of queries with
    parameters.  The witnesses run on a server that keeps count of what it
    handed out. *)

From S2P Require Import Prelude Types Mem Strbuf CLib ServerDsn Dialect Hash Model Backend Query.
From S2P Require Import Builder BuilderSpec QuerySpec Tx Result ResultSpec Core CoreProps StmtCache.
From S2P Require Import DriverState DriverSpec Reading Mysql MysqlQuery MysqlReuse.

Section properties.
Context {D T R X L : Type} `{!MySQL D T R L} `{!MysqlSpec D T R L}.
#[local] Abbreviation S := (proc D (stmts T) X L).
Implicit Types (w : world S) (t : T).

(** Every value is read as the type of its column says. *)
Lemma fields_typed fs row :
  length row = length fs -> Forall2 has_type (column_types fs) (row_values fs row).
Proof.
  unfold column_types, row_values. revert row. induction fs as [|f fs IH]; intros [|c row] Hl; try done.
  injection Hl as Hl. constructor; [|by apply IH]. destruct c as [bs|]; [|done]. cbn.
  by destruct (field_type_cases (mf_type f)) as [->|[->|[->| ->]]].
Qed.

Lemma rows_typed hp fs rows res :
  Forall (fun row => length row = length fs) rows -> holds_rows hp fs rows res -> typed_result hp res.
Proof.
  intros Hlen [_ Ht Hr _]. unfold typed_result. rewrite Ht. apply Forall_lookup. intros i vs Hi.
  destruct (Forall2_lookup_r _ _ _ _ _ Hr Hi) as (xs & Hxs & Hok).
  apply list_lookup_fmap_Some in Hxs as (row & -> & Hrow). eapply row_reads_typed; [exact Hok|].
  apply fields_typed. by eapply Forall_lookup_1 in Hlen.
Qed.

(** C28: [corm_mysql_query] without parameters returns what the server answered.
    When the statement fails CORM_ERR_BACKEND comes back, when it has no rows
    CORM_OK with no object; memory is as it was.  Otherwise there is a new object
    that owns exactly the texts and blobs of its rows, whose columns have the
    names and types of the fields and in which every cell can be read as a value
    of its column's type, namely the one its text denotes; all rows were fetched
    and the stored result was freed. *)
Theorem mysql_query_answer sql c h w :
  plenty w -> heap_wf w -> p_db (w_db w) = Some c -> c_conn c = Some h ->
  let '(rc, l1) := mysql_query h sql (p_env (w_db w)) in
  exists e out w', corm_mysql_query sql [] w = Ret (e, out) w' /\
    if rc =? 0 then
      e = CORM_OK /\
      let '(o, l2) := mysql_store_result h l1 in
      match o with
      | None => out = None /\ w_heap w' = w_heap w /\ p_env (w_db w') = l2
      | Some r => exists lo res l3, out = Some lo /\ result_at w' lo res (w_heap w) /\
          holds_rows (w_heap w') (mysql_fetch_fields r l2) (rows_left r l2) res /\
          typed_result (w_heap w') res /\
          rows_left r l3 = [] /\ p_env (w_db w') = (mysql_free_result r l3).2
      end
    else e = CORM_ERR_BACKEND /\ out = None /\ w_heap w' = w_heap w /\ p_env (w_db w') = l1.
Proof.
  intros Hp Hwf Hc Hh. destruct (mysql_query h sql _) as [rc l1] eqn:Eq.
  set (w1 := set_db (set_lib l1 (w_db w)) w).
  assert (E : corm_mysql_query sql [] w = (if negb (rc =? 0) then
      set_conn_error h;; mret (CORM_ERR_BACKEND, None) else mysql_simple_query h) w1).
  { unfold corm_mysql_query, get_conn. rewrite bind_assoc, (bind_Ret _ _ _ _ _ (get_corm_ok w c Hc)).
    rewrite bind_ret_l, Hh, bind_deref_Some, (bind_Ret _ _ _ _ _ (lib_ok _ w)), Eq. done. }
  rewrite E. clear E. destruct (rc =? 0); cbn [negb].
  - destruct (mysql_store_result h l1) as [[r|] l2] eqn:Es.
    + destruct (simple_query_ok h r w1 Hp Hwf) as (lo & res & w' & l3 & E & Hat & Hrows & Hleft & Henv);
        change (p_env (w_db w1)) with l1 in *; rewrite Es in *; [done|].
      exists CORM_OK, (Some lo), w'. split; [exact E|]. split; [done|]. exists lo, res, l3.
      split_and!; try done. eapply rows_typed; [|exact Hrows].
      destruct (store_result_law h l1 r) as (_ & _ & _ & Hlen); [by rewrite Es|]. by rewrite Es in Hlen.
    + exists CORM_OK, None, (set_db (set_lib l2 (w_db w1)) w1). split; [|done].
      unfold mysql_simple_query. rewrite (bind_Ret _ _ _ _ _ (lib_ok _ w1)).
      change (p_env (w_db w1)) with l1. by rewrite Es.
  - exists CORM_ERR_BACKEND, None. unfold set_conn_error, corm_set_err_msg. rewrite bind_assoc.
    assert (Ea : ask (mysql_error h) w1 = Ret (mysql_error h l1) w1) by done.
    rewrite (bind_Ret _ _ _ _ _ Ea), (bind_Ret _ _ _ _ _ (upd_corm_ok w1 c _ Hc)). by eexists.
Qed.

(** C40: a query with parameters leaves a closed statement behind.  Whatever the
    server does, when [corm_mysql_query] with parameters returns and the cache
    holds a statement for its text, this statement was closed; the next query or
    execution of the same text with parameters uses it, which is undefined. *)
Theorem mysql_requery_after_close sql ps ps' r t w w' :
  ps <> [] -> ps' <> [] ->
  corm_mysql_query sql ps w = Ret r w' -> cached_stmt sql (w_db w') = Some t ->
  mysql_stmt_live t (p_env (w_db w')) = false /\
  corm_mysql_query sql ps' w' = Stuck /\ mysql_exec sql ps' w' = Stuck.
Proof.
  intros Hps Hps' E Ht. unfold corm_mysql_query in E. apply bind_inv in E as (h & w1 & _ & E).
  destruct ps as [|v ps]; [done|].
  apply query_closes in E as (e & o & w2 & E2 & Hcached & Hdead). rewrite Hcached in Ht.
  pose proof (prepared_inv _ _ _ _ _ _ _ E2 Ht) as ->.
  split; [by apply Hdead|]. apply (dead_statement sql t); [done|congruence|by apply Hdead].
Qed.
End properties.

(** ** A server *)

(** The statements handed out so far, those that were closed, and the rows of
    the stored result, if there is one. *)
Record my_server : Type := MyServer {
  my_next : nat;
  my_closed : list nat;
  my_rows : option (list (list (option (list ascii))))
}.

Definition my_table : list (list (option (list ascii))) :=
  [[Some (list_ascii_of_string "42"); Some (list_ascii_of_string "hello")];
   [Some (list_ascii_of_string "-7"); None]].

Definition my_fields : list mysql_field :=
  [MysqlField "id" MYSQL_TYPE_LONGLONG 0; MysqlField "name" MYSQL_TYPE_STRING 0].

Definition my_left (l : my_server) : list (list (option (list ascii))) := default [] (my_rows l).

(** A row in the binary protocol. *)
Definition my_cells (row : list (option (list ascii))) : list mysql_cell :=
  zip_with (fun f c =>
    match c with
    | None => MysqlCell true 0 []
    | Some bs =>
        if mf_type f =? MYSQL_TYPE_LONGLONG
        then MysqlCell false 8 (le_bytes 8 (wrap_u64 (strtoll (cell_text bs))))
        else MysqlCell false (Z.of_nat (length bs)) (bs ++ [NUL])
    end) my_fields row.

#[export] Instance my_mysql : MySQL unit nat unit my_server := {|
  mysql_init l := (Some tt, l);
  mysql_connect_timeout _ _ l := (0, l);
  mysql_real_connect _ _ _ _ _ _ l := (true, l);
  mysql_error _ _ := "syntax error";
  mysql_close _ l := (tt, l);
  mysql_ping _ l := (0, l);
  mysql_query _ sql l := (if String.eqb sql "ERROR" then 1 else 0, l);
  mysql_insert_id _ _ := 1;
  mysql_affected_rows _ _ := 1;
  mysql_real_escape_string _ s _ := s;
  mysql_store_result _ l := (Some tt, MyServer (my_next l) (my_closed l) (Some my_table));
  mysql_res_live _ l := match my_rows l with Some _ => true | None => false end;
  mysql_res_rows _ l := length (my_left l);
  mysql_num_fields _ _ := 2;
  mysql_num_rows _ l := Z.of_nat (length (my_left l));
  mysql_fetch_fields _ _ := my_fields;
  mysql_fetch_row _ l :=
    (hd_error (my_left l), MyServer (my_next l) (my_closed l) (tail <$> my_rows l));
  mysql_free_result _ l := (tt, MyServer (my_next l) (my_closed l) None);
  mysql_stmt_init _ l := (Some (my_next l), MyServer (Datatypes.S (my_next l)) (my_closed l) (my_rows l));
  mysql_stmt_live t l := negb (existsb (Nat.eqb t) (my_closed l));
  mysql_stmt_rows _ l := length (my_left l);
  mysql_stmt_prepare _ _ l := (0, l);
  mysql_stmt_error _ _ := "error";
  mysql_stmt_close t l := (0, MyServer (my_next l) (t :: my_closed l) (my_rows l));
  mysql_stmt_bind_param _ _ l := (0, l);
  mysql_stmt_execute _ l := (0, MyServer (my_next l) (my_closed l) (Some my_table));
  mysql_stmt_insert_id _ _ := 1;
  mysql_stmt_affected_rows _ _ := 1;
  mysql_stmt_result_metadata _ l := (Some tt, l);
  mysql_stmt_store_result _ l := (0, l);
  mysql_stmt_num_rows _ l := Z.of_nat (length (my_left l));
  mysql_stmt_bind_result _ _ l := (0, l);
  mysql_stmt_fetch _ l :=
    let l' := MyServer (my_next l) (my_closed l) (tail <$> my_rows l) in
    match my_left l with [] => (100, [], l') | row :: _ => (0, my_cells row, l') end
|}.

#[export] Instance my_spec : MysqlSpec unit nat unit my_server.
Proof.
  refine {| rows_left _ l := my_left l |}.
  - intros h l r _. cbn. repeat split. by repeat constructor.
  - intros r l. cbn. unfold my_left. destruct (my_rows l) as [[|row rows]|]; done.
  - intros r l. cbn. done.
  - intros t l. cbn. by rewrite Nat.eqb_refl.
Defined.

Definition my_world : world (proc unit (stmts nat) unit my_server) :=
  World [] ∅ 1%positive
    (Proc (Some (Corm (Some tt) CORM_DEFAULT_CONFIG registry_zero CORM_OK "" "" 0 0 None
                   (Some (Stmts 4 [] true)) 0))
      [] (fun _ => (0, 0)) 0 (MyServer 0 [] None)).

Lemma mysql_query_answer_witness :
  exists e out w', corm_mysql_query "SELECT * FROM t" [] my_world = Ret (e, out) w' /\
    e = CORM_OK /\ exists lo res l3, out = Some lo /\ result_at w' lo res ∅ /\
      holds_rows (w_heap w') my_fields my_table res /\ typed_result (w_heap w') res /\
      my_left l3 = [] /\ p_env (w_db w') = MyServer (my_next l3) (my_closed l3) None.
Proof.
  refine (mysql_query_answer "SELECT * FROM t"
    (Corm (Some tt) CORM_DEFAULT_CONFIG registry_zero CORM_OK "" "" 0 0 None
      (Some (Stmts 4 [] true)) 0) tt my_world _ _ _ _).
  - reflexivity.
  - intros l [b Hl]. cbn in Hl. by rewrite lookup_empty in Hl.
  - reflexivity.
  - reflexivity.
Defined.

Definition by_id : string := "SELECT * FROM t WHERE id < ?".
Definition param_100 : list corm_value := [Value CORM_INT false (UInt 100)].

(** What the first query by [by_id] leaves. *)
Definition after_query : world (proc unit (stmts nat) unit my_server) :=
  match corm_mysql_query by_id param_100 my_world with Ret _ w => w | Stuck => my_world end.

Lemma mysql_requery_after_close_witness :
  corm_mysql_query by_id param_100 my_world = Ret (CORM_OK, Some 1%positive) after_query /\
  (mysql_stmt_live 0%nat (p_env (w_db after_query)) = false /\
   corm_mysql_query by_id param_100 after_query = Stuck /\ mysql_exec by_id param_100 after_query = Stuck).
Proof.
  assert (E : corm_mysql_query by_id param_100 my_world = Ret (CORM_OK, Some 1%positive) after_query)
    by (vm_compute; reflexivity).
  split; [exact E|].
  apply (mysql_requery_after_close by_id param_100 param_100 (CORM_OK, Some 1%positive) 0%nat my_world).
  - discriminate.
  - discriminate.
  - exact E.
  - vm_compute. reflexivity.
Defined.
