(* ===== verification/MysqlExec.v ===== *)
(** * Statements on MySQL

    [mysql_exec] sends a statement without parameters as text; one with
    parameters it prepares, or takes from the statement cache, binds and
    executes.  [MysqlStmts] states the documented behaviour of the prepared
    statements of the library.  As long as no cached statement is closed the
    driver implements [SqlDriver]: executing through the cache is executing
    directly.  A statement that fails is closed and stays in the cache
    ([MysqlReuse.v]), which is why [sql_carries] asks for a cache in order.

    [MysqlTx] is what the library promises of transactions. *)

From S2P Require Import Prelude Types Mem Strbuf CLib ServerDsn Dialect Hash Model Backend Query.
From S2P Require Import QuerySpec Tx Driver Result Core CoreProps StmtCache StmtCacheSpec MigrationProps.
From S2P Require Import DriverState DriverSpec Reading Handles Mysql MysqlQuery MysqlReuse.

(** ** Statements without parameters *)

Section commands.
Context {D T R X L : Type} `{!MySQL D T R L}.
#[local] Abbreviation S := (proc D (stmts T) X L).
Implicit Types (w : world S) (s : S) (h : D) (l : L).

(** The struct after a statement that succeeded. *)
Definition told h l (c : corm D (stmts T) X) : corm D (stmts T) X :=
  with_affected (wrap_i32 (mysql_affected_rows h l)) (with_last_id (wrap_i64 (mysql_insert_id h l)) c).

Definition my_command (sql : string) s : corm_err * S :=
  match p_db s, c ← p_db s; c_conn c with
  | Some c, Some h =>
      let '(rc, l) := mysql_query h sql (p_env s) in
      let '(e, c) := if rc =? 0 then (CORM_OK, told h l c)
                     else (CORM_ERR_BACKEND, with_err_msg (shorten 512 (mysql_error h l)) c) in
      (e, Proc (Some c) (p_log s) (p_time s) (p_reads s) l)
  | _, _ => (CORM_ERR_NULL, s)
  end.

Lemma conn_error_ok h c w :
  p_db (w_db w) = Some c ->
  set_conn_error h w = Ret tt (set_corm (Some (with_err_msg
    (shorten 512 (mysql_error h (p_env (w_db w)))) c)) w).
Proof.
  intros Hc. unfold set_conn_error, corm_set_err_msg.
  assert (Ea : ask (mysql_error h) w = Ret (mysql_error h (p_env (w_db w))) w) by done.
  by rewrite (bind_Ret _ _ _ _ _ Ea), (upd_corm_ok w c _ Hc).
Qed.

Lemma exec_command sql c h w :
  p_db (w_db w) = Some c -> c_conn c = Some h ->
  mysql_exec sql [] w = Ret (my_command sql (w_db w)).1 (set_db (my_command sql (w_db w)).2 w).
Proof.
  intros Hc Hh. unfold my_command. rewrite Hc. cbn [mbind option_bind]. rewrite Hh.
  unfold mysql_exec, get_conn. rewrite bind_assoc, (bind_Ret _ _ _ _ _ (get_corm_ok w c Hc)), bind_ret_l, Hh.
  rewrite bind_deref_Some, (bind_Ret _ _ _ _ _ (lib_ok _ w)).
  destruct (mysql_query h sql (p_env (w_db w))) as [rc l]. cbn [fst snd].
  set (w1 := set_db (set_lib l (w_db w)) w). assert (Hc1 : p_db (w_db w1) = Some c) by done.
  destruct (rc =? 0); cbn [negb].
  - assert (Ei : ask (mysql_insert_id h) w1 = Ret (mysql_insert_id h l) w1) by done.
    rewrite (bind_Ret _ _ _ _ _ Ei), (bind_Ret _ _ _ _ _ (upd_corm_ok w1 c _ Hc1)).
    set (w2 := set_corm _ w1). assert (Ea : ask (mysql_affected_rows h) w2 = Ret (mysql_affected_rows h l) w2) by done.
    rewrite (bind_Ret _ _ _ _ _ Ea). by rewrite (bind_Ret _ _ _ _ _ (upd_corm_ok w2 _ _ eq_refl)).
  - by rewrite (bind_Ret _ _ _ _ _ (conn_error_ok h c w1 Hc1)).
Qed.

End commands.

(** ** Prepared statements *)

(** The text of a statement and what was bound to it. *)
Record my_stmt : Type := MyStmt {
  ms_sql : string;
  ms_binds : option (list mysql_param)
}.

(** [my_stmts] are the statements that were not closed; [my_accepts k sql]: the
    server prepares [sql] in the state [k]; [my_slots] counts its placeholders,
    for which [mysql_stmt_bind_param] reads as many parameters; [my_run] executes
    it and answers the insert id and the number of affected rows, or refuses. *)
Class MysqlStmts (D T R L K : Type) `{Countable T} `{!MySQL D T R L} : Type := {
  my_db : L -> K;
  my_stmts : L -> gmap T my_stmt;
  my_accepts : K -> string -> bool;
  my_slots : string -> nat;
  my_run : K -> string -> list mysql_param -> option (Z * Z) * K;
  my_refuse k sql qs : my_accepts k sql = false -> my_run k sql qs = (None, k);
  my_live t l : mysql_stmt_live t l = bool_decide (is_Some (my_stmts l !! t));
  my_init h l : let '(o, l') := mysql_stmt_init h l in
    my_db l' = my_db l /\
    match o with
    | Some t => my_stmts l !! t = None /\ my_stmts l' = <[t := MyStmt "" None]> (my_stmts l)
    | None => my_stmts l' = my_stmts l
    end;
  my_prepare t p sql l : my_stmts l !! t = Some p ->
    let '(rc, l') := mysql_stmt_prepare t sql l in
    my_db l' = my_db l /\
    if my_accepts (my_db l) sql
    then rc = 0 /\ my_stmts l' = <[t := MyStmt sql None]> (my_stmts l)
    else rc <> 0 /\ my_stmts l' = my_stmts l;
  my_bind t p qs l : my_stmts l !! t = Some p -> (my_slots (ms_sql p) <= length qs)%nat ->
    let '(rc, l') := mysql_stmt_bind_param t qs l in
    rc = 0 /\ my_db l' = my_db l /\ my_stmts l' = <[t := MyStmt (ms_sql p) (Some qs)]> (my_stmts l);
  my_execute t sql qs l : my_stmts l !! t = Some (MyStmt sql (Some qs)) ->
    let '(rc, l') := mysql_stmt_execute t l in
    let '(o, k) := my_run (my_db l) sql qs in
    my_stmts l' = my_stmts l /\ my_db l' = k /\
    match o with
    | Some (id, n) =>
        rc = 0 /\ mysql_stmt_insert_id t l' = id /\ mysql_stmt_affected_rows t l' = n
    | None => rc <> 0
    end;
  my_closed t p l : my_stmts l !! t = Some p ->
    my_db (mysql_stmt_close t l).2 = my_db l /\
    my_stmts (mysql_stmt_close t l).2 = delete t (my_stmts l);
  my_text h sql l : my_stmts (mysql_query h sql l).2 = my_stmts l
}.
Arguments MysqlStmts D T R L K {_ _ _}.

(** What [mysql_bind_params] makes of a value. *)
Definition to_mysql (x : sqlval) : mysql_param :=
  match x with
  | SNull => BindNull
  | SInt z => BindLonglong z
  | SDbl b => BindDouble b
  | SText s => BindString s
  | SBlob bs => BindBlob bs
  | SBool b => BindTiny b
  end.

(** The value can be read; a NULL pointer is marked as NULL. *)
Definition my_readable (hp : gmap loc block) (v : corm_value) (x : sqlval) : Prop :=
  resolve hp v = Some x /\ (v_is_null v = false -> x <> SNull).

Section exec.
Context {D T R X L K : Type} `{Countable T} `{!MySQL D T R L} `{!MysqlStmts D T R L K}.
#[local] Abbreviation S := (proc D (stmts T) X L).
Implicit Types (w : world S) (d : S) (l : L) (t : T) (h : D) (k : K) (m : gmap T my_stmt).
Implicit Types (sc : option (stmts T)).

Lemma bind_param_ok v x w :
  my_readable (w_heap w) v x -> bind_param v w = Ret (to_mysql x) w.
Proof.
  unfold my_readable, resolve, bind_param. intros [Hr Hn]. destruct (v_is_null v); [by simplify_eq|].
  specialize (Hn eq_refl). destruct (v_type v).
  1-2: destruct (u_as_i (v_u v)); by simplify_eq/=.
  1-2: destruct (u_as_f (v_u v)); by simplify_eq/=.
  1-2: destruct (u_as_s (v_u v)) as [p|]; simplify_eq/=; run; case_decide; [by simplify_eq|];
    destruct (read_cstr (w_heap w) p) as [s|] eqn:E; simplify_eq/=;
    by run_with (read_str_ok p s w E).
  - destruct (u_as_blob (v_u v)) as [[p n]|]; simplify_eq/=. run.
    case_decide; [by simplify_eq|]. rewrite bool_decide_false by done. cbn [andb].
    destruct (read_bytes (w_heap w) p n) as [bs|] eqn:E; simplify_eq/=.
    by run_with (read_blob_ok p n bs w E).
  - destruct (u_as_b (v_u v)); by simplify_eq/=.
Qed.

Lemma bind_each_ok vs xs w :
  Forall2 (my_readable (w_heap w)) vs xs -> bind_each vs w = Ret (map to_mysql xs) w.
Proof.
  intros Hs. induction Hs as [|v x vs xs Hv Hs IH]; [done|]. cbn [bind_each map].
  rewrite (bind_Ret _ _ _ _ _ (bind_param_ok v x w Hv)). by rewrite (bind_Ret _ _ _ _ _ IH).
Qed.

(** [mysql_exec] on values that can be read. *)
Definition exec_bound (sql : string) (qs : list mysql_param) : M S corm_err :=
  handle ← get_conn;
  '(e, stmt) ← prepared_stmt handle sql;
  match stmt with
  | None => mret e
  | Some t =>
      ok ← malloc_ok;
      if negb (ok : bool) then close_stmt t;; mret CORM_ERR_NOMEM
      else
        rc ← on_stmt t (fun t => mysql_stmt_bind_param t qs);
        if negb (rc =? 0) then stmt_failed t
        else
          rc ← on_stmt t mysql_stmt_execute;
          if negb (rc =? 0) then stmt_failed t
          else
            id ← ask_stmt t mysql_stmt_insert_id;
            upd_corm (with_last_id (wrap_i64 id));;
            n ← ask_stmt t mysql_stmt_affected_rows;
            upd_corm (with_affected (wrap_i32 n));;
            mret CORM_OK
  end.

Lemma my_framed_on_stmt {A} t (f : T -> L -> A * L) : framed (on_stmt t f : M S A).
Proof. unfold on_stmt, on_live. framed. Qed.
Lemma framed_ask_stmt {A} t (f : T -> L -> A) : framed (ask_stmt t f : M S A).
Proof. unfold ask_stmt, ask_live. framed. Qed.
#[local] Hint Resolve my_framed_on_stmt framed_ask_stmt : framed.
Lemma framed_close_stmt t : framed (close_stmt t : M S unit).
Proof. unfold close_stmt. framed. Qed.
#[local] Hint Resolve framed_close_stmt : framed.
Lemma framed_stmt_failed t : framed (stmt_failed t : M S corm_err).
Proof. unfold stmt_failed, set_stmt_error. framed. Qed.
Lemma framed_prepared handle sql : framed (prepared_stmt handle sql : M S (corm_err * option T)).
Proof. unfold prepared_stmt, set_stmt_error. framed. Qed.
#[local] Hint Resolve framed_stmt_failed framed_prepared : framed.
Lemma framed_exec_bound sql qs : framed (exec_bound sql qs : M S corm_err).
Proof. unfold exec_bound. framed. Qed.

Lemma my_exec_values sql vs xs w :
  vs <> [] -> Forall2 (my_readable (w_heap w)) vs xs ->
  mysql_exec sql vs w = exec_bound sql (map to_mysql xs) w.
Proof.
  intros Hvs Hs. destruct vs as [|v vs]; [done|]. unfold mysql_exec, exec_bound.
  apply framed_agree; [framed|]. intros cn w1 Hh1.
  apply framed_agree; [framed|]. intros [e [t|]] w2 Hh2; [|done].
  unfold bind_all, mysql_bind_params. rewrite !bind_assoc.
  apply framed_agree; [framed|]. intros [] w3 Hh3; cbn [negb]; [|by rewrite bind_ret_l, bind_assoc].
  rewrite !bind_assoc. assert (E : bind_each (v :: vs) w3 = Ret (map to_mysql xs) w3).
  { apply bind_each_ok. congruence. }
  rewrite (bind_Ret _ _ _ _ _ E), !bind_ret_l, bind_assoc.
  apply framed_agree; [framed|]. intros rc w4 _. destruct (negb (rc =? 0)).
  - rewrite bind_assoc. unfold mbind at 1 3, M_bind. by destruct (stmt_failed t w4).
  - by rewrite bind_ret_l.
Qed.

(** ** The invariant between the cache and the library *)

(** The connection is open with the handle [h], the cached statements are not
    closed, and the server is in the state [k]. *)
Definition my_idle h k d : Prop :=
  exists sc l, at_state (Some h) sc l d /\ cache_ok ms_sql sc (my_stmts l) /\ my_db l = k.

Definition after_close t l : L := (mysql_stmt_close t l).2.

Lemma my_triple_on_stmt mem {A} (f : T -> L -> A * L) t p cn sc l :
  my_stmts l !! t = Some p ->
  triple mem (at_state cn sc l) (on_stmt t f : M S A)
    (fun a d => a = (f t l).1 /\ at_state cn sc (f t l).2 d).
Proof.
  intros Ht. unfold on_stmt, on_live. eapply triple_bind; [apply triple_ask|].
  intros b. apply triple_pure. intros ->. rewrite my_live, bool_decide_true by by rewrite Ht.
  apply triple_lib.
Qed.

Lemma triple_ask_stmt mem {A} (f : T -> L -> A) t p cn sc l :
  my_stmts l !! t = Some p ->
  triple mem (at_state cn sc l) (ask_stmt t f : M S A) (fun a d => a = f t l /\ at_state cn sc l d).
Proof.
  intros Ht. unfold ask_stmt, ask_live. eapply triple_bind; [apply triple_ask|].
  intros b. apply triple_pure. intros ->. rewrite my_live, bool_decide_true by by rewrite Ht.
  apply triple_ask.
Qed.

Lemma triple_close mem t cn sc l :
  is_Some (my_stmts l !! t) ->
  triple mem (at_state cn sc l) (close_stmt t : M S unit) (fun _ d => at_state cn sc (after_close t l) d).
Proof.
  intros [p Ht]. eapply triple_bind; [by eapply my_triple_on_stmt|]. intros a. apply triple_ret.
  by intros d [_ Hd].
Qed.

(** The message of a failed call, then the statement is closed. *)
Lemma triple_failed mem t p cn sc l :
  my_stmts l !! t = Some p ->
  triple mem (at_state cn sc l) (stmt_failed t : M S corm_err)
    (fun e d => e = CORM_ERR_BACKEND /\ at_state cn sc (after_close t l) d).
Proof.
  intros Ht. unfold stmt_failed, set_stmt_error. eapply triple_bind.
  { eapply triple_bind; [by eapply triple_ask_stmt|]. intros s. apply triple_pure. intros _.
    apply triple_set_err_msg. }
  intros []. eapply triple_bind; [apply triple_close; by rewrite Ht|]. intros []. by apply triple_ret.
Qed.

Lemma triple_prepared sql h sc l :
  cache_ok ms_sql sc (my_stmts l) ->
  triple true (at_state (Some h) sc l) (prepared_stmt (Some h) sql) (fun r d => exists sc' l',
    at_state (Some h) sc' l' d /\ cache_ok ms_sql sc' (my_stmts l') /\ my_db l' = my_db l /\
    match r.2 with
    | Some t => exists p, my_stmts l' !! t = Some p /\ ms_sql p = sql
    | None => r.1 = CORM_ERR_NOMEM \/ (r.1 = CORM_ERR_BACKEND /\ my_accepts (my_db l) sql = false)
    end).
Proof.
  intros Hok. unfold prepared_stmt. eapply triple_bind; [apply triple_cache_get|].
  intros r. apply triple_pure. intros ->. destruct (assoc sql (cached sc)) as [t|] eqn:Ha.
  { apply triple_ret. intros d Hd. eexists _, l. split; [exact Hd|].
    split; [by apply cache_ok_touch|]. split; [done|]. cbn. by eapply handles_lookup; [apply Hok|]. }
  assert (Hsc : (fun c => with_list (touch sql (st_list c)) c) <$> sc = sc).
  { destruct sc as [[n ls cl]|]; [|done]. cbn in *. unfold touch. by rewrite Ha. }
  rewrite Hsc. rewrite bind_deref_Some. eapply triple_bind; [apply triple_lib|]. intros o. apply triple_pure.
  pose proof (my_init h l) as Hi. destruct (mysql_stmt_init h l) as [o' l1]. cbn. intros ->.
  destruct Hi as [Hdb Hi]. destruct o' as [t|].
  2: { eapply triple_bind; [apply triple_set_err_msg|]. intros []. apply triple_ret. intros d Hd.
    exists sc, l1. split; [done|]. rewrite Hi. split; [done|]. split; [done|]. by left. }
  destruct Hi as [Ht Hm]. assert (Hl : my_stmts l1 !! t = Some (MyStmt "" None)) by (by rewrite Hm, lookup_insert_eq).
  eapply triple_bind; [by eapply my_triple_on_stmt|]. intros rc. apply triple_pure.
  pose proof (my_prepare t _ sql l1 Hl) as Hp. destruct (mysql_stmt_prepare t sql l1) as [rc' l2]. cbn.
  intros ->. destruct Hp as [Hdb2 Hp]. rewrite Hdb in Hp, Hdb2. destruct (my_accepts (my_db l) sql) eqn:Hacc.
  - destruct Hp as [-> Hp]. rewrite Hm, insert_insert_eq in Hp. cbn. eapply triple_bind.
    { apply (triple_put_fresh ms_sql my_stmts true close_stmt after_close
        (fun cn sc l t => triple_close true t cn sc l) (fun l t p Hp => proj2 (my_closed t p l Hp))
        (Some h) sc l2 (my_stmts l) sql t (MyStmt sql None) Hok Ht Hp eq_refl Ha). }
    intros e. apply triple_ret. intros d (sc' & l3 & Hd & Hok' & Hlv & _ & Hl3 & _).
    exists sc', l3. split; [done|]. split; [done|]. split; [|by eexists].
    destruct Hl3 as [->|(t' & p & _ & Hl3 & ->)]; [done|]. unfold after_close.
    by rewrite (proj1 (my_closed t' p l2 Hl3)).
  - destruct Hp as [Hrc Hp]. rewrite (proj2 (Z.eqb_neq rc' 0) Hrc). cbn [negb].
    assert (Hl2 : my_stmts l2 !! t = Some (MyStmt "" None)) by (by rewrite Hp).
    eapply triple_bind.
    { unfold set_stmt_error. eapply triple_bind; [by eapply triple_ask_stmt|]. intros s.
      apply triple_pure. intros _. apply triple_set_err_msg. }
    intros []. eapply triple_bind; [apply triple_close; by rewrite Hl2|]. intros []. apply triple_ret.
    intros d Hd. destruct (my_closed t _ l2 Hl2) as [Hk3 Hm3]. exists sc, (after_close t l2).
    split; [done|]. unfold after_close. rewrite Hm3, Hp, Hm, delete_insert_id by done.
    split; [done|]. split; [congruence|]. by right.
Qed.

(** The counters of the struct after a statement. *)
Definition counted (id n : Z) d : Prop :=
  exists c, p_db d = Some c /\ c_last_insert_id_val c = wrap_i64 id /\ c_rows_affected_val c = wrap_i32 n.

Lemma triple_counters mem t p cn sc l :
  my_stmts l !! t = Some p ->
  triple mem (at_state cn sc l)
    (id ← ask_stmt t mysql_stmt_insert_id;
     upd_corm (with_last_id (wrap_i64 id));;
     n ← ask_stmt t mysql_stmt_affected_rows;
     upd_corm (with_affected (wrap_i32 n));;
     mret CORM_OK)
    (fun e d => e = CORM_OK /\ at_state cn sc l d /\
       counted (mysql_stmt_insert_id t l) (mysql_stmt_affected_rows t l) d).
Proof.
  intros Ht w _ (c & Hc & Hcn & Hsc & Hl).
  assert (Ea : forall A (f : T -> L -> A) (w' : world S),
    p_env (w_db w') = l -> ask_stmt t f w' = Ret (f t l) w').
  { intros A f w' Hw. unfold ask_stmt, ask_live, ask, get_db. unfold mbind, M_bind. cbn.
    rewrite my_live, Hw, bool_decide_true by by rewrite Ht. unfold mret, M_ret. by rewrite Hw. }
  rewrite (bind_Ret _ _ _ _ _ (Ea _ _ w Hl)), (bind_Ret _ _ _ _ _ (upd_corm_ok w c _ Hc)).
  set (w1 := set_corm _ w). rewrite (bind_Ret _ _ _ _ _ (Ea _ _ w1 Hl)).
  rewrite (bind_Ret _ _ _ _ _ (upd_corm_ok w1 _ _ eq_refl)). eexists _, _, _. split; [reflexivity|].
  split; [done|]. split; [done|]. destruct c. cbn in *. split; by eexists.
Qed.

(** What executing directly does, by the error that is reported. *)
Definition my_outcome k sql qs (e : corm_err) k' d : Prop :=
  match e with
  | CORM_OK => exists id n, my_run k sql qs = (Some (id, n), k') /\ counted id n d
  | CORM_ERR_BACKEND => my_run k sql qs = (None, k')
  | CORM_ERR_NOMEM => k' = k
  | _ => False
  end.

(** The connection is open and the server in the state [k]. *)
Definition my_open h k d : Prop := exists sc l, at_state (Some h) sc l d /\ my_db l = k.

Lemma idle_open h k d : my_idle h k d -> my_open h k d.
Proof. intros (sc & l & Hd & _ & Hk). by exists sc, l. Qed.

Lemma triple_exec_bound sql qs h k :
  (my_slots sql <= length qs)%nat ->
  triple true (my_idle h k) (exec_bound sql qs) (fun e d => exists k',
    my_outcome k sql qs e k' d /\ my_open h k' d /\ (e = CORM_OK -> my_idle h k' d)).
Proof.
  intros Hn. apply triple_exists. intros sc. apply triple_exists. intros l.
  apply triple_pure_r. intros [Hok <-]. unfold exec_bound.
  eapply triple_bind; [apply triple_get_conn|]. intros hd. apply triple_pure. intros ->.
  eapply triple_bind; [by apply triple_prepared|]. intros [e o].
  apply triple_exists. intros sc1. apply triple_exists. intros l1.
  apply triple_pure_r. intros (Hok1 & Hdb1 & Ho). cbn in Ho. destruct o as [t|].
  2: { apply triple_ret. intros d Hd. exists (my_db l). split.
    - destruct Ho as [->|[-> Hacc]]; [done|]. by apply my_refuse.
    - split; [by exists sc1, l1|]. intros _. by exists sc1, l1. }
  destruct Ho as (p & Ht & Hsql). eapply triple_bind; [apply triple_malloc_ok|]. intros ok.
  apply triple_pure_r. intros Hmem. rewrite (Hmem eq_refl). cbn [negb].
  eapply triple_bind; [by eapply my_triple_on_stmt|]. intros rc. apply triple_pure.
  pose proof (my_bind t p qs l1 Ht ltac:(by rewrite Hsql)) as Hb.
  destruct (mysql_stmt_bind_param t qs l1) as [rc' l2]. cbn. intros ->. destruct Hb as (-> & Hdb2 & Hm2).
  cbn. rewrite Hsql in Hm2.
  assert (Ht2 : my_stmts l2 !! t = Some (MyStmt sql (Some qs))) by (by rewrite Hm2, lookup_insert_eq).
  assert (Hok2 : cache_ok ms_sql sc1 (my_stmts l2)) by (rewrite Hm2; by eapply cache_ok_update).
  eapply triple_bind; [by eapply my_triple_on_stmt|]. intros rc. apply triple_pure.
  pose proof (my_execute t sql qs l2 Ht2) as He. destruct (mysql_stmt_execute t l2) as [rc' l3]. cbn.
  intros ->. rewrite Hdb2, Hdb1 in He. destruct (my_run (my_db l) sql qs) as [[[id n]|] k'] eqn:Er;
    destruct He as (Hm3 & Hdb3 & He).
  - destruct He as (-> & Hid & Haff). cbn [Z.eqb negb].
    assert (Ht3 : my_stmts l3 !! t = Some (MyStmt sql (Some qs))) by (by rewrite Hm3).
    eapply triple_conseq; [apply (triple_counters true t _ (Some h) sc1 l3 Ht3)|done|].
    intros e1 d (-> & Hd & Hcnt). rewrite Hid, Haff in Hcnt. exists k'. split; [by exists id, n|].
    split; [by exists sc1, l3|]. intros _. exists sc1, l3. by rewrite Hm3.
  - rewrite (proj2 (Z.eqb_neq rc' 0) He). cbn [negb].
    eapply triple_conseq; [apply (triple_failed true t (MyStmt sql (Some qs)) (Some h) sc1 l3); by rewrite Hm3|done|].
    intros e1 d [-> Hd]. exists k'. split; [done|]. split; [|done]. exists sc1, (after_close t l3).
    split; [done|]. unfold after_close.
    by rewrite (proj1 (my_closed t _ l3 ltac:(by rewrite Hm3))).
Qed.

(** C13: with parameters [mysql_exec] prepares the statement or takes it from the
    cache - whatever that holds, as long as nothing in it is closed -, binds the
    values one for one and executes it once.  What it reports and what becomes of
    the database is what executing directly gives; on success the insert id and
    the row count are those of the statement, and the cache is in order again, so
    that the next statement may follow.  Memory is as it was.  (CORM_ERR_NOMEM is
    reported when the library cannot allocate a statement; nothing was sent
    then.) *)
Theorem mysql_exec_prepared sql vs xs h k w :
  plenty w -> my_idle h k (w_db w) -> vs <> [] -> Forall2 (my_readable (w_heap w)) vs xs ->
  (my_slots sql <= length xs)%nat ->
  exists e d k', mysql_exec sql vs w = Ret e (set_db d w) /\
    my_outcome k sql (map to_mysql xs) e k' d /\ my_open h k' d /\
    (e = CORM_OK -> my_idle h k' d).
Proof.
  intros Hp Hi Hvs Hs Hn. rewrite (my_exec_values sql vs xs w Hvs Hs).
  rewrite framed_effect; [|apply framed_exec_bound|done].
  destruct (triple_effect _ _ _ (w_db w) (triple_exec_bound sql (map to_mysql xs) h k
    ltac:(by rewrite length_map)) Hi) as (e & d & -> & k' & Ho & Hop & Hid). by exists e, d, k'.
Qed.
End exec.

(** ** The interfaces *)

Section interfaces.
Context {D T R X L K : Type} `{Countable T} `{!MySQL D T R L} `{!MysqlStmts D T R L K}.
#[local] Abbreviation S := (proc D (stmts T) X L).
#[local] Abbreviation driver := (mysql_backend (D := D) (T := T) (R := R) (X := X) (L := L)).
Implicit Types (w : world S) (s : S) (h : D) (l : L).

#[export] Instance mysql_usable : Usable driver :=
  fun s => is_Some (p_db s) /\ is_Some (c ← p_db s; c_conn c).

Lemma usable_inv s :
  usable driver s ->
  exists c h, p_db s = Some c /\ c_conn c = Some h.
Proof. intros [[c Hc] [h Hh]]. rewrite Hc in Hh. by exists c, h. Qed.

Lemma usable_intro s c h :
  p_db s = Some c -> c_conn c = Some h ->
  usable driver s.
Proof. intros Hc Hh. split; [by eexists|]. rewrite Hc. cbn. rewrite Hh. by eexists. Qed.

(** The struct after a statement still has its handle. *)
Lemma effect_conn sql s c h :
  p_db s = Some c -> c_conn c = Some h ->
  exists c', p_db (my_command sql s).2 = Some c' /\ c_conn c' = Some h.
Proof.
  intros Hc Hh. unfold my_command. rewrite Hc. cbn [mbind option_bind]. rewrite Hh.
  destruct (mysql_query _ _ _) as [rc l]. destruct (rc =? 0); eexists; (split; [reflexivity|]); by destruct c.
Qed.
(** Where a statement without parameters leaves the server. *)
Lemma command_idle sql s h k :
  my_idle h k s -> exists k', my_idle h k' (my_command sql s).2.
Proof.
  intros (sc & l & (c & Hc & Hcn & Hsc & Hl) & Hok & _). unfold my_command. rewrite Hc. cbn [mbind option_bind].
  rewrite Hcn, Hl. pose proof (my_text h sql l) as Hm. destruct (mysql_query h sql l) as [rc l']. cbn in Hm.
  destruct (rc =? 0); (exists (my_db l'), sc, l'; cbn; split; [eexists; split; [reflexivity|]|]; [by destruct c|by rewrite Hm]).
Qed.

(** What executing does to the state, memory sufficing. *)
Definition my_effect (sql : string) (xs : list sqlval) s : corm_err * S :=
  match xs with
  | [] => my_command sql s
  | _ => default (CORM_OK, s) (effect (exec_bound sql (map to_mysql xs)) s)
  end.

(** Parameters need a cache in order, one value for each placeholder, and no
    NULL pointer that is not marked. *)
Definition my_carries (sql : string) (xs : list sqlval) s : Prop :=
  match xs with
  | [] => True
  | _ => Forall (fun x => x <> SNull) xs /\ (my_slots sql <= length xs)%nat /\ exists h k, my_idle h k s
  end.

Lemma my_effect_bound sql x xs s :
  my_carries sql (x :: xs) s ->
  effect (exec_bound sql (map to_mysql (x :: xs))) s = Some (my_effect sql (x :: xs) s) /\
  usable driver (my_effect sql (x :: xs) s).2 /\
  ((my_effect sql (x :: xs) s).1 = CORM_OK -> exists h k, my_idle h k (my_effect sql (x :: xs) s).2).
Proof.
  intros (_ & Hn & h & k & Hi).
  destruct (triple_effect _ _ _ s (triple_exec_bound sql (map to_mysql (x :: xs)) h k
    ltac:(by rewrite length_map)) Hi) as (e & d & E & k' & _ & Hop & Hid).
  cbn [my_effect]. rewrite E. cbn. split; [done|]. destruct Hop as (sc & l & (c & Hc & Hcn & _) & _).
  split; [by apply (usable_intro _ c h)|]. intros He. by exists h, k'; apply Hid.
Qed.

(** Of a handle. *)
Definition of_handle (f : D -> L -> Z) s : Z :=
  match c ← p_db s; c_conn c with Some h => f h (p_env s) | None => 0 end.

Lemma my_handle_ask (f : D -> L -> Z) (wrap : Z -> Z) w :
  usable driver (w_db w) ->
  (handle ← get_conn; h ← deref handle; n ← ask (f h); mret (wrap n)) w =
    Ret (of_handle (fun h l => wrap (f h l)) (w_db w)) w.
Proof.
  intros Hu. destruct (usable_inv _ Hu) as (c & h & Hc & Hh). unfold of_handle. rewrite Hc.
  cbn [mbind option_bind]. rewrite Hh. unfold get_conn.
  by rewrite bind_assoc, (bind_Ret _ _ _ _ _ (get_corm_ok w c Hc)), bind_ret_l, Hh.
Qed.

Lemma carried_readable hp vs xs :
  Forall (fun x => x <> SNull) xs -> Forall2 (fun v x => resolve hp v = Some x) vs xs ->
  Forall2 (my_readable hp) vs xs.
Proof.
  intros Hn Hr. induction Hr as [|v x vs xs Hv Hr IH]; [done|]. apply Forall_cons in Hn as [Hx Hn].
  constructor; [by split|by apply IH].
Qed.

#[export] Instance mysql_driver : SqlDriver driver.
Proof.
  refine {| sql_carries := my_carries; sql_exec := my_effect;
            sql_affected := of_handle (fun h l => wrap_i32 (mysql_affected_rows h l));
            sql_last_id := of_handle (fun h l => wrap_i64 (mysql_insert_id h l));
            drv_exec := mysql_exec; drv_affected := mysql_affected; drv_last_id := mysql_last_id |};
    try reflexivity.
  - intros w Hu. by apply my_handle_ask.
  - intros w Hu. by apply my_handle_ask.
  - intros text [|x xs] s Hu Hc; [|by apply my_effect_bound]. destruct (usable_inv _ Hu) as (c & h & Hc' & Hh).
    destruct (effect_conn text s c h Hc' Hh) as (c2 & Hc2 & Hh2). by eapply usable_intro.
  - intros text xs s text' [|x' xs'] Hu Hc He; [done|]. intros (Hx & Hn & h & k & Hi).
    split; [done|]. split; [done|]. destruct xs as [|x xs].
    + destruct (command_idle text s h k Hi) as [k' Hi']. by exists h, k'.
    + by apply my_effect_bound.
  - intros w text vs [|x xs] Hp Hu Hc Hr.
    + apply Forall2_nil_inv_r in Hr as ->. destruct (usable_inv _ Hu) as (c & h & Hc' & Hh).
      by apply (exec_command text c h).
    + rewrite (my_exec_values text vs (x :: xs) w); [|by intros ->; inversion Hr|apply carried_readable; [apply Hc|done]].
      rewrite framed_effect; [|apply framed_exec_bound|done].
      destruct (my_effect_bound text x xs (w_db w) Hc) as [-> _]. by destruct (my_effect text (x :: xs) (w_db w)).
Defined.

#[export] Instance mysql_conn : ConnDriver driver.
Proof.
  constructor.
  - intros s Hs. apply Hs.
  - intros s log reads Hs. exact Hs.
  - intros s sql e c Hc Hu. destruct (usable_inv _ Hu) as (c' & h & Hc' & Hh).
    apply (usable_intro _ (reported sql e c) h); [done|]. unfold reported.
    assert (c' = c) as -> by congruence. by destruct c, (is_err e).
Qed.
End interfaces.

(** ** Transactions *)

(** START TRANSACTION commits an open transaction and starts a new one; the
    content of the database is what this connection sees. *)
Class MysqlTx (D T R L C : Type) `{!MySQL D T R L} : Type := {
  tx_content : L -> C;
  tx_saved : L -> option C;
  start_law h (l : L) :
    tx_content (mysql_query h "START TRANSACTION" l).2 = tx_content l /\
    ((mysql_query h "START TRANSACTION" l).1 = 0 ->
       tx_saved (mysql_query h "START TRANSACTION" l).2 = Some (tx_content l));
  commit_law h (l : L) : (mysql_query h "COMMIT" l).1 = 0 ->
    tx_content (mysql_query h "COMMIT" l).2 = tx_content l;
  rollback_law h (l : L) c : tx_saved l = Some c ->
    tx_content (mysql_query h "ROLLBACK" l).2 = c
}.
Arguments MysqlTx D T R L C {_}.

Section transactions.
Context {D T R X L K C : Type} `{Countable T} `{!MySQL D T R L} `{!MysqlTx D T R L C}.
#[local] Abbreviation S := (proc D (stmts T) X L).
Implicit Types (w : world S) (s : S).

(** A statement of the transaction API. *)
Lemma my_tx_statement sql w :
  usable (mysql_backend (D := D) (T := T) (R := R) (X := X) (L := L)) (w_db w) ->
  exists h e d, mysql_exec sql [] w = Ret e (set_db d w) /\
    usable (mysql_backend (D := D) (T := T) (R := R) (X := X) (L := L)) d /\
    p_env d = (mysql_query h sql (p_env (w_db w))).2 /\
    (e = CORM_OK -> (mysql_query h sql (p_env (w_db w))).1 = 0).
Proof.
  intros Hu. destruct (usable_inv _ Hu) as (c & h & Hc & Hh).
  exists h, (my_command (R := R) sql (w_db w)).1, (my_command (R := R) sql (w_db w)).2.
  split; [by apply (exec_command sql c h)|].
  destruct (effect_conn (R := R) sql (w_db w) c h Hc Hh) as (c' & Hc' & Hh').
  split; [by apply (usable_intro _ c' h)|]. unfold my_command. rewrite Hc. cbn [mbind option_bind]. rewrite Hh.
  destruct (mysql_query h sql (p_env (w_db w))) as [rc l]. cbn. destruct (Z.eqb_spec rc 0); by split.
Qed.

#[export] Instance mysql_tx :
  Transactional (K := C) (mysql_backend (D := D) (T := T) (R := R) (X := X) (L := L)).
Proof.
  refine {| content := fun s => tx_content (p_env s); saved := fun s => tx_saved (p_env s);
            tx_free := fun _ => True;
            tx_begin := corm_mysql_begin; tx_commit := corm_mysql_commit;
            tx_rollback := corm_mysql_rollback |}; try reflexivity.
  - intros w Hu _. destruct (my_tx_statement "START TRANSACTION" w Hu) as (h & e & d & E & Hd & He & Hok).
    exists e, d, w. split; [exact E|]. split; [by repeat split|]. split; [done|]. rewrite He.
    destruct (start_law (T := T) (R := R) h (p_env (w_db w))) as [H1 H2]. auto.
  - intros w Hu. destruct (my_tx_statement "COMMIT" w Hu) as (h & e & d & E & Hd & He & Hok).
    exists e, d, w. split; [exact E|]. split; [by repeat split|]. split; [done|]. rewrite He. intros Heq.
    by apply commit_law, Hok.
  - intros w k Hu Hk. destruct (my_tx_statement "ROLLBACK" w Hu) as (h & e & d & E & Hd & He & _).
    exists e, d, w. split; [exact E|]. split; [by repeat split|]. split; [done|]. rewrite He.
    by apply rollback_law.
Defined.
End transactions.
