(* ===== verification/MysqlFetch.v ===== *)
(** * Queries with parameters on MySQL

    [mysql_stmt_query] prepares a statement or takes it from the cache, binds and
    executes it, allocates a buffer for every column, fetches the rows into the
    buffers and copies them from there into a result object.  [MysqlFetch] states
    the documented behaviour of the functions that fetch; with it the object holds
    the rows the server answered - up to the first row that does not fit its
    buffers, which ends the loop and leaves rows of zeros.  A text that fills its
    buffer exactly has no NUL and is read past its end; the theorem excludes it. *)

From S2P Require Import Prelude Types Mem Strbuf CLib ServerDsn Dialect Hash Model Backend Query.
From S2P Require Import QuerySpec Tx Driver Result ResultSpec Core CoreProps StmtCache StmtCacheSpec.
From S2P Require Import DriverState DriverSpec Reading Handles Mysql MysqlQuery MysqlReuse MysqlExec.

(** ** Rows in the binary protocol *)

(** A value as the buffer of its column receives it. *)
Inductive my_datum : Type :=
  | DInt (z : Z)
  | DDouble (bits : Z)
  | DBytes (bs : list ascii).

Abbreviation my_row := (list (option my_datum)).

Definition field_type (f : mysql_field) : corm_field_type := mysql_field_to_corm_type (mf_type f).

(** Type and length of the buffer of a column. *)
Definition field_buffer (f : mysql_field) : Z * Z := buffer_spec (field_type f) f.

(** The value is of the kind the buffer asks for. *)
Definition datum_fits (f : mysql_field) (o : option my_datum) : Prop :=
  match o with
  | None => True
  | Some (DInt z) => field_type f = CORM_INT64 /\ in_i64 z
  | Some (DDouble b) => field_type f = CORM_DOUBLE /\ 0 <= b < 2 ^ 64
  | Some (DBytes _) => field_type f = CORM_BLOB \/ field_type f = CORM_TEXT
  end.

(** What fetching the value stores: as many bytes as the buffer has room for, the
    length of all of them, and a NUL behind a text when there is room left. *)
Definition fetch_cell (f : mysql_field) (o : option my_datum) : mysql_cell :=
  match o with
  | None => MysqlCell true 0 []
  | Some (DInt z) => MysqlCell false 8 (le_bytes 8 (wrap_u64 z))
  | Some (DDouble b) => MysqlCell false 8 (le_bytes 8 b)
  | Some (DBytes bs) =>
      let '(t, n) := field_buffer f in
      MysqlCell false (Z.of_nat (length bs))
        (if (t =? MYSQL_TYPE_STRING) && (Z.of_nat (length bs) <? n) then bs ++ [NUL]
         else take (Z.to_nat n) bs)
  end.

(** Nothing is cut off. *)
Definition cell_fits (f : mysql_field) (o : option my_datum) : bool :=
  match o with
  | Some (DBytes bs) => Z.of_nat (length bs) <=? (field_buffer f).2
  | _ => true
  end.
Definition row_fits (fs : list mysql_field) (row : my_row) : bool :=
  forallb (fun p => cell_fits p.1 p.2) (zip fs row).

(** A text does not fill its buffer exactly. *)
Definition leaves_nul (f : mysql_field) (o : option my_datum) : Prop :=
  match o with
  | Some (DBytes bs) => field_type f = CORM_TEXT -> Z.of_nat (length bs) <> (field_buffer f).2
  | _ => True
  end.

(** The rows before the first that does not fit. *)
Fixpoint fetched (fs : list mysql_field) (rows : list my_row) : list my_row :=
  match rows with
  | [] => []
  | row :: rows => if row_fits fs row then row :: fetched fs rows else []
  end.

Lemma fetched_all fs rows : Forall (fun row => row_fits fs row = true) rows -> fetched fs rows = rows.
Proof. intros Hf. induction Hf as [|row rows Hr Hf IH]; [done|]. cbn. by rewrite Hr, IH. Qed.

(** The value in the result. *)
Definition datum_value (f : mysql_field) (o : option my_datum) : sqlval :=
  match o with
  | None => SNull
  | Some (DInt z) => SInt z
  | Some (DDouble b) => SDbl b
  | Some (DBytes bs) => if decide (field_type f = CORM_BLOB) then SBlob bs else SText (cell_text bs)
  end.

Definition datum_values (fs : list mysql_field) (row : my_row) : list sqlval :=
  zip_with datum_value fs row.

Lemma buffer_specs_fields fs : buffer_specs fs = map field_buffer fs.
Proof.
  unfold buffer_specs, column_types. induction fs as [|f fs IH]; [done|]. cbn. by rewrite IH.
Qed.

Lemma buffer_size f : 0 <= (field_buffer f).2.
Proof.
  unfold field_buffer, buffer_spec, wrap_u64. destruct (field_type f); cbn; try lia.
  all: destruct (0 <? mf_max_length f) eqn:E; try lia;
    pose proof (Z.mod_pos_bound (mf_max_length f + 1) (2 ^ 64) ltac:(lia)); lia.
Qed.

(** ** One row *)

(** The bytes a value needs fit its buffer. *)
Lemma fetch_cell_size f o :
  datum_fits f o -> (length (mc_bytes (fetch_cell f o)) <= Z.to_nat (field_buffer f).2)%nat.
Proof.
  pose proof (buffer_size f) as Hn. destruct o as [[z|b|bs]|]; cbn [datum_fits fetch_cell]; [| | |cbn; lia].
  - intros [Ht _]. unfold field_buffer. rewrite Ht. cbn. lia.
  - intros [Ht _]. unfold field_buffer. rewrite Ht. cbn. lia.
  - intros _. destruct (field_buffer f) as [t n]. cbn in *.
    destruct (t =? MYSQL_TYPE_STRING), (Z.ltb_spec (Z.of_nat (length bs)) n); cbn;
      rewrite ?length_app, ?length_take; cbn; lia.
Qed.

(** The buffers of the columns, with what the last row left in them. *)
Definition buffers_ok (fs : list mysql_field) (bufs : list (option (list ascii))) : Prop :=
  Forall2 (fun f b => exists bs, b = Some bs /\ length bs = Z.to_nat (field_buffer f).2) fs bufs.

(** They begin with what was fetched. *)
Definition buffers_hold (fs : list mysql_field) (row : my_row) (bufs : list (option (list ascii))) : Prop :=
  Forall3 (fun f o b => exists rest, b = Some (mc_bytes (fetch_cell f o) ++ rest) /\
    length (mc_bytes (fetch_cell f o) ++ rest) = Z.to_nat (field_buffer f).2) fs row bufs.

Lemma write_buffer_ok (bs old : list ascii) :
  (length bs <= length old)%nat ->
  exists rest, write_buffer (Some old) bs = Some (Some (bs ++ rest)) /\ length (bs ++ rest) = length old.
Proof.
  intros Hl. destruct bs as [|a bs]; [by exists old|]. exists (drop (length (a :: bs)) old).
  cbn [write_buffer]. rewrite (proj2 (Nat.leb_le _ _) Hl). split; [done|].
  rewrite length_app, length_drop. lia.
Qed.

Lemma write_buffers_ok fs row bufs :
  Forall2 datum_fits fs row -> buffers_ok fs bufs ->
  exists bufs', write_buffers bufs (zip_with fetch_cell fs row) = Some bufs' /\
    buffers_ok fs bufs' /\ buffers_hold fs row bufs'.
Proof.
  intros Hrow. revert bufs. induction Hrow as [|f o fs row Ho Hrow IH]; intros bufs Hb.
  { apply Forall2_nil_inv_l in Hb as ->. exists []. split; [done|]. split; constructor. }
  apply Forall2_cons_inv_l in Hb as (b & bufs2 & (old & -> & Hlen) & Hb & ->).
  destruct (write_buffer_ok (mc_bytes (fetch_cell f o)) old) as (rest & E & Hl).
  { rewrite Hlen. by apply fetch_cell_size. }
  destruct (IH bufs2 Hb) as (bufs' & E' & Hok & Hh). cbn [zip_with write_buffers].
  rewrite E. cbn [mbind option_bind]. rewrite E'. eexists. split; [done|]. split; constructor; try done.
  - eexists. split; [done|]. by rewrite Hl.
  - eexists. split; [done|]. by rewrite Hl.
Qed.

(** ** What the library promises *)

(** Columns and rows. *)
Abbreviation my_table_of := (list mysql_field * list my_row)%type.

Section kept.
Context {D T R L K : Type} `{Countable T} `{!MySQL D T R L} `{!MysqlStmts D T R L K}.

(** Nothing but the position in the results changed. *)
Record kept (result : T -> L -> option my_table_of) (l l' : L) : Prop := {
  kp_stmts : my_stmts l' = my_stmts l;
  kp_db : my_db l' = my_db l;
  kp_result t : result t l' = result t l;
  kp_meta r : mysql_res_live r l = true -> mysql_res_live r l' = true /\
    mysql_num_fields r l' = mysql_num_fields r l /\ mysql_fetch_fields r l' = mysql_fetch_fields r l
}.

Lemma kept_refl result l : kept result l l.
Proof. by constructor. Qed.

Lemma kept_trans result l1 l2 l3 : kept result l1 l2 -> kept result l2 l3 -> kept result l1 l3.
Proof.
  intros [A1 B1 C1 M1] [A2 B2 C2 M2]. constructor; [congruence|congruence|congruence|].
  intros r Hr. destruct (M1 r Hr) as (Hr2 & E1 & E2). destruct (M2 r Hr2) as (Hr3 & E3 & E4).
  split; [done|]. split; congruence.
Qed.
End kept.

(** [my_answer]: the columns and rows of a statement that returns any; [my_result]
    what the last execution of a statement answered, [my_unread] the rows of it
    that were stored and not fetched yet, [my_buffers] the buffers it fetches
    into. *)
Class MysqlFetch (D T R L K : Type) `{Countable T} `{!MySQL D T R L} `{!MysqlStmts D T R L K} : Type := {
  my_answer : K -> string -> list mysql_param -> option my_table_of;
  my_result : T -> L -> option my_table_of;
  my_unread : T -> L -> list my_row;
  my_buffers : T -> L -> list (Z * Z);
  answer_shape k sql qs fs rows : my_answer k sql qs = Some (fs, rows) ->
    Z.of_nat (length fs) < 2 ^ 31 /\ Z.of_nat (length rows) < 2 ^ 31 /\
    Forall (Forall2 datum_fits fs) rows;
  execute_answer t sql qs l : my_stmts l !! t = Some (MyStmt sql (Some qs)) ->
    is_Some (my_run (my_db l) sql qs).1 ->
    my_result t (mysql_stmt_execute t l).2 = my_answer (my_db l) sql qs;
  metadata_law t l : is_Some (my_stmts l !! t) ->
    let '(o, l') := mysql_stmt_result_metadata t l in
    kept my_result l l' /\
    match o, my_result t l with
    | None, None => True
    | Some r, Some (fs, _) => mysql_res_live r l' = true /\
        mysql_num_fields r l' = Z.of_nat (length fs) /\ mysql_fetch_fields r l' = fs
    | _, _ => False
    end;
  store_law t l fs rows : is_Some (my_stmts l !! t) -> my_result t l = Some (fs, rows) ->
    let '(rc, l') := mysql_stmt_store_result t l in
    kept my_result l l' /\
    (rc = 0 -> mysql_stmt_num_rows t l' = Z.of_nat (length rows) /\ my_unread t l' = rows);
  bind_result_law t l fs rows : is_Some (my_stmts l !! t) -> my_result t l = Some (fs, rows) ->
    let '(rc, l') := mysql_stmt_bind_result t (map field_buffer fs) l in
    rc = 0 /\ kept my_result l l' /\ my_unread t l' = my_unread t l /\
    my_buffers t l' = map field_buffer fs;
  fetch_law t l fs rows : is_Some (my_stmts l !! t) -> my_result t l = Some (fs, rows) ->
    my_buffers t l = map field_buffer fs ->
    let '(rc, cells, l') := mysql_stmt_fetch t l in
    kept my_result l l' /\ my_buffers t l' = my_buffers t l /\
    match my_unread t l with
    | [] => rc <> 0 /\ cells = []
    | row :: rest => cells = zip_with fetch_cell fs row /\ my_unread t l' = rest /\
        if row_fits fs row then rc = 0 else rc <> 0
    end;
  unread_bound t l : (length (my_unread t l) <= mysql_stmt_rows t l)%nat;
  free_law r l : mysql_res_live r l = true ->
    my_stmts (mysql_free_result r l).2 = my_stmts l /\ my_db (mysql_free_result r l).2 = my_db l
}.
Arguments MysqlFetch D T R L K {_ _ _ _}.

Section fetch.
Context {D T R X L K : Type} `{Countable T} `{!MySQL D T R L} `{!MysqlStmts D T R L K}.
Context `{!MysqlFetch D T R L K}.
#[local] Abbreviation S := (proc D (stmts T) X L).
Implicit Types (w : world S) (t : T) (r : R) (l : L).

(** The text in a buffer ends before what an earlier row left behind it. *)
Lemma cstr_rest bs rest : cstr_of_bytes ((bs ++ [NUL]) ++ rest) = Some (cell_text bs).
Proof.
  rewrite <- (cell_text_some bs). induction bs as [|c bs IH]; [done|]. cbn in *. by rewrite IH.
Qed.

(** A cell that holds a number, or NULL, needs no memory. *)
Lemma number_cell_ok (m : M S corm_value) ty x v w base ls :
  m w = Ret v w -> owned_of v = [] -> param_wf v -> reads_as (w_heap w) ty x v ->
  plenty w -> heap_wf w -> heap_split (w_heap w) base ls ->
  exists v w', m w = Ret v w' /\ reading w w' base (ls ++ owned_of v) /\
    param_wf v /\ reads_as (w_heap w') ty x v.
Proof.
  intros E Ho Hv Hx Hp Hwf Hs. exists v, w. rewrite Ho, app_nil_r.
  split; [done|]. split; [by apply reading_id|done].
Qed.

(** Copying the beginning of a buffer. *)
Lemma dup_prefix bs rest w :
  dup_bytes (Z.of_nat (length bs)) (Some (bs ++ rest)) w = dup_bytes (Z.of_nat (length bs)) (Some bs) w.
Proof.
  assert (E : take_bytes (Z.of_nat (length bs)) (bs ++ rest) = take_bytes (Z.of_nat (length bs)) bs).
  { rewrite (take_bytes_all _ bs eq_refl). unfold take_bytes. rewrite length_app.
    rewrite (proj2 (Z.leb_le 0 _)), (proj2 (Z.leb_le _ (Z.of_nat (length bs + length rest)))) by lia.
    cbn [andb]. by rewrite Nat2Z.id, take_app_length. }
  unfold dup_bytes. by rewrite E.
Qed.

(** The bytes of a text or blob that fits. *)
Lemma bytes_cell_ok f bs rest w base ls :
  plenty w -> heap_wf w -> heap_split (w_heap w) base ls ->
  datum_fits f (Some (DBytes bs)) -> cell_fits f (Some (DBytes bs)) = true ->
  leaves_nul f (Some (DBytes bs)) ->
  let c := fetch_cell f (Some (DBytes bs)) in
  exists v w', stmt_cell (field_type f) (Some (mc_bytes c ++ rest)) c w = Ret v w' /\
    reading w w' base (ls ++ owned_of v) /\ param_wf v /\
    reads_as (w_heap w') (field_type f) (datum_value f (Some (DBytes bs))) v.
Proof.
  intros Hp Hwf Hs Hd Hf Hn. cbn [datum_fits fetch_cell datum_value cell_fits leaves_nul] in *.
  unfold field_buffer in *. apply Z.leb_le in Hf. destruct Hd as [Ht|Ht]; rewrite Ht in *.
  - cbn [buffer_spec snd] in *. set (n := if 0 <? mf_max_length f then _ else _) in *.
    change (MYSQL_TYPE_BLOB =? MYSQL_TYPE_STRING) with false. cbn [andb mc_bytes].
    rewrite take_ge by lia. unfold stmt_cell. cbn [mc_is_null mc_length default from_option].
    destruct (dup_bytes_ok (Z.of_nat (length bs)) bs w base ls Hp Hwf Hs eq_refl) as (lo & w' & E & Hrd & Hb).
    rewrite <- (dup_prefix bs rest) in E. run_with E. eexists _, w'. split; [done|]. split; [done|].
    split; [eexists _, _; split; [done|]; right; by eexists|].
    split; [done|]. split; [done|]. unfold resolve. cbn -[read_bytes]. by rewrite Hb.
  - cbn [buffer_spec snd] in *. set (n := if 0 <? mf_max_length f then _ else _) in *.
    specialize (Hn eq_refl). change (MYSQL_TYPE_STRING =? MYSQL_TYPE_STRING) with true.
    rewrite (proj2 (Z.ltb_lt _ _)) by lia. cbn [andb mc_bytes]. unfold stmt_cell. cbn [mc_is_null mbind option_bind].
    rewrite cstr_rest, bind_deref_Some.
    destruct (dup_text_ok (Some (cell_text bs)) w base ls Hp Hwf Hs) as (p & w' & E & Hrd & (lo & -> & Hc)).
    run_with E. eexists _, w'. split; [done|]. split; [done|].
    split; [eexists; split; [done|]; right; by eexists|].
    split; [done|]. split; [done|]. unfold resolve. cbn -[read_cstr]. by rewrite Hc.
Qed.

Lemma stmt_cell_ok f o rest w base ls :
  plenty w -> heap_wf w -> heap_split (w_heap w) base ls ->
  datum_fits f o -> cell_fits f o = true -> leaves_nul f o ->
  let c := fetch_cell f o in
  length (mc_bytes c ++ rest) = Z.to_nat (field_buffer f).2 ->
  exists v w', stmt_cell (field_type f) (Some (mc_bytes c ++ rest)) c w = Ret v w' /\
    reading w w' base (ls ++ owned_of v) /\ param_wf v /\
    reads_as (w_heap w') (field_type f) (datum_value f o) v.
Proof.
  intros Hp Hwf Hs Hd Hf Hn c Hlen. subst c.
  assert (Hnum : forall z, wrap_i64 (wrap_u64 z mod 2 ^ 64) = wrap_i64 z).
  { intros z. unfold wrap_u64, wrap_i64, wrap_signed. by rewrite !Z.mod_mod. }
  destruct o as [[z|b|bs]|]; cbn [datum_fits fetch_cell datum_value mc_bytes] in *.
  - destruct Hd as [Ht Hz]. unfold field_buffer in Hlen. rewrite Ht in Hlen |- *. cbn [buffer_spec snd] in Hlen.
    rewrite length_app, length_le_bytes in Hlen. destruct rest; [|cbn in Hlen; lia]. rewrite app_nil_r.
    refine (number_cell_ok _ _ _ (Value CORM_INT64 false (UInt (wrap_i64 (le_value (le_bytes 8 (wrap_u64 z))))))
      w base ls eq_refl eq_refl I _ Hp Hwf Hs).
    split; [done|]. split; [done|]. rewrite le_value_bytes. unfold resolve. cbn [v_is_null v_type v_u u_as_i].
    change (8 * Z.of_nat 8) with 64. by rewrite Hnum, wrap_i64_id.
  - destruct Hd as [Ht Hb]. unfold field_buffer in Hlen. rewrite Ht in Hlen |- *. cbn [buffer_spec snd] in Hlen.
    rewrite length_app, length_le_bytes in Hlen. destruct rest; [|cbn in Hlen; lia]. rewrite app_nil_r.
    refine (number_cell_ok _ _ _ (Value CORM_DOUBLE false (UDbl (le_value (le_bytes 8 b))))
      w base ls eq_refl eq_refl I _ Hp Hwf Hs).
    split; [done|]. split; [done|]. rewrite le_value_bytes. unfold resolve. cbn [v_is_null v_type v_u u_as_f].
    change (8 * Z.of_nat 8) with 64. by rewrite Z.mod_small.
  - by apply bytes_cell_ok.
  - eapply (number_cell_ok _ _ _ (Value (field_type f) true (UInt 0))); try done.
    + unfold owned_of. cbn. by destruct (field_type_cases (mf_type f)) as [E|[E|[E|E]]];
        unfold field_type; rewrite E.
    + unfold param_wf. destruct (field_type_cases (mf_type f)) as [E|[E|[E|E]]];
        unfold field_type; rewrite E; cbn; try done; repeat eexists; eauto.
Qed.

(** ** Rows *)

Lemma stmt_row_ok fs row bufs w base ls :
  plenty w -> heap_wf w -> heap_split (w_heap w) base ls ->
  Forall2 datum_fits fs row -> row_fits fs row = true -> Forall2 leaves_nul fs row ->
  buffers_hold fs row bufs ->
  exists vs w', stmt_row (column_types fs) bufs (zip_with fetch_cell fs row) w = Ret vs w' /\
    reading w w' base (ls ++ owned vs) /\ Forall param_wf vs /\
    row_reads (w_heap w') (column_types fs) (datum_values fs row) vs.
Proof.
  intros Hp Hwf Hs Hd Hfit Hn Hb. revert w ls Hp Hwf Hs Hd Hfit Hn.
  induction Hb as [|f o b fs row bufs (rest & -> & Hlen) Hb IH]; intros w ls Hp Hwf Hs Hd Hfit Hn.
  - exists [], w. rewrite app_nil_r. split; [done|]. split; [by apply reading_id|]. split; constructor.
  - apply Forall2_cons in Hd as [Hd1 Hd]. apply Forall2_cons in Hn as [Hn1 Hn].
    apply andb_prop in Hfit as [Hf1 Hfit]. cbn [fst snd] in Hf1. cbn [column_types map zip_with stmt_row].
    destruct (stmt_cell_ok f o rest w base ls Hp Hwf Hs Hd1 Hf1 Hn1 Hlen) as (v & w1 & E1 & R1 & Hv & Hx).
    unfold field_type in E1. run_with E1. pose proof R1 as [Hdb Hp1 Hwf1 _ Hs1].
    destruct (IH w1 (ls ++ owned_of v) Hp1 Hwf1 Hs1 Hd Hfit Hn) as (vs & w2 & E2 & R2 & Hvs & Hxs).
    unfold column_types in E2. run_with E2. exists (v :: vs), w2. split; [done|].
    rewrite owned_cons, app_assoc. split; [by eapply reading_trans|]. split; [by constructor|].
    constructor; [|done]. destruct Hx as (? & ? & Hx). split; [done|]. split; [done|].
    eapply resolve_mono; [apply R2|done].
Qed.

Lemma my_on_stmt {A} (f : T -> L -> A * L) t w :
  is_Some (my_stmts (p_env (w_db w)) !! t) ->
  on_stmt t f w = Ret (f t (p_env (w_db w))).1 (set_db (set_lib (f t (p_env (w_db w))).2 (w_db w)) w).
Proof.
  intros Ht. unfold on_stmt, on_live. unfold ask, get_db at 1, mbind, M_bind. cbn.
  rewrite my_live, bool_decide_true by done. rewrite lib_ok. by destruct w.
Qed.

Lemma my_ask_stmt {A} (f : T -> L -> A) t w :
  is_Some (my_stmts (p_env (w_db w)) !! t) -> ask_stmt t f w = Ret (f t (p_env (w_db w))) w.
Proof.
  intros Ht. unfold ask_stmt, ask_live, ask, get_db, mbind, M_bind. cbn.
  by rewrite my_live, bool_decide_true.
Qed.

Lemma fetched_length fs rows : (length (fetched fs rows) <= length rows)%nat.
Proof. induction rows as [|row rows IH]; [done|]. cbn. destruct (row_fits fs row); cbn; lia. Qed.

(** *** All rows *)

Lemma stmt_rows_ok t lo fs all names rows fuel bufs done w base :
  let l := p_env (w_db w) in
  is_Some (my_stmts l !! t) -> my_result t l = Some (fs, all) -> my_buffers t l = map field_buffer fs ->
  my_unread t l = rows -> (length rows < fuel)%nat ->
  Forall (Forall2 datum_fits fs) rows -> Forall (Forall2 leaves_nul fs) rows -> buffers_ok fs bufs ->
  filling w lo (Z.of_nat (length fs)) names (column_types fs) done (length rows) base ->
  exists cells w' l', stmt_rows fuel t lo (column_types fs) bufs (length done) w = Ret tt w' /\
    filling w' lo (Z.of_nat (length fs)) names (column_types fs) (done ++ cells)
      (length rows - length cells) base /\
    w_db w' = set_lib l' (w_db w) /\ kept my_result l l' /\
    text_le (w_heap w) (w_heap w') /\
    Forall2 (row_reads (w_heap w') (column_types fs)) (map (datum_values fs) (fetched fs rows)) cells.
Proof.
  revert fuel bufs done w. induction rows as [|row rows IH];
    intros fuel bufs done w l Ht Hres Hbuf Hun Hfuel Hfit Hnul Hb Hf;
    (destruct fuel as [|fuel]; [cbn in Hfuel; lia|]); cbn [stmt_rows];
    pose proof (my_on_stmt mysql_stmt_fetch t w Ht) as Eo; fold l in Eo;
    pose proof (fetch_law t l fs all Ht Hres Hbuf) as Hlaw; rewrite Hun in Hlaw;
    destruct (mysql_stmt_fetch t l) as [[rc cells] l'] eqn:Ef; destruct Hlaw as (Hk & Hbuf' & Hlaw);
    cbn [fst snd] in Eo; rewrite (bind_Ret _ _ _ _ _ Eo); set (w1 := set_db _ w).
  - destruct Hlaw as [Hrc ->]. assert (write_buffers bufs [] = Some bufs) as -> by by destruct bufs.
    rewrite bind_deref_Some, (proj2 (Z.eqb_neq _ _) Hrc). cbn [negb].
    exists [], w1, l'. rewrite app_nil_r. split; [done|].
    split; [destruct Hf as [[? ? ? ?] ? ?]; by constructor|]. split; [done|].
    split; [done|]. split; [apply text_le_refl|constructor].
  - destruct Hlaw as (-> & Hun' & Hrc). apply Forall_cons in Hfit as [Hfit1 Hfit]. apply Forall_cons in Hnul as [Hnul1 Hnul].
    destruct (write_buffers_ok fs row bufs Hfit1 Hb) as (bufs' & Ew & Hb' & Hh).
    rewrite Ew, bind_deref_Some. cbn [length] in Hf. cbn [fetched].
    assert (Hf1 : filling w1 lo (Z.of_nat (length fs)) names (column_types fs) done
      (Datatypes.S (length rows)) base) by (destruct Hf as [[? ? ? ?] ? ?]; by constructor).
    destruct (row_fits fs row) eqn:Hrf.
    2: { rewrite (proj2 (Z.eqb_neq _ _) Hrc). cbn [negb]. exists [], w1, l'. rewrite app_nil_r.
      split; [done|]. split; [done|]. split; [done|]. split; [done|]. split; [apply text_le_refl|constructor]. }
    rewrite Hrc. cbn [Z.eqb negb].
    destruct (stmt_row_ok fs row bufs' w1 base (owned (concat done) ++ [lo])) as (vs & w2 & E2 & R2 & Hvs & Hx);
      [apply Hf1|apply Hf1|by eapply filling_split|done..|].
    rewrite (bind_Ret _ _ _ _ _ E2).
    assert (Hlv : length vs = Z.to_nat (Z.of_nat (length fs))).
    { apply Forall3_length_lr in Hx. rewrite Nat2Z.id, <- Hx. unfold column_types. by rewrite length_map. }
    destruct (put_row_ok w1 w2 lo _ _ _ done _ base vs Hf1 R2 Hvs Hlv) as (w3 & E3 & Hf3 & Hdb3 & Hle3).
    rewrite (bind_Ret _ _ _ _ _ E3).
    assert (Hdb : w_db w3 = set_lib l' (w_db w)) by (rewrite Hdb3; apply R2).
    assert (He : p_env (w_db w3) = l') by by rewrite Hdb.
    destruct Hk as [Hks Hkd Hkr Hkm].
    destruct (IH fuel bufs' (done ++ [vs]) w3) as (cells & w4 & l4 & E4 & Hf4 & Hdb4 & Hk4 & Hle4 & Hxs);
      rewrite ?He; [by rewrite Hks|by rewrite Hkr|by rewrite Hbuf'|done|cbn in Hfuel; lia|done..|].
    rewrite He in Hk4. rewrite length_app, Nat.add_1_r in E4. exists (vs :: cells), w4, l4. split; [done|].
    rewrite <- app_assoc in Hf4. split; [done|]. split; [by rewrite Hdb4, Hdb|].
    split; [eapply kept_trans; [by constructor|done]|]. split.
    + eapply text_le_trans; [apply heap_le_text, R2|by eapply text_le_trans].
    + constructor; [|done]. by eapply row_reads_text, row_reads_text.
Qed.
(** ** The result *)

(** Freeing the metadata and closing the statement, whatever comes then. *)
Lemma finish_ok r t w :
  let l := p_env (w_db w) in
  mysql_res_live r l = true -> is_Some (my_stmts l !! t) ->
  exists l', my_db l' = my_db l /\ forall A (k : M S A),
    (on_res r mysql_free_result;; close_stmt t;; k) w = k (set_db (set_lib l' (w_db w)) w).
Proof.
  intros l Hr Ht. destruct (free_law r l Hr) as [Hs Hd]. set (l1 := (mysql_free_result r l).2) in *.
  assert (Ht1 : is_Some (my_stmts l1 !! t)) by by rewrite Hs. exists (after_close t l1).
  destruct Ht1 as [p Hp]. destruct (my_closed t p l1 Hp) as [Hc _]. split; [unfold after_close; congruence|].
  intros A k. rewrite (bind_Ret _ _ _ _ _ (on_res_ok r mysql_free_result w Hr)). fold l l1.
  unfold close_stmt. rewrite bind_assoc.
  rewrite (bind_Ret _ _ _ _ _ (my_on_stmt mysql_stmt_close t (set_db (set_lib l1 (w_db w)) w) ltac:(by eexists))).
  by rewrite bind_ret_l.
Qed.

Lemma alloc_arrays_ok n w : plenty w -> 0 <= n -> alloc_arrays n w = Ret (true, true) w.
Proof.
  intros Hp Hn. assert (E : calloc_ok n w = Ret true w).
  { unfold calloc_ok. destruct (Z.ltb_spec n 0); [lia|]. by apply malloc_ok_plenty. }
  unfold alloc_arrays. by rewrite !(bind_Ret _ _ _ _ _ E).
Qed.

Lemma alloc_buffers_ok fs w :
  plenty w -> exists bufs, alloc_buffers (map field_buffer fs) w = Ret bufs w /\ buffers_ok fs bufs.
Proof.
  intros Hp. induction fs as [|f fs (bufs & E & Hb)]; [exists []; split; [done|constructor]|].
  cbn [map alloc_buffers]. destruct (field_buffer f) as [ty n] eqn:Ef.
  rewrite (bind_Ret _ _ _ _ _ (malloc_ok_plenty w Hp)), (bind_Ret _ _ _ _ _ E).
  eexists. split; [done|]. constructor; [|done]. eexists. split; [done|]. by rewrite Ef, length_replicate.
Qed.

Lemma dup_names_ok fs w : plenty w -> dup_names fs w = Ret (map (fun f => Some (mf_name f)) fs) w.
Proof.
  intros Hp. induction fs as [|f fs IH]; [done|]. cbn [dup_names map]. unfold copy_text. rewrite bind_assoc.
  rewrite (bind_Ret _ _ _ _ _ (malloc_ok_plenty w Hp)), bind_ret_l. by rewrite (bind_Ret _ _ _ _ _ IH).
Qed.

(** [rows] under the columns [fs]: those before the first that does not fit, then
    rows of zeros. *)
Record holds_fetched (hp : gmap loc block) (fs : list mysql_field) (rows : list my_row)
    (res : corm_result) : Prop := {
  hf_names : r_column_names res = map (fun f => Some (mf_name f)) fs;
  hf_types : r_column_types res = column_types fs;
  hf_count : r_row_count res = Z.of_nat (length rows);
  hf_rows : exists cells,
    r_rows res = cells ++ replicate (length rows - length cells) (zero_row (Z.of_nat (length fs))) /\
    Forall2 (row_reads hp (column_types fs)) (map (datum_values fs) (fetched fs rows)) cells;
  hf_new : r_current_row res = -1 /\ r_refcount res = 1
}.

(** When every row fits, the object holds them all. *)
Lemma holds_all hp fs rows res :
  holds_fetched hp fs rows res -> Forall (fun row => row_fits fs row = true) rows ->
  Forall2 (row_reads hp (column_types fs)) (map (datum_values fs) rows) (r_rows res).
Proof.
  intros [_ _ _ (cells & -> & Hx) _] Hf. rewrite (fetched_all _ _ Hf) in Hx.
  pose proof (Forall2_length _ _ _ Hx) as Hl. rewrite length_map in Hl.
  by rewrite <- Hl, Nat.sub_diag, app_nil_r.
Qed.

(** Moving the library on does not touch the object. *)
Lemma filling_lib w lo n names types done m base l' :
  filling w lo n names types done m base ->
  filling (set_db (set_lib l' (w_db w)) w) lo n names types done m base.
Proof. intros [[? ? ? ?] ? ?]. by constructor. Qed.

Lemma read_rows_ok t r lo fs rows names w base :
  let l := p_env (w_db w) in
  is_Some (my_stmts l !! t) -> my_result t l = Some (fs, rows) -> my_unread t l = rows ->
  mysql_res_live r l = true ->
  Forall (Forall2 datum_fits fs) rows -> Forall (Forall2 leaves_nul fs) rows ->
  filling w lo (Z.of_nat (length fs)) names (column_types fs) [] (length rows) base ->
  exists cells w' l', read_rows t r lo (Z.of_nat (length fs)) fs w = Ret CORM_OK w' /\
    filling w' lo (Z.of_nat (length fs)) names (column_types fs) cells (length rows - length cells) base /\
    w_db w' = set_lib l' (w_db w) /\ my_db l' = my_db l /\
    Forall2 (row_reads (w_heap w') (column_types fs)) (map (datum_values fs) (fetched fs rows)) cells.
Proof.
  intros l Ht Hres Hun Hr Hfit Hnul Hf. pose proof (fl_plenty _ _ _ _ _ _ _ _ Hf) as Hp.
  unfold read_rows. rewrite (bind_Ret _ _ _ _ _ (alloc_arrays_ok (Z.of_nat (length fs)) w Hp ltac:(lia))). cbn [negb].
  rewrite !buffer_specs_fields. destruct (alloc_buffers_ok fs w Hp) as (bufs & Eb & Hb).
  rewrite (bind_Ret _ _ _ _ _ Eb), (bind_Ret _ _ _ _ _ (my_on_stmt _ t w Ht)).
  pose proof (bind_result_law t l fs rows Ht Hres) as Hbind. fold l.
  destruct (mysql_stmt_bind_result t (map field_buffer fs) l) as [rc l1].
  destruct Hbind as (-> & Hk1 & Hun1 & Hbuf1). cbn [fst snd Z.eqb negb].
  set (w1 := set_db (set_lib l1 (w_db w)) w). pose proof Hk1 as [Hks1 Hkd1 Hkr1 Hkm1].
  assert (Ea : ask (mysql_stmt_rows t) w1 = Ret (mysql_stmt_rows t l1) w1) by done.
  rewrite (bind_Ret _ _ _ _ _ Ea).
  assert (Hfuel : (length rows <= mysql_stmt_rows t l1)%nat)
    by (rewrite <- Hun, <- Hun1; apply unread_bound).
  destruct (stmt_rows_ok t lo fs rows names rows (Datatypes.S (mysql_stmt_rows t l1)) bufs [] w1 base)
    as (cells & w2 & l2 & E2 & Hf2 & Hd2 & Hk2 & _ & Hx);
    [by cbn; rewrite Hks1|by cbn; rewrite Hkr1|done|by cbn; rewrite Hun1|lia|done|done|done|by apply filling_lib|].
  change (p_env (w_db w1)) with l1 in Hk2. cbn [length] in E2. rewrite (bind_Ret _ _ _ _ _ E2).
  pose proof (kept_trans _ _ _ _ Hk1 Hk2) as [Hks Hkd _ Hkm].
  assert (He2 : p_env (w_db w2) = l2) by by rewrite Hd2.
  destruct (finish_ok r t w2) as (l3 & Hd3 & E3); [rewrite He2; by apply Hkm|by rewrite He2, Hks|].
  rewrite E3. exists cells, (set_db (set_lib l3 (w_db w2)) w2), l3. split; [done|].
  split; [by apply filling_lib|]. cbn. rewrite Hd2. split; [done|]. split; [|done].
  rewrite Hd3, He2. exact Hkd.
Qed.
(** An open connection stays open whatever the library does. *)
Lemma open_lib h k w c l' :
  p_db (w_db w) = Some c -> c_conn c = Some h -> my_db l' = k ->
  my_open h k (set_lib l' (w_db w)).
Proof. intros Hc Hh Hk. exists (c_stmt_cache c), l'. split; [by exists c|done]. Qed.

(** What an execution that answered [o] returns. *)
Definition answers (o : option my_table_of) (base : gmap loc block) (out : option loc) w : Prop :=
  match o with
  | None => out = None /\ w_heap w = base
  | Some (fs, rows) => exists lo res,
      out = Some lo /\ result_at w lo res base /\ holds_fetched (w_heap w) fs rows res
  end.

(** The rows are stored: they go into a new object. *)
Lemma stored_result_ok t r fs rows w c h :
  let l := p_env (w_db w) in
  plenty w -> heap_wf w -> p_db (w_db w) = Some c -> c_conn c = Some h ->
  is_Some (my_stmts l !! t) -> my_result t l = Some (fs, rows) -> my_unread t l = rows ->
  mysql_res_live r l = true -> mysql_num_fields r l = Z.of_nat (length fs) -> mysql_fetch_fields r l = fs ->
  Z.of_nat (length fs) < 2 ^ 31 -> Z.of_nat (length rows) < 2 ^ 31 ->
  Forall (Forall2 datum_fits fs) rows -> Forall (Forall2 leaves_nul fs) rows ->
  exists lo res w',
    (out ← corm_result_new (Z.of_nat (length fs)) (Z.of_nat (length rows));
     match out with
     | None => on_res r mysql_free_result;; close_stmt t;; mret (CORM_ERR_NOMEM, None)
     | Some lo =>
         fs' ← fields_of r (Z.of_nat (length fs));
         names ← dup_names fs';
         set_columns lo names (column_types fs');;
         e ← (if 0 <? Z.of_nat (length rows) then read_rows t r lo (Z.of_nat (length fs)) fs'
              else on_res r mysql_free_result;; close_stmt t;; mret CORM_OK);
         mret (e, if decide (e = CORM_OK) then Some lo else None)
     end) w = Ret (CORM_OK, Some lo) w' /\
    my_open h (my_db l) (w_db w') /\ result_at w' lo res (w_heap w) /\ holds_fetched (w_heap w') fs rows res.
Proof.
  intros l Hp Hwf Hc Hh Ht Hres Hun Hr Hn Hfs Hls Hrs Hfit Hnul.
  destruct (filling_new (Z.of_nat (length fs)) (Z.of_nat (length rows)) w Hp Hwf)
    as (lo & w2 & E2 & Hf2 & Hd2); [lia..|]. rewrite (bind_Ret _ _ _ _ _ E2). cbv beta iota.
  assert (Hl2 : p_env (w_db w2) = l) by by rewrite Hd2.
  assert (Efs : fields_of r (Z.of_nat (length fs)) w2 = Ret fs w2).
  { pose proof (store_answer r w2) as Efs. cbv zeta in Efs. rewrite Hl2, Hn, Hfs in Efs. by apply Efs. }
  rewrite (bind_Ret _ _ _ _ _ Efs), (bind_Ret _ _ _ _ _ (dup_names_ok fs w2 (fl_plenty _ _ _ _ _ _ _ _ Hf2))).
  destruct (set_columns_ok w2 lo _ _ _ (map (fun f => Some (mf_name f)) fs) (column_types fs) [] _ _ Hf2)
    as (w3 & E3 & Hf3 & Hd3 & _); [unfold column_types; rewrite ?length_map; lia..|].
  rewrite (bind_Ret _ _ _ _ _ E3). rewrite Nat2Z.id in Hf3.
  assert (Hd : w_db w3 = w_db w) by congruence. assert (Hl3 : p_env (w_db w3) = l) by by rewrite Hd.
  assert (Hread : exists cells w4 l4, (if 0 <? Z.of_nat (length rows) then read_rows t r lo (Z.of_nat (length fs)) fs
      else on_res r mysql_free_result;; close_stmt t;; mret CORM_OK) w3 = Ret CORM_OK w4 /\
    filling w4 lo (Z.of_nat (length fs)) (map (fun f => Some (mf_name f)) fs) (column_types fs) cells
      (length rows - length cells) (w_heap w) /\
    w_db w4 = set_lib l4 (w_db w3) /\ my_db l4 = my_db l /\
    Forall2 (row_reads (w_heap w4) (column_types fs)) (map (datum_values fs) (fetched fs rows)) cells).
  { destruct (Z.ltb_spec 0 (Z.of_nat (length rows))).
    - destruct (read_rows_ok t r lo fs rows (map (fun f => Some (mf_name f)) fs) w3 (w_heap w)) as (cells & w4 & l4 & H4);
        rewrite ?Hl3; try done. exists cells, w4, l4. by rewrite Hl3 in H4.
    - destruct rows as [|row rows]; [|cbn in *; lia].
      destruct (finish_ok r t w3) as (l4 & Hd4 & E4); [by rewrite Hl3..|]. rewrite E4. rewrite Hl3 in Hd4.
      eexists [], _, l4. split; [done|]. split; [by apply filling_lib|]. split; [done|]. split; [done|constructor]. }
  destruct Hread as (cells & w4 & l4 & E4 & Hf4 & Hd4 & Hk4 & Hx). rewrite (bind_Ret _ _ _ _ _ E4).
  exists lo, (partial (Z.of_nat (length fs)) (map (fun f => Some (mf_name f)) fs) (column_types fs) cells
    (length rows - length cells)), w4. split; [done|].
  split. { rewrite Hd4, Hd. by apply (open_lib h _ w c). }
  split; [apply Hf4|]. pose proof (Forall2_length _ _ _ Hx) as Hlen. rewrite length_map in Hlen.
  pose proof (fetched_length fs rows). constructor; try done.
  - cbn. lia.
  - by exists cells.
Qed.

Lemma stmt_result_ok t w c h :
  let l := p_env (w_db w) in
  plenty w -> heap_wf w -> p_db (w_db w) = Some c -> c_conn c = Some h ->
  is_Some (my_stmts l !! t) ->
  (forall fs rows, my_result t l = Some (fs, rows) ->
     Z.of_nat (length fs) < 2 ^ 31 /\ Z.of_nat (length rows) < 2 ^ 31 /\
     Forall (Forall2 datum_fits fs) rows /\ Forall (Forall2 leaves_nul fs) rows) ->
  exists e out w', stmt_result t w = Ret (e, out) w' /\ my_open h (my_db l) (w_db w') /\
    ((e = CORM_ERR_BACKEND /\ out = None /\ w_heap w' = w_heap w) \/
     (e = CORM_OK /\ answers (my_result t l) (w_heap w) out w')).
Proof.
  intros l Hp Hwf Hc Hh Ht Hshape. unfold stmt_result.
  rewrite (bind_Ret _ _ _ _ _ (my_on_stmt mysql_stmt_result_metadata t w Ht)). fold l.
  pose proof (metadata_law t l Ht) as Hm. destruct (mysql_stmt_result_metadata t l) as [o l1].
  destruct Hm as [[Hks1 Hkd1 Hkr1 _] Hm]. cbn [fst snd]. set (w1 := set_db (set_lib l1 (w_db w)) w).
  assert (Ht1 : is_Some (my_stmts l1 !! t)) by by rewrite Hks1.
  destruct o as [r|]; destruct (my_result t l) as [[fs rows]|] eqn:Hres; try done.
  2: { exists CORM_OK, None, (set_db (set_lib (after_close t l1) (w_db w1)) w1). split.
    - unfold close_stmt. rewrite bind_assoc.
      by rewrite (bind_Ret _ _ _ _ _ (my_on_stmt mysql_stmt_close t w1 Ht1)).
    - split; [|right; done]. apply (open_lib h _ w1 c); try done. destruct Ht1 as [p Hp1].
      unfold after_close. rewrite (proj1 (my_closed t p l1 Hp1)). exact Hkd1. }
  destruct Hm as (Hr1 & Hn1 & Hf1). destruct (Hshape fs rows eq_refl) as (Hls & Hrs & Hfit & Hnul).
  rewrite (bind_Ret _ _ _ _ _ (res_ask_ok r mysql_num_fields w1 Hr1)). change (p_env (w_db w1)) with l1.
  rewrite Hn1. cbv zeta. rewrite (wrap_i32_id (Z.of_nat (length fs))) by (unfold in_i32; lia).
  rewrite (bind_Ret _ _ _ _ _ (my_on_stmt mysql_stmt_store_result t w1 Ht1)). change (p_env (w_db w1)) with l1.
  pose proof (store_law t l1 fs rows Ht1 ltac:(by rewrite Hkr1)) as Hst.
  destruct (mysql_stmt_store_result t l1) as [rc l2]. destruct Hst as [[Hks2 Hkd2 Hkr2 Hkm2] Hst].
  cbn [fst snd]. set (w2 := set_db (set_lib l2 (w_db w1)) w1).
  assert (Ht2 : is_Some (my_stmts l2 !! t)) by by rewrite Hks2.
  destruct (Hkm2 r Hr1) as (Hr2 & Hn2 & Hf2). destruct (Z.eqb_spec rc 0) as [->|Hrc]; cbn [negb].
  - destruct (Hst eq_refl) as [Hnum Hun]. rewrite (bind_Ret _ _ _ _ _ (my_ask_stmt mysql_stmt_num_rows t w2 Ht2)).
    change (p_env (w_db w2)) with l2. rewrite Hnum, (wrap_i32_id (Z.of_nat (length rows))) by (unfold in_i32; lia).
    destruct (stored_result_ok t r fs rows w2 c h) as (lo & res & w' & E & Hop & Hat & Hh');
      try done; change (p_env (w_db w2)) with l2 in *; try congruence.
    exists CORM_OK, (Some lo), w'. split; [exact E|]. rewrite Hkd2, Hkd1 in Hop. split; [exact Hop|].
    right. split; [done|]. by exists lo, res.
  - unfold set_stmt_error. rewrite bind_assoc, (bind_Ret _ _ _ _ _ (my_ask_stmt mysql_stmt_error t w2 Ht2)).
    unfold corm_set_err_msg. rewrite (bind_Ret _ _ _ _ _ (upd_corm_ok w2 c _ Hc)).
    set (w3 := set_corm _ w2). destruct (finish_ok r t w3) as (l4 & Hd4 & E4); [done|done|]. rewrite E4.
    eexists CORM_ERR_BACKEND, None, _. split; [done|]. split; [|by left].
    eapply (open_lib h _ w3); [done|by destruct c|]. rewrite Hd4. change (p_env (w_db w3)) with l2. congruence.
Qed.

(** ** The query *)

(** Binding values that can be read to an open statement. *)
Lemma bind_all_ok t p vs xs w :
  let l := p_env (w_db w) in
  plenty w -> my_stmts l !! t = Some p -> vs <> [] -> Forall2 (my_readable (w_heap w)) vs xs ->
  (my_slots (ms_sql p) <= length xs)%nat ->
  exists l', bind_all t vs w = Ret None (set_db (set_lib l' (w_db w)) w) /\ my_db l' = my_db l /\
    my_stmts l' = <[t := MyStmt (ms_sql p) (Some (map to_mysql xs))]> (my_stmts l).
Proof.
  intros l Hp Ht Hvs Hs Hn. pose proof (my_bind t p (map to_mysql xs) l Ht ltac:(by rewrite length_map)) as Hb.
  destruct (mysql_stmt_bind_param t (map to_mysql xs) l) as [rc l'] eqn:Eb. destruct Hb as (-> & Hdb & Hm).
  exists l'. split; [|done]. unfold bind_all, mysql_bind_params. destruct vs as [|v vs]; [done|].
  rewrite bind_assoc, (bind_Ret _ _ _ _ _ (malloc_ok_plenty w Hp)). cbn [negb].
  rewrite bind_assoc, (bind_Ret _ _ _ _ _ (bind_each_ok _ _ w Hs)), bind_ret_l.
  rewrite (bind_Ret _ _ _ _ _ (my_on_stmt _ t w ltac:(by eexists))). fold l. by rewrite Eb.
Qed.

(** The outcome of a query, by the error that is reported. *)
Definition queried k sql qs (base : gmap loc block) (e : corm_err) (out : option loc) k' w : Prop :=
  match e with
  | CORM_OK => is_Some (my_run k sql qs).1 /\ k' = (my_run k sql qs).2 /\ answers (my_answer k sql qs) base out w
  | CORM_ERR_BACKEND => k' = (my_run k sql qs).2 /\ out = None /\ w_heap w = base
  | CORM_ERR_NOMEM => k' = k /\ out = None /\ w_heap w = base
  | _ => False
  end.

(** Executing a bound statement and reading what it answers. *)
Lemma executed_ok t sql qs w c h :
  let l := p_env (w_db w) in
  plenty w -> heap_wf w -> p_db (w_db w) = Some c -> c_conn c = Some h ->
  my_stmts l !! t = Some (MyStmt sql (Some qs)) ->
  (forall fs rows, my_answer (my_db l) sql qs = Some (fs, rows) -> Forall (Forall2 leaves_nul fs) rows) ->
  exists e out w' k',
    (rc ← on_stmt t mysql_stmt_execute;
     if negb (rc =? 0) then e ← stmt_failed t; mret (e, None) else stmt_result t) w = Ret (e, out) w' /\
    my_open h k' (w_db w') /\ queried (my_db l) sql qs (w_heap w) e out k' w'.
Proof.
  intros l Hp Hwf Hc Hh Ht Hnul.
  rewrite (bind_Ret _ _ _ _ _ (my_on_stmt mysql_stmt_execute t w ltac:(by eexists))). fold l.
  pose proof (my_execute t sql qs l Ht) as He. pose proof (execute_answer t sql qs l Ht) as Ha.
  destruct (mysql_stmt_execute t l) as [rc l1]. cbn [fst snd] in *.
  set (w1 := set_db (set_lib l1 (w_db w)) w). destruct (my_run (my_db l) sql qs) as [o k'] eqn:Er.
  destruct He as (Hm1 & Hd1 & He).
  assert (Ht1 : my_stmts l1 !! t = Some (MyStmt sql (Some qs))) by by rewrite Hm1.
  destruct o as [[id n]|].
  - destruct He as (-> & _). cbn [Z.eqb negb]. specialize (Ha ltac:(by eexists)).
    destruct (stmt_result_ok t w1 c h) as (e & out & w' & E & Hop & Ho); try done.
    { change (p_env (w_db w1)) with l1. rewrite Ha. intros fs rows Hf.
      destruct (answer_shape _ _ _ _ _ Hf) as (? & ? & ?). eauto. }
    change (p_env (w_db w1)) with l1 in *. exists e, out, w', k'. split; [exact E|].
    split; [by rewrite <- Hd1|]. unfold queried. rewrite Er. destruct Ho as [(-> & -> & Hb)|[-> Ho]].
    + done.
    + split; [by eexists|]. split; [done|]. by rewrite Ha in Ho.
  - rewrite (proj2 (Z.eqb_neq rc 0) He). cbn [negb].
    destruct (triple_run _ _ _ w1 (triple_failed true t _ (Some h) (c_stmt_cache c) l1 Ht1) Hp
      ltac:(by exists c)) as (e & d & E & -> & Hd). rewrite (bind_Ret _ _ _ _ _ E).
    eexists _, None, _, k'. split; [reflexivity|]. split.
    + exists (c_stmt_cache c), (after_close t l1). split; [done|]. unfold after_close.
      by rewrite (proj1 (my_closed t _ l1 Ht1)).
    + unfold queried. by rewrite Er.
Qed.

(** C26: a query with parameters on MySQL, with a cache in order, returns.  A
    result it reports is new in memory and has the names, types and number of rows
    the server answered; its rows are those answered, value for value, up to the
    first that does not fit its buffers, and rows of zeros from there on.  A
    statement without an answer gives no object.  When it reports an error there
    is none either, and memory is as it was: CORM_ERR_NOMEM when nothing was sent,
    CORM_ERR_BACKEND when the server refused the statement or the rows could not
    be stored.  The connection stays open, and the database is what executing the
    statement leaves.  (No text fills its buffer exactly.) *)
Theorem mysql_stmt_query_answer sql vs xs h k w :
  plenty w -> heap_wf w -> my_idle h k (w_db w) -> vs <> [] ->
  Forall2 (my_readable (w_heap w)) vs xs -> (my_slots sql <= length xs)%nat ->
  (forall fs rows, my_answer k sql (map to_mysql xs) = Some (fs, rows) -> Forall (Forall2 leaves_nul fs) rows) ->
  exists e out w' k', corm_mysql_query sql vs w = Ret (e, out) w' /\ my_open h k' (w_db w') /\
    queried k sql (map to_mysql xs) (w_heap w) e out k' w'.
Proof.
  intros Hp Hwf (sc & l & (c & Hc & Hcn & Hsc & Hl) & Hok & <-) Hvs Hs Hn Hnul.
  unfold corm_mysql_query, get_conn. rewrite bind_assoc, (bind_Ret _ _ _ _ _ (get_corm_ok w c Hc)), bind_ret_l, Hcn.
  destruct vs as [|v vs]; [done|]. unfold mysql_stmt_query.
  destruct (triple_run _ _ _ w (triple_prepared sql h sc l Hok) Hp ltac:(by exists c))
    as ([e o] & d1 & E1 & sc1 & l1 & (c1 & Hc1 & Hcn1 & _ & Hl1) & Hok1 & Hd1 & Ho).
  rewrite (bind_Ret _ _ _ _ _ E1). set (w1 := set_db d1 w). destruct o as [t|]; cbn [fst snd] in Ho.
  2: { exists e, None, w1, (my_db l). split; [done|].
    split; [exists (c_stmt_cache c1), l1; split; [by exists c1|done]|].
    destruct Ho as [->|[-> Ha]]; [done|]. cbn. by rewrite (my_refuse _ _ _ Ha). }
  destruct Ho as (p & Ht & Hsql). rewrite <- Hl1 in Ht.
  destruct (bind_all_ok t p (v :: vs) xs w1) as (l2 & E2 & Hd2 & Hm2); [done..|by rewrite Hsql|].
  change (p_env (w_db w1)) with (p_env d1) in *. rewrite Hsql in Hm2. rewrite (bind_Ret _ _ _ _ _ E2).
  rewrite Hl1, Hd1 in Hd2.
  destruct (executed_ok t sql (map to_mysql xs) (set_db (set_lib l2 (w_db w1)) w1) c1 h)
    as (e3 & out & w3 & k' & E3 & Hop & Hq); try done.
  - cbn. by rewrite Hm2, lookup_insert_eq.
  - cbn. by rewrite Hd2.
  - exists e3, out, w3, k'. split; [exact E3|]. split; [done|]. cbn in Hq. by rewrite Hd2 in Hq.
Qed.
End fetch.
