(* ===== verification/MysqlServer.v ===== *)
(** * A MySQL server that keeps a journal

    An instance of [MySQL], [MysqlStmts], [MysqlFetch] and [MysqlTx] that runs: the
    database is the list of the statements executed, with what was bound to them;
    a statement that was executed before is a duplicate and refused, and so is the
    preparation of a text that starts with BAD; a SELECT reads the journal.  On it
    run the witnesses of [MysqlExec.mysql_exec_prepared] and
    [MysqlFetch.mysql_stmt_query_answer] and the operations of the
    object-relational layer with their parameters. *)

From S2P Require Import Prelude Types Mem Strbuf CLib ServerDsn Dialect Hash Model Backend Query.
From S2P Require Import QuerySpec Tx Driver Result ResultSpec Exec Batch Core CoreProps Sample StmtCache StmtCacheSpec.
From S2P Require Import DriverState DriverSpec Handles Mysql MysqlExec MysqlFetch.

#[export] Instance mysql_param_eq : EqDecision mysql_param.
Proof. solve_decision. Defined.

Abbreviation journal_entry := (string * list mysql_param)%type.

(** What a statement answered: the result, the rows to fetch, the buffers. *)
Record my_cursor : Type := MyCursor {
  mc_result : option my_table_of;
  mc_unread : list my_row;
  mc_buffers : list (Z * Z)
}.

Record my_journal : Type := MyJournal {
  mj_log : list journal_entry;
  mj_saved : option (list journal_entry);
  mj_stmts : gmap positive my_stmt;
  mj_cursors : gmap positive my_cursor
}.

Definition with_stmts (m : gmap positive my_stmt) (l : my_journal) : my_journal :=
  MyJournal (mj_log l) (mj_saved l) m (mj_cursors l).
Definition with_log (k : list journal_entry) (l : my_journal) : my_journal :=
  MyJournal k (mj_saved l) (mj_stmts l) (mj_cursors l).
Definition with_cursor (t : positive) (c : my_cursor) (l : my_journal) : my_journal :=
  MyJournal (mj_log l) (mj_saved l) (mj_stmts l) (<[t := c]> (mj_cursors l)).
Definition cursor (t : positive) (l : my_journal) : my_cursor :=
  default (MyCursor None [] []) (mj_cursors l !! t).

Definition mj_accepts (sql : string) : bool := negb (starts_with "BAD" sql).
Definition mj_reads (sql : string) : bool := starts_with "SELECT" sql.

(** The journal as a table: the number of the entry, its text, and the first
    parameter when it is a text.  A SELECT reads at most 1000 entries and skips as
    many as its first parameter says. *)
Definition mj_fields : list mysql_field :=
  [MysqlField "n" 8 0; MysqlField "sql" 253 0; MysqlField "arg" 253 0].
Definition mj_row (i : nat) (e : journal_entry) : my_row :=
  [Some (DInt (Z.of_nat i)); Some (DBytes (list_ascii_of_string e.1));
   match e.2 with BindString s :: _ => Some (DBytes (list_ascii_of_string s)) | _ => None end].
Definition mj_answer (k : list journal_entry) (sql : string) (qs : list mysql_param) : option my_table_of :=
  if mj_reads sql then
    Some (mj_fields, drop (match qs with BindLonglong z :: _ => Z.to_nat z | _ => O end)
                          (imap mj_row (take 1000 k)))
  else None.

Definition mj_run (k : list journal_entry) (sql : string) (qs : list mysql_param) :
    option (Z * Z) * list journal_entry :=
  if mj_accepts sql && mj_reads sql then (Some (Z.of_nat (length k), 1), k)
  else if mj_accepts sql && negb (bool_decide ((sql, qs) ∈ k))
  then (Some (Z.of_nat (length k) + 1, 1), k ++ [(sql, qs)]) else (None, k).

Definition mj_command (sql : string) (l : my_journal) : Z * my_journal :=
  let k := mj_log l in
  if String.eqb sql "START TRANSACTION" then (0, MyJournal k (Some k) (mj_stmts l) (mj_cursors l))
  else if String.eqb sql "COMMIT" then (0, MyJournal k None (mj_stmts l) (mj_cursors l))
  else if String.eqb sql "ROLLBACK" then (0, MyJournal (default k (mj_saved l)) None (mj_stmts l) (mj_cursors l))
  else match mj_run k sql [] with
       | (Some _, k) => (0, with_log k l)
       | (None, _) => (1, l)
       end.

(** The number of placeholders. *)
Definition mj_slots (sql : string) : nat := Z.to_nat (str_count "?"%char sql).

#[export] Instance journal_mysql : MySQL unit positive (list mysql_field) my_journal := {|
  mysql_init l := (Some tt, l);
  mysql_connect_timeout _ _ l := (0, l);
  mysql_real_connect _ _ _ _ _ _ l := (true, l);
  mysql_error _ _ := "refused";
  mysql_close _ l := (tt, l);
  mysql_ping _ l := (0, l);
  mysql_query _ sql l := mj_command sql l;
  mysql_insert_id _ l := Z.of_nat (length (mj_log l));
  mysql_affected_rows _ _ := 1;
  mysql_real_escape_string _ s _ := s;
  mysql_store_result _ l := (None, l);
  mysql_res_live _ _ := true;
  mysql_res_rows _ _ := O;
  mysql_num_fields fs _ := Z.of_nat (length fs);
  mysql_num_rows _ _ := 0;
  mysql_fetch_fields fs _ := fs;
  mysql_fetch_row _ l := (None, l);
  mysql_free_result _ l := (tt, l);
  mysql_stmt_init _ l :=
    let t := fresh (dom (mj_stmts l)) in
    (Some t, with_stmts (<[t := MyStmt "" None]> (mj_stmts l)) l);
  mysql_stmt_live t l := bool_decide (is_Some (mj_stmts l !! t));
  mysql_stmt_rows t l := length (mc_unread (cursor t l));
  mysql_stmt_prepare t sql l :=
    if mj_accepts sql then (0, with_stmts (<[t := MyStmt sql None]> (mj_stmts l)) l) else (1, l);
  mysql_stmt_error _ _ := "refused";
  mysql_stmt_close t l := (0, with_stmts (delete t (mj_stmts l)) l);
  mysql_stmt_bind_param t qs l :=
    match mj_stmts l !! t with
    | Some p => (0, with_stmts (<[t := MyStmt (ms_sql p) (Some qs)]> (mj_stmts l)) l)
    | None => (1, l)
    end;
  mysql_stmt_execute t l :=
    match p ← mj_stmts l !! t; qs ← ms_binds p; Some (mj_run (mj_log l) (ms_sql p) qs) with
    | Some (Some _, k) =>
        (0, with_cursor t (MyCursor (p ← mj_stmts l !! t; qs ← ms_binds p; mj_answer (mj_log l) (ms_sql p) qs) [] [])
              (with_log k l))
    | _ => (1, l)
    end;
  mysql_stmt_insert_id _ l := Z.of_nat (length (mj_log l));
  mysql_stmt_affected_rows _ _ := 1;
  mysql_stmt_result_metadata t l := (fst <$> mc_result (cursor t l), l);
  mysql_stmt_store_result t l :=
    let c := cursor t l in
    (0, with_cursor t (MyCursor (mc_result c) (from_option snd [] (mc_result c)) (mc_buffers c)) l);
  mysql_stmt_num_rows t l := Z.of_nat (length (mc_unread (cursor t l)));
  mysql_stmt_bind_result t bufs l :=
    let c := cursor t l in (0, with_cursor t (MyCursor (mc_result c) (mc_unread c) bufs) l);
  mysql_stmt_fetch t l :=
    let c := cursor t l in
    match mc_unread c, mc_result c with
    | row :: rest, Some (fs, _) =>
        (if row_fits fs row then 0 else 101, zip_with fetch_cell fs row,
         with_cursor t (MyCursor (mc_result c) rest (mc_buffers c)) l)
    | _, _ => (100, [], l)
    end
|}.

#[export] Instance journal_stmts :
  MysqlStmts unit positive (list mysql_field) my_journal (list journal_entry).
Proof.
  refine {| my_db := mj_log; my_stmts := mj_stmts; my_accepts _ sql := mj_accepts sql;
            my_slots := mj_slots; my_run := mj_run |}.
  - intros k sql qs Ha. unfold mj_run. by rewrite Ha.
  - done.
  - intros h l. cbn. split; [done|]. split; [|done]. apply not_elem_of_dom, is_fresh.
  - intros t p sql l _. cbn. by destruct (mj_accepts sql).
  - intros t p qs l Ht _. cbn. by rewrite Ht.
  - intros t sql qs l Ht. cbn. rewrite Ht. cbn. unfold mj_run.
    destruct (mj_accepts sql && mj_reads sql); [done|].
    destruct (mj_accepts sql && _); [|done]. cbn. rewrite length_app. cbn. split_and!; try done. lia.
  - done.
  - intros h sql l. cbn. unfold mj_command. repeat case_match; done.
Defined.

(** Moving a cursor on. *)
Lemma cursor_eq t c l : cursor t (with_cursor t c l) = c.
Proof. unfold cursor, with_cursor. cbn. by rewrite lookup_insert_eq. Qed.

Lemma cursor_kept t rows bufs l :
  kept (R := list mysql_field) (fun t l => mc_result (cursor t l)) l
    (with_cursor t (MyCursor (mc_result (cursor t l)) rows bufs) l).
Proof.
  constructor; [done|done| |done]. intros t'. destruct (decide (t' = t)) as [->|Hn]; [by rewrite cursor_eq|].
  unfold cursor, with_cursor. cbn. by rewrite lookup_insert_ne.
Qed.

(** The rows of a journal of at most 1000 entries. *)
Lemma mj_answer_shape k sql qs fs rows :
  mj_answer k sql qs = Some (fs, rows) ->
  fs = mj_fields /\ (length rows <= 1000)%nat /\ Forall (Forall2 datum_fits fs) rows.
Proof.
  unfold mj_answer. destruct (mj_reads sql); [|done]. set (n := match qs with [] => O | _ => _ end).
  intros [= <- <-]. split; [done|]. split; [rewrite length_drop, length_imap, length_take; lia|].
  apply Forall_drop, Forall_lookup. intros i row. rewrite list_lookup_imap_Some.
  intros (e & He & ->). apply lookup_lt_Some in He. rewrite length_take in He.
  unfold mj_row. apply Forall2_cons. split; [split; [done|unfold in_i64; lia]|].
  apply Forall2_cons. split; [by right|]. apply Forall2_cons. split; [|constructor].
  destruct e as [s [|[] qs']]; cbn; try done. by right.
Qed.

#[export] Instance journal_fetch :
  MysqlFetch unit positive (list mysql_field) my_journal (list journal_entry).
Proof.
  refine {| my_answer := mj_answer; my_result t l := mc_result (cursor t l);
            my_unread t l := mc_unread (cursor t l); my_buffers t l := mc_buffers (cursor t l) |}.
  - intros k sql qs fs rows Ha. destruct (mj_answer_shape _ _ _ _ _ Ha) as (-> & Hr & Hf).
    split; [done|]. split; [lia|done].
  - intros t sql qs l Ht [o Ho]. cbn in *. rewrite Ht. cbn. destruct (mj_run _ _ _) as [o' k]. cbn in Ho. subst o'.
    cbn [snd]. by rewrite cursor_eq.
  - intros t l _. cbn. split; [apply kept_refl|]. by destruct (mc_result (cursor t l)) as [[fs rows]|].
  - intros t l fs rows _ Hr. cbn. split; [by apply cursor_kept|]. intros _. rewrite cursor_eq, Hr. done.
  - intros t l fs rows _ Hr. cbn. rewrite cursor_eq. split; [done|]. split; [by apply cursor_kept|done].
  - intros t l fs rows _ Hr Hb. cbn. rewrite Hr. destruct (mc_unread (cursor t l)) as [|row rest] eqn:E.
    + split; [apply kept_refl|done].
    + rewrite cursor_eq, <- Hr. split; [apply cursor_kept|]. split; [done|]. split; [done|].
      split; [done|]. by destruct (row_fits fs row).
  - done.
  - done.
Defined.

#[export] Instance journal_tx_laws : MysqlTx unit positive (list mysql_field) my_journal (list journal_entry).
Proof.
  refine {| tx_content := mj_log; tx_saved := mj_saved |}; intros h l; [done|done|].
  intros c Hc. cbn. by rewrite Hc.
Defined.

(** ** Statements with parameters *)

Definition journal_heap : gmap loc block :=
  {[1%positive := BRecs [user_rec 0 "ann" 30; user_rec 7 "bob" 41; user_rec 7 "bob" 41]]}.

(** An open connection with an empty cache; three users in memory. *)
Definition journal_corm : corm unit (stmts positive) unit :=
  Corm (Some tt) CORM_DEFAULT_CONFIG registry_zero CORM_OK "" "" 0 0 None (Some (Stmts 4 [] true)) 0.

Definition mysql_world : world (proc unit (stmts positive) unit my_journal) :=
  World [] journal_heap 2%positive
    (Proc (Some journal_corm) [] (fun _ => (0, 0)) 0%nat (MyJournal [] None ∅ ∅)).

Lemma mysql_world_idle : my_idle tt [] (w_db mysql_world).
Proof.
  exists (Some (Stmts 4 [] true)), (MyJournal [] None ∅ ∅). split; [by exists journal_corm|]. split; [|done].
  split; [|by intros s [= <-]]. constructor; [constructor..|]. intros sql t Hin. inversion Hin.
Qed.

Lemma mysql_exec_prepared_witness :
  exists d, mysql_exec "INSERT INTO t (n) VALUES (?)" [Value CORM_INT false (UInt 100)] mysql_world =
      Ret CORM_OK (set_db d mysql_world) /\
    mj_log (p_env d) = [("INSERT INTO t (n) VALUES (?)", [BindLonglong 100])] /\
    counted 1 1 d /\ my_idle tt (mj_log (p_env d)) d.
Proof.
  destruct (mysql_exec_prepared "INSERT INTO t (n) VALUES (?)" [Value CORM_INT false (UInt 100)] [SInt 100]
    tt [] mysql_world) as (e & d & k' & E & Ho & Hop & Hi).
  - reflexivity.
  - apply mysql_world_idle.
  - discriminate.
  - repeat constructor; discriminate.
  - vm_compute. lia.
  - assert (He : match mysql_exec "INSERT INTO t (n) VALUES (?)" [Value CORM_INT false (UInt 100)] mysql_world with
                 | Ret e _ => e | Stuck => CORM_ERR_GENERIC end = CORM_OK) by (vm_compute; reflexivity).
    rewrite E in He. subst e. destruct Ho as (id & n & Hr & Hc). vm_compute in Hr. injection Hr as <- <- <-.
    destruct Hop as (sc & l & (c & _ & _ & _ & Hl) & Hk). cbn in Hk. subst l. exists d. rewrite Hk. auto.
Defined.

(** ** Queries with parameters *)

(** An open connection to a server with the journal [k]. *)
Definition reading_world (k : list journal_entry) : world (proc unit (stmts positive) unit my_journal) :=
  World [] ∅ 1%positive (Proc (Some journal_corm) [] (fun _ => (0, 0)) 0%nat (MyJournal k None ∅ ∅)).

Definition select_journal : string := "SELECT n, sql, arg FROM journal WHERE n >= ?".

Definition two_entries : list journal_entry := [("INSERT 1", [BindString "ann"]); ("DELETE", [BindLonglong 4])].

Lemma reading_world_idle k : my_idle tt k (w_db (reading_world k)).
Proof.
  exists (Some (Stmts 4 [] true)), (MyJournal k None ∅ ∅). split; [by exists journal_corm|]. split; [|done].
  split; [|by intros s [= <-]]. constructor; [constructor..|]. intros sql t Hin. inversion Hin.
Qed.

Lemma mysql_stmt_query_answer_witness :
  exists lo res w, corm_mysql_query select_journal [Value CORM_INT false (UInt 0)] (reading_world two_entries) =
      Ret (CORM_OK, Some lo) w /\
    result_at w lo res ∅ /\ holds_fetched (w_heap w) mj_fields (imap mj_row two_entries) res.
Proof.
  destruct (mysql_stmt_query_answer select_journal [Value CORM_INT false (UInt 0)] [SInt 0]
    tt two_entries (reading_world two_entries)) as (e & out & w & k' & E & _ & Hq).
  - reflexivity.
  - intros l [b Hl]. discriminate Hl.
  - apply reading_world_idle.
  - discriminate.
  - repeat constructor; discriminate.
  - vm_compute. lia.
  - intros fs rows Ha. destruct (mj_answer_shape _ _ _ _ _ Ha) as (-> & _ & _).
    injection Ha as <-. repeat constructor; intros _; discriminate.
  - assert (He : match corm_mysql_query select_journal [Value CORM_INT false (UInt 0)] (reading_world two_entries)
                 with Ret r _ => r.1 | Stuck => CORM_ERR_GENERIC end = CORM_OK) by (vm_compute; reflexivity).
    rewrite E in He. cbn in He. subst e. destruct Hq as (_ & _ & lo & res & -> & Hat & Hh).
    exists lo, res, w. split; [exact E|]. split; [exact Hat|exact Hh].
Defined.

(** The values of the rows of a result. *)
Definition rows_of (r : corm_err * option loc) (hp : gmap loc block) : corm_err * option (list (list (option sqlval))) :=
  (r.1, lo ← r.2;
   match hp !! lo with Some (BResult res) => Some (map (map (resolve hp)) (r_rows res)) | _ => None end).

Definition journal_query (k : list journal_entry) (n : Z) :=
  match corm_mysql_query select_journal [Value CORM_INT false (UInt n)] (reading_world k) with
  | Ret r w => Some (rows_of r (w_heap w))
  | Stuck => None
  end.

(** A text that does not fit its buffer of 4096 bytes ends the result: the row and
    those behind it are rows of zeros.  One of exactly 4096 bytes fills the buffer
    and is read past its end. *)
Definition with_text (n : nat) : list journal_entry :=
  [("first", []); (string_of_list_ascii (replicate n "x"%char), []); ("last", [])].

Example long_text_cuts_answer :
  journal_query (with_text 4097) 0 =
    Some (CORM_OK, Some [[Some (SInt 0); Some (SText "first"); Some SNull];
                         [Some (SInt 0); Some (SInt 0); Some (SInt 0)];
                         [Some (SInt 0); Some (SInt 0); Some (SInt 0)]]).
Proof. vm_compute. reflexivity. Qed.

Example full_text_read_past_end :
  journal_query (with_text 4096) 0 = None /\ journal_query (with_text 4096) 2 =
    Some (CORM_OK, Some [[Some (SInt 2); Some (SText "last"); Some SNull]]).
Proof. split; vm_compute; reflexivity. Qed.

(** ** The object-relational layer *)

(** Bob is inserted, the second Bob is a duplicate; its statement is closed but
    stays in the cache, so that Ann can no longer be inserted. *)
Definition create_user (i : nat) : M (proc unit (stmts positive) unit my_journal) (corm_err * option Z) :=
  corm_create_one (Some mysql_backend) (Some user_model) (1%positive, i) true.

Example create_on_mysql :
  match create_user 1 mysql_world with
  | Ret r w => (r, mj_log (p_env (w_db w)), w_heap w) =
      ((CORM_OK, Some 1),
       [("INSERT INTO `users` (`name`, `age`) VALUES (?, ?)", [BindString "bob"; BindLonglong 41])],
       journal_heap)
  | Stuck => False
  end.
Proof. vm_compute. reflexivity. Qed.

Example duplicate_spoils_cache :
  match (create_user 1;; create_user 2) mysql_world with
  | Ret r _ => r = (CORM_ERR_BACKEND, None)
  | Stuck => False
  end /\
  (create_user 1;; create_user 2;; create_user 0) mysql_world = Stuck.
Proof. split; vm_compute; reflexivity. Qed.

(** A batch of updates whose third is refused leaves nothing. *)
Example batch_on_mysql :
  match corm_update_batch (Some mysql_backend) (Some user_model) (Some (1%positive, O)) 3 mysql_world with
  | Ret r w => (r, mj_log (p_env (w_db w)), w_heap w) = ((CORM_ERR_BACKEND, Some 2), [], journal_heap)
  | Stuck => False
  end.
Proof. vm_compute. reflexivity. Qed.
