(* ===== verification/SmallMysql.v ===== *)
(** * The small database behind a MySQL server

    An instance of [MySQL] over the database of [SmallSql.v], for [mysql_main]:
    results are texts, the types of their fields those of the columns, and SHOW
    COLUMNS lists the columns of a table.  Prepared statements answer no rows. *)

From S2P Require Import Prelude Types Mem CLib Core StmtCache DriverState Sqlite SqliteSpec SqliteLibrary.
From S2P Require Import SmallSql Mysql MysqlExec.

(** ** Results *)

Abbreviation text_row := (list (option (list ascii))).

Definition cell_bytes (q : sqlite_value) : option (list ascii) :=
  match q with
  | QNull => None
  | QInt z => Some (list_ascii_of_string (pretty z))
  | QFloat b => Some (list_ascii_of_string (format_g15 b))
  | QText s => Some (list_ascii_of_string s)
  | QBlob bs => Some bs
  end.

Definition type_code (col_type : string) : Z :=
  if existsb (String.eqb col_type) ["INT"; "INTEGER"; "BIGINT"; "TINYINT"] then MYSQL_TYPE_LONGLONG
  else if existsb (String.eqb col_type) ["FLOAT"; "DOUBLE"] then MYSQL_TYPE_DOUBLE
  else if String.eqb col_type "BLOB" then MYSQL_TYPE_BLOB else MYSQL_TYPE_STRING.

(** The field for the column [name] of the table [t]. *)
Definition field_of (m : gmap string table) (t name : string) : mysql_field :=
  let ty := tb ← m !! t; i ← column_index (tb_cols tb) name; col_type <$> tb_cols tb !! i in
  MysqlField name (from_option type_code MYSQL_TYPE_LONGLONG ty) 0.

(** A row of [PRAGMA table_info] as one of SHOW COLUMNS. *)
Definition show_row (r : row) : row :=
  match r with
  | [_; name; ty; not_null; dflt; pk] =>
      [name; ty; QText (if bool_decide (not_null = QInt 1) then "NO" else "YES");
       QText (if bool_decide (pk = QInt 1) then "PRI" else ""); dflt; QText ""]
  | _ => r
  end.
Definition show_fields : list mysql_field :=
  map (fun n => MysqlField n MYSQL_TYPE_STRING 0) ["Field"; "Type"; "Null"; "Key"; "Default"; "Extra"].

(** ** The server *)

Record small_server : Type := SmallServer {
  sv_db : sqldb;
  sv_answer : option (list mysql_field * list row);
  sv_results : gmap positive (list mysql_field * list row);
  sv_stmts : gmap positive my_stmt
}.

Definition with_db (k : sqldb) (l : small_server) : small_server :=
  SmallServer k (sv_answer l) (sv_results l) (sv_stmts l).
Definition with_answer (a : option (list mysql_field * list row)) (l : small_server) : small_server :=
  SmallServer (sv_db l) a (sv_results l) (sv_stmts l).
Definition with_results (m : gmap positive (list mysql_field * list row)) (l : small_server) : small_server :=
  SmallServer (sv_db l) (sv_answer l) m (sv_stmts l).
Definition with_statements (m : gmap positive my_stmt) (l : small_server) : small_server :=
  SmallServer (sv_db l) (sv_answer l) (sv_results l) m.

(** What a statement answers: rows or none. *)
Definition answer_of (k : sqldb) (sql : string) (rows : list row) : option (list mysql_field * list row) :=
  match parse sql with
  | Some (QSelect what t c o l as s) =>
      Some (map (field_of (sd_tables k) t) (result_columns (sd_tables k) s), rows)
  | Some (QInfo t) => Some (show_fields, map show_row rows)
  | _ => None
  end.

(** SHOW COLUMNS of an unknown table is an error.  START TRANSACTION commits what
    is open; COMMIT and ROLLBACK may end nothing. *)
Definition serve (sql : string) (b : gmap Z sqlite_value) (l : small_server) : Z * small_server :=
  let k := sv_db l in
  let answer k' := let '(rows, rc, k') := small_sem k' sql b in
    if rc =? SQLITE_DONE then (0, with_answer (answer_of k sql rows) (with_db k' l)) else (1, l) in
  match parse sql with
  | Some (QInfo t) => if bool_decide (is_Some (sd_tables k !! t)) then answer k else (1, l)
  | Some QBegin => answer (with_saved [] k)
  | Some (QCommit | QRollback) => match sd_saved k with [] => (0, with_answer None l) | _ => answer k end
  | _ => answer k
  end.

Definition param_of (p : mysql_param) : sqlite_value :=
  match p with
  | BindNull => QNull
  | BindLonglong z => QInt z
  | BindDouble b => QFloat b
  | BindString s => QText s
  | BindBlob bs => QBlob bs
  | BindTiny b => QInt (if b then 1 else 0)
  end.

Definition result_rows (r : positive) (l : small_server) : list row :=
  from_option snd [] (sv_results l !! r).

#[export] Instance small_mysql : MySQL unit positive positive small_server := {|
  mysql_init l := (Some tt, l);
  mysql_connect_timeout _ _ l := (0, l);
  mysql_real_connect _ _ _ _ _ _ l := (true, l);
  mysql_error _ _ := "refused";
  mysql_close _ l := (tt, l);
  mysql_ping _ l := (0, l);
  mysql_query _ sql l := serve sql ∅ l;
  mysql_insert_id _ l := sd_rowid (sv_db l);
  mysql_affected_rows _ l := sd_changes (sv_db l);
  mysql_real_escape_string _ s _ := s;
  mysql_store_result _ l :=
    match sv_answer l with
    | Some a =>
        let r := fresh (dom (sv_results l)) in
        (Some r, with_answer None (with_results (<[r := a]> (sv_results l)) l))
    | None => (None, l)
    end;
  mysql_res_live r l := bool_decide (is_Some (sv_results l !! r));
  mysql_res_rows r l := length (result_rows r l);
  mysql_num_fields r l := Z.of_nat (length (from_option fst [] (sv_results l !! r)));
  mysql_num_rows r l := Z.of_nat (length (result_rows r l));
  mysql_fetch_fields r l := from_option fst [] (sv_results l !! r);
  mysql_fetch_row r l :=
    match sv_results l !! r with
    | Some (fs, row :: rows) =>
        (Some (map cell_bytes row), with_results (<[r := (fs, rows)]> (sv_results l)) l)
    | _ => (None, l)
    end;
  mysql_free_result r l := (tt, with_results (delete r (sv_results l)) l);
  mysql_stmt_init _ l :=
    let t := fresh (dom (sv_stmts l)) in
    (Some t, with_statements (<[t := MyStmt "" None]> (sv_stmts l)) l);
  mysql_stmt_live t l := bool_decide (is_Some (sv_stmts l !! t));
  mysql_stmt_rows _ _ := O;
  mysql_stmt_prepare t sql l :=
    if from_option (compiled (sd_tables (sv_db l))) false (parse sql)
    then (0, with_statements (<[t := MyStmt sql None]> (sv_stmts l)) l) else (1, l);
  mysql_stmt_error _ _ := "refused";
  mysql_stmt_close t l := (0, with_statements (delete t (sv_stmts l)) l);
  mysql_stmt_bind_param t qs l :=
    match sv_stmts l !! t with
    | Some p => (0, with_statements (<[t := MyStmt (ms_sql p) (Some qs)]> (sv_stmts l)) l)
    | None => (1, l)
    end;
  mysql_stmt_execute t l :=
    match p ← sv_stmts l !! t; qs ← ms_binds p; Some (ms_sql p, qs) with
    | Some (sql, qs) => serve sql (SqliteSpec.bind_all 0 (map param_of qs) ∅) l
    | None => (1, l)
    end;
  mysql_stmt_insert_id _ l := sd_rowid (sv_db l);
  mysql_stmt_affected_rows _ l := sd_changes (sv_db l);
  mysql_stmt_result_metadata _ l := (None, l);
  mysql_stmt_store_result _ l := (0, l);
  mysql_stmt_num_rows _ _ := 0;
  mysql_stmt_bind_result _ _ l := (0, l);
  mysql_stmt_fetch _ l := (100, [], l)
|}.

Definition server_state := proc unit (stmts positive) unit small_server.

(** A process that has not connected; the server has no tables. *)
Definition small_server_world : world server_state :=
  World [] ∅ 1%positive
    (Proc None [] (fun _ => (0, 0)) 0 (SmallServer empty_db None ∅ ∅)).

(** The statement cache of a program that uses this driver. *)
#[export] Instance mysql_api : CacheApi server_state (stmts positive) := stmts_api close_stmt.
