(* ===== verification/MysqlMigration.v ===== *)
(** * Statements and migrations on MySQL

    [mysql_describe_table] turns the rows of SHOW COLUMNS into an array of columns
    that the caller owns and frees the stored result.  With [MysqlSchema], what a migration relies on
    of the server, the driver implements [SchemaDriver], so that the properties of
    [corm_auto_migrate] hold of MySQL. *)

From S2P Require Import Prelude Types Mem Strbuf CLib ServerDsn Dialect Hash Model Backend Query.
From S2P Require Import Builder BuilderSpec QuerySpec Columns Tx Driver Result ResultSpec Core CoreProps.
From S2P Require Import Sample StmtCache Migration MigrationSpec MigrationProps DriverState DriverSpec.
From S2P Require Import Reading Describe SqliteLibrary Engine SqliteMigration Mysql MysqlQuery MysqlExec.

(** ** Describing a table *)

(** The row of SHOW COLUMNS for the column [name]: Field, Type, Null, Key,
    Default, Extra. *)
Definition row_describes (row : list (option (list ascii))) (name : string) : Prop :=
  length row = 6%nat /\ exists bs, row !! 0%nat = Some (Some bs) /\ cell_text bs = name.

Section describe.
Context {D T R X L : Type} `{!MySQL D T R L} `{!MysqlSpec D T R L}.
#[local] Abbreviation S := (proc D (stmts T) X L).
Implicit Types (w : world S) (r : R) (h : D) (l : L).

Lemma row_text_ok row i w :
  (i < length row)%nat ->
  exists o, row_text row i w = Ret o w /\
    forall bs, row !! i = Some (Some bs) -> o = Some (cell_text bs).
Proof.
  intros Hi. unfold row_text. destruct (lookup_lt_is_Some_2 row i Hi) as [[bs|] ->]; run.
  - rewrite cell_text_some. run. eexists. split; [done|]. by intros ? [= ->].
  - eexists. split; [done|]. done.
Qed.

Lemma my_describe_row_ok row name w base ls :
  plenty w -> heap_wf w -> heap_split (w_heap w) base ls -> row_describes row name ->
  exists c w', Mysql.describe_row row w = Ret c w' /\ reading w w' base (ls ++ column_blocks c) /\
    column_wf c /\ read_cstr (w_heap w') (ci_name c) = Some name.
Proof.
  intros Hp Hwf Hs (Hlen & bs & Hbs & Hname). unfold Mysql.describe_row.
  assert (Ht : forall i w, (i < 6)%nat -> exists o, row_text row i w = Ret o w /\
    forall bs, row !! i = Some (Some bs) -> o = Some (cell_text bs)).
  { intros i w0 Hi. apply row_text_ok. lia. }
  destruct (Ht 0%nat w ltac:(lia)) as (o0 & T0 & H0). rewrite (bind_Ret _ _ _ _ _ T0).
  apply H0 in Hbs as ->. rewrite Hname.
  destruct (dup_column_text (Some name) w base ls Hp Hwf Hs) as (p1 & w1 & E1 & R1 & O1 & N1).
  rewrite (bind_Ret _ _ _ _ _ E1). pose proof R1 as [_ Hp1 Hwf1 _ Hs1].
  destruct (Ht 1%nat w1 ltac:(lia)) as (o1 & T1 & _). rewrite (bind_Ret _ _ _ _ _ T1).
  destruct (dup_column_text o1 w1 base _ Hp1 Hwf1 Hs1) as (p2 & w2 & E2 & R2 & O2 & _).
  rewrite (bind_Ret _ _ _ _ _ E2). pose proof R2 as [_ Hp2 Hwf2 Hle2 Hs2].
  destruct (Ht 2%nat w2 ltac:(lia)) as (o2 & T2 & _). rewrite (bind_Ret _ _ _ _ _ T2).
  destruct (Ht 3%nat w2 ltac:(lia)) as (o3 & T3 & _). rewrite (bind_Ret _ _ _ _ _ T3).
  destruct (Ht 4%nat w2 ltac:(lia)) as (o4 & T4 & _). rewrite (bind_Ret _ _ _ _ _ T4).
  destruct (dup_column_text o4 w2 base _ Hp2 Hwf2 Hs2) as (p3 & w3 & E3 & R3 & O3 & _).
  rewrite (bind_Ret _ _ _ _ _ E3). eexists _, w3. split; [done|]. split; [|split].
  - unfold column_blocks. cbn [column_ptrs map concat ci_name ci_type_name ci_default_value].
    rewrite app_nil_r, !app_assoc. by eapply reading_trans, R3; eapply reading_trans, R2.
  - constructor; [done|constructor; [done|constructor; [done|constructor]]].
  - cbn [ci_name]. cbn [opt_cstr] in N1. eapply read_cstr_mono; [|exact N1].
    eapply heap_le_trans; [exact Hle2|apply R3].
Qed.

(** The rows that are left; [I] holds of the library while they are fetched. *)
Lemma my_describe_rows_ok (I : L -> Prop) r rows names fuel cap arr cols done_ w base :
  (forall l, mysql_res_live r l = true -> I l -> I (mysql_fetch_row r l).2) ->
  mysql_res_live r (p_env (w_db w)) = true -> I (p_env (w_db w)) ->
  rows_left r (p_env (w_db w)) = rows -> Forall2 row_describes rows names ->
  (length rows < fuel)%nat -> Z.of_nat (length cols + length rows) < 2 ^ 30 ->
  describing w arr cols base -> columns_named (w_heap w) cols done_ ->
  exists arr' cols' l' w',
    Mysql.describe_rows fuel r arr cap (Z.of_nat (length cols)) w =
      Ret (Some (arr', Z.of_nat (length cols'))) w' /\
    w_db w' = set_lib l' (w_db w) /\ mysql_res_live r l' = true /\ I l' /\ rows_left r l' = [] /\
    describing w' arr' cols' base /\ columns_named (w_heap w') cols' (done_ ++ names).
Proof.
  intros HI. revert names fuel cap arr cols done_ w.
  induction rows as [|row rows IH]; intros names fuel cap arr cols done_ w Hl Hil Hrows Hn Hfuel Hlen Hd Hnm;
    (destruct fuel as [|fuel]; [cbn in Hfuel; lia|]); cbn [Mysql.describe_rows];
    pose proof (on_res_ok r mysql_fetch_row w Hl) as Eo; pose proof (HI _ Hl Hil) as Hil';
    destruct (fetch_row_law r _ Hl) as [Hl' Hlaw]; rewrite Hrows in Hlaw; destruct Hlaw as [Hrow Hleft];
    rewrite Hrow in Eo; rewrite (bind_Ret _ _ _ _ _ Eo);
    set (l' := (mysql_fetch_row r (p_env (w_db w))).2) in *; set (w1 := set_db _ w).
  - apply Forall2_nil_inv_l in Hn as ->. rewrite app_nil_r. exists arr, cols, l', w1.
    split; [done|]. split; [done|]. split; [done|]. split; [done|]. split; [done|].
    by destruct Hd.
  - apply Forall2_cons_inv_l in Hn as (name & names' & Hname & Hn & ->). cbn [length] in Hlen, Hfuel.
    assert (Hd1 : describing w1 arr cols base) by by destruct Hd.
    destruct (columns_room_ok w1 arr cols base cap Hd1) as (arr2 & cap2 & w2 & E2 & Hd2 & Db2 & Hs2);
      [lia|]. rewrite (bind_Ret _ _ _ _ _ E2). cbv iota.
    pose proof Hd2 as [[_ Hsp2 Hcw] Hp2 Hwf2].
    destruct (my_describe_row_ok row name w2 base _ Hp2 Hwf2 Hsp2 Hname) as (c & w3 & E3 & R3 & Hc & Hcn).
    rewrite (bind_Ret _ _ _ _ _ E3).
    destruct (columns_add_ok w2 w3 arr2 cols base c Hd2 R3 Hc) as (w4 & E4 & Hd4 & Db4 & Hs4).
    rewrite (bind_Ret _ _ _ _ _ E4).
    assert (Db : w_db w4 = set_lib l' (w_db w)) by (rewrite Db4, (rd_db _ _ _ _ R3), Db2; done).
    replace (Z.of_nat (length cols) + 1) with (Z.of_nat (length (cols ++ [c])))
      by (rewrite length_app; cbn [length]; lia).
    destruct (IH names' fuel cap2 arr2 (cols ++ [c]) (done_ ++ [name]) w4)
      as (arr5 & cols5 & l5 & w5 & E5 & Db5 & Hl5 & HI5 & Hleft5 & Hd5 & Hn5);
      rewrite ?Db; try done; try (rewrite length_app; cbn [length]; lia); [lia| |].
    + eapply columns_named_snoc; [|exact Hs4|exact Hcw|exact Hnm|exact Hc|exact Hcn].
      etrans; [exact Hs2|]. etrans; [apply heap_le_strings, R3|exact Hs4].
    + rewrite <- app_assoc in Hn5. exists arr5, cols5, l5, w5. split; [exact E5|].
      split; [by rewrite Db5, Db|]. by split_and!.
Qed.

(** The statement for the escaped name of a table. *)
Definition show_columns (table : string) : string := "SHOW COLUMNS FROM `" +:+ (table +:+ "`").

Lemma mysql_describe_ok (I : L -> Prop) (table esc : string) c h r names w :
  plenty w -> heap_wf w -> p_db (w_db w) = Some c -> c_conn c = Some h ->
  mysql_real_escape_string h table (p_env (w_db w)) = esc -> slen esc < 256 ->
  let l1 := (mysql_query h (show_columns esc) (p_env (w_db w))).2 in
  let l2 := (mysql_store_result h l1).2 in
  (mysql_query h (show_columns esc) (p_env (w_db w))).1 = 0 -> (mysql_store_result h l1).1 = Some r ->
  I l2 -> (forall l, mysql_res_live r l = true -> I l -> I (mysql_fetch_row r l).2) ->
  Forall2 row_describes (rows_left r l2) names -> Z.of_nat (length names) < 2 ^ 30 ->
  exists arr cols w' l3, mysql_describe_table table w = Ret (CORM_OK, (Some arr, Z.of_nat (length cols))) w' /\
    columns_at (w_heap w') arr cols (w_heap w) /\ columns_named (w_heap w') cols names /\
    plenty w' /\ heap_wf w' /\ mysql_res_live r l3 = true /\ I l3 /\ rows_left r l3 = [] /\
    w_db w' = set_lib (mysql_free_result r l3).2 (w_db w).
Proof.
  intros Hp Hwf Hc Hh He Hesc l1 l2 Hrc Hr HI HIf Hrows Hnum.
  pose proof (Forall2_length _ _ _ Hrows) as Hcount.
  destruct (store_result_law h l1 r Hr) as (Hl & _). fold l2 in Hl.
  unfold mysql_describe_table, get_conn. rewrite bind_assoc, (bind_Ret _ _ _ _ _ (get_corm_ok w c Hc)), bind_ret_l, Hh.
  assert (Ea : ask (mysql_real_escape_string h table) w = Ret esc w) by (rewrite <- He; done).
  rewrite (bind_Ret _ _ _ _ _ Ea). destruct (Z.leb_spec 256 (slen esc)); [lia|].
  change (c_format _ [FS esc]) with (Some (show_columns esc)).
  rewrite bind_deref_Some, c_snprintf_fits.
  2: { unfold show_columns, slen in *. rewrite !str_length_app. cbn [String.length]. lia. }
  rewrite (bind_Ret _ _ _ _ _ (lib_ok _ w)), Hrc, Z.eqb_refl. cbn [negb]. fold l1.
  set (w1 := set_db _ w). rewrite (bind_Ret _ _ _ _ _ (lib_ok _ w1)). change (p_env (w_db w1)) with l1.
  rewrite Hr. fold l2. set (w2 := set_db _ w1).
  destruct (columns_new_ok w2 Hp Hwf) as (arr & w3 & E3 & Hd3 & Db3). rewrite (bind_Ret _ _ _ _ _ E3).
  assert (Hl3 : p_env (w_db w3) = l2) by by rewrite Db3.
  assert (Ef : ask (mysql_res_rows r) w3 = Ret (mysql_res_rows r l2) w3) by (rewrite <- Hl3; done).
  rewrite (bind_Ret _ _ _ _ _ Ef). pose proof (rows_bound r l2) as Hb.
  destruct (my_describe_rows_ok I r (rows_left r l2) names (Datatypes.S (mysql_res_rows r l2)) 32 arr [] [] w3
    (w_heap w)) as (arr5 & cols & l5 & w5 & E5 & Db5 & Hl5 & HI5 & Hleft & [Hat Hp5 Hwf5] & Hn5);
    rewrite ?Hl3; try done; [lia|cbn; lia|constructor|].
  change (Z.of_nat (length (@nil corm_column_info))) with 0 in E5. rewrite (bind_Ret _ _ _ _ _ E5).
  assert (Hl5' : mysql_res_live r (p_env (w_db w5)) = true) by by rewrite Db5.
  rewrite (bind_Ret _ _ _ _ _ (on_res_ok r mysql_free_result w5 Hl5')).
  eexists arr5, cols, _, l5. split; [done|]. repeat (split; [done|]). cbn. by rewrite Db5, Db3.
Qed.
End describe.

(** ** A server with a schema *)

Section schema.
Context {D T R X L : Type} `{!MySQL D T R L} `{!MysqlSpec D T R L}.
#[local] Abbreviation S := (proc D (stmts T) X L).
Implicit Types (w : world S) (s : S) (h : D) (l : L).

(** Executing [sql] reports [e] and leaves the tables [sch] on a server that is
    still [sane]. *)
Definition my_ddl (sane : L -> Prop) (schema_of : L -> schema_map) h (sql : string) l (e : corm_err)
    (sch : schema_map) : Prop :=
  (if (mysql_query h sql l).1 =? 0 then CORM_OK else CORM_ERR_BACKEND) = e /\
  sane (mysql_query h sql l).2 /\ schema_of (mysql_query h sql l).2 = sch.

(** [l] is sane and has the tables [sch]. *)
Definition stays (sane : L -> Prop) (schema_of : L -> schema_map) (sch : schema_map) l : Prop :=
  sane l /\ schema_of l = sch.

(** In [my_sane] states the statements of the migration of [ms] do what they say,
    the names of the tables need no escape, and SHOW COLUMNS has a row for each
    column (a table has at most 4096).  Fetching and freeing rows changes no table. *)
Class MysqlSchema (ms : list (model S * list field)) : Type := {
  my_sane : L -> Prop;
  my_schema : L -> schema_map;
  my_refuse_create : model S -> corm_err;
  my_refuse_alter : model S -> field -> corm_err;
  my_create m fs h l : (m, fs) ∈ ms -> my_sane l ->
    my_ddl my_sane my_schema h (create_table_text CORM_BACKEND_MYSQL m fs) l (my_refuse_create m)
      (if decide (my_refuse_create m = CORM_OK) then created m fs (my_schema l) else my_schema l);
  my_alter m fs f h l cols : (m, fs) ∈ ms -> f ∈ fs -> my_sane l ->
    my_schema l !! table_of m = Some cols -> fname f ∉ cols ->
    my_ddl my_sane my_schema h (alter_text CORM_BACKEND_MYSQL m f) l (my_refuse_alter m f)
      (if decide (my_refuse_alter m f = CORM_OK)
       then <[table_of m := cols ++ [fname f]]> (my_schema l) else my_schema l);
  my_index m fs f h l : (m, fs) ∈ ms -> f ∈ fs -> my_sane l -> exists e,
    my_ddl my_sane my_schema h (index_text CORM_BACKEND_MYSQL m f) l e (my_schema l);
  my_escape m fs h l : (m, fs) ∈ ms ->
    mysql_real_escape_string h (table_of m) l = table_of m /\ slen (table_of m) < 256;
  my_show m fs h l names : (m, fs) ∈ ms -> my_sane l -> my_schema l !! table_of m = Some names ->
    let l1 := (mysql_query h (show_columns (table_of m)) l).2 in
    let l2 := (mysql_store_result h l1).2 in
    (mysql_query h (show_columns (table_of m)) l).1 = 0 /\
    stays my_sane my_schema (my_schema l) l2 /\ (length names <= 4096)%nat /\
    exists r, (mysql_store_result h l1).1 = Some r /\ Forall2 row_describes (rows_left r l2) names;
  my_fetch r l sch : mysql_res_live r l = true -> stays my_sane my_schema sch l ->
    stays my_sane my_schema sch (mysql_fetch_row r l).2;
  my_free r l sch : mysql_res_live r l = true -> stays my_sane my_schema sch l ->
    stays my_sane my_schema sch (mysql_free_result r l).2
}.

Context {K : Type} `{Countable T} `{!MysqlStmts D T R L K}.
Context (ms : list (model S * list field)) `{!MysqlSchema ms}.

(** The connection is open. *)
Definition my_settled s : Prop :=
  exists c h, p_db s = Some c /\ c_conn c = Some h /\ my_sane (p_env s).

Lemma my_ddl_effect s sql e sch c h :
  p_db s = Some c -> c_conn c = Some h -> my_ddl my_sane my_schema h sql (p_env s) e sch ->
  let r := sql_exec (mysql_backend (D := D) (T := T) (R := R) (X := X) (L := L)) sql [] s in
  my_settled r.2 /\ r.1 = e /\ my_schema (p_env r.2) = sch.
Proof.
  intros Hc Hh (He & Hs & Hsch). cbn [sql_exec mysql_driver my_effect]. cbv zeta.
  destruct (effect_conn (R := R) sql s c h Hc Hh) as (c' & Hc' & Hh').
  assert (E : p_env (my_command sql s).2 = (mysql_query h sql (p_env s)).2 /\
    (my_command sql s).1 = if (mysql_query h sql (p_env s)).1 =? 0 then CORM_OK else CORM_ERR_BACKEND).
  { unfold my_command. rewrite Hc. cbn [mbind option_bind]. rewrite Hh.
    destruct (mysql_query h sql (p_env s)) as [rc l]. cbn. by destruct (rc =? 0). }
  destruct E as [E1 E2]. rewrite E1, E2. split; [|by split]. exists c', h. by rewrite E1.
Qed.

#[export] Instance mysql_schema :
  SchemaDriver (mysql_backend (D := D) (T := T) (R := R) (X := X) (L := L)) ms.
Proof.
  refine {| schema := my_schema; create_error := my_refuse_create; alter_error := my_refuse_alter;
            settled := my_settled; sd_describe := mysql_describe_table |}.
  - intros s (c & h & Hc & Hh & _). by apply (usable_intro _ c h).
  - intros s log reads (c & h & Hs). by exists c, h.
  - intros s sql e c Hc (c' & h & Hc' & Hh & Hs). simplify_eq. exists (reported sql e c), h.
    split; [done|]. split; [|done]. unfold reported. by destruct c, (is_err e).
  - done.
  - intros m fs s Hin (c & h & Hc & Hh & Hs).
    exact (my_ddl_effect s _ _ _ c h Hc Hh (my_create m fs h _ Hin Hs)).
  - intros m fs f s cols Hin Hf (c & h & Hc & Hh & Hs) Hcol Hn.
    destruct (my_ddl_effect s _ _ _ c h Hc Hh (my_alter m fs f h _ cols Hin Hf Hs Hcol Hn)) as (H1 & _ & H3).
    by split.
  - intros m fs f s Hin Hf (c & h & Hc & Hh & Hs).
    destruct (my_index m fs f h _ Hin Hf Hs) as [e Hx].
    destruct (my_ddl_effect s _ _ _ c h Hc Hh Hx) as (H1 & _ & H3). by split.
  - reflexivity.
  - intros w m fs names Hin Hp Hwf (c & h & Hc & Hh & Hs) Hn.
    destruct (my_escape m fs h (p_env (w_db w)) Hin) as [He Hesc].
    destruct (my_show m fs h _ names Hin Hs Hn) as (Hrc & Hst & Hnum & r & Hr & Hrows).
    destruct (mysql_describe_ok (stays my_sane my_schema (my_schema (p_env (w_db w)))) (table_of m)
      (table_of m) c h r names w Hp Hwf Hc Hh He Hesc Hrc Hr Hst
      (fun l Hl HI => my_fetch r l _ Hl HI) Hrows ltac:(lia))
      as (arr & cols & w' & l3 & E & Hat & Hnm & Hp' & Hwf' & Hl3 & HI3 & _ & Hd').
    destruct (my_free r l3 _ Hl3 HI3) as [Hs' Hsch'].
    exists arr, cols, w'. rewrite Hd'. split_and!; try done. by exists c, h.
Defined.
End schema.

(** ** A server that migrates *)

(** The tables, those a ROLLBACK restores, the names that the last SHOW COLUMNS
    found, and the rows of the stored result that are left. *)
Record my_tables : Type := MyTables {
  mt_tables : schema_map;
  mt_saved : option schema_map;
  mt_found : option (list string);
  mt_stored : option (list string)
}.

Definition column_row (name : string) : list (option (list ascii)) :=
  [Some (list_ascii_of_string name); Some (list_ascii_of_string "int");
   Some (list_ascii_of_string "YES"); Some []; None; Some []].

(** The name in [show_columns]. *)
Definition shown_table (sql : string) : string :=
  str_take (String.length sql - 20) (str_drop 19 sql).

Definition mt_left (l : my_tables) : list string := default [] (mt_stored l).

#[export] Instance tables_mysql : MySQL unit unit unit my_tables := {|
  mysql_init l := (Some tt, l);
  mysql_connect_timeout _ _ l := (0, l);
  mysql_real_connect _ _ _ _ _ _ l := (true, l);
  mysql_error _ _ := "";
  mysql_close _ l := (tt, l);
  mysql_ping _ l := (0, l);
  mysql_query _ sql l :=
    let k := mt_tables l in
    if starts_with "SHOW COLUMNS FROM `" sql
    then (0, MyTables k (mt_saved l) (take 100 <$> k !! shown_table sql) (mt_stored l))
    else if String.eqb sql "START TRANSACTION" then (0, MyTables k (Some k) None (mt_stored l))
    else if String.eqb sql "COMMIT" then (0, MyTables k None None (mt_stored l))
    else if String.eqb sql "ROLLBACK" then (0, MyTables (default k (mt_saved l)) None None (mt_stored l))
    else (0, MyTables (run_known CORM_BACKEND_MYSQL sql k) (mt_saved l) None (mt_stored l));
  mysql_insert_id _ _ := 0;
  mysql_affected_rows _ _ := 0;
  mysql_real_escape_string _ s _ := s;
  mysql_store_result _ l :=
    match mt_found l with
    | Some names => (Some tt, MyTables (mt_tables l) (mt_saved l) None (Some (take 100 names)))
    | None => (None, l)
    end;
  mysql_res_live _ l := match mt_stored l with Some _ => true | None => false end;
  mysql_res_rows _ l := length (mt_left l);
  mysql_num_fields _ _ := 6;
  mysql_num_rows _ l := Z.of_nat (length (mt_left l));
  mysql_fetch_fields _ _ :=
    map (fun s => MysqlField s MYSQL_TYPE_STRING 0) ["Field"; "Type"; "Null"; "Key"; "Default"; "Extra"];
  mysql_fetch_row _ l :=
    (column_row <$> hd_error (mt_left l), MyTables (mt_tables l) (mt_saved l) (mt_found l) (tail <$> mt_stored l));
  mysql_free_result _ l := (tt, MyTables (mt_tables l) (mt_saved l) (mt_found l) None);
  mysql_stmt_init _ l := (None, l);
  mysql_stmt_live _ _ := false;
  mysql_stmt_rows _ _ := O;
  mysql_stmt_prepare _ _ l := (1, l);
  mysql_stmt_error _ _ := "";
  mysql_stmt_close _ l := (0, l);
  mysql_stmt_bind_param _ _ l := (0, l);
  mysql_stmt_execute _ l := (1, l);
  mysql_stmt_insert_id _ _ := 0;
  mysql_stmt_affected_rows _ _ := 0;
  mysql_stmt_result_metadata _ l := (None, l);
  mysql_stmt_store_result _ l := (1, l);
  mysql_stmt_num_rows _ _ := 0;
  mysql_stmt_bind_result _ _ l := (1, l);
  mysql_stmt_fetch _ l := (100, [], l)
|}.

#[export] Instance tables_spec : MysqlSpec unit unit unit my_tables.
Proof.
  refine {| rows_left _ l := map column_row (mt_left l) |}.
  - intros h l r Hr. cbn in Hr |- *. destruct (mt_found l) as [names|]; [|done]. cbn.
    unfold mt_left. cbn. rewrite length_map, length_take. split_and!; try done; [lia|].
    apply Forall_fmap, Forall_true. done.
  - intros r l. cbn. unfold mt_left. destruct (mt_stored l) as [[|n names]|]; done.
  - intros r l. cbn. by rewrite length_map.
  - done.
Defined.

Definition ordinary (sql : string) : bool :=
  negb (starts_with "SHOW COLUMNS FROM `" sql || String.eqb sql "START TRANSACTION" ||
        String.eqb sql "COMMIT" || String.eqb sql "ROLLBACK").

(** What another statement does. *)
Lemma my_command h sql l :
  ordinary sql = true -> schema_tame (mt_tables l) ->
  my_ddl (D := unit) (fun l => schema_tame (mt_tables l)) mt_tables h sql l CORM_OK
    (run_known CORM_BACKEND_MYSQL sql (mt_tables l)).
Proof.
  unfold ordinary, my_ddl. cbn [mysql_query tables_mysql]. intros Ho Hs.
  destruct (starts_with _ sql), (String.eqb sql "START TRANSACTION"), (String.eqb sql "COMMIT"),
    (String.eqb sql "ROLLBACK"); try done. split; [done|]. split; [|done]. by apply run_known_tame.
Qed.

Section samples.
Context {S : Type} (m : model S) (fs : list field) (Hin : (m, fs) ∈ sample_models).

(** None of them is a SHOW COLUMNS or ends a transaction. *)
Lemma create_ordinary : ordinary (create_table_text CORM_BACKEND_MYSQL m fs) = true.
Proof. each_model Hin. Qed.

Lemma alter_ordinary f :
  f ∈ fs -> ordinary (alter_text CORM_BACKEND_MYSQL m f) = true /\
  ordinary (index_text CORM_BACKEND_MYSQL m f) = true.
Proof. intros Hf. each_field Hin Hf. Qed.

Lemma show_known :
  starts_with "SHOW COLUMNS FROM `" (show_columns (table_of m)) = true /\
  shown_table (show_columns (table_of m)) = table_of m /\ slen (table_of m) < 256.
Proof. each_model Hin. Qed.
End samples.

Lemma cell_text_name s : no_nul s = true -> cell_text (list_ascii_of_string s) = s.
Proof.
  unfold cell_text. intros Hs. assert (E : cstr_of_bytes (list_ascii_of_string s ++ [NUL]) = Some s); [|by rewrite E].
  induction s as [|c s IH]; [done|]. cbn in Hs |- *. apply andb_prop in Hs as [Hc Hs].
  destruct (Ascii.eqb c NUL); [done|]. by rewrite IH.
Qed.

(** Every name the sample tables can have. *)
Lemma tame_names sch t cols :
  schema_tame sch -> sch !! t = Some cols -> Forall2 row_describes (map column_row cols) cols.
Proof.
  intros Hs Hc. destruct (Hs t cols Hc) as [_ Hi]. apply Forall2_fmap_l, Forall_Forall2_diag.
  apply Forall_forall. intros n Hn%Hi. split; [done|]. eexists. split; [done|]. apply cell_text_name.
  assert (Ha : Forall (fun n => no_nul n = true) all_columns) by (by repeat constructor).
  rewrite Forall_forall in Ha. by apply Ha.
Qed.

#[export] Instance tables_schema :
  MysqlSchema (D := unit) (T := unit) (R := unit) (X := unit) (L := my_tables) sample_models.
Proof.
  refine {| my_sane := fun l => schema_tame (mt_tables l); my_schema := mt_tables;
            my_refuse_create := fun _ => CORM_OK; my_refuse_alter := fun _ _ => CORM_OK |}.
  - intros m fs h l Hin Hs. pose proof (my_command h _ l (create_ordinary m fs Hin) Hs) as Hd.
    unfold run_known in Hd. by rewrite (find_known_create m fs Hin CORM_BACKEND_MYSQL) in Hd.
  - intros m fs f h l cols Hin Hf Hs Hc Hn.
    pose proof (my_command h _ l (proj1 (alter_ordinary m fs Hin f Hf)) Hs) as Hd.
    unfold run_known in Hd. rewrite (find_known_alter m fs Hin CORM_BACKEND_MYSQL f Hf) in Hd. cbn in Hd.
    rewrite Hc, decide_False in Hd by done. exact Hd.
  - intros m fs f h l Hin Hf Hs. exists CORM_OK.
    pose proof (my_command h _ l (proj2 (alter_ordinary m fs Hin f Hf)) Hs) as Hd.
    unfold run_known in Hd. by rewrite (find_known_index m fs Hin CORM_BACKEND_MYSQL f Hf) in Hd.
  - intros m fs h l Hin. split; [done|]. apply (show_known m fs Hin).
  - intros m fs h l names Hin Hs Hn. destruct (show_known m fs Hin) as (E1 & E2 & _).
    pose proof (tame_columns _ _ _ Hs Hn) as Hlen.
    cbn [mysql_query mysql_store_result tables_mysql]. rewrite E1, E2, Hn.
    cbn [fmap option_fmap option_map mt_found snd fst mt_tables]. rewrite !take_ge by (rewrite ?length_take; lia).
    split; [done|]. split; [done|]. split; [lia|]. exists tt. split; [done|]. by eapply tame_names.
  - intros r l sch _ [Hs Hsch]. done.
  - intros r l sch _ [Hs Hsch]. done.
Defined.

(** No statement is ever prepared. *)
#[export] Instance tables_stmts : MysqlStmts unit unit unit my_tables schema_map.
Proof.
  refine {| my_db := mt_tables; my_stmts _ := ∅; my_accepts _ _ := false; my_slots _ := O;
            my_run k _ _ := (None, k) |}; try done.
  all: intros t p; try intros ?; try intros ?; by rewrite lookup_empty.
Defined.

#[export] Instance tables_tx : MysqlTx unit unit unit my_tables schema_map.
Proof.
  refine {| tx_content := mt_tables; tx_saved := mt_saved |}; intros h l; [done|done|].
  intros c Hc. cbn. by rewrite Hc.
Defined.

Definition my_old_world : world (proc unit (stmts unit) unit my_tables) :=
  World [] ∅ 1%positive
    (Proc (Some (Corm (Some tt) CORM_DEFAULT_CONFIG registry_zero CORM_OK "" "" 0 0 None None 0))
      [] (fun _ => (0, 0)) 0%nat (MyTables old_schema None None None)).

(** The missing column and the missing table are added, and every stored result
    is freed. *)
Example my_migrates :
  match corm_auto_migrate (Some (Some mysql_backend)) (Some [Some user_model; Some note_model]) 2
          my_old_world with
  | Ret e w => (e, map_to_list (mt_tables (p_env (w_db w))), mt_stored (p_env (w_db w)),
                map_to_list (w_heap w)) = (CORM_OK, map_to_list new_schema, None, [])
  | Stuck => False
  end.
Proof. vm_compute. reflexivity. Qed.
