(* ===== verification/Postgres.v ===== *)
(** * The PostgreSQL driver ([src/backend/postgres.c])

    The functions of [libpq] are the class [Libpq], over the types of its
    connections [D] and results [R] and its state [L]; those that accept a NULL
    connection or result are over [option].  Using a result after [PQclear] is
    undefined and therefore stuck.  The DSN is parsed in [ServerDsn.v]. *)

From S2P Require Import Prelude Types Mem Strbuf CLib ServerDsn Dialect Hash Model Backend Tx.
From S2P Require Import Result Core StmtCache DriverState.

(** ** The library *)

Definition CONNECTION_OK : Z := 0.
Definition PGRES_COMMAND_OK : Z := 1.
Definition PGRES_TUPLES_OK : Z := 2.

(** One element of [paramValues] with its length and format: in text format the
    length is ignored. *)
Inductive pg_param : Type :=
  | PgNull
  | PgText (s : string)
  | PgBinary (bs : list ascii).

(** [PQ_live r l]: [r] was not cleared yet.  Rows come in text format. *)
Class Libpq (D R L : Type) : Type := {
  PQconnectdb : string -> L -> option D * L;
  PQstatus : option D -> L -> Z;
  PQerrorMessage : option D -> L -> string;
  PQfinish : option D -> L -> unit * L;
  PQexec : option D -> string -> L -> option R * L;
  PQexecParams : option D -> string -> list pg_param -> L -> option R * L;
  PQ_live : R -> L -> bool;
  PQresultStatus : option R -> L -> Z;
  PQcmdTuples : R -> L -> string;
  PQntuples : R -> L -> Z;
  PQnfields : R -> L -> Z;
  PQgetvalue : R -> Z -> Z -> L -> option string;
  PQgetisnull : R -> Z -> Z -> L -> bool;
  PQfname : R -> Z -> L -> option string;
  PQftype : R -> Z -> L -> Z;
  PQclear : R -> L -> unit * L;
  PQunescapeBytea : string -> L -> option (list ascii);
  PQescapeStringConn : D -> string -> L -> string
}.

(** ** The connection string *)

(** [p += snprintf(p, sizeof(conninfo) - (p - conninfo), ...)]: the text in the
    buffer and [p - conninfo].  Beyond the end the size wraps around and the
    text would be written out of bounds. *)
Definition add_conninfo (c : string * Z) (fmt : string) (args : list farg) : option (string * Z) :=
  let '(text, pos) := c in
  piece ← c_format fmt args;
  if 1024 <? pos then None
  else Some (text +:+ str_take (Z.to_nat (1023 - pos)) piece, pos + slen piece).

Definition add_if (s : string) (fmt : string) (c : string * Z) : option (string * Z) :=
  if String.eqb s "" then Some c else add_conninfo c fmt [FS s].

Definition pg_conninfo (sv : server) : option string :=
  c ← add_conninfo ("", 0) "host=%s port=%d" [FS (sv_host sv); FD (sv_port sv)];
  c ← add_if (sv_dbname sv) " dbname=%s" c;
  c ← add_if (sv_user sv) " user=%s" c;
  c ← add_if (sv_pass sv) " password=%s" c;
  Some (fst c).

(** The type of a column, from the OID of its type. *)
Definition pg_column_type (oid : Z) : corm_field_type :=
  if existsb (Z.eqb oid) [20; 21; 23; 26] then CORM_INT64
  else if existsb (Z.eqb oid) [700; 701] then CORM_DOUBLE
  else if oid =? 16 then CORM_BOOL
  else if oid =? 17 then CORM_BLOB
  else CORM_TEXT.

Section postgres.
Context {D R T X L : Type} `{!Libpq D R L}.
#[local] Abbreviation S := (proc D (stmts T) X L).

Definition on_res {A} (r : R) (f : R -> L -> A * L) : M S A := on_live PQ_live r f.
Definition ask_res {A} (r : R) (f : R -> L -> A) : M S A := ask_live PQ_live r f.

Definition set_conn_error (h : option D) : M S unit :=
  m ← ask (PQerrorMessage h); corm_set_err_msg m.

(** [PQclear], which does nothing with NULL. *)
Definition clear (r : option R) : M S unit :=
  match r with Some r => on_res r PQclear | None => mret tt end.

(** ** Connections *)

Definition pg_open (dsn : string) : M S corm_err :=
  sv ← deref (pg_parse dsn);
  conninfo ← deref (pg_conninfo sv);
  handle ← lib (PQconnectdb conninfo);
  status ← ask (PQstatus handle);
  if negb (status =? CONNECTION_OK) then
    set_conn_error handle;; lib (PQfinish handle);; mret CORM_ERR_BACKEND
  else upd_corm (with_conn handle);; mret CORM_OK.

Definition pg_close : M S corm_err :=
  handle ← get_conn;
  match handle with
  | Some _ => lib (PQfinish handle);; upd_corm (with_conn None);; mret CORM_OK
  | None => mret CORM_OK
  end.

Definition pg_ping : M S corm_err :=
  handle ← get_conn;
  match handle with
  | None => mret CORM_ERR_BACKEND
  | Some _ =>
      status ← ask (PQstatus handle);
      mret (if status =? CONNECTION_OK then CORM_OK else CORM_ERR_BACKEND)
  end.

(** ** Parameters *)

(** Texts, booleans and blobs go out the same way in [pg_exec] and [pg_query];
    [strlen] of a NULL text is stuck, a NULL blob is a NULL parameter, and its
    length is cast to [int]. *)
Definition plain_param (val : corm_value) : M S pg_param :=
  match v_type val with
  | CORM_BOOL => b ← deref (u_as_b (v_u val)); mret (PgText (if (b : bool) then "t" else "f"))
  | CORM_BLOB =>
      '(p, len) ← deref (u_as_blob (v_u val));
      if bool_decide (p = PNull) then mret PgNull
      else
        let n := wrap_i32 len in
        if n <? 0 then stuck else bs ← read_blob p n; mret (PgBinary bs)
  | _ => p ← deref (u_as_s (v_u val)); s ← read_str p; mret (PgText s)
  end.

(** [strdup] of a number: [strlen] of the copy is stuck without memory. *)
Definition number_text (s : string) : M S pg_param :=
  ok ← malloc_ok; if (ok : bool) then mret (PgText s) else stuck.

Definition exec_param (val : corm_value) : M S pg_param :=
  if v_is_null val then mret PgNull
  else
    match v_type val with
    | CORM_INT | CORM_INT64 => z ← deref (u_as_i (v_u val)); number_text (pretty z)
    | CORM_FLOAT | CORM_DOUBLE => b ← deref (u_as_f (v_u val)); number_text (format_g15 b)
    | _ => plain_param val
    end.

(** The eight bytes of the member, as they are in memory. *)
Definition number_bytes (z : Z) : M S pg_param :=
  ok ← malloc_ok; if (ok : bool) then mret (PgBinary (le_bytes 8 z)) else stuck.

Definition query_param (val : corm_value) : M S pg_param :=
  if v_is_null val then mret PgNull
  else
    match v_type val with
    | CORM_INT | CORM_INT64 => z ← deref (u_as_i (v_u val)); number_bytes (wrap_u64 z)
    | CORM_FLOAT | CORM_DOUBLE => b ← deref (u_as_f (v_u val)); number_bytes b
    | _ => plain_param val
    end.

Fixpoint each_param (f : corm_value -> M S pg_param) (params : list corm_value) :
    M S (list pg_param) :=
  match params with
  | [] => mret []
  | val :: params => q ← f val; qs ← each_param f params; mret (q :: qs)
  end.

(** The four arrays and the parameters; [None] out of memory, where the loop
    over [tmp_strs] runs even without this array. *)
Definition build_params (f : corm_value -> M S pg_param) (params : list corm_value) :
    M S (option (list pg_param)) :=
  values ← malloc_ok;
  lengths ← malloc_ok;
  formats ← malloc_ok;
  tmp_strs ← malloc_ok;
  if negb values || negb lengths || negb formats || negb tmp_strs then
    if tmp_strs then mret None else stuck
  else qs ← each_param f params; mret (Some qs).

(** ** Executing *)

(** What follows the execution in both branches of [pg_exec]. *)
Definition exec_result (handle : option D) (pgres : option R) : M S corm_err :=
  status ← ask (PQresultStatus pgres);
  if negb (status =? PGRES_COMMAND_OK) && negb (status =? PGRES_TUPLES_OK) then
    set_conn_error handle;; clear pgres;; mret CORM_ERR_BACKEND
  else
    r ← deref pgres;
    tuples ← ask_res r PQcmdTuples;
    affected ← deref (atoi tuples);
    upd_corm (with_affected affected);;
    (if 0 <? affected then
       ntuples ← ask_res r PQntuples;
       nfields ← ask_res r PQnfields;
       if (ntuples =? 1) && (1 <=? nfields) then
         oid ← ask_res r (fun r => PQgetvalue r 0 0);
         match oid with
         | None | Some EmptyString => mret tt
         | Some s => upd_corm (with_last_id (strtoll s))
         end
       else mret tt
     else mret tt);;
    clear pgres;;
    mret CORM_OK.

Definition pg_exec (sql : string) (params : list corm_value) : M S corm_err :=
  handle ← get_conn;
  match params with
  | [] => pgres ← lib (PQexec handle sql); exec_result handle pgres
  | _ =>
      qs ← build_params exec_param params;
      match qs with
      | None => mret CORM_ERR_NOMEM
      | Some qs => pgres ← lib (PQexecParams handle sql qs); exec_result handle pgres
      end
  end.

(** ** Queries *)

(** Names and types of the columns from [i] on; the copies are not checked. *)
Fixpoint column_info (r : R) (i : Z) (n : nat) :
    M S (list (option string) * list corm_field_type) :=
  match n with
  | O => mret ([], [])
  | Datatypes.S n =>
      name ← ask_res r (fun r => PQfname r i);
      name ← deref name;
      copy ← copy_text (Some name);
      oid ← ask_res r (fun r => PQftype r i);
      '(names, types) ← column_info r (i + 1) n;
      mret (copy :: names, pg_column_type oid :: types)
  end.

(** Column [i] of row [row]. *)
Definition pg_cell (r : R) (row i : Z) (t : corm_field_type) : M S corm_value :=
  null ← ask_res r (fun r => PQgetisnull r row i);
  if (null : bool) then mret (Value t true (UInt 0))
  else
    s ← ask_res r (fun r => PQgetvalue r row i);
    s ← deref s;
    match t with
    | CORM_INT64 => mret (Value t false (UInt (strtoll s)))
    | CORM_DOUBLE => mret (Value t false (UDbl (strtod s)))
    | CORM_BOOL => mret (Value t false (UBool (starts_with "t" s)))
    | CORM_BLOB =>
        blob ← ask (PQunescapeBytea s);
        bs ← deref blob;
        let n := Z.of_nat (length bs) in
        p ← dup_bytes n (Some bs);
        mret (Value t false (UBlob p (if bool_decide (p = PNull) then 0 else n)))
    | _ => p ← dup_text (Some s); mret (Value t false (UStr p))
    end.

Fixpoint pg_row (r : R) (row i : Z) (types : list corm_field_type) : M S (list corm_value) :=
  match types with
  | [] => mret []
  | t :: types => v ← pg_cell r row i t; vs ← pg_row r row (i + 1) types; mret (v :: vs)
  end.

(** The rows from [row] on, [n] of them. *)
Fixpoint pg_rows (r : R) (l : loc) (types : list corm_field_type) (row n : nat) : M S unit :=
  match n with
  | O => mret tt
  | Datatypes.S n =>
      vs ← pg_row r (Z.of_nat row) 0 types;
      put_row l row vs;;
      pg_rows r l types (Datatypes.S row) n
  end.

(** [pg_query] after the execution. *)
Definition query_result (handle : option D) (pgres : option R) : M S (corm_err * option loc) :=
  status ← ask (PQresultStatus pgres);
  match pgres with
  | Some r =>
      if negb (status =? PGRES_TUPLES_OK) && negb (status =? PGRES_COMMAND_OK) then
        set_conn_error handle;; clear pgres;; mret (CORM_ERR_BACKEND, None)
      else
        col_count ← ask_res r PQnfields;
        row_count ← ask_res r PQntuples;
        out ← corm_result_new col_count row_count;
        match out with
        | None => clear pgres;; mret (CORM_ERR_NOMEM, None)
        | Some l =>
            '(names, types) ← column_info r 0 (Z.to_nat col_count);
            set_columns l names types;;
            pg_rows r l types 0 (Z.to_nat row_count);;
            clear pgres;;
            mret (CORM_OK, Some l)
        end
  | None => set_conn_error handle;; clear pgres;; mret (CORM_ERR_BACKEND, None)
  end.

Definition pg_query (sql : string) (params : list corm_value) : M S (corm_err * option loc) :=
  handle ← get_conn;
  match params with
  | [] => pgres ← lib (PQexec handle sql); query_result handle pgres
  | _ =>
      qs ← build_params query_param params;
      match qs with
      | None => mret (CORM_ERR_NOMEM, None)
      | Some qs => pgres ← lib (PQexecParams handle sql qs); query_result handle pgres
      end
  end.

(** ** Transactions and the rest of the table *)

Definition pg_begin : M S corm_err := pg_exec "BEGIN" [].
Definition pg_commit : M S corm_err := pg_exec "COMMIT" [].
Definition pg_rollback : M S corm_err := pg_exec "ROLLBACK" [].

(** [dst] is not tested. *)
Definition pg_escape (dst : bool) (src : string) (len : Z) : M S (Z * option string) :=
  handle ← get_conn;
  match handle with
  | None => mret (wrap_u64 (len * 2 + 1), None)
  | Some h =>
      if (dst : bool) then
        t ← ask (PQescapeStringConn h (str_take (Z.to_nat len) src)); mret (slen t, Some t)
      else stuck
  end.

Definition pg_last_id : M S Z := c ← get_corm; mret (c_last_insert_id_val c).

Definition describe_sql : string :=
  "SELECT c.column_name, c.data_type, c.is_nullable," +:+
  "  CASE WHEN pk.col IS NOT NULL THEN 1 ELSE 0 END," +:+
  "  c.column_default " +:+
  "FROM information_schema.columns c " +:+
  "LEFT JOIN (" +:+
  "  SELECT ku.column_name AS col" +:+
  "  FROM information_schema.table_constraints tc" +:+
  "  JOIN information_schema.key_column_usage ku" +:+
  "    ON tc.constraint_name = ku.constraint_name" +:+
  "  WHERE tc.table_name = $1" +:+
  "    AND tc.constraint_type = 'PRIMARY KEY'" +:+
  ") pk ON c.column_name = pk.col " +:+
  "WHERE c.table_name = $1 " +:+
  "ORDER BY c.ordinal_position".

(** [PQgetvalue(pgres, row, i)], used without a test. *)
Definition value_at (r : R) (row i : Z) : M S string :=
  s ← ask_res r (fun r => PQgetvalue r row i); deref s.

Definition describe_row (r : R) (row : Z) : M S corm_column_info :=
  name ← value_at r row 0; name ← dup_text (Some name);
  type ← value_at r row 1; type ← dup_text (Some type);
  nullable ← value_at r row 2;
  pk ← value_at r row 3;
  def ← ask_res r (fun r => PQgetvalue r row 4);
  def ← (match def with
         | None | Some EmptyString => mret PNull
         | Some s => dup_text (Some s)
         end);
  mret (ColumnInfo name type (if String.eqb nullable "NO" then 1 else 0)
          (if starts_with "1" pk then 1 else 0) def).

Fixpoint describe_rows (r : R) (arr : loc) (row : Z) (n : nat) : M S unit :=
  match n with
  | O => mret tt
  | Datatypes.S n =>
      col ← describe_row r row; columns_add arr col;; describe_rows r arr (row + 1) n
  end.

(** [calloc(0)] may be NULL. *)
Definition pg_describe_table (table_name : string) : M S (corm_err * (option loc * Z)) :=
  handle ← get_conn;
  match handle with
  | None => mret (CORM_ERR_BACKEND, (None, 0))
  | Some _ =>
      pgres ← lib (PQexecParams handle describe_sql [PgText table_name]);
      status ← ask (PQresultStatus pgres);
      match pgres with
      | Some r =>
          if negb (status =? PGRES_TUPLES_OK) then
            clear pgres;; set_conn_error handle;; mret (CORM_ERR_BACKEND, (None, 0))
          else
            n ← ask_res r PQntuples;
            out ← columns_new;
            match out with
            | None =>
                clear pgres;;
                mret (if 0 <? n then (CORM_ERR_NOMEM, (None, 0)) else (CORM_OK, (None, n)))
            | Some arr =>
                describe_rows r arr 0 (Z.to_nat n);;
                clear pgres;;
                mret (CORM_OK, (Some arr, n))
            end
      | None => set_conn_error handle;; mret (CORM_ERR_BACKEND, (None, 0))
      end
  end.

Definition pg_affected : M S Z :=
  handle ← get_conn;
  match handle with
  | None => mret 0
  | Some _ => c ← get_corm; mret (c_rows_affected_val c)
  end.

Definition postgres_backend : backend S := {|
  be_name := "postgres";
  be_type := CORM_BACKEND_POSTGRES;
  be_open := Some pg_open;
  be_close := Some pg_close;
  be_ping := Some pg_ping;
  be_exec := Some pg_exec;
  be_query := Some pg_query;
  be_begin := Some pg_begin;
  be_commit := Some pg_commit;
  be_rollback := Some pg_rollback;
  be_escape_string := Some pg_escape;
  be_last_insert_id := Some pg_last_id;
  be_rows_affected := Some pg_affected;
  be_describe_table := Some pg_describe_table
|}.

Definition corm_register_postgres_backend (g : list (backend S)) : corm_err * list (backend S) :=
  corm_register_backend g CORM_BACKEND_POSTGRES postgres_backend.
End postgres.

(** Without [CORM_HAVE_POSTGRES] the table is empty. *)
Definition postgres_stub_backend {S} : backend S :=
  Backend "postgres (unavailable)" CORM_BACKEND_POSTGRES None None None None None None None None
    None None None None.
