(* ===== verification/PostgresProps.v ===== *)
(** * Queries on PostgreSQL

    What [pg_query] sends and what it makes of the answer: the values of the
    parameters, the conversion of every cell by the type of its column, and the
    life of the [PGresult].  The witness runs on a library that answers every
    query with a table of its own. *)

From S2P Require Import Prelude Types Mem Strbuf CLib ServerDsn Dialect Hash Model Backend Query.
From S2P Require Import Builder BuilderSpec QuerySpec Tx Result ResultSpec Core CoreProps StmtCache.
From S2P Require Import DriverState DriverSpec Reading Postgres.

(** What the documentation of [libpq] says: a result just made is there and its
    sizes are [int]s; within them values and names are not NULL; unescaping a
    [bytea] succeeds, memory permitting. *)
Class LibpqSpec (D R L : Type) `{!Libpq D R L} : Prop := {
  exec_live h sql (l : L) r : (PQexec h sql l).1 = Some r -> PQ_live r (PQexec h sql l).2 = true;
  exec_params_live h sql qs (l : L) r :
    (PQexecParams h sql qs l).1 = Some r -> PQ_live r (PQexecParams h sql qs l).2 = true;
  nfields_size r (l : L) : PQ_live r l = true -> 0 <= PQnfields r l < 2 ^ 31;
  ntuples_size r (l : L) : PQ_live r l = true -> 0 <= PQntuples r l < 2 ^ 31;
  fname_some r (l : L) i :
    PQ_live r l = true -> 0 <= i < PQnfields r l -> is_Some (PQfname r i l);
  getvalue_some r (l : L) row i :
    PQ_live r l = true -> 0 <= row < PQntuples r l -> 0 <= i < PQnfields r l ->
    is_Some (PQgetvalue r row i l);
  unescape_some s (l : L) : is_Some (PQunescapeBytea s l)
}.

(** What [pg_query] sends for a value: numbers as the bytes the machine holds. *)
Definition query_value (x : sqlval) : pg_param :=
  match x with
  | SNull => PgNull
  | SInt z => PgBinary (le_bytes 8 (wrap_u64 z))
  | SDbl b => PgBinary (le_bytes 8 b)
  | SText s => PgText s
  | SBlob bs => PgBinary bs
  | SBool b => PgText (if b then "t" else "f")
  end.

(** The value can be read, and a text that is not marked as NULL is there. *)
Definition sendable (hp : gmap loc block) (v : corm_value) (x : sqlval) : Prop :=
  resolve hp v = Some x /\ int_sized x /\
  (x = SNull -> v_is_null v = true \/ v_type v = CORM_BLOB).

Section pure.
Context {D R L : Type} `{!Libpq D R L}.

(** The value of the text [s] in a column of type [ty]. *)
Definition pg_value (l : L) (ty : corm_field_type) (s : string) : sqlval :=
  match ty with
  | CORM_INT64 => SInt (strtoll s)
  | CORM_DOUBLE => SDbl (strtod s)
  | CORM_BOOL => SBool (starts_with "t" s)
  | CORM_BLOB => SBlob (default [] (PQunescapeBytea s l))
  | _ => SText s
  end.

Definition cell_value (r : R) (l : L) (row i : Z) (ty : corm_field_type) : sqlval :=
  if PQgetisnull r row i l then SNull
  else match PQgetvalue r row i l with Some s => pg_value l ty s | None => SNull end.

(** The names, types and values of the answer [r]. *)
Definition names_of (r : R) (l : L) : list (option string) :=
  (fun i => PQfname r i l) <$> seqZ 0 (PQnfields r l).
Definition types_of (r : R) (l : L) : list corm_field_type :=
  (fun i => pg_column_type (PQftype r i l)) <$> seqZ 0 (PQnfields r l).
Definition row_values (r : R) (l : L) (row : Z) : list sqlval :=
  (fun i => cell_value r l row i (pg_column_type (PQftype r i l))) <$> seqZ 0 (PQnfields r l).
Definition values_of (r : R) (l : L) : list (list sqlval) :=
  row_values r l <$> seqZ 0 (PQntuples r l).

(** Does [r] hold an answer rather than an error? *)
Definition answered (r : R) (l : L) : bool :=
  (PQresultStatus (Some r) l =? PGRES_TUPLES_OK) || (PQresultStatus (Some r) l =? PGRES_COMMAND_OK).

(** The library after the result was cleared. *)
Definition cleared (o : option R) (l : L) : L :=
  match o with Some r => (PQclear r l).2 | None => l end.

(** The object [res] holds the answer [r]. *)
Record holds_answer (hp : gmap loc block) (r : R) (l : L) (res : corm_result) : Prop := {
  ha_names : r_column_names res = names_of r l;
  ha_types : r_column_types res = types_of r l;
  ha_rows : Forall2 (row_reads hp (types_of r l)) (values_of r l) (r_rows res);
  ha_new : r_current_row res = -1 /\ r_refcount res = 1
}.
End pure.

Section query.
Context {D R T X L : Type} `{!Libpq D R L} `{!LibpqSpec D R L}.
#[local] Abbreviation S := (proc D (stmts T) X L).
Implicit Types (w : world S) (r : R) (l : L).

Lemma ask_res_ok {A} r (f : R -> L -> A) w :
  PQ_live r (p_env (w_db w)) = true -> ask_res r f w = Ret (f r (p_env (w_db w))) w.
Proof.
  intros Hl. unfold ask_res, ask_live, ask, get_db, mbind, M_bind. cbn. by rewrite Hl.
Qed.

(** *** Cells, rows and tables *)

Lemma column_type_cases oid :
  pg_column_type oid = CORM_INT64 \/ pg_column_type oid = CORM_DOUBLE \/
  pg_column_type oid = CORM_BOOL \/ pg_column_type oid = CORM_BLOB \/ pg_column_type oid = CORM_TEXT.
Proof. unfold pg_column_type. repeat case_match; auto. Qed.

Lemma pg_cell_ok r row i oid w base ls :
  plenty w -> heap_wf w -> heap_split (w_heap w) base ls ->
  let l := p_env (w_db w) in let ty := pg_column_type oid in
  PQ_live r l = true -> 0 <= row < PQntuples r l -> 0 <= i < PQnfields r l ->
  exists v w', pg_cell r row i ty w = Ret v w' /\ reading w w' base (ls ++ owned_of v) /\
    param_wf v /\ reads_as (w_heap w') ty (cell_value r l row i ty) v.
Proof.
  intros Hp Hwf Hs l ty Hl Hr Hi. pose proof (fun A (f : R -> L -> A) => ask_res_ok r f w Hl) as Hask.
  unfold pg_cell, cell_value. rewrite (bind_Ret _ _ _ _ _ (Hask _ _)). fold l.
  pose proof (column_type_cases oid) as Hty. fold ty in Hty. clearbody ty.
  destruct (PQgetisnull r row i l).
  { eexists _, w. split; [done|]. assert (owned_of (Value ty true (UInt 0)) = []) as ->.
    { unfold owned_of. by destruct Hty as [->|[->|[->|[->| ->]]]]. }
    rewrite app_nil_r. split; [by apply reading_id|]. split; [|done].
    unfold param_wf. destruct Hty as [->|[->|[->|[->| ->]]]]; cbn; try done; repeat eexists; eauto. }
  rewrite (bind_Ret _ _ _ _ _ (Hask _ _)). fold l.
  destruct (getvalue_some r l row i Hl Hr Hi) as [s Es]. rewrite Es. run.
  destruct Hty as [->|[->|[->|[->| ->]]]].
  1-3: eexists _, w; split; [done|]; rewrite app_nil_r; split; [by apply reading_id|done].
  - destruct (unescape_some (D := D) (R := R) s l) as [bs Ebs]. unfold pg_value. rewrite Ebs.
    assert (Ea : ask (PQunescapeBytea s) w = Ret (Some bs) w) by (rewrite <- Ebs; done).
    run_with Ea.
    destruct (dup_bytes_ok (Z.of_nat (length bs)) bs w base ls Hp Hwf Hs eq_refl) as (lo & w' & E & Hrd & Hb).
    run_with E. eexists _, w'. split; [done|]. split; [done|].
    split; [eexists _, _; split; [done|]; right; by eexists|].
    split; [done|]. split; [done|]. unfold resolve. cbn -[read_bytes]. by rewrite Hb.
  - destruct (dup_text_ok (Some s) w base ls Hp Hwf Hs) as (p & w' & E & Hrd & (lo & -> & Hc)).
    run_with E. eexists _, w'. split; [done|]. split; [done|].
    split; [eexists; split; [done|]; right; by eexists|].
    split; [done|]. split; [done|]. unfold resolve. cbn -[read_cstr]. by rewrite Hc.
Qed.

(** The columns from [i] on. *)
Lemma pg_row_ok r row i n w base ls :
  plenty w -> heap_wf w -> heap_split (w_heap w) base ls ->
  let l := p_env (w_db w) in let ty j := pg_column_type (PQftype r j l) in
  PQ_live r l = true -> 0 <= row < PQntuples r l -> 0 <= i -> i + Z.of_nat n <= PQnfields r l ->
  exists vs w', pg_row r row i (ty <$> seqZ i (Z.of_nat n)) w = Ret vs w' /\
    reading w w' base (ls ++ owned vs) /\ Forall param_wf vs /\
    row_reads (w_heap w') (ty <$> seqZ i (Z.of_nat n))
      ((fun j => cell_value r l row j (ty j)) <$> seqZ i (Z.of_nat n)) vs.
Proof.
  revert i w ls. induction n as [|n IH]; intros i w ls Hp Hwf Hs l ty Hl Hr Hi Hn.
  - exists [], w. rewrite app_nil_r. split; [done|]. split; [by apply reading_id|]. split; constructor.
  - rewrite seqZ_cons by lia. replace (Z.pred (Z.of_nat (Datatypes.S n))) with (Z.of_nat n) by lia.
    cbn [fmap list_fmap pg_row]. destruct (pg_cell_ok r row i (PQftype r i l) w base ls)
      as (v & w1 & E1 & R1 & Hv & Hx); [done..|fold l; lia|]. unfold ty at 1. run_with E1. pose proof R1 as [Hdb Hp1 Hwf1 _ Hs1].
    destruct (IH (Z.succ i) w1 (ls ++ owned_of v)) as (vs & w2 & E2 & R2 & Hvs & Hxs);
      [done..|by rewrite Hdb|by rewrite Hdb|lia|rewrite Hdb; fold l; lia|].
    rewrite Hdb in E2, Hxs. fold l in E2, Hxs. fold ty in E2. run_with E2.
    exists (v :: vs), w2. split; [done|]. rewrite owned_cons, app_assoc.
    split; [by eapply reading_trans|]. split; [by constructor|]. constructor; [|done].
    destruct Hx as (? & ? & Hx). split; [done|]. split; [done|]. eapply resolve_mono; [apply R2|done].
Qed.
Lemma column_info_ok r i n w :
  plenty w -> let l := p_env (w_db w) in
  PQ_live r l = true -> 0 <= i -> i + Z.of_nat n <= PQnfields r l ->
  column_info r i n w = Ret ((fun j => PQfname r j l) <$> seqZ i (Z.of_nat n),
    (fun j => pg_column_type (PQftype r j l)) <$> seqZ i (Z.of_nat n)) w.
Proof.
  intros Hp l Hl. pose proof (fun A (f : R -> L -> A) => ask_res_ok r f w Hl) as Hask.
  revert i. induction n as [|n IH]; intros i Hi Hn; [done|]. rewrite seqZ_cons by lia.
  replace (Z.pred (Z.of_nat (Datatypes.S n))) with (Z.of_nat n) by lia. cbn [fmap list_fmap column_info].
  rewrite (bind_Ret _ _ _ _ _ (Hask _ _)). fold l.
  destruct (fname_some r l i Hl ltac:(lia)) as [s Es]. rewrite Es, bind_deref_Some.
  unfold copy_text. rewrite bind_assoc, (bind_Ret _ _ _ _ _ (malloc_ok_plenty w Hp)). cbv beta iota.
  rewrite bind_ret_l, (bind_Ret _ _ _ _ _ (Hask _ _)). fold l.
  rewrite (bind_Ret _ _ _ _ _ (IH (i + 1) ltac:(lia) ltac:(lia))). done.
Qed.

Lemma pg_rows_ok r lo names done m w base :
  let l := p_env (w_db w) in
  PQ_live r l = true -> Z.of_nat (length done + m) <= PQntuples r l ->
  filling w lo (PQnfields r l) names (types_of r l) done m base ->
  exists cells w', pg_rows r lo (types_of r l) (length done) m w = Ret tt w' /\
    filling w' lo (PQnfields r l) names (types_of r l) (done ++ cells) 0 base /\
    w_db w' = w_db w /\ text_le (w_heap w) (w_heap w') /\
    Forall2 (row_reads (w_heap w') (types_of r l))
      (row_values r l <$> seqZ (Z.of_nat (length done)) (Z.of_nat m)) cells.
Proof.
  revert done w. induction m as [|m IH]; intros done w l Hl Hm Hf.
  - exists [], w. rewrite app_nil_r. split; [done|]. split; [done|]. split; [done|].
    split; [apply text_le_refl|constructor].
  - pose proof (nfields_size r l Hl) as Hsz. rewrite seqZ_cons by lia.
    replace (Z.pred (Z.of_nat (Datatypes.S m))) with (Z.of_nat m) by lia. cbn [fmap list_fmap pg_rows].
    destruct (pg_row_ok r (Z.of_nat (length done)) 0 (Z.to_nat (PQnfields r l)) w base
      (owned (concat done) ++ [lo])) as (vs & w1 & E1 & R1 & Hvs & Hx);
      [apply Hf|apply Hf|by eapply filling_split|done|fold l; lia|done|fold l; lia|].
    fold l in E1, Hx. rewrite Z2Nat.id in E1, Hx by lia.
    change (pg_row r (Z.of_nat (length done)) 0 (types_of r l) w = Ret vs w1) in E1.
    change (row_reads (w_heap w1) (types_of r l) (row_values r l (Z.of_nat (length done))) vs) in Hx.
    run_with E1.
    assert (Hlv : length vs = Z.to_nat (PQnfields r l)).
    { apply Forall3_length_lr in Hx. rewrite <- Hx. unfold types_of. by rewrite length_fmap, length_seqZ. }
    destruct (put_row_ok w w1 lo _ _ _ done m base vs Hf R1 Hvs Hlv) as (w2 & E2 & Hf2 & Hdb2 & Hle2).
    run_with E2. assert (Hdb : w_db w2 = w_db w) by (rewrite Hdb2; apply R1).
    destruct (IH (done ++ [vs]) w2) as (cells & w3 & E3 & Hf3 & Hdb3 & Hle3 & Hxs);
      rewrite ?Hdb; fold l; [done|rewrite length_app; cbn; lia|done|].
    rewrite Hdb in E3, Hf3, Hxs. fold l in E3, Hf3, Hxs. rewrite length_app in E3, Hxs. cbn [length] in E3, Hxs.
    rewrite Nat.add_1_r in E3, Hxs. exists (vs :: cells), w3. split; [done|].
    rewrite <- app_assoc in Hf3. split; [done|]. split; [congruence|]. split.
    + eapply text_le_trans; [apply heap_le_text; apply R1|by eapply text_le_trans].
    + constructor; [by eapply row_reads_text, row_reads_text|].
      by rewrite Nat2Z.inj_succ in Hxs.
Qed.

Lemma clear_ok r w :
  PQ_live r (p_env (w_db w)) = true ->
  clear (Some r) w = Ret tt (set_db (set_lib (cleared (Some r) (p_env (w_db w))) (w_db w)) w).
Proof.
  intros Hl. unfold clear, on_res, on_live. unfold ask, get_db at 1, mbind, M_bind. cbn.
  rewrite Hl. rewrite lib_ok. cbn. by destruct ((PQclear r (p_env (w_db w))).1), w.
Qed.

(** The error path. *)
Lemma query_error_ok h (o : option R) c w :
  p_db (w_db w) = Some c -> (forall r, o = Some r -> PQ_live r (p_env (w_db w)) = true) ->
  exists d, (set_conn_error h;; clear o;; mret (CORM_ERR_BACKEND, None : option loc)) w =
      Ret (CORM_ERR_BACKEND, None) (set_db d w) /\
    p_env d = cleared o (p_env (w_db w)).
Proof.
  intros Hc Hl. unfold set_conn_error. rewrite bind_assoc.
  assert (Ea : ask (PQerrorMessage h) w = Ret (PQerrorMessage h (p_env (w_db w))) w) by done.
  rewrite (bind_Ret _ _ _ _ _ Ea). unfold corm_set_err_msg.
  rewrite (bind_Ret _ _ _ _ _ (upd_corm_ok w c _ Hc)). set (w1 := set_corm _ w).
  destruct o as [r|]; [|by eexists].
  rewrite (bind_Ret _ _ _ _ _ (clear_ok r w1 (Hl r eq_refl))). by eexists.
Qed.
(** *** The answer *)

Definition query_post w (r : R) (e : corm_err) (out : option loc) (w' : world S) : Prop :=
  let l := p_env (w_db w) in
  if answered r l then
    e = CORM_OK /\ exists lo res, out = Some lo /\ result_at w' lo res (w_heap w) /\
      holds_answer (w_heap w') r l res
  else e = CORM_ERR_BACKEND /\ out = None /\ w_heap w' = w_heap w.

Lemma query_result_ok h r c w :
  plenty w -> heap_wf w -> p_db (w_db w) = Some c -> PQ_live r (p_env (w_db w)) = true ->
  exists e out w', query_result h (Some r) w = Ret (e, out) w' /\
    p_env (w_db w') = cleared (Some r) (p_env (w_db w)) /\ query_post w r e out w'.
Proof.
  intros Hp Hwf Hc Hl. set (l := p_env (w_db w)) in *.
  pose proof (nfields_size r l Hl) as Hn. pose proof (ntuples_size r l Hl) as Hm.
  pose proof (fun A (f : R -> L -> A) => ask_res_ok r f w Hl) as Hask.
  unfold query_result, query_post, answered. fold l.
  assert (Ea : ask (PQresultStatus (Some r)) w = Ret (PQresultStatus (Some r) l) w) by done.
  rewrite (bind_Ret _ _ _ _ _ Ea), <- negb_orb. clear Ea.
  destruct (_ || _) eqn:Ea; cbn [negb].
  2: { destruct (query_error_ok h (Some r) c w Hc) as (d & -> & Hd); [by intros ? [= <-]|].
       by eexists _, _, _. }
  rewrite (bind_Ret _ _ _ _ _ (Hask _ _)), (bind_Ret _ _ _ _ _ (Hask _ _)). fold l.
  destruct (filling_new (PQnfields r l) (PQntuples r l) w Hp Hwf) as (lo & w1 & E1 & Hf1 & Hd1); [lia..|].
  rewrite (bind_Ret _ _ _ _ _ E1). cbv beta iota.
  assert (Hl1 : PQ_live r (p_env (w_db w1)) = true) by by rewrite Hd1.
  rewrite (bind_Ret _ _ _ _ _ (column_info_ok r 0 (Z.to_nat (PQnfields r l)) w1
    (fl_plenty _ _ _ _ _ _ _ _ Hf1) Hl1 ltac:(lia) ltac:(rewrite Hd1; fold l; lia))).
  rewrite Hd1, Z2Nat.id by lia. fold l. cbv beta iota. fold (names_of r l). fold (types_of r l).
  destruct (set_columns_ok w1 lo _ _ _ (names_of r l) (types_of r l) [] _ _ Hf1)
    as (w2 & E2 & Hf2 & Hd2 & Hle2); [unfold names_of, types_of; rewrite length_fmap, length_seqZ; lia..|].
  rewrite (bind_Ret _ _ _ _ _ E2).
  assert (Hd : w_db w2 = w_db w) by congruence.
  destruct (pg_rows_ok r lo (names_of r l) [] (Z.to_nat (PQntuples r l)) w2 (w_heap w))
    as (cells & w3 & E3 & Hf3 & Hd3 & _ & Hx); rewrite ?Hd; fold l; [done|cbn; lia|done|].
  rewrite Hd in E3, Hf3, Hx. fold l in E3, Hf3, Hx. rewrite (bind_Ret _ _ _ _ _ E3).
  assert (Hl3 : PQ_live r (p_env (w_db w3)) = true) by by rewrite Hd3, Hd.
  rewrite (bind_Ret _ _ _ _ _ (clear_ok r w3 Hl3)). eexists _, _, _. split; [done|].
  split; [cbn; by rewrite Hd3, Hd|]. split; [done|]. cbn [app] in *.
  exists lo, (partial (PQnfields r l) (names_of r l) (types_of r l) cells 0). split; [done|].
  split; [by destruct (fl_at _ _ _ _ _ _ _ _ Hf3); constructor|].
  constructor; [done|done| |done]. cbn [partial r_rows replicate]. rewrite app_nil_r. unfold values_of.
  by rewrite Z2Nat.id in Hx by lia.
Qed.
(** Every value is read as the type of its column says. *)
Lemma row_values_typed r (l : L) row : Forall2 has_type (types_of r l) (row_values r l row).
Proof.
  unfold types_of, row_values. apply Forall2_fmap. apply Forall_Forall2_diag, Forall_true. intros i.
  unfold cell_value. destruct (PQgetisnull r row i l); [done|]. destruct (PQgetvalue r row i l); [|done].
  unfold pg_value. by destruct (column_type_cases (PQftype r i l)) as [->|[->|[->|[->| ->]]]].
Qed.

Lemma answer_typed hp r (l : L) res : holds_answer hp r l res -> typed_result hp res.
Proof.
  intros [_ Ht Hr _]. unfold typed_result. rewrite Ht. apply Forall_lookup. intros i vs Hi.
  destruct (Forall2_lookup_r _ _ _ _ _ Hr Hi) as (xs & Hxs & Hok). unfold values_of in Hxs.
  apply list_lookup_fmap_Some in Hxs as (row & -> & _). by eapply row_reads_typed, row_values_typed.
Qed.

(** *** Parameters *)

(** Is the value a number? *)
Definition is_number (v : corm_value) : bool :=
  match v_type v with CORM_INT | CORM_INT64 | CORM_FLOAT | CORM_DOUBLE => true | _ => false end.

Lemma plain_param_ok v x w :
  sendable (w_heap w) v x -> v_is_null v = false -> is_number v = false ->
  plain_param v w = Ret (query_value x) w.
Proof.
  intros (Hr & Hs & Hnull) Hn Hk. unfold resolve in Hr. rewrite Hn in Hr, Hnull. unfold plain_param, is_number in *.
  destruct (v_type v); try done.
  1-2: destruct (u_as_s (v_u v)) as [p|]; simplify_eq/=; run; case_decide;
    [simplify_eq/=; by destruct (Hnull eq_refl)|];
    destruct (read_cstr (w_heap w) p) as [s|] eqn:E; simplify_eq/=;
    by run_with (read_str_ok p s w E).
  - destruct (u_as_blob (v_u v)) as [[p n]|]; simplify_eq/=. run.
    case_decide; [rewrite bool_decide_true by done; by simplify_eq/=|].
    rewrite bool_decide_false by done.
    destruct (read_bytes (w_heap w) p n) as [bs|] eqn:E; simplify_eq/=.
    pose proof (read_bytes_size _ _ _ _ E). rewrite wrap_i32_id by (unfold in_i32; lia).
    destruct (Z.ltb_spec n 0); [lia|]. by run_with (read_blob_ok p n bs w E).
  - destruct (u_as_b (v_u v)); by simplify_eq/=.
Qed.

(** A value of a member is a number exactly when the value is one. *)
Lemma number_resolves hp v x :
  sendable hp v x -> v_is_null v = false -> is_number v = true ->
  (exists z, u_as_i (v_u v) = Some z /\ x = SInt z /\ (v_type v = CORM_INT \/ v_type v = CORM_INT64)) \/
  (exists b, u_as_f (v_u v) = Some b /\ x = SDbl b /\ (v_type v = CORM_FLOAT \/ v_type v = CORM_DOUBLE)).
Proof.
  intros (Hr & _ & _) Hn Hk. unfold resolve in Hr. rewrite Hn in Hr. unfold is_number in Hk.
  destruct (v_type v); try done.
  1-2: left; destruct (u_as_i (v_u v)) as [z|]; simplify_eq/=; exists z; auto.
  1-2: right; destruct (u_as_f (v_u v)) as [z|]; simplify_eq/=; exists z; auto.
Qed.

Lemma query_param_ok v x w :
  plenty w -> sendable (w_heap w) v x -> query_param v w = Ret (query_value x) w.
Proof.
  intros Hp Hs. unfold query_param. destruct (v_is_null v) eqn:Hn.
  { destruct Hs as [Hr _]. unfold resolve in Hr. rewrite Hn in Hr. by simplify_eq. }
  destruct (is_number v) eqn:Hk.
  - destruct (number_resolves _ _ _ Hs Hn Hk) as [(z & Hz & -> & [-> | ->])|(c & Hc & -> & [-> | ->])];
      rewrite ?Hz, ?Hc, bind_deref_Some; unfold number_bytes; by rewrite (bind_Ret _ _ _ _ _ (malloc_ok_plenty w Hp)).
  - rewrite <- (plain_param_ok v x w Hs Hn Hk). unfold is_number in Hk. by destruct (v_type v).
Qed.

Lemma build_params_ok f (g : sqlval -> pg_param) ps xs w :
  (forall v x, sendable (w_heap w) v x -> f v w = Ret (g x) w) ->
  plenty w -> Forall2 (sendable (w_heap w)) ps xs ->
  build_params f ps w = Ret (Some (map g xs)) w.
Proof.
  intros Hf Hp Hs. unfold build_params. do 4 rewrite (bind_Ret _ _ _ _ _ (malloc_ok_plenty w Hp)).
  cbn [negb orb].
  assert (E : each_param f ps w = Ret (map g xs) w); [|by run_with E].
  induction Hs as [|v x ps xs Hv Hs IH]; [done|]. cbn [each_param map].
  rewrite (bind_Ret _ _ _ _ _ (Hf v x Hv)). by rewrite (bind_Ret _ _ _ _ _ IH).
Qed.

(** What the library answers to the statement, and its state after that. *)
Definition ask_server (h : option D) (sql : string) (ps : list corm_value) (xs : list sqlval) (l : L) :
    option R * L :=
  match ps with [] => PQexec h sql l | _ => PQexecParams h sql (map query_value xs) l end.

Lemma pg_query_asks sql ps xs c w :
  plenty w -> p_db (w_db w) = Some c -> Forall2 (sendable (w_heap w)) ps xs ->
  let '(o, l) := ask_server (c_conn c) sql ps xs (p_env (w_db w)) in
  pg_query sql ps w = query_result (c_conn c) o (set_db (set_lib l (w_db w)) w).
Proof.
  intros Hp Hc Hs. unfold pg_query, get_conn. rewrite bind_assoc.
  rewrite (bind_Ret _ _ _ _ _ (get_corm_ok w c Hc)), bind_ret_l. unfold ask_server. destruct ps as [|v ps].
  - destruct (PQexec _ _ _) as [o l] eqn:Eq. rewrite (bind_Ret _ _ _ _ _ (lib_ok _ w)). by rewrite Eq.
  - rewrite (bind_Ret _ _ _ _ _ (build_params_ok _ _ _ _ w
      (fun v x => query_param_ok v x w Hp) Hp Hs)).
    destruct (PQexecParams _ _ _ _) as [o l] eqn:Eq. rewrite (bind_Ret _ _ _ _ _ (lib_ok _ w)).
    by rewrite Eq.
Qed.

(** C10: [pg_query] returns what the server answered.  The values of the
    parameters go out one for one.  When there is no answer or it is an error,
    CORM_ERR_BACKEND comes back, no object was made and memory is as it was.
    Otherwise there is a new object that owns exactly the texts and blobs of its
    rows; its columns have the names of the answer and the types of their OIDs,
    and every cell can be read as a value of its column's type, namely the one
    its text denotes.  In every case the [PGresult] was cleared once and nothing
    else was done with the library. *)
Theorem pg_query_answer sql ps xs c w :
  plenty w -> heap_wf w -> p_db (w_db w) = Some c -> Forall2 (sendable (w_heap w)) ps xs ->
  let '(o, l) := ask_server (c_conn c) sql ps xs (p_env (w_db w)) in
  exists e out w', pg_query sql ps w = Ret (e, out) w' /\ p_env (w_db w') = cleared o l /\
    match o with
    | Some r =>
        if answered r l then
          e = CORM_OK /\ exists lo res, out = Some lo /\ result_at w' lo res (w_heap w) /\
            holds_answer (w_heap w') r l res /\ typed_result (w_heap w') res
        else e = CORM_ERR_BACKEND /\ out = None /\ w_heap w' = w_heap w
    | None => e = CORM_ERR_BACKEND /\ out = None /\ w_heap w' = w_heap w
    end.
Proof.
  intros Hp Hwf Hc Hs. pose proof (pg_query_asks sql ps xs c w Hp Hc Hs) as E.
  destruct (ask_server _ _ _ _ _) as [[r|] l] eqn:Ea; rewrite E; clear E.
  - destruct (query_result_ok (c_conn c) r c (set_db (set_lib l (w_db w)) w) Hp Hwf Hc)
      as (e & out & w' & E & Hl & Hpost).
    { unfold ask_server in Ea. destruct ps as [|v ps].
      - pose proof (exec_live (c_conn c) sql (p_env (w_db w)) r) as H. rewrite Ea in H. by apply H.
      - pose proof (exec_params_live (c_conn c) sql (map query_value xs) (p_env (w_db w)) r) as H.
        rewrite Ea in H. by apply H. }
    exists e, out, w'. split; [exact E|]. split; [exact Hl|]. unfold query_post in Hpost. cbn in Hpost.
    destruct (answered r l); [|exact Hpost]. destruct Hpost as (-> & lo & res & -> & Hat & Hans).
    split; [done|]. exists lo, res. split_and!; try done. by eapply answer_typed.
  - destruct (query_error_ok (c_conn c) None c (set_db (set_lib l (w_db w)) w) Hc) as (d & E & Hd); [done|].
    exists CORM_ERR_BACKEND, None, (set_db d (set_db (set_lib l (w_db w)) w)).
    split; [|done]. rewrite <- E. done.
Qed.
End query.

(** ** A server *)

(** An INSERT returns the id 7, two rows of five columns answer everything else
    but [ERROR]; the state is the number of results that were not cleared. *)
Definition server_rows : list (list (option string)) :=
  [[Some "42"; Some "1.5"; Some "t"; Some "hello"; Some "AB"];
   [Some "-7"; None; Some "f"; Some ""; None]].

Inductive reply : Type := RTable | RInserted | RRefused.

Definition server_reply (sql : string) : reply :=
  if String.eqb sql "ERROR" then RRefused
  else if starts_with "INSERT" sql then RInserted else RTable.

Definition reply_rows (r : reply) : list (list (option string)) :=
  match r with RTable => server_rows | RInserted => [[Some "7"]] | RRefused => [] end.

Definition server_cell (r : reply) (row i : Z) : option (option string) :=
  row ← reply_rows r !! Z.to_nat row; row !! Z.to_nat i.

#[export] Instance server_libpq : Libpq unit reply nat := {|
  PQconnectdb _ l := (Some tt, l);
  PQstatus o _ := match o with Some _ => 0 | None => 1 end;
  PQerrorMessage _ _ := "syntax error";
  PQfinish _ l := (tt, l);
  PQexec _ sql l := (Some (server_reply sql), Datatypes.S l);
  PQexecParams _ sql _ l := (Some (server_reply sql), Datatypes.S l);
  PQ_live _ l := (0 <? l)%nat;
  PQresultStatus o _ := match o with Some RTable | Some RInserted => PGRES_TUPLES_OK | _ => 7 end;
  PQcmdTuples r _ := match r with RTable => "2" | RInserted => "1" | RRefused => "" end;
  PQntuples r _ := Z.of_nat (length (reply_rows r));
  PQnfields r _ := match r with RTable => 5 | RInserted => 1 | RRefused => 0 end;
  PQgetvalue r row i _ := default "" <$> server_cell r row i;
  PQgetisnull r row i _ := match server_cell r row i with Some (Some _) => false | _ => true end;
  PQfname _ i _ := ["id"; "price"; "done"; "name"; "data"] !! Z.to_nat i;
  PQftype _ i _ := default 0 ([20; 701; 16; 25; 17] !! Z.to_nat i);
  PQclear _ l := (tt, Nat.pred l);
  PQunescapeBytea s _ := Some (list_ascii_of_string s);
  PQescapeStringConn _ s _ := s
|}.

Lemma below_five (P : Z -> Prop) i :
  0 <= i < 5 -> P 0 -> P 1 -> P 2 -> P 3 -> P 4 -> P i.
Proof. intros Hi ?????. assert (i = 0 \/ i = 1 \/ i = 2 \/ i = 3 \/ i = 4) as Hj by lia. clear Hi. by destruct Hj as [->|[->|[->|[->| ->]]]]. Qed.

#[export] Instance server_spec : LibpqSpec unit reply nat.
Proof.
  split; try done.
  - intros [] l _; cbn; lia.
  - intros [] l _; cbn; lia.
  - intros r l i _ Hi. assert (0 <= i < 5) as Hi' by (destruct r; cbn in Hi; lia).
    pattern i; apply (below_five _ i Hi'); by eexists.
  - intros [] l row i _; cbn; [| |lia]; intros Hrow Hi.
    + assert (row = 0 \/ row = 1) as [->| ->] by lia; pattern i; apply (below_five _ i Hi); by eexists.
    + assert (row = 0) as -> by lia. assert (i = 0) as -> by lia. by eexists.
Qed.

Definition server_world : world (proc unit (stmts unit) unit nat) :=
  World [] ∅ 1%positive
    (Proc (Some (Corm (Some tt) CORM_DEFAULT_CONFIG registry_zero CORM_OK "" "" 0 0 None None 0))
      [] (fun _ => (0, 0)) 0 0%nat).

Example server_values :
  values_of RTable 1%nat =
    [[SInt 42; SDbl 0x3ff8000000000000; SBool true; SText "hello"; SBlob ["A"; "B"]%char];
     [SInt (-7); SNull; SBool false; SText ""; SNull]].
Proof. vm_compute. reflexivity. Qed.

Lemma pg_query_answer_witness :
  exists e out w', pg_query "SELECT * FROM t WHERE id < $1" [Value CORM_INT false (UInt 100)]
      server_world = Ret (e, out) w' /\ p_env (w_db w') = 0%nat /\ e = CORM_OK /\
    exists lo res, out = Some lo /\ result_at w' lo res ∅ /\
      holds_answer (w_heap w') RTable 1%nat res /\ typed_result (w_heap w') res.
Proof.
  refine (pg_query_answer "SELECT * FROM t WHERE id < $1" [Value CORM_INT false (UInt 100)] [SInt 100]
    (Corm (Some tt) CORM_DEFAULT_CONFIG registry_zero CORM_OK "" "" 0 0 None None 0)
    server_world _ _ _ _).
  - reflexivity.
  - intros l [b Hl]. cbn in Hl. by rewrite lookup_empty in Hl.
  - reflexivity.
  - constructor; [by split|constructor].
Defined.

(** [pg_exec] sends a number as text, [pg_query] as the bytes of this machine,
    lowest first, although binary parameters are in network order. *)
Example int_parameter :
  exists w1 w2,
    exec_param (Value CORM_INT false (UInt 258)) server_world = Ret (PgText "258") w1 /\
    query_param (Value CORM_INT false (UInt 258)) server_world =
      Ret (PgBinary (map ascii_of_N [2; 1; 0; 0; 0; 0; 0; 0]%N)) w2.
Proof. by eexists _, _. Qed.
