(* ===== verification/PostgresExec.v ===== *)
(** * Statements on PostgreSQL

    What [pg_exec] sends, what it keeps of the answer and that the [PGresult] is
    cleared: the driver implements [SqlDriver] and [ConnDriver], for values that
    are not NULL (a NULL text that is not marked as NULL is dereferenced). *)

From S2P Require Import Prelude Types Mem Strbuf CLib ServerDsn Dialect Hash Model Backend Query.
From S2P Require Import Builder BuilderSpec QuerySpec Tx Driver Result ResultSpec Core CoreProps StmtCache.
From S2P Require Import MigrationProps DriverState DriverSpec Reading Postgres PostgresProps.

(** The status of a NULL result is PGRES_FATAL_ERROR, and the number of rows a
    command affects is an [int]. *)
Class LibpqExec (D R L : Type) `{!Libpq D R L} : Prop := {
  null_status (l : L) : PQresultStatus (None : option R) l <> PGRES_COMMAND_OK /\
    PQresultStatus (None : option R) l <> PGRES_TUPLES_OK;
  cmd_tuples_int r (l : L) : PQ_live r l = true -> is_Some (atoi (PQcmdTuples r l))
}.

(** [pg_exec] sends numbers as text. *)
Definition exec_value (x : sqlval) : pg_param :=
  match x with
  | SInt z => PgText (pretty z)
  | SDbl b => PgText (format_g15 b)
  | _ => query_value x
  end.

Section exec.
Context {D R T X L : Type} `{!Libpq D R L} `{!LibpqSpec D R L} `{!LibpqExec D R L}.
#[local] Abbreviation S := (proc D (stmts T) X L).
Implicit Types (w : world S) (s : S) (r : R) (l : L).

(** What the library answers, and its state after that. *)
Definition send (h : option D) (sql : string) (xs : list sqlval) l : option R * L :=
  match xs with [] => PQexec h sql l | _ => PQexecParams h sql (map exec_value xs) l end.

(** The number of rows the command affected. *)
Definition affected_of r l : Z := default 0 (atoi (PQcmdTuples r l)).

(** The text of the only row, if the command affected rows. *)
Definition returned r l : option string :=
  if (0 <? affected_of r l) && ((PQntuples r l =? 1) && (1 <=? PQnfields r l)) then
    match PQgetvalue r 0 0 l with Some EmptyString | None => None | Some t => Some t end
  else None.

(** The struct after an answer. *)
Definition told r l (c : corm D (stmts T) X) : corm D (stmts T) X :=
  let c := with_affected (affected_of r l) c in
  match returned r l with Some t => with_last_id (strtoll t) c | None => c end.

Definition failed (h : option D) l (c : corm D (stmts T) X) : corm D (stmts T) X :=
  with_err_msg (shorten 512 (PQerrorMessage h l)) c.

Definition heard (h : option D) (o : option R) l c : corm_err * corm D (stmts T) X :=
  match o with
  | Some r => if answered r l then (CORM_OK, told r l c) else (CORM_ERR_BACKEND, failed h l c)
  | None => (CORM_ERR_BACKEND, failed h l c)
  end.

(** A statement on the connection. *)
Definition pg_effect (sql : string) (xs : list sqlval) s : corm_err * S :=
  match p_db s with
  | None => (CORM_ERR_NULL, s)
  | Some c =>
      let '(o, l) := send (c_conn c) sql xs (p_env s) in
      let '(e, c) := heard (c_conn c) o l c in
      (e, Proc (Some c) (p_log s) (p_time s) (p_reads s) (cleared o l))
  end.

Lemma exec_param_ok v x w :
  plenty w -> sendable (w_heap w) v x -> exec_param v w = Ret (exec_value x) w.
Proof.
  intros Hp Hs. unfold exec_param. destruct (v_is_null v) eqn:Hn.
  { destruct Hs as [Hr _]. unfold resolve in Hr. rewrite Hn in Hr. by simplify_eq. }
  destruct (is_number v) eqn:Hk.
  - destruct (number_resolves _ _ _ Hs Hn Hk) as [(z & Hz & -> & [-> | ->])|(c & Hc & -> & [-> | ->])];
      rewrite ?Hz, ?Hc, bind_deref_Some; unfold number_text; by rewrite (bind_Ret _ _ _ _ _ (malloc_ok_plenty w Hp)).
  - assert (Hx : exec_value x = query_value x).
    { destruct Hs as (Hr & _). unfold resolve in Hr. rewrite Hn in Hr. unfold is_number in Hk.
      destruct (v_type v); try done.
      1-2: destruct (u_as_s (v_u v)) as [p|]; simplify_eq/=; case_decide; [by simplify_eq|];
        destruct (read_cstr (w_heap w) p); by simplify_eq/=.
      - destruct (u_as_blob (v_u v)) as [[p n]|]; simplify_eq/=. case_decide; [by simplify_eq|].
        destruct (read_bytes (w_heap w) p n); by simplify_eq/=.
      - destruct (u_as_b (v_u v)); by simplify_eq/=. }
    rewrite Hx, <- (plain_param_ok v x w Hs Hn Hk). unfold is_number in Hk. by destruct (v_type v).
Qed.

(** The world with the struct [c] after the result [o] was cleared. *)
Definition after_result (o : option R) c w : world S :=
  set_db (Proc (Some c) (p_log (w_db w)) (p_time (w_db w)) (p_reads (w_db w))
            (cleared o (p_env (w_db w)))) w.

Lemma clear_after o c w :
  (forall r, o = Some r -> PQ_live r (p_env (w_db w)) = true) ->
  clear o (set_corm (Some c) w) = Ret tt (after_result o c w).
Proof. intros Hl. destruct o as [r|]; [|by destruct w]. by rewrite clear_ok; [|apply Hl]. Qed.

(** The id of a RETURNING clause. *)
Lemma returned_ok r c w :
  let l := p_env (w_db w) in
  PQ_live r l = true -> p_db (w_db w) = Some c ->
  (if 0 <? affected_of r l then
     ntuples ← ask_res r PQntuples;
     nfields ← ask_res r PQnfields;
     if (ntuples =? 1) && (1 <=? nfields) then
       oid ← ask_res r (fun r => PQgetvalue r 0 0);
       match oid with
       | None | Some EmptyString => mret tt
       | Some s => upd_corm (with_last_id (strtoll s))
       end
     else mret tt
   else mret tt) w =
  Ret tt (set_corm (Some (match returned r l with Some t => with_last_id (strtoll t) c | None => c end)) w).
Proof.
  intros l Hl Hc. assert (Hid : set_corm (Some c) w = w).
  { rewrite <- Hc. destruct w as [? ? ? []]. done. }
  pose proof (fun A (f : R -> L -> A) => ask_res_ok r f w Hl) as Hask. unfold returned.
  destruct (0 <? affected_of r l); cbn [andb]; [|by rewrite Hid].
  rewrite (bind_Ret _ _ _ _ _ (Hask _ _)), (bind_Ret _ _ _ _ _ (Hask _ _)). fold l.
  destruct (_ && _); [|by rewrite Hid]. rewrite (bind_Ret _ _ _ _ _ (Hask _ _)). fold l.
  destruct (PQgetvalue r 0 0 l) as [[|a t]|]; [by rewrite Hid| |by rewrite Hid]. by apply upd_corm_ok.
Qed.

Lemma exec_result_ok h o c w :
  p_db (w_db w) = Some c -> (forall r, o = Some r -> PQ_live r (p_env (w_db w)) = true) ->
  let '(e, c') := heard h o (p_env (w_db w)) c in
  exec_result h o w = Ret e (after_result o c' w).
Proof.
  intros Hc Hl. set (l := p_env (w_db w)) in *. unfold exec_result.
  assert (Ea : ask (PQresultStatus o) w = Ret (PQresultStatus o l) w) by done.
  rewrite (bind_Ret _ _ _ _ _ Ea). clear Ea. rewrite <- negb_orb, orb_comm.
  assert (Herr : (set_conn_error h;; clear o;; mret CORM_ERR_BACKEND) w =
    Ret CORM_ERR_BACKEND (after_result o (failed h l c) w)).
  { unfold set_conn_error. rewrite bind_assoc.
    assert (Ea : ask (PQerrorMessage h) w = Ret (PQerrorMessage h l) w) by done.
    rewrite (bind_Ret _ _ _ _ _ Ea). unfold corm_set_err_msg.
    rewrite (bind_Ret _ _ _ _ _ (upd_corm_ok w c _ Hc)).
    by rewrite (bind_Ret _ _ _ _ _ (clear_after o _ w Hl)). }
  destruct o as [r|]; cbn [heard].
  - fold (answered r l). destruct (answered r l); cbn [negb]; [|exact Herr]. rewrite bind_deref_Some.
    pose proof (Hl r eq_refl) as Hr. rewrite (bind_Ret _ _ _ _ _ (ask_res_ok r _ w Hr)). fold l.
    destruct (cmd_tuples_int r l Hr) as [n Hn]. rewrite Hn, bind_deref_Some.
    rewrite (bind_Ret _ _ _ _ _ (upd_corm_ok w c _ Hc)).
    assert (n = affected_of r l) as -> by (unfold affected_of; by rewrite Hn).
    rewrite (bind_Ret _ _ _ _ _ (returned_ok r (with_affected (affected_of r l) c)
      (set_corm (Some (with_affected (affected_of r l) c)) w) Hr eq_refl)).
    by rewrite (bind_Ret _ _ _ _ _ (clear_after (Some r) (told r l c) w Hl)).
  - destruct (null_status (R := R) l) as [H1 H2].
    rewrite (proj2 (Z.eqb_neq _ _) H1), (proj2 (Z.eqb_neq _ _) H2). exact Herr.
Qed.

Lemma send_live h sql xs l r : (send h sql xs l).1 = Some r -> PQ_live r (send h sql xs l).2 = true.
Proof. destruct xs; cbn [send]; [apply exec_live|apply exec_params_live]. Qed.

(** What happens once the statement was sent. *)
Lemma sent_effect sql ps xs c w :
  p_db (w_db w) = Some c ->
  (let '(o, l) := send (c_conn c) sql xs (p_env (w_db w)) in
   pg_exec sql ps w = exec_result (c_conn c) o (set_db (set_lib l (w_db w)) w)) ->
  let '(e, s) := pg_effect sql xs (w_db w) in pg_exec sql ps w = Ret e (set_db s w).
Proof.
  intros Hc E. unfold pg_effect. rewrite Hc. pose proof (send_live (c_conn c) sql xs (p_env (w_db w))) as Hl.
  destruct (send (c_conn c) sql xs (p_env (w_db w))) as [o l]. rewrite E. cbn [fst snd] in Hl.
  pose proof (exec_result_ok (c_conn c) o c (set_db (set_lib l (w_db w)) w) Hc Hl) as H. cbn in H.
  destruct (heard (c_conn c) o l c) as [e c']. exact H.
Qed.

(** Without parameters nothing is allocated. *)
Lemma pg_exec_tight sql c w :
  p_db (w_db w) = Some c ->
  let '(e, s) := pg_effect sql [] (w_db w) in pg_exec sql [] w = Ret e (set_db s w).
Proof.
  intros Hc. apply (sent_effect sql [] [] c w Hc). cbn [send]. unfold pg_exec, get_conn.
  rewrite bind_assoc, (bind_Ret _ _ _ _ _ (get_corm_ok w c Hc)), bind_ret_l.
  rewrite (bind_Ret _ _ _ _ _ (lib_ok _ w)). by destruct (PQexec _ _ _).
Qed.

Lemma pg_exec_effect sql ps xs c w :
  plenty w -> p_db (w_db w) = Some c -> Forall2 (sendable (w_heap w)) ps xs ->
  let '(e, s) := pg_effect sql xs (w_db w) in pg_exec sql ps w = Ret e (set_db s w).
Proof.
  intros Hp Hc [|v x vs ys Hv Hs]; [by apply (pg_exec_tight sql c)|].
  apply (sent_effect sql _ _ c w Hc). unfold pg_exec, get_conn.
  rewrite bind_assoc, (bind_Ret _ _ _ _ _ (get_corm_ok w c Hc)), bind_ret_l.
  rewrite (bind_Ret _ _ _ _ _ (build_params_ok _ _ (v :: vs) (x :: ys) w
    (fun v x => exec_param_ok v x w Hp) Hp ltac:(by constructor))).
  rewrite (bind_Ret _ _ _ _ _ (lib_ok _ w)). cbn [send]. by destruct (PQexecParams _ _ _ _).
Qed.

(** The answer that is not an error. *)
Definition answer (o : option R) l : option R :=
  r ← o; if answered r l then Some r else None.

(** C19: [pg_exec] sends the statement once, with numbers in text format, and
    clears the [PGresult] exactly once.  For an answer it reports CORM_OK and
    keeps the number of affected rows and, when the only row of an INSERT with
    RETURNING came back, the id in it - otherwise the id of an earlier statement
    stays; for an error it reports CORM_ERR_BACKEND and keeps the message of the
    server, cut to 511 characters.  Memory is as it was. *)
Theorem pg_exec_answer sql ps xs c w :
  plenty w -> p_db (w_db w) = Some c -> Forall2 (sendable (w_heap w)) ps xs ->
  let '(o, l) := send (c_conn c) sql xs (p_env (w_db w)) in
  exists e c', pg_exec sql ps w = Ret e (set_db
      (Proc (Some c') (p_log (w_db w)) (p_time (w_db w)) (p_reads (w_db w)) (cleared o l)) w) /\
    match answer o l with
    | Some r =>
        e = CORM_OK /\ c_err_msg c' = c_err_msg c /\ c_rows_affected_val c' = affected_of r l /\
        c_last_insert_id_val c' =
          match returned r l with Some t => strtoll t | None => c_last_insert_id_val c end
    | None =>
        e = CORM_ERR_BACKEND /\ c_err_msg c' = shorten 512 (PQerrorMessage (c_conn c) l) /\
        c_rows_affected_val c' = c_rows_affected_val c /\
        c_last_insert_id_val c' = c_last_insert_id_val c
    end.
Proof.
  intros Hp Hc Hs. pose proof (pg_exec_effect sql ps xs c w Hp Hc Hs) as E. unfold pg_effect in E.
  rewrite Hc in E. destruct (send _ sql xs _) as [o l]. unfold heard in E. unfold answer.
  destruct o as [r|]; cbn [mbind option_bind].
  - destruct (answered r l); eexists _, _; (split; [exact E|]); destruct c; [|done].
    unfold told. by destruct (returned r l).
  - eexists _, _. split; [exact E|]. by destruct c.
Qed.

(** ** The interfaces *)

#[export] Instance pg_usable : Usable (postgres_backend (D := D) (R := R) (T := T) (X := X) (L := L)) :=
  fun s => is_Some (p_db s) /\ is_Some (c ← p_db s; c_conn c).

(** Values that are not NULL, of a length that is an [int]. *)
Definition pg_carries (xs : list sqlval) : Prop := Forall (fun x => x <> SNull /\ int_sized x) xs.

Lemma carried_sendable hp ps xs :
  pg_carries xs -> Forall2 (fun v x => resolve hp v = Some x) ps xs -> Forall2 (sendable hp) ps xs.
Proof.
  intros Hc Hr. induction Hr as [|v x ps xs Hv Hr IH]; [done|]. apply Forall_cons in Hc as [[Hn Hs] Hc].
  constructor; [|by apply IH]. split; [done|]. by split.
Qed.

Lemma effect_keeps_usable sql xs s :
  usable (postgres_backend (D := D) (R := R) (T := T) (X := X) (L := L)) s ->
  usable (postgres_backend (D := D) (R := R) (T := T) (X := X) (L := L)) (pg_effect sql xs s).2.
Proof.
  unfold usable, pg_usable, pg_effect. intros [[c Hc] Hh]. rewrite Hc in Hh |- *. cbn in Hh.
  destruct (send _ _ _ _) as [o l]. unfold heard, told.
  repeat case_match; destruct c; simplify_eq/=; split; try done; by eexists.
Qed.

#[export] Instance pg_driver : SqlDriver (postgres_backend (D := D) (R := R) (T := T) (X := X) (L := L)).
Proof.
  refine {| sql_carries := fun _ xs _ => pg_carries xs; sql_exec := pg_effect;
            sql_affected := fun s => from_option c_rows_affected_val 0 (p_db s);
            sql_last_id := fun s => from_option c_last_insert_id_val 0 (p_db s);
            drv_exec := pg_exec; drv_affected := pg_affected; drv_last_id := pg_last_id |}; try reflexivity.
  - intros w [[c Hc] Hh]. rewrite Hc in Hh |- *. cbn in Hh. destruct Hh as [h Hh]. unfold pg_affected, get_conn.
    rewrite bind_assoc, (bind_Ret _ _ _ _ _ (get_corm_ok w c Hc)), bind_ret_l, Hh.
    by rewrite (bind_Ret _ _ _ _ _ (get_corm_ok w c Hc)).
  - intros w [[c Hc] _]. rewrite Hc. unfold pg_last_id. by rewrite (bind_Ret _ _ _ _ _ (get_corm_ok w c Hc)).
  - intros text xs d Hu _. by apply effect_keeps_usable.
  - done.
  - intros w text ps xs Hp [[c Hc] _] Hx Hr.
    pose proof (pg_exec_effect text ps xs c w Hp Hc (carried_sendable _ _ _ Hx Hr)) as E.
    by destruct (pg_effect text xs (w_db w)).
Defined.

#[export] Instance pg_conn : ConnDriver (postgres_backend (D := D) (R := R) (T := T) (X := X) (L := L)).
Proof.
  constructor.
  - intros s Hs. apply Hs.
  - intros s log reads Hs. exact Hs.
  - intros s sql e c Hc [_ Hh]. rewrite Hc in Hh. split; [by eexists|]. cbn in *. unfold reported.
    by destruct c, (is_err e).
Qed.
End exec.

(** ** The theorem at a concrete input *)

#[export] Instance server_exec : LibpqExec unit reply nat.
Proof. split; [done|]. intros [] l _; by eexists. Qed.

(** The id that the INSERT returned is kept. *)
Lemma pg_exec_answer_witness :
  exists c', pg_exec "INSERT INTO t (n) VALUES ($1) RETURNING id" [Value CORM_INT false (UInt 100)]
      server_world = Ret CORM_OK (set_db
      (Proc (Some c') [] (fun _ => (0, 0)) 0 0%nat) server_world) /\
    c_rows_affected_val c' = 1 /\ c_last_insert_id_val c' = 7.
Proof.
  destruct (pg_exec_answer "INSERT INTO t (n) VALUES ($1) RETURNING id" [Value CORM_INT false (UInt 100)]
    [SInt 100] (Corm (Some tt) CORM_DEFAULT_CONFIG registry_zero CORM_OK "" "" 0 0 None None 0)
    server_world) as (e & c' & E & He & _ & Ha & Hi).
  - reflexivity.
  - reflexivity.
  - constructor; [by split|constructor].
  - exists c'. rewrite E, He. split; [reflexivity|]. split; [exact Ha|exact Hi].
Defined.

(** A command that returns no id leaves the one of an earlier statement. *)
Example id_of_another_statement :
  match (pg_exec "INSERT INTO t (n) VALUES (1) RETURNING id" [];; pg_exec "DELETE FROM t" []) server_world with
  | Ret _ w => c_last_insert_id_val <$> p_db (w_db w) = Some 7
  | Stuck => False
  end.
Proof. vm_compute. reflexivity. Qed.
