(* ===== verification/PostgresMigration.v ===== *)
(** * Migrating a PostgreSQL database

    [pg_describe_table] turns the rows of its query into an array of columns that
    the caller owns and clears the [PGresult].  [LibpqSchema] is what a migration
    relies on of the server; with it the driver implements [SchemaDriver], so that
    the properties of [corm_auto_migrate] hold of PostgreSQL. *)

From S2P Require Import Prelude Types Mem Strbuf CLib ServerDsn Dialect Hash Model Backend Query.
From S2P Require Import Builder BuilderSpec QuerySpec Columns Tx Driver Result ResultSpec Core CoreProps.
From S2P Require Import Sample StmtCache Migration MigrationSpec MigrationProps DriverState DriverSpec.
From S2P Require Import Reading Describe SqliteLibrary Engine SqliteMigration Postgres PostgresProps PostgresExec.

Section describe.
Context {D R T X L : Type} `{!Libpq D R L} `{!LibpqSpec D R L}.
#[local] Abbreviation S := (proc D (stmts T) X L).
Implicit Types (w : world S) (r : R) (l : L).

Lemma value_at_ok r row i w :
  let l := p_env (w_db w) in
  PQ_live r l = true -> 0 <= row < PQntuples r l -> 0 <= i < PQnfields r l ->
  exists s, PQgetvalue r row i l = Some s /\ value_at r row i w = Ret s w.
Proof.
  intros l Hl Hr Hi. destruct (getvalue_some r l row i Hl Hr Hi) as [s Es]. exists s. split; [done|].
  unfold value_at. rewrite (bind_Ret _ _ _ _ _ (ask_res_ok r _ w Hl)). fold l. by rewrite Es.
Qed.

(** The default value: an empty text is none. *)
Lemma default_ok (o : option string) w base ls :
  plenty w -> heap_wf w -> heap_split (w_heap w) base ls ->
  exists p w', (match o with
                | None | Some EmptyString => mret PNull
                | Some s => dup_text (Some s)
                end : M S cptr) w = Ret p w' /\
    reading w w' base (ls ++ ptr_blocks p) /\ owned_ptr p.
Proof.
  intros Hp Hwf Hs. assert (Hnone : reading w w base (ls ++ ptr_blocks PNull)).
  { cbn. rewrite app_nil_r. by apply reading_id. }
  destruct o as [[|a s]|]; [by exists PNull, w; repeat split; try apply Hnone; left| |
    by exists PNull, w; repeat split; try apply Hnone; left].
  destruct (dup_column_text (Some (String a s)) w base ls Hp Hwf Hs) as (p & w' & E & Hr & Ho & _).
  by exists p, w'.
Qed.

Lemma pg_describe_row_ok r row name w base ls :
  plenty w -> heap_wf w -> heap_split (w_heap w) base ls ->
  let l := p_env (w_db w) in
  PQ_live r l = true -> PQnfields r l = 5 -> 0 <= row < PQntuples r l ->
  PQgetvalue r row 0 l = Some name ->
  exists c w', Postgres.describe_row r row w = Ret c w' /\ reading w w' base (ls ++ column_blocks c) /\
    column_wf c /\ read_cstr (w_heap w') (ci_name c) = Some name.
Proof.
  intros Hp Hwf Hs l Hl Hn Hr Hname. unfold Postgres.describe_row.
  destruct (value_at_ok r row 0 w Hl Hr) as (s0 & G0 & V0); [fold l; lia|].
  assert (s0 = name) as -> by (fold l in G0; congruence). rewrite (bind_Ret _ _ _ _ _ V0).
  destruct (dup_column_text (Some name) w base ls Hp Hwf Hs) as (p1 & w1 & E1 & R1 & O1 & N1).
  rewrite (bind_Ret _ _ _ _ _ E1). pose proof R1 as [Db1 Hp1 Hwf1 _ Hs1].
  destruct (value_at_ok r row 1 w1) as (s1 & _ & V1); [rewrite Db1; fold l; try done; lia..|].
  rewrite (bind_Ret _ _ _ _ _ V1).
  destruct (dup_column_text (Some s1) w1 base _ Hp1 Hwf1 Hs1) as (p2 & w2 & E2 & R2 & O2 & _).
  rewrite (bind_Ret _ _ _ _ _ E2). pose proof R2 as [Db2 Hp2 Hwf2 Hle2 Hs2]. rewrite Db1 in Db2.
  destruct (value_at_ok r row 2 w2) as (s2 & _ & V2); [rewrite Db2; fold l; try done; lia..|].
  destruct (value_at_ok r row 3 w2) as (s3 & _ & V3); [rewrite Db2; fold l; try done; lia..|].
  rewrite (bind_Ret _ _ _ _ _ V2), (bind_Ret _ _ _ _ _ V3).
  assert (Hl2 : PQ_live r (p_env (w_db w2)) = true) by by rewrite Db2.
  rewrite (bind_Ret _ _ _ _ _ (ask_res_ok r _ w2 Hl2)).
  destruct (default_ok (PQgetvalue r row 4 (p_env (w_db w2))) w2 base _ Hp2 Hwf2 Hs2)
    as (p3 & w3 & E3 & R3 & O3). rewrite (bind_Ret _ _ _ _ _ E3).
  eexists _, w3. split; [done|]. split; [|split].
  - unfold column_blocks. cbn [column_ptrs map concat ci_name ci_type_name ci_default_value].
    rewrite app_nil_r, !app_assoc. by eapply reading_trans, R3; eapply reading_trans, R2.
  - constructor; [done|constructor; [done|constructor; [done|constructor]]].
  - cbn [ci_name]. cbn [opt_cstr] in N1. eapply read_cstr_mono; [|exact N1].
    eapply heap_le_trans; [exact Hle2|apply R3].
Qed.

(** The names of the columns, row by row. *)
Definition names_in (r : R) (l : L) (row n : Z) : list string :=
  (fun i => default "" (PQgetvalue r i 0 l)) <$> seqZ row n.

Lemma pg_describe_rows_ok r n row arr cols done_ w base :
  let l := p_env (w_db w) in
  PQ_live r l = true -> PQnfields r l = 5 -> 0 <= row -> row + Z.of_nat n <= PQntuples r l ->
  describing w arr cols base -> columns_named (w_heap w) cols done_ ->
  exists cols' w', Postgres.describe_rows r arr row n w = Ret tt w' /\
    length cols' = (length cols + n)%nat /\ w_db w' = w_db w /\ describing w' arr cols' base /\
    columns_named (w_heap w') cols' (done_ ++ names_in r l row (Z.of_nat n)).
Proof.
  revert row cols done_ w. induction n as [|n IH]; intros row cols done_ w l Hl Hf Hrow Hn Hd Hnm.
  - exists cols, w. cbn. rewrite Nat.add_0_r, app_nil_r. done.
  - unfold names_in. rewrite seqZ_cons by lia. replace (Z.pred (Z.of_nat (Datatypes.S n))) with (Z.of_nat n) by lia.
    cbn [fmap list_fmap Postgres.describe_rows]. pose proof Hd as [[_ Hsp Hcw] Hp Hwf].
    destruct (getvalue_some r l row 0 Hl ltac:(lia) ltac:(lia)) as [name Hname].
    destruct (pg_describe_row_ok r row name w base _ Hp Hwf Hsp Hl Hf ltac:(fold l; lia) Hname)
      as (c & w1 & E1 & R1 & Hc & Hcn). rewrite (bind_Ret _ _ _ _ _ E1).
    destruct (columns_add_ok w w1 arr cols base c Hd R1 Hc) as (w2 & E2 & Hd2 & Db2 & Hs2).
    rewrite (bind_Ret _ _ _ _ _ E2). assert (Db : w_db w2 = w_db w) by (rewrite Db2; apply R1).
    destruct (IH (row + 1) (cols ++ [c]) (done_ ++ [name]) w2) as (cols' & w' & E & Hlen & Db' & Hd' & Hn');
      rewrite ?Db; fold l; try done; try lia.
    + eapply columns_named_snoc; [|exact Hs2|exact Hcw|exact Hnm|exact Hc|exact Hcn].
      etrans; [apply heap_le_strings, R1|exact Hs2].
    + exists cols', w'. rewrite Hname. split; [done|]. split; [rewrite Hlen, length_app; cbn; lia|].
      split; [congruence|]. split; [done|]. rewrite Db in Hn'. fold l in Hn'.
      by rewrite <- app_assoc in Hn'.
Qed.

(** *** The whole function *)

Lemma pg_describe_ok (table : string) c h r l w :
  plenty w -> heap_wf w -> p_db (w_db w) = Some c -> c_conn c = Some h ->
  PQexecParams (Some h) describe_sql [PgText table] (p_env (w_db w)) = (Some r, l) ->
  PQresultStatus (Some r) l = PGRES_TUPLES_OK -> PQnfields r l = 5 ->
  exists arr cols w', pg_describe_table table w = Ret (CORM_OK, (Some arr, Z.of_nat (length cols))) w' /\
    columns_at (w_heap w') arr cols (w_heap w) /\
    columns_named (w_heap w') cols (names_in r l 0 (PQntuples r l)) /\
    plenty w' /\ heap_wf w' /\ w_db w' = set_lib (cleared (Some r) l) (w_db w).
Proof.
  intros Hp Hwf Hc Hh Eq Hst Hf.
  assert (Hl : PQ_live r l = true).
  { pose proof (exec_params_live (Some h) describe_sql [PgText table] (p_env (w_db w)) r) as H. rewrite Eq in H. by apply H. }
  pose proof (ntuples_size r l Hl) as Hm.
  unfold pg_describe_table, get_conn. rewrite bind_assoc, (bind_Ret _ _ _ _ _ (get_corm_ok w c Hc)), bind_ret_l, Hh.
  rewrite (bind_Ret _ _ _ _ _ (lib_ok _ w)), Eq. cbn [fst snd]. set (w1 := set_db _ w).
  assert (Ea : ask (PQresultStatus (Some r)) w1 = Ret (PQresultStatus (Some r) l) w1) by done.
  rewrite (bind_Ret _ _ _ _ _ Ea), Hst, Z.eqb_refl. cbn [negb].
  rewrite (bind_Ret _ _ _ _ _ (ask_res_ok r _ w1 Hl)). change (p_env (w_db w1)) with l.
  destruct (columns_new_ok w1 Hp Hwf) as (arr & w2 & E2 & Hd2 & Db2). rewrite (bind_Ret _ _ _ _ _ E2).
  destruct (pg_describe_rows_ok r (Z.to_nat (PQntuples r l)) 0 arr [] [] w2 (w_heap w))
    as (cols & w3 & E3 & Hlen & Db3 & [Hat Hp3 Hwf3] & Hn3); rewrite ?Db2; try done; [cbn; lia|constructor|].
  rewrite (bind_Ret _ _ _ _ _ E3). rewrite Db2 in Hn3, Db3.
  assert (Hl3 : PQ_live r (p_env (w_db w3)) = true) by by rewrite Db3.
  rewrite (bind_Ret _ _ _ _ _ (clear_ok r w3 Hl3)). eexists arr, cols, _. split.
  { rewrite Hlen. cbn [length Nat.add]. by rewrite Z2Nat.id by lia. }
  split; [done|]. split; [by rewrite Z2Nat.id in Hn3 by lia|]. split; [done|]. split; [done|].
  cbn. by rewrite Db3.
Qed.
End describe.

(** ** A server with a schema *)

Section schema.
Context {D R T X L : Type} `{!Libpq D R L} `{!LibpqSpec D R L} `{!LibpqExec D R L}.
#[local] Abbreviation S := (proc D (stmts T) X L).
Implicit Types (w : world S) (s : S) (h : D) (l : L).

(** Executing [sql] reports [e] and leaves the tables [sch] on a server that is
    still [sane], the result being cleared. *)
Definition pg_ddl (sane : L -> Prop) (schema_of : L -> schema_map) h (sql : string) l (e : corm_err)
    (sch : schema_map) : Prop :=
  let '(o, l') := PQexec (Some h) sql l in
  match answer o l' with Some _ => CORM_OK | None => CORM_ERR_BACKEND end = e /\
  sane (cleared o l') /\ schema_of (cleared o l') = sch.

(** In [pq_sane] states the statements of the migration of [ms] do what they say,
    and the query of [pg_describe_table] has a row of five columns for each column
    of the table, its name in the first. *)
Class LibpqSchema (ms : list (model S * list field)) : Type := {
  pq_sane : L -> Prop;
  pq_schema : L -> schema_map;
  pq_refuse_create : model S -> corm_err;
  pq_refuse_alter : model S -> field -> corm_err;
  pq_create m fs h l : (m, fs) ∈ ms -> pq_sane l ->
    pg_ddl pq_sane pq_schema h (create_table_text CORM_BACKEND_POSTGRES m fs) l (pq_refuse_create m)
      (if decide (pq_refuse_create m = CORM_OK) then created m fs (pq_schema l) else pq_schema l);
  pq_alter m fs f h l cols : (m, fs) ∈ ms -> f ∈ fs -> pq_sane l ->
    pq_schema l !! table_of m = Some cols -> fname f ∉ cols ->
    pg_ddl pq_sane pq_schema h (alter_text CORM_BACKEND_POSTGRES m f) l (pq_refuse_alter m f)
      (if decide (pq_refuse_alter m f = CORM_OK)
       then <[table_of m := cols ++ [fname f]]> (pq_schema l) else pq_schema l);
  pq_index m fs f h l : (m, fs) ∈ ms -> f ∈ fs -> pq_sane l -> exists e,
    pg_ddl pq_sane pq_schema h (index_text CORM_BACKEND_POSTGRES m f) l e (pq_schema l);
  pq_columns m fs h l names : (m, fs) ∈ ms -> pq_sane l -> pq_schema l !! table_of m = Some names ->
    exists r l', PQexecParams (Some h) describe_sql [PgText (table_of m)] l = (Some r, l') /\
      PQresultStatus (Some r) l' = PGRES_TUPLES_OK /\ PQnfields r l' = 5 /\
      names_in r l' 0 (PQntuples r l') = names /\
      pq_sane (cleared (Some r) l') /\ pq_schema (cleared (Some r) l') = pq_schema l
}.

Context (ms : list (model S * list field)) `{!LibpqSchema ms}.

(** The connection is open. *)
Definition pg_settled s : Prop :=
  exists c h, p_db s = Some c /\ c_conn c = Some h /\ pq_sane (p_env s).

Lemma heard_conn (h : option D) (o : option R) l (c : corm D (stmts T) X) :
  c_conn (heard h o l c).2 = c_conn c.
Proof. unfold heard, told. by destruct o as [r|]; repeat case_match; destruct c. Qed.

Lemma pg_ddl_effect s sql e sch c h :
  p_db s = Some c -> c_conn c = Some h -> pg_ddl pq_sane pq_schema h sql (p_env s) e sch ->
  let r := sql_exec (postgres_backend (D := D) (R := R) (T := T) (X := X) (L := L)) sql [] s in
  pg_settled r.2 /\ r.1 = e /\ pq_schema (p_env r.2) = sch.
Proof.
  intros Hc Hh Hd. cbn [sql_exec pg_driver]. unfold pg_effect, pg_ddl in *. rewrite Hc, Hh.
  cbn [send] in *. destruct (PQexec (Some h) sql (p_env s)) as [o l]. destruct Hd as (He & Hs & Hsch).
  pose proof (heard_conn (Some h) o l c) as Hcn. destruct (heard (Some h) o l c) as [e' c'] eqn:E.
  cbn in Hcn |- *. split; [|split; [|done]].
  - exists c', h. split; [done|]. split; [congruence|done].
  - rewrite <- He. unfold heard, answer in *. destruct o as [r|]; cbn; [|by injection E as <- _].
    destruct (answered r l); by injection E as <- _.
Qed.

#[export] Instance pg_schema :
  SchemaDriver (postgres_backend (D := D) (R := R) (T := T) (X := X) (L := L)) ms.
Proof.
  refine {| schema := pq_schema; create_error := pq_refuse_create; alter_error := pq_refuse_alter;
            settled := pg_settled; sd_describe := pg_describe_table |}.
  - intros s (c & h & Hc & Hh & _). split; [by eexists|].
    rewrite Hc. cbn. rewrite Hh. by eexists.
  - intros s log reads (c & h & Hs). by exists c, h.
  - intros s sql e c Hc (c' & h & Hc' & Hh & Hs). simplify_eq. exists (reported sql e c), h.
    split; [done|]. split; [|done]. unfold reported. by destruct c, (is_err e).
  - constructor.
  - intros m fs s Hin (c & h & Hc & Hh & Hs).
    exact (pg_ddl_effect s _ _ _ c h Hc Hh (pq_create m fs h _ Hin Hs)).
  - intros m fs f s cols Hin Hf (c & h & Hc & Hh & Hs) Hcol Hn.
    destruct (pg_ddl_effect s _ _ _ c h Hc Hh (pq_alter m fs f h _ cols Hin Hf Hs Hcol Hn)) as (H1 & _ & H3).
    by split.
  - intros m fs f s Hin Hf (c & h & Hc & Hh & Hs).
    destruct (pq_index m fs f h _ Hin Hf Hs) as [e Hx].
    destruct (pg_ddl_effect s _ _ _ c h Hc Hh Hx) as (H1 & _ & H3). by split.
  - reflexivity.
  - intros w m fs names Hin Hp Hwf (c & h & Hc & Hh & Hs) Hn.
    destruct (pq_columns m fs h _ names Hin Hs Hn) as (r & l & Eq & Hst & Hf & Hnames & Hs' & Hsch).
    destruct (pg_describe_ok (table_of m) c h r l w Hp Hwf Hc Hh Eq Hst Hf)
      as (arr & cols & w' & E & Hat & Hnm & Hp' & Hwf' & Hd').
    exists arr, cols, w'. rewrite Hnames in Hnm. rewrite Hd'. split_and!; try done. by exists c, h.
Defined.
End schema.

(** ** Transactions *)

(** BEGIN outside a transaction starts one (inside, it succeeds with a warning
    and does nothing).  A statement that fails dooms its transaction: the content
    is then what ROLLBACK restores, and so does COMMIT, although it succeeds. *)
Class LibpqTx (D R L C : Type) `{!Libpq D R L} : Type := {
  pq_content : L -> C;
  pq_saved : L -> option C;
  pq_begin h (l : L) : pq_saved l = None ->
    let '(o, l') := PQexec (Some h) "BEGIN" l in
    pq_content (cleared o l') = pq_content l /\
    (is_Some (answer o l') -> pq_saved (cleared o l') = Some (pq_content l));
  pq_commit h (l : L) :
    let '(o, l') := PQexec (Some h) "COMMIT" l in
    is_Some (answer o l') -> pq_content (cleared o l') = pq_content l;
  pq_rollback h (l : L) c : pq_saved l = Some c ->
    let '(o, l') := PQexec (Some h) "ROLLBACK" l in pq_content (cleared o l') = c
}.
Arguments LibpqTx D R L C {_}.

Section transactions.
Context {D R T X L C : Type} `{!Libpq D R L} `{!LibpqSpec D R L} `{!LibpqExec D R L}.
Context `{!LibpqTx D R L C}.
#[local] Abbreviation S := (proc D (stmts T) X L).
#[local] Abbreviation driver := (postgres_backend (D := D) (R := R) (T := T) (X := X) (L := L)).
Implicit Types (w : world S) (s : S).

(** A statement of the transaction API: what the library says holds of the
    driver. *)
Lemma pg_tx_statement sql w (P : bool -> L -> Prop) :
  usable driver (w_db w) ->
  (forall h, let '(o, l) := PQexec (Some h) sql (p_env (w_db w)) in
     P (if answer o l then true else false) (cleared o l)) ->
  exists e d, pg_exec sql [] w = Ret e (set_db d w) /\ alloc_only w w /\ usable driver d /\
    P (bool_decide (e = CORM_OK)) (p_env d).
Proof.
  intros Hu HP. pose proof (effect_keeps_usable sql [] _ Hu) as Hu'. destruct Hu as [[c Hc] Hh].
  rewrite Hc in Hh. cbn in Hh. destruct Hh as [h Hh]. specialize (HP h).
  pose proof (pg_exec_tight sql c w Hc) as E. unfold pg_effect in E, Hu'. rewrite Hc, Hh in E, Hu'. cbn [send] in E, Hu'.
  destruct (PQexec (Some h) sql (p_env (w_db w))) as [o l].
  destruct (heard (Some h) o l c) as [e c'] eqn:Eh. eexists e, _. split; [exact E|]. split; [by repeat split|].
  split; [done|]. cbn. unfold heard, answer in *. destruct o as [r|]; cbn in *; [destruct (answered r l)|];
    by injection Eh as <- _.
Qed.

#[export] Instance pg_tx : Transactional (K := C) driver.
Proof.
  refine {| content := fun s => pq_content (p_env s); saved := fun s => pq_saved (p_env s);
            tx_free := fun s => pq_saved (p_env s) = None;
            tx_begin := pg_begin; tx_commit := pg_commit; tx_rollback := pg_rollback |}; try reflexivity.
  - intros w Hu Hf. destruct (pg_tx_statement "BEGIN" w (fun ok l => pq_content l = pq_content (p_env (w_db w)) /\
      (ok = true -> pq_saved l = Some (pq_content (p_env (w_db w))))) Hu) as (e & d & E & Ha & Hd & Hc & Hs).
    { intros h. pose proof (pq_begin h _ Hf) as H. destruct (PQexec _ _ _) as [o l]. destruct H as [H1 H2].
      split; [done|]. destruct (answer o l); [|done]. intros _. by apply H2. }
    exists e, d, w. split_and!; try done. intros ->. by apply Hs.
  - intros w Hu. destruct (pg_tx_statement "COMMIT" w (fun ok l => ok = true ->
      pq_content l = pq_content (p_env (w_db w))) Hu) as (e & d & E & Ha & Hd & Hc).
    { intros h. pose proof (pq_commit h (p_env (w_db w))) as H. destruct (PQexec _ _ _) as [o l].
      destruct (answer o l); [|done]. intros _. by apply H. }
    exists e, d, w. split_and!; try done. intros ->. by apply Hc.
  - intros w k Hu Hk. destruct (pg_tx_statement "ROLLBACK" w (fun _ l => pq_content l = k) Hu)
      as (e & d & E & Ha & Hd & Hc).
    { intros h. pose proof (pq_rollback h _ k Hk) as H. by destruct (PQexec _ _ _). }
    by exists e, d, w.
Defined.
End transactions.

(** ** A server that migrates *)

(** The tables, those a ROLLBACK restores, and the number of results that were
    not cleared. *)
Record pg_server : Type := PgServer {
  pg_tables : schema_map;
  pg_saved : option schema_map;
  pg_results : nat
}.

(** The tables after a command, and those a ROLLBACK then restores: the
    statements of a migration belong to the transaction they run in. *)
Definition pg_run (sql : string) (l : pg_server) : schema_map * option schema_map :=
  let k := pg_tables l in
  if String.eqb sql "BEGIN" then (k, Some (default k (pg_saved l)))
  else if String.eqb sql "COMMIT" then (k, None)
  else if String.eqb sql "ROLLBACK" then (default k (pg_saved l), None)
  else (run_known CORM_BACKEND_POSTGRES sql k, pg_saved l).

Definition columns_of (sch : schema_map) (qs : list pg_param) : list string :=
  match qs with [PgText t] => take 100 (default [] (sch !! t)) | _ => [] end.

(** A result is the list of the columns of a table, or nothing for a command. *)
#[export] Instance pg_server_api : Libpq unit (option (list string)) pg_server := {|
  PQconnectdb _ l := (Some tt, l);
  PQstatus o _ := match o with Some _ => 0 | None => 1 end;
  PQerrorMessage _ _ := "";
  PQfinish _ l := (tt, l);
  PQexec _ sql l := (Some None, PgServer (pg_run sql l).1 (pg_run sql l).2 (Datatypes.S (pg_results l)));
  PQexecParams _ sql qs l :=
    (Some (Some (columns_of (pg_tables l) qs)), PgServer (pg_tables l) (pg_saved l) (Datatypes.S (pg_results l)));
  PQ_live r l :=
    (0 <? pg_results l)%nat && match r with Some ns => (length ns <=? 100)%nat | None => true end;
  PQresultStatus o _ :=
    match o with Some (Some _) => PGRES_TUPLES_OK | Some None => PGRES_COMMAND_OK | None => 7 end;
  PQcmdTuples _ _ := "";
  PQntuples r _ := Z.of_nat (length (default [] r));
  PQnfields r _ := match r with Some _ => 5 | None => 0 end;
  PQgetvalue r row i _ := Some (if i =? 0 then default "" (default [] r !! Z.to_nat row) else "");
  PQgetisnull _ _ _ _ := false;
  PQfname _ _ _ := Some "";
  PQftype _ _ _ := 25;
  PQclear _ l := (tt, PgServer (pg_tables l) (pg_saved l) (Nat.pred (pg_results l)));
  PQunescapeBytea s _ := Some (list_ascii_of_string s);
  PQescapeStringConn _ s _ := s
|}.

#[export] Instance pg_server_spec : LibpqSpec unit (option (list string)) pg_server.
Proof.
  split; try done.
  - intros h sql l r [= <-]. done.
  - intros h sql qs l r [= <-]. cbn. apply Nat.leb_le. unfold columns_of. repeat case_match; cbn; try lia.
    rewrite length_take. lia.
  - intros [ns|] l _; cbn; lia.
  - intros [ns|] l Hl; cbn in Hl |- *; [|lia]. apply andb_prop in Hl as [_ Hl%Nat.leb_le]. lia.
Qed.

#[export] Instance pg_server_exec : LibpqExec unit (option (list string)) pg_server.
Proof. split; [done|]. by eexists. Qed.

Lemma list_by_index (ns : list string) :
  ((fun i => default "" (ns !! Z.to_nat i)) <$> seqZ 0 (Z.of_nat (length ns))) = ns.
Proof.
  apply list_eq. intros i. rewrite list_lookup_fmap. destruct (decide (i < length ns)%nat) as [Hi|Hi].
  - rewrite lookup_seqZ_lt by lia. cbn. rewrite Z.add_0_l, Nat2Z.id.
    by destruct (lookup_lt_is_Some_2 ns i Hi) as [x ->].
  - rewrite lookup_seqZ_ge by lia. cbn. symmetry. apply lookup_ge_None. lia.
Qed.

Definition pg_ordinary (sql : string) : bool :=
  negb (String.eqb sql "BEGIN" || String.eqb sql "COMMIT" || String.eqb sql "ROLLBACK").

(** What another command does. *)
Lemma pg_command h sql l :
  pg_ordinary sql = true -> schema_tame (pg_tables l) ->
  pg_ddl (D := unit) (fun l => schema_tame (pg_tables l)) pg_tables h sql l CORM_OK
    (run_known CORM_BACKEND_POSTGRES sql (pg_tables l)).
Proof.
  unfold pg_ordinary, pg_ddl. cbn [PQexec pg_server_api]. unfold pg_run. intros Ho Hs.
  destruct (String.eqb sql "BEGIN"), (String.eqb sql "COMMIT"), (String.eqb sql "ROLLBACK"); try done.
  split; [done|]. split; [|done]. by apply run_known_tame.
Qed.

Section samples.
Context {S : Type} (m : model S) (fs : list field) (Hin : (m, fs) ∈ sample_models).

Lemma pg_create_ordinary : pg_ordinary (create_table_text CORM_BACKEND_POSTGRES m fs) = true.
Proof. each_model Hin. Qed.

Lemma pg_alter_ordinary f :
  f ∈ fs -> pg_ordinary (alter_text CORM_BACKEND_POSTGRES m f) = true /\
  pg_ordinary (index_text CORM_BACKEND_POSTGRES m f) = true.
Proof. intros Hf. each_field Hin Hf. Qed.
End samples.

#[export] Instance pg_server_schema :
  LibpqSchema (D := unit) (R := option (list string)) (T := unit) (X := unit) (L := pg_server) sample_models.
Proof.
  refine {| pq_sane := fun l => schema_tame (pg_tables l); pq_schema := pg_tables;
            pq_refuse_create := fun _ => CORM_OK; pq_refuse_alter := fun _ _ => CORM_OK |}.
  - intros m fs h l Hin Hs. pose proof (pg_command h _ l (pg_create_ordinary m fs Hin) Hs) as Hd.
    unfold run_known in Hd. by rewrite (find_known_create m fs Hin CORM_BACKEND_POSTGRES) in Hd.
  - intros m fs f h l cols Hin Hf Hs Hc Hn.
    pose proof (pg_command h _ l (proj1 (pg_alter_ordinary m fs Hin f Hf)) Hs) as Hd.
    unfold run_known in Hd. rewrite (find_known_alter m fs Hin CORM_BACKEND_POSTGRES f Hf) in Hd. cbn in Hd.
    rewrite Hc, decide_False in Hd by done. exact Hd.
  - intros m fs f h l Hin Hf Hs. exists CORM_OK.
    pose proof (pg_command h _ l (proj2 (pg_alter_ordinary m fs Hin f Hf)) Hs) as Hd.
    unfold run_known in Hd. by rewrite (find_known_index m fs Hin CORM_BACKEND_POSTGRES f Hf) in Hd.
  - intros m fs h l names Hin Hs Hn. eexists _, _. split; [reflexivity|].
    pose proof (tame_columns _ _ _ Hs Hn) as Hlen.
    cbn [columns_of]. rewrite Hn. cbn [default from_option id]. rewrite take_ge by lia.
    split; [done|]. split; [done|]. split; [|by destruct l].
    exact (list_by_index names).
Defined.

Definition pg_old_world : world (proc unit (stmts unit) unit pg_server) :=
  World [] ∅ 1%positive
    (Proc (Some (Corm (Some tt) CORM_DEFAULT_CONFIG registry_zero CORM_OK "" "" 0 0 None None 0))
      [] (fun _ => (0, 0)) 0%nat (PgServer old_schema None 0)).

(** The missing column and the missing table are added, and every result is
    cleared. *)
Example pg_migrates :
  match corm_auto_migrate (Some (Some postgres_backend)) (Some [Some user_model; Some note_model]) 2
          pg_old_world with
  | Ret e w => (e, map_to_list (pg_tables (p_env (w_db w))), pg_results (p_env (w_db w)),
                map_to_list (w_heap w)) = (CORM_OK, map_to_list new_schema, O, [])
  | Stuck => False
  end.
Proof. vm_compute. reflexivity. Qed.

#[export] Instance pg_server_tx : LibpqTx unit (option (list string)) pg_server schema_map.
Proof.
  refine {| pq_content := pg_tables; pq_saved := pg_saved |}; intros h l; [|done|].
  - intros Hs. cbn. by rewrite Hs.
  - intros c Hc. cbn. by rewrite Hc.
Defined.

(** A migration in a transaction that then fails is undone. *)
Example pg_migration_undone :
  match corm_transaction (Some postgres_backend)
          (Some (corm_auto_migrate (Some (Some postgres_backend)) (Some [Some user_model; Some note_model]) 2;;
                 mret CORM_ERR_DUP)) pg_old_world with
  | Ret e w => (e, map_to_list (pg_tables (p_env (w_db w))), pg_saved (p_env (w_db w))) =
               (CORM_ERR_DUP, map_to_list old_schema, None)
  | Stuck => False
  end.
Proof. vm_compute. reflexivity. Qed.
