(* ===== verification/TestSuite.v ===== *)
(** * The assertions of the test programs

    The tests of [tests/] that open no database: every [assert] of them is an
    equation that holds by evaluation.  The others are in [TestPrograms.v]. *)

From S2P Require Import Prelude Types Mem Strbuf Dialect Model Backend Query Builder QuerySpec.
From S2P Require Import Sample Tx Driver Exec Batch Core StmtCache Pool.

(** The result of a program that is not stuck. *)
Definition result_of {S A} (m : M S A) (w : world S) : option A :=
  match m w with Ret a _ => Some a | Stuck => None end.

Fixpoint starts (s t : string) : bool :=
  match s, t with
  | EmptyString, _ => true
  | String a s, String c t => Ascii.eqb a c && starts s t
  | _, _ => false
  end.

(** [strstr(t, s) != NULL]. *)
Fixpoint strstr (t s : string) : bool :=
  starts s t || match t with EmptyString => false | String _ t => strstr t s end.

Definition q2 (s : string) : string := dquote +:+ s +:+ dquote.

(** ** [test_query.c] *)

Definition test_user_fields : list field :=
  [Field (Some "id") CORM_INT 0 4 (Z.lor CORM_FLAG_PRIMARY CORM_FLAG_AUTOINC) None None;
   Field (Some "name") CORM_STRING 4 256 CORM_FLAG_NOT_NULL None None;
   Field (Some "age") CORM_INT 260 4 0 None None].

Definition test_user_model {S} : model S :=
  Model (Some "test_users") 264 (Some test_user_fields) 3 (head test_user_fields)
    None None None None None None None.

(** [memset(&mock, 0, sizeof(mock))] and the buffers. *)
Definition mock {S} : query S :=
  let sb := corm_strbuf_init in
  Query None (Some test_user_model) CORM_OP_SELECT sb sb sb sb sb sb sb [] 0 0 0 false false "".

(** The text [corm_build_sql] generates for the mock that [setup] prepares. *)
Definition mock_sql (bt : corm_backend_type) (setup : query unit -> M unit (query unit)) : string :=
  default "stuck" (result_of
    (q ← setup mock; '(_, sql) ← corm_build_sql q corm_strbuf_init bt; corm_strbuf_cstr sql) empty_world).

Definition add_where (s : string) (q : query unit) : M unit (query unit) :=
  sb ← sb_add (q_where q) s; mret (set_q_where sb q).
Definition add_order (s : string) (q : query unit) : M unit (query unit) :=
  sb ← sb_add (q_order q) s; mret (set_q_order sb q).
Definition add_set (s : string) (q : query unit) : M unit (query unit) :=
  sb ← sb_add (q_set_clause q) s; mret (set_q_set sb q).

Example test_build_select :
  mock_sql CORM_BACKEND_SQLITE mret = "SELECT * FROM " +:+ q2 "test_users".
Proof. vm_compute. reflexivity. Qed.

Example test_build_select_with_where :
  let result := mock_sql CORM_BACKEND_SQLITE (fun q =>
    q ← add_where "age > ?" (set_q_limit 10 q); add_order "name ASC" q) in
  strstr result "WHERE age > ?" && strstr result "ORDER BY name ASC" && strstr result "LIMIT 10" = true.
Proof. vm_compute. reflexivity. Qed.

Example test_build_insert :
  let result := mock_sql CORM_BACKEND_SQLITE (fun q => mret (set_q_op CORM_OP_INSERT q)) in
  strstr result (q2 "test_users") && strstr result (q2 "name") && strstr result (q2 "age") &&
  strstr result "?" = true.
Proof. vm_compute. reflexivity. Qed.

Definition mock_update (q : query unit) : M unit (query unit) :=
  q ← add_set "name = ?, age = ?" (set_q_op CORM_OP_UPDATE q); add_where "id = ?" q.

Example test_build_update :
  let result := mock_sql CORM_BACKEND_SQLITE mock_update in
  strstr result (q2 "test_users") && strstr result "name = ?, age = ?" &&
  strstr result "WHERE id = ?" = true.
Proof. vm_compute. reflexivity. Qed.

Example test_build_delete :
  let result := mock_sql CORM_BACKEND_SQLITE (fun q => add_where "id = ?" (set_q_op CORM_OP_DELETE q)) in
  strstr result (q2 "test_users") && strstr result "WHERE id = ?" = true.
Proof. vm_compute. reflexivity. Qed.

Example test_build_insert_pg :
  let result := mock_sql CORM_BACKEND_POSTGRES (fun q => mret (set_q_op CORM_OP_INSERT q)) in
  strstr result (q2 "test_users") && strstr result "$1" && strstr result "$2" &&
  negb (strstr result "?") = true.
Proof. vm_compute. reflexivity. Qed.

Example test_build_update_pg :
  let result := mock_sql CORM_BACKEND_POSTGRES mock_update in
  strstr result (q2 "test_users") && strstr result "name = $1" && strstr result "age = $2" &&
  strstr result "WHERE id = $3" = true.
Proof. vm_compute. reflexivity. Qed.

Example test_dialect :
  corm_dialect_placeholder_str CORM_BACKEND_SQLITE 0 16 = "?" /\
  corm_dialect_placeholder_str CORM_BACKEND_POSTGRES 0 16 = "$1" /\
  corm_dialect_placeholder_str CORM_BACKEND_POSTGRES 1 16 = "$2".
Proof. vm_compute. auto. Qed.

Example test_advanced_where :
  result_of (q ← corm_query_where_null (Some mock) (Some "deleted_at"); q ← deref q;
             corm_strbuf_cstr (q_where q)) empty_world = Some "deleted_at IS NULL".
Proof. vm_compute. reflexivity. Qed.

Example test_build_distinct :
  mock_sql CORM_BACKEND_SQLITE (fun q => mret (set_q_distinct true q)) =
  "SELECT DISTINCT * FROM " +:+ q2 "test_users".
Proof. vm_compute. reflexivity. Qed.

(** ** [test_predicates.c] *)

(** The text of the WHERE clause and the number of parameters. *)
Example test_where_in_and_between :
  result_of (
    q ← corm_query_where_in (Some mock) (Some "age") (Some [int_val 10; int_val 20; int_val 30]) 3;
    q ← deref q;
    s1 ← corm_strbuf_cstr (q_where q);
    q' ← corm_query_where_between (Some q) (Some "score") (int_val 1) (int_val 100);
    q' ← deref q';
    s2 ← corm_strbuf_cstr (q_where q');
    mret (strstr s1 "age IN (?, ?, ?)", q_param_count q,
          strstr s2 "score BETWEEN ? AND ?", q_param_count q')) empty_world = Some (true, 3, true, 5).
Proof. vm_compute. reflexivity. Qed.

(** ** [test_model.c] *)

Definition wide_fields : list field :=
  [Field (Some "id") CORM_INT 0 4 (Z.lor CORM_FLAG_PRIMARY CORM_FLAG_AUTOINC) None None;
   Field (Some "name") CORM_STRING 4 256 CORM_FLAG_NOT_NULL None None;
   Field (Some "age") CORM_INT 260 4 0 (Some "0") None;
   Field (Some "score") CORM_FLOAT 264 4 0 None None;
   Field (Some "active") CORM_BOOL 268 1 0 None None].

Definition wide_model : model unit :=
  Model (Some "test_users") 272 (Some wide_fields) 5 (head wide_fields)
    None None None None None None None.

Definition wide_rec : rec :=
  {[0 := CInt 42; 4 := CChars (strncpy_bytes "test" 256); 260 := CInt 25;
    264 := CFloat 0x40600000; 268 := CBool true]}.

Definition wide_world : world unit := World [] {[1%positive := BRecs [wide_rec]]} 2%positive tt.
Definition the_user : recptr := (1%positive, O).

Example test_model_descriptor :
  m_table_name wide_model = Some "test_users" /\ m_field_count wide_model = 5 /\
  m_primary_key wide_model = wide_fields !! 0%nat /\
  (f_name <$> m_primary_key wide_model) = Some (Some "id").
Proof. vm_compute. auto. Qed.

Example test_field_flags :
  match wide_fields with
  | id :: name :: age :: _ =>
      has_flag (f_flags id) CORM_FLAG_PRIMARY && has_flag (f_flags id) CORM_FLAG_AUTOINC &&
      has_flag (f_flags name) CORM_FLAG_NOT_NULL && bool_decide (f_default_value age = Some "0")
  | _ => false
  end = true.
Proof. reflexivity. Qed.

Example test_field_find :
  (f_name <$> default None (result_of (corm_find_field wide_model "name") wide_world)) = Some (Some "name") /\
  result_of (corm_find_field wide_model "nonexistent") wide_world = Some None.
Proof. vm_compute. auto. Qed.

Example test_field_get :
  result_of (
    f ← deref (wide_fields !! 0%nat); g ← deref (wide_fields !! 1%nat);
    v ← corm_field_get_value the_user f; u ← corm_field_get_value the_user g;
    i ← deref (u_as_i (v_u v)); p ← deref (u_as_s (v_u u)); s ← read_str p;
    mret (v_type v, i, v_type u, s)) wide_world = Some (CORM_INT, 42, CORM_STRING, "test").
Proof. vm_compute. reflexivity. Qed.

Example test_field_set :
  result_of (
    f ← deref (wide_fields !! 0%nat); g ← deref (wide_fields !! 4%nat);
    corm_field_set_value the_user f (int_val 99);;
    corm_field_set_value the_user g (Value CORM_BOOL false (UBool false));;
    h ← get_heap;
    rc ← deref (heap_rec h the_user);
    mret (rc !! 0, rc !! 268)) wide_world = Some (Some (CInt 99), Some (CBool false)).
Proof. vm_compute. reflexivity. Qed.

Definition orders_relation : corm_relation :=
  Relation (Some "orders") CORM_REL_HAS_MANY (Some "orders") (Some "user_id").

Example test_model_associations :
  rel_name orders_relation = Some "orders" /\ rel_type orders_relation = CORM_REL_HAS_MANY.
Proof. auto. Qed.

Definition dup_fields : list field :=
  [Field (Some "id") CORM_INT 0 4 CORM_FLAG_PRIMARY None None; Field (Some "id") CORM_INT 0 4 0 None None].
Definition dup_model : model unit :=
  Model (Some "dup_table") 272 (Some dup_fields) 2 None None None None None None None None.
Definition invalid_name_model : model unit :=
  Model (Some "invalid;table--") 272 (Some dup_fields) 1 None None None None None None None None.

Example test_validate_model :
  result_of (corm_validate_model (Some dup_model)) wide_world = Some CORM_ERR_DUP /\
  result_of (corm_validate_model (Some invalid_name_model)) wide_world = Some CORM_ERR_TYPE /\
  result_of (corm_validate_model (Some wide_model)) wide_world = Some CORM_OK.
Proof. vm_compute. auto. Qed.

(** ** [test_core.c] *)

Example test_error_codes :
  (err_code CORM_OK =? 0) && (err_code CORM_ERR_GENERIC <? 0) && (err_code CORM_ERR_NOMEM <? 0) = true.
Proof. reflexivity. Qed.

Example test_err_string :
  forallb (fun e => negb (String.eqb (corm_err_string (err_code e)) ""))
    [CORM_OK; CORM_ERR_GENERIC; CORM_ERR_NOMEM; CORM_ERR_NOTFOUND; CORM_ERR_BACKEND; CORM_ERR_TYPE;
     CORM_ERR_NULL; CORM_ERR_BOUNDS; CORM_ERR_MISMATCH] = true.
Proof. reflexivity. Qed.

Example test_config_defaults :
  let cfg := CORM_DEFAULT_CONFIG in
  max_open_conns cfg = 0 /\ max_idle_conns cfg = 2 /\ timeout_ms cfg = 30000 /\ verbose_logging cfg = false.
Proof. auto. Qed.

Example test_savepoint {D C X E} (w : world (proc D C X E)) :
  corm_savepoint None (Some "sp1") w = Ret CORM_ERR_NULL w /\
  corm_rollback_to None (Some "sp1") w = Ret CORM_ERR_NULL w /\
  corm_release_savepoint None (Some "sp1") w = Ret CORM_ERR_NULL w.
Proof. auto. Qed.

(** The callbacks store in a variable and succeed or fail. *)
Definition sample_tx (z : Z) (e : corm_err) : M counter_db corm_err :=
  d ← get_db; put_db (z, snd d);; mret e.

Example test_transaction_helper :
  result_of (
    e1 ← corm_transaction (Some counter_backend) (Some (sample_tx 42 CORM_OK));
    d ← get_db;
    e2 ← corm_transaction (Some counter_backend) (Some (sample_tx 99 CORM_ERR_GENERIC));
    mret (e1, fst d, e2)) (World [] ∅ 1%positive (0, None)) = Some (CORM_OK, 42, CORM_ERR_GENERIC).
Proof. vm_compute. reflexivity. Qed.

(** ** [test_stmt_cache.c] *)

Example test_statement_cache :
  result_of (
    '(err, c) ← corm_stmt_cache_create 2 true;
    '(e1, c) ← corm_stmt_cache_put c (Some "SELECT 1") (Some 0x1000);
    '(e2, c) ← corm_stmt_cache_put c (Some "SELECT 2") (Some 0x2000);
    '(s1, c) ← corm_stmt_cache_get c (Some "SELECT 1");
    '(s2, c) ← corm_stmt_cache_get c (Some "SELECT 2");
    '(e3, c) ← corm_stmt_cache_put c (Some "SELECT 3") (Some 0x3000);
    '(s3, c) ← corm_stmt_cache_get c (Some "SELECT 3");
    left ← corm_stmt_cache_destroy c;
    mret ([err; e1; e2; e3], [s1; s2; s3], size left)) empty_world =
  Some ([CORM_OK; CORM_OK; CORM_OK; CORM_OK], [Some 0x1000; Some 0x2000; Some 0x3000], O).
Proof. vm_compute. reflexivity. Qed.

(** ** [test_pool.c] *)

Definition pool_cfg (max_open max_idle lifetime timeout : Z) : corm_config :=
  Config max_open max_idle lifetime timeout false 0.

(** A pool whose connections open and answer; connections are numbered. *)
Definition acquire (cfg : corm_config) (now_ms : Z) (id : positive) (p : pool) :
    option (corm_err * option conn * option pool * list conn) :=
  corm_pool_acquire cfg (fun _ => CORM_OK) (fun _ => now_ms) (fun _ => (CORM_OK, Conn id now_ms))
    (Some p) true.

Definition release (cfg : corm_config) (p : pool) (c : conn) : pool :=
  snd (release_section cfg true c p).

Example test_connection_pool :
  let cfg := pool_cfg 2 2 0 5000 in
  match acquire cfg 0 1 pool_create with
  | Some (CORM_OK, Some db1, Some p, _) =>
      match acquire cfg 0 2 p with
      | Some (CORM_OK, Some db2, Some p, _) =>
          map (fun cs => fst (fst (release_section cfg true (snd cs) (fst cs))))
            [(p, db1); (release cfg p db1, db2)] = [CORM_OK; CORM_OK]
      | _ => False
      end
  | _ => False
  end.
Proof. vm_compute. reflexivity. Qed.

Example test_pool_timeout :
  let cfg := pool_cfg 1 1 0 100 in
  match acquire cfg 0 1 pool_create with
  | Some (CORM_OK, Some _, Some p, _) => (fun r => fst (fst (fst r))) <$> acquire cfg 0 2 p
  | _ => None
  end = Some CORM_ERR_GENERIC.
Proof. vm_compute. reflexivity. Qed.

(** Five connections lent and given back. *)
Example test_pool_idle_limit :
  let cfg := pool_cfg 0 2 0 5000 in
  let lent := fold_left (fun s id =>
    '(p, cs) ← s;
    match acquire cfg 0 id p with
    | Some (CORM_OK, Some c, Some p, _) => Some (p, c :: cs)
    | _ => None
    end) [1; 2; 3; 4; 5]%positive (Some (pool_create, [])) in
  (fun '(p, cs) => let p := fold_left (release cfg) cs p in (p_idle_count p, p_current_open p)) <$> lent =
  Some (2, 2).
Proof. vm_compute. reflexivity. Qed.

(** After 60 ms the connection is too old: it is closed and a new one opened. *)
Example test_pool_conn_max_lifetime :
  let cfg := pool_cfg 0 2 50 5000 in
  match acquire cfg 0 1 pool_create with
  | Some (CORM_OK, Some c, Some p, _) =>
      match acquire cfg 60 2 (release cfg p c) with
      | Some (CORM_OK, Some c', _, closed) =>
          (cn_created_at_ms c <? cn_created_at_ms c') && bool_decide (closed = [c])
      | _ => false
      end
  | _ => false
  end = true.
Proof. vm_compute. reflexivity. Qed.
