(* ===== verification/TestPrograms.v ===== *)
(** * The test programs that use a database ([tests/])

    [test_sqlite.c], [test_corm_api.c], [test_migration.c], [test_hooks.c],
    [test_full_hooks.c], [test_soft_delete.c], [test_preload.c], [test_logger.c]
    and the tests of [test_query.c] and [test_core.c] that open one, for whatever
    drivers are registered ([g]).  A failed [assert] aborts, which is stuck here.
    The static variables of a program are a record in memory. *)

From S2P Require Import Prelude Types Mem Strbuf Hash Float CLib Model Backend Query Builder.
From S2P Require Import Result Tx Exec Batch Core Migration Stdio Examples TestSuite.

(** ** Static variables *)

Definition statics : recptr := (1%positive, O).

(** [tests_passed] and [tests_failed], the counters of [test_corm_api.c], its
    pointers to records, and the flags of the hook tests. *)
Definition S_PASSED : Z := 0.
Definition S_FAILED : Z := 4.
Definition S_BEFORE_UPDATE : Z := 8.
Definition S_AFTER_UPDATE : Z := 12.
Definition S_BEFORE_DELETE : Z := 16.
Definition S_AFTER_DELETE : Z := 20.
Definition S_LAST_BEFORE_UPDATE : Z := 24.
Definition S_LAST_AFTER_UPDATE : Z := 32.
Definition S_LAST_BEFORE_DELETE : Z := 40.
Definition S_LAST_AFTER_DELETE : Z := 48.
Definition S_FLAGS : list Z := [56; 57; 58; 59; 60; 61; 62].

Definition statics_rec : rec :=
  list_to_map
    (map (fun o => (o, CInt 0)) [S_PASSED; S_FAILED; S_BEFORE_UPDATE; S_AFTER_UPDATE; S_BEFORE_DELETE; S_AFTER_DELETE] ++
     map (fun o => (o, CPtr PNull))
       [S_LAST_BEFORE_UPDATE; S_LAST_AFTER_UPDATE; S_LAST_BEFORE_DELETE; S_LAST_AFTER_DELETE] ++
     map (fun o => (o, CBool false)) S_FLAGS).

Definition statics_heap : gmap loc block := {[1%positive := BRecs [statics_rec]]}.

(** ** Models *)

Definition id_field : field := CORM_FIELD "id" 0 4 CORM_INT (Z.lor CORM_FLAG_PRIMARY CORM_FLAG_AUTOINC) None.
Definition key_field (name : string) (offset : Z) : field :=
  CORM_FIELD name offset 4 CORM_INT CORM_FLAG_PRIMARY None.
Definition int_field (name : string) (offset : Z) : field := CORM_FIELD name offset 4 CORM_INT 0 None.
Definition text_field (name : string) (offset size flags : Z) : field :=
  CORM_FIELD name offset size CORM_STRING flags None.

(** [{int id; char name[64];}]. *)
Definition named_fields (key : field) : list field := [key; text_field "name" 4 64 0].
Definition named_rec (id : Z) (name : string) : rec := {[0 := CInt id; 4 := chars name 64]}.

Definition person_fields : list field :=
  [id_field; text_field "name" 4 64 CORM_FLAG_NOT_NULL; int_field "age" 68].
Definition person_model {S} : model S := plain_model "persons" 72 person_fields.
Definition person (name : string) (age : Z) : rec := {[0 := CInt 0; 4 := chars name 64; 68 := CInt age]}.

Definition order_fields : list field := [id_field; text_field "title" 4 64 0; int_field "user_id" 68].
Definition order_model {S} : model S := plain_model "preload_orders" 72 order_fields.
Definition preload_user_model {S} : model S := plain_model "preload_users" 68 (named_fields id_field).

Definition soft_fields : list field :=
  [id_field; text_field "name" 4 64 0; text_field "deleted_at" 68 32 CORM_FLAG_SOFT_DELETE].
Definition soft_user_model {S} : model S := plain_model "soft_users" 100 soft_fields.

(** Without [primary_key]. *)
Definition keyless_model {S} (table : string) (size : Z) (fs : list field) : model S :=
  Model (Some table) size (Some fs) (Z.of_nat (length fs)) None None None None None None None None.

Definition keyless_fields : list field := named_fields (int_field "id" 0).

Definition model_v1 {S} : model S := plain_model "mig_users" 68 (named_fields (key_field "id" 0)).
Definition model_v2 {S} : model S :=
  plain_model "mig_users" 196 (named_fields (key_field "id" 0) ++ [text_field "email" 68 128 0]).
Definition reserved_model {S} : model S :=
  plain_model "reserved_test" 68 [key_field "id" 0; text_field "group" 4 64 0].
Definition indexed_model {S} : model S :=
  plain_model "indexed_test" 68 [key_field "id" 0; text_field "email" 4 64 CORM_FLAG_INDEX].
Definition dept_model {S} : model S := plain_model "fk_dept" 68 (named_fields (key_field "id" 0)).
(** [emp_fields[1].fk_ref] is assigned. *)
Definition emp_fields (fk_ref : option string) : list field :=
  [key_field "id" 0; Field (Some "dept_id") CORM_INT 4 4 CORM_FLAG_NOT_NULL None fk_ref;
   text_field "name" 8 64 0].
Definition emp_model {S} (fk_ref : option string) : model S := plain_model "fk_emp" 72 (emp_fields fk_ref).
Definition constraint_add_model {S} : model S :=
  plain_model "constraint_add_test" 72
    [key_field "id" 0; text_field "label" 4 64 CORM_FLAG_NOT_NULL;
     CORM_FIELD "status" 68 4 CORM_INT 0 (Some "0")].
Definition user_role_model {S} : model S :=
  keyless_model "user_roles" 40
    [key_field "tenant_id" 0; key_field "user_id" 4; text_field "role" 8 32 0].

(** [TestUser] of [test_query.c]. *)
Definition test_user (name : string) (age : Z) : rec :=
  {[0 := CInt 0; 4 := chars name 256; 260 := CInt age]}.

Section tests.
Context {D C X E : Type} `{!CacheApi (proc D C X E) C}.
#[local] Abbreviation S := (proc D C X E).
Context (g : list (backend S)).
Implicit Types (b : backend S) (db : option (option (backend S))).

(** ** What the programs share *)

Definition count_up (off : Z) : M S unit := n ← member_int statics off; store_cell statics off (CInt (n + 1)).

Definition TEST (name : string) : io S unit := printf "  TEST: %s ... " [PS name].
Definition PASS : io S unit := printf (ln "PASS") [];; call (count_up S_PASSED).
Definition FAIL (msg : string) : io S unit := printf (ln "FAIL: %s") [PS msg];; call (count_up S_FAILED).
Definition assert (c : bool) : io S unit := if c then mret tt else call stuck.

Definition is_ok (err : corm_err) : bool := negb (is_err err).
Definition eq_err (e1 e2 : corm_err) : bool := bool_decide (e1 = e2).

(** [TEST(name); err = m; assert(err == CORM_OK); PASS();] and its opposite. *)
Definition passes (name : string) (m : M S corm_err) : io S unit :=
  TEST name;; err ← call m; assert (is_ok err);; PASS.
Definition rejects (name : string) (m : M S corm_err) : io S unit :=
  TEST name;; err ← call m; assert (is_err err);; PASS.
Definition holds (name : string) (c : M S bool) : io S unit :=
  TEST name;; c ← call c; assert c;; PASS.

(** [if (!c) { FAIL(msg); corm_close(db); return; } rest]. *)
Definition or_fail (c : bool) (msg : string) b (rest : io S unit) : io S unit :=
  if c then rest else FAIL msg;; call (corm_close (Some (Some b)));; mret tt.

(** The database in memory, or else the test is skipped. *)
Definition with_memory (name : string) (body : backend S -> io S unit) : io S unit :=
  '(err, db) ← call (corm_open g (Some "sqlite3://:memory:") true);
  if is_err err then TEST name;; printf (ln "SKIP (no sqlite3 backend)") [];; PASS
  else b ← call (deref db); body b.

(** Without a check. *)
Definition with_open (body : backend S -> io S unit) : io S unit :=
  '(_, db) ← call (corm_open g (Some "sqlite3://:memory:") true);
  b ← call (deref db); body b.

Definition with_memory_or_skip (body : backend S -> io S unit) : io S unit :=
  '(err, db) ← call (corm_open g (Some "sqlite3://:memory:") true);
  if is_err err then printf (ln "SKIP (no sqlite3 backend)") []
  else b ← call (deref db); body b.

Definition migrate (ms : list (model S)) b : M S corm_err :=
  corm_auto_migrate (Some (Some b)) (Some (map Some ms)) (Z.of_nat (length ms)).

Definition closing_test b : io S unit := call (corm_close (Some (Some b)));; mret tt.

(** [res->row_count] and [res->rows[i][j]]. *)
Definition row_count (res : option loc) : M S Z := r ← get_result res; mret (r_row_count r).
Definition value_of (res : option loc) (i j : nat) : M S corm_value :=
  r ← get_result res; row ← deref (r_rows r !! i); deref (row !! j).
Definition release_if (res : option loc) : io S unit :=
  match res with Some _ => call (corm_result_release res);; mret tt | None => mret tt end.

Definition results : io S Z :=
  passed ← call (member_int statics S_PASSED);
  failed ← call (member_int statics S_FAILED);
  printf (NL +:+ ln "Results: %d passed, %d failed") [PI passed; PI failed];;
  mret (if 0 <? failed then 1 else 0).

(** ** [test_sqlite.c] *)

Definition create_test_users : string :=
  "CREATE TABLE IF NOT EXISTS test_users (id INTEGER PRIMARY KEY AUTOINCREMENT, name TEXT NOT NULL, age INTEGER DEFAULT 0)".

Definition test_sqlite_open_close : io S unit :=
  TEST "corm_open with sqlite3://:memory:";;
  '(err, db) ← call (corm_open g (Some "sqlite3://:memory:") true);
  if is_err err then printf "SKIP (no sqlite3 backend) - " [];; PASS
  else
    b ← call (deref db);
    PASS;;
    passes "corm_ping on memory db" (corm_ping (Some b));;
    passes "corm_close" (corm_close (Some (Some b))).

Definition test_sqlite_create_table : io S unit :=
  with_memory "create table" (fun b =>
    passes "corm_exec CREATE TABLE" (corm_exec (Some (Some b)) create_test_users);;
    closing_test b).

Definition test_sqlite_insert_select : io S unit :=
  with_memory "insert and select" (fun b =>
    let db := Some (Some b) in
    call (corm_exec db create_test_users);;
    passes "INSERT returns OK" (corm_exec db "INSERT INTO test_users (name, age) VALUES ('Alice', 30)");;
    TEST "SELECT returns data";;
    '(err, res) ← call (raw_into db "SELECT * FROM test_users" None);
    assert (is_ok err && negb (is_null res));;
    PASS;;
    holds "result has correct row count" (n ← row_count res; mret (n =? 1));;
    holds "result has correct column count" (r ← get_result res; mret (r_column_count r =? 3));;
    TEST "column names are correct";;
    r ← call (get_result res);
    n ← call (deref (r_column_names r !! O));
    (if negb (is_null n) then PASS else FAIL "column_names[0] is NULL");;
    holds "corm_result_next iteration"
      (corm_result_reset res;;
       a ← corm_result_next res; c ← corm_result_next res; mret (a && negb c));;
    call (corm_result_release res);;
    closing_test b).

Definition test_sqlite_transaction : io S unit :=
  with_memory "transaction" (fun b =>
    let db := Some (Some b) in
    call (corm_exec db create_test_users);;
    passes "BEGIN transaction" (corm_begin (Some b));;
    passes "INSERT in transaction" (corm_exec db "INSERT INTO test_users (name, age) VALUES ('Bob', 25)");;
    passes "ROLLBACK transaction" (corm_rollback (Some b));;
    TEST "verify rollback";;
    '(_, res) ← call (raw_into db "SELECT COUNT(*) as cnt FROM test_users" None);
    release_if res;;
    PASS;;
    closing_test b).

Definition create_type_test : string :=
  "CREATE TABLE type_test (id INTEGER PRIMARY KEY, ival INTEGER, bval INTEGER, tval TEXT, blobval BLOB, rval REAL)".

(** What the assertions of [test_sqlite_types] look at. *)
Definition is_int (z : Z) (v : corm_value) : bool := negb (v_is_null v) && bool_decide (u_as_i (v_u v) = Some z).
Definition value_is (res : option loc) (i j : nat) (f : corm_value -> M S bool) : M S bool :=
  v ← value_of res i j; f v.
Definition int_is (z : Z) (v : corm_value) : M S bool := mret (is_int z v).
Definition null_is (v : corm_value) : M S bool := mret (v_is_null v).
Definition text_is (s : string) (v : corm_value) : M S bool :=
  p ← deref (u_as_s (v_u v)); t ← read_str p; mret (negb (v_is_null v) && String.eqb t s).
Definition blob_is (bs : list Z) (v : corm_value) : M S bool :=
  '(p, n) ← deref (u_as_blob (v_u v));
  t ← read_blob p n;
  mret (negb (v_is_null v) && (n =? Z.of_nat (length bs)) &&
        bool_decide (t = map (fun z => ascii_of_N (Z.to_N z)) bs)).
(** Positive doubles are ordered as their patterns. *)
Definition between (lo hi : string) (v : corm_value) : M S bool :=
  x ← deref (u_as_f (v_u v)); mret (negb (v_is_null v) && (strtod lo <? x) && (x <? strtod hi)).

Definition test_sqlite_types : io S unit :=
  with_memory "NULL values" (fun b =>
    let db := Some (Some b) in
    call (corm_exec db create_type_test);;
    passes "INSERT with NULL and BOOL values" (corm_exec db
      "INSERT INTO type_test (id, ival, bval, tval, blobval, rval) VALUES (1, 42, 1, 'hello', x'deadbeef', 3.14)");;
    passes "INSERT row with NULLs" (corm_exec db
      "INSERT INTO type_test (id, ival, bval, tval, blobval, rval) VALUES (2, NULL, 0, NULL, NULL, NULL)");;
    passes "INSERT large 64-bit integer"
      (corm_exec db "INSERT INTO type_test (id, ival) VALUES (3, 3000000000)");;
    passes "INSERT BLOB with binary data"
      (corm_exec db "INSERT INTO type_test (id, ival, blobval) VALUES (4, 99, x'a1b2c3d4e5f6')");;
    TEST "SELECT typed rows";;
    '(err, res) ← call (raw_into db "SELECT * FROM type_test ORDER BY id" None);
    assert (is_ok err && negb (is_null res));;
    n ← call (row_count res);
    assert (n =? 4);;
    PASS;;
    holds "Row 1 - column types inferred correctly"
      (corm_result_reset res;; more ← corm_result_next res; r ← get_result res;
       mret (more && bool_decide (take 2 (r_column_types r) = [CORM_INT64; CORM_INT64])));;
    holds "Row 1 - INTEGER value correct"
      (x ← value_is res 0 0 (int_is 1); y ← value_is res 0 1 (int_is 42); mret (x && y));;
    holds "Row 1 - BOOL (stored as INTEGER 1)" (value_is res 0 2 (int_is 1));;
    holds "Row 1 - TEXT value" (value_is res 0 3 (text_is "hello"));;
    holds "Row 1 - BLOB value" (value_is res 0 4 (blob_is [222; 173; 190; 239]));;
    holds "Row 1 - REAL value" (value_is res 0 5 (between "3.13" "3.15"));;
    holds "Row 2 - NULL INTEGER"
      (more ← corm_result_next res; x ← value_is res 1 1 null_is; mret (more && x));;
    holds "Row 2 - NULL TEXT" (value_is res 1 3 null_is);;
    holds "Row 2 - NULL BLOB" (value_is res 1 4 null_is);;
    holds "Row 2 - NULL REAL" (value_is res 1 5 null_is);;
    holds "Row 2 - BOOL (stored as INTEGER 0)" (value_is res 1 2 (int_is 0));;
    holds "Row 3 - large 64-bit integer (3000000000)"
      (more ← corm_result_next res; x ← value_is res 2 1 (int_is 3000000000); mret (more && x));;
    holds "Row 4 - BLOB data (6 bytes)"
      (more ← corm_result_next res; x ← value_is res 3 4 (blob_is [161; 178; 195; 212; 229; 246]); mret (more && x));;
    call (corm_result_release res);;
    closing_test b).

Definition sqlite_tests_main : io S Z :=
  printf (ln "CORM SQLite Integration Tests") [];;
  printf (ln (ln "══════════════════════════════")) [];;
  test_sqlite_open_close;; test_sqlite_create_table;; test_sqlite_insert_select;;
  test_sqlite_transaction;; test_sqlite_types;;
  results.

(** ** [test_corm_api.c] *)

(** A hook that counts its calls and keeps the record. *)
Definition on_batch (count last : Z) : hook S := fun record =>
  count_up count;;
  store_cell statics last (CPtr (match record with Some (l, i) => PField l i 0 | None => PNull end));;
  mret CORM_OK.

Definition batch_hook_model : model S :=
  Model (Some "batch_hook_test") 68 (Some (named_fields id_field)) 2 (head (named_fields id_field)) None None
    (Some (on_batch S_BEFORE_UPDATE S_LAST_BEFORE_UPDATE)) (Some (on_batch S_AFTER_UPDATE S_LAST_AFTER_UPDATE))
    (Some (on_batch S_BEFORE_DELETE S_LAST_BEFORE_DELETE)) (Some (on_batch S_AFTER_DELETE S_LAST_AFTER_DELETE))
    None.

Definition no_pk_test_model {S'} : model S' := keyless_model "no_pk_test" 68 keyless_fields.

Definition api_savepoint_validation : io S unit :=
  with_memory "savepoint rejects SQL injection name" (fun b =>
    let db := Some (Some b) in
    TEST "savepoint accepts valid name 'sp1'";;
    err ← call (corm_savepoint db (Some "sp1"));
    assert (is_ok err);;
    call (corm_release_savepoint db (Some "sp1"));;
    PASS;;
    rejects "savepoint rejects name with semicolon" (corm_savepoint db (Some "foo; DROP TABLE users"));;
    rejects "savepoint rejects name with spaces" (corm_savepoint db (Some "bad name"));;
    rejects "savepoint rejects empty name" (corm_savepoint db (Some ""));;
    rejects "rollback_to rejects SQL injection name" (corm_rollback_to db (Some "foo'; DROP TABLE users; --"));;
    rejects "release_savepoint rejects SQL injection name"
      (corm_release_savepoint db (Some "foo'; DROP TABLE users; --"));;
    closing_test b).

(** [g_x = 0] and [g_last_x = NULL]. *)
Definition clear_static (counts lasts : list Z) : M S unit :=
  for_each counts (fun o _ => store_cell statics o (CInt 0)) tt;;
  for_each lasts (fun o _ => store_cell statics o (CPtr PNull)) tt.
Definition static_ptr (off : Z) : M S cptr :=
  c ← load_cell statics off; match c with CPtr p => mret p | _ => stuck end.
(** The [name] of the record a pointer points to. *)
Definition name_of (p : cptr) : M S string :=
  match p with PField l i _ => read_str (PField l i 4) | _ => stuck end.

(** [db] is closed, then the arrays of the test go away. *)
Definition check_counts (name : string) b (counts : list (Z * string)) (lasts : list (Z * string))
    (m : M S corm_err) (rest : io S unit) : io S unit :=
  TEST name;;
  call (clear_static (map fst counts) (map fst lasts));;
  err ← call m;
  assert (is_ok err);;
  foldr (fun '(o, msg) k => n ← call (member_int statics o); or_fail (n =? 2) msg b k)
    (foldr (fun '(o, msg) k => p ← call (static_ptr o); or_fail (negb (bool_decide (p = PNull))) msg b k)
       rest lasts) counts.

Definition api_batch_hooks : io S unit :=
  with_memory "batch hooks receive record pointer" (fun b =>
    call (register_model (plain_model "batch_hook_test" 68 (named_fields id_field)));;
    call (migrate [batch_hook_model] b);;
    local_array [named_rec 0 "Alice"; named_rec 0 "Bob"] (fun recs =>
      '(err, inserted) ← call (corm_create_batch (Some b) (Some batch_hook_model) (Some (recs, O)) 2 10);
      assert (is_ok err && bool_decide (inserted = Some 2));;
      call (store_cell (recs, O) 4 (chars "Alice Updated" 64));;
      call (store_cell (recs, 1%nat) 4 (chars "Bob Updated" 64));;
      check_counts "update_batch calls before_update with record" b
        [(S_BEFORE_UPDATE, "before_update called wrong count"); (S_AFTER_UPDATE, "after_update called wrong count")]
        [(S_LAST_BEFORE_UPDATE, "before_update record is NULL"); (S_LAST_AFTER_UPDATE, "after_update record is NULL")]
        ('(err, _) ← corm_update_batch (Some b) (Some batch_hook_model) (Some (recs, O)) 2; mret err)
        (p ← call (static_ptr S_LAST_AFTER_UPDATE);
         name ← call (name_of p);
         or_fail (String.eqb name "Bob Updated") "after_update record has wrong content" b
           (PASS;;
            check_counts "delete_batch calls before_delete with record" b
              [(S_BEFORE_DELETE, "before_delete called wrong count"); (S_AFTER_DELETE, "after_delete called wrong count")]
              [(S_LAST_BEFORE_DELETE, "before_delete record is NULL"); (S_LAST_AFTER_DELETE, "after_delete record is NULL")]
              ('(err, _) ← corm_delete_batch (Some b) (Some batch_hook_model) (Some (recs, O)) 2; mret err)
              (PASS;; closing_test b))))).

Definition api_batch_no_pk : io S unit :=
  with_memory "batch with no PK returns error" (fun b =>
    call (register_model no_pk_test_model);;
    call (migrate [no_pk_test_model] b);;
    local_array [named_rec 0 "X"; named_rec 0 "Y"] (fun recs =>
      TEST "update_batch with no PK returns CORM_ERR_MISMATCH";;
      '(err, _) ← call (corm_update_batch (Some b) (Some no_pk_test_model) (Some (recs, O)) 2);
      assert (eq_err err CORM_ERR_MISMATCH);;
      PASS;;
      TEST "delete_batch with no PK returns CORM_ERR_MISMATCH";;
      '(err, _) ← call (corm_delete_batch (Some b) (Some no_pk_test_model) (Some (recs, O)) 2);
      assert (eq_err err CORM_ERR_MISMATCH);;
      PASS;;
      closing_test b)).

(** [memset(&found, 0, sizeof(found))]. *)
Definition clear_person (found : loc) : M S unit :=
  store_cell (found, O) 0 (CInt 0);; store_cell (found, O) 4 (chars "" 64);; store_cell (found, O) 68 (CInt 0).

(** Is it the person? *)
Definition person_is (found : loc) (name : string) (age : Z) : M S bool :=
  s ← read_str (PField found O 4); n ← member_int (found, O) 68; mret (String.eqb s name && (n =? age)).

Definition with_persons (name : string) (people : list rec) (body : backend S -> loc -> io S unit) : io S unit :=
  with_memory name (fun b =>
    call (register_model person_model);;
    call (migrate [person_model] b);;
    local_array people (fun l => body b l)).

Definition create_person b (people : loc) (i : nat) (out_id : bool) : io S unit :=
  call (corm_create_one (Some b) (Some person_model) (people, i) out_id);; mret tt.

Definition api_find_one : io S unit :=
  with_persons "find_one" [person "Alice" 30; person "Bob" 25] (fun b people =>
    create_person b people 0 true;;
    create_person b people 1 true;;
    local_array [person "" 0] (fun found =>
      TEST "find_one by id returns correct record";;
      call (clear_person found);;
      err ← call (corm_find_one (Some b) (Some person_model) (Some "id = 1") (found, O));
      assert (is_ok err);;
      same ← call (person_is found "Alice" 30);
      or_fail same "find_one returned wrong data" b
        (PASS;;
         TEST "find_one with NULL where returns first record";;
         call (clear_person found);;
         err ← call (corm_find_one (Some b) (Some person_model) None (found, O));
         assert (is_ok err);;
         id ← call (member_int (found, O) 0);
         or_fail (negb (id =? 0)) "find_one with NULL where returned empty" b
           (PASS;;
            TEST "find_one with no match returns error";;
            call (clear_person found);;
            err ← call (corm_find_one (Some b) (Some person_model) (Some "id = 999") (found, O));
            assert (is_err err);;
            PASS;;
            closing_test b)))).

(** [cnt = -1; err = corm_count(...); assert(err == CORM_OK)]. *)
Definition check_count (name : string) b (cond : option string) (n : Z) (msg : string) (rest : io S unit) :
    io S unit :=
  TEST name;;
  '(err, cnt) ← call (corm_count (Some b) (Some person_model) cond true);
  assert (is_ok err);;
  or_fail (default (-1) cnt =? n) msg b (PASS;; rest).

Definition api_count : io S unit :=
  with_persons "count" [person "Alice" 30; person "Bob" 25; person "Charlie" 30] (fun b people =>
    create_person b people 0 false;;
    create_person b people 1 false;;
    create_person b people 2 false;;
    check_count "count all returns 3" b None 3 "wrong count"
    (check_count "count with WHERE age = 30 returns 2" b (Some "age = 30") 2 "wrong count for age=30"
    (check_count "count with no match returns 0" b (Some "id = 999") 0 "wrong count for no match"
    (closing_test b)))).

Definition BATCH_N : nat := 100.

Definition api_batch_create : io S unit :=
  with_persons "batch_create 100 records via multi-row INSERT"
    (map (fun i => person ("Person_" +:+ pretty (Z.of_nat i)) (Z.of_nat i mod 50)) (seq 0 BATCH_N)) (fun b recs =>
    TEST "batch_create 100 records via multi-row INSERT";;
    '(err, inserted) ← call (corm_create_batch (Some b) (Some person_model) (Some (recs, O)) 100 50);
    or_fail (is_ok err) "batch_create returned error" b
    (or_fail (default 0 inserted =? 100) "wrong inserted count" b
    (PASS;;
     TEST "batch_create multi-row count verify";;
     '(_, cnt) ← call (corm_count (Some b) (Some person_model) None true);
     or_fail (default (-1) cnt =? 100) "row count mismatch" b
     (PASS;;
      local_array [person "" 0] (fun found =>
        TEST "batch_create multi-row spot-check first record";;
        call (clear_person found);;
        call (corm_find_one (Some b) (Some person_model) (Some "id = 1") (found, O));;
        same ← call (person_is found "Person_0" 0);
        or_fail same "first record data wrong" b
        (PASS;;
         TEST "batch_create multi-row spot-check last record";;
         call (clear_person found);;
         call (corm_find_one (Some b) (Some person_model) (Some "id = 100") (found, O));;
         same ← call (person_is found "Person_99" 49);
         or_fail same "last record data wrong" b (PASS;; closing_test b))))))).

Definition api_tests_main : io S Z :=
  printf (ln "CORM API Tests") [];;
  printf (ln (ln "══════════════")) [];;
  api_savepoint_validation;; api_batch_hooks;; api_batch_no_pk;; api_find_one;; api_count;; api_batch_create;;
  results.

(** ** [test_migration.c] *)

Definition PASSED (name : string) : io S unit := printf (ln "%s PASSED") [PS name].

Definition asserted (m : M S corm_err) : io S unit := err ← call m; assert (is_ok err).

Definition test_incremental_migration : io S unit :=
  with_open (fun b =>
    call (register_model model_v1);;
    asserted (migrate [model_v1] b);;
    call (register_model model_v2);;
    asserted (migrate [model_v2] b);;
    closing_test b;;
    PASSED "test_incremental_migration").

Definition test_alter_table_with_reserved_word : io S unit :=
  with_memory_or_skip (fun b =>
    let db := Some (Some b) in
    call (corm_exec db "CREATE TABLE IF NOT EXISTS reserved_test (id INTEGER PRIMARY KEY AUTOINCREMENT)");;
    asserted (migrate [reserved_model] b);;
    '(_, res) ← call (raw_into db "SELECT group FROM reserved_test WHERE id = 1" None);
    release_if res;;
    closing_test b;;
    PASSED "test_alter_table_with_reserved_word").

Definition index_query : string :=
  "SELECT name FROM sqlite_master WHERE type='index' AND tbl_name='indexed_test' AND name='idx_indexed_test_email'".

Definition test_index_creation : io S unit :=
  with_memory_or_skip (fun b =>
    asserted (migrate [indexed_model] b);;
    '(err, res) ← call (raw_into (Some (Some b)) index_query None);
    assert (is_ok err && negb (is_null res));;
    n ← call (row_count res);
    assert (n =? 1);;
    call (corm_result_release res);;
    closing_test b;;
    PASSED "test_index_creation").

Definition test_foreign_key : io S unit :=
  with_memory_or_skip (fun b =>
    let db := Some (Some b) in
    call (corm_exec db "PRAGMA foreign_keys = ON");;
    asserted (migrate [dept_model; emp_model (Some "fk_dept.id")] b);;
    asserted (corm_exec db "INSERT INTO fk_dept (name) VALUES ('Engineering')");;
    asserted (corm_exec db "INSERT INTO fk_emp (dept_id, name) VALUES (1, 'Alice')");;
    err ← call (corm_exec db "INSERT INTO fk_emp (dept_id, name) VALUES (999, 'Bob')");
    assert (is_err err);;
    closing_test b;;
    PASSED "test_foreign_key").

Definition test_alter_add_constraints : io S unit :=
  with_memory_or_skip (fun b =>
    let db := Some (Some b) in
    call (corm_exec db "CREATE TABLE IF NOT EXISTS constraint_add_test (id INTEGER PRIMARY KEY AUTOINCREMENT)");;
    asserted (migrate [constraint_add_model] b);;
    asserted (corm_exec db "INSERT INTO constraint_add_test (label) VALUES ('test')");;
    '(_, res) ← call (raw_into db "SELECT status FROM constraint_add_test WHERE id = 1" None);
    assert (negb (is_null res));;
    n ← call (row_count res);
    assert (n =? 1);;
    v ← call (value_of res 0 0);
    assert (bool_decide (v_type v = CORM_INT) || bool_decide (v_type v = CORM_INT64));;
    assert (bool_decide (u_as_i (v_u v) = Some 0));;
    call (corm_result_release res);;
    closing_test b;;
    PASSED "test_alter_add_constraints").

Definition test_composite_primary_key : io S unit :=
  with_memory_or_skip (fun b =>
    asserted (migrate [user_role_model] b);;
    '(err, res) ← call (raw_into (Some (Some b))
      "SELECT sql FROM sqlite_master WHERE type='table' AND tbl_name='user_roles'" None);
    assert (is_ok err);;
    assert (negb (is_null res));;
    n ← call (row_count res);
    assert (n =? 1);;
    v ← call (value_of res 0 0);
    p ← call (deref (u_as_s (v_u v)));
    sql_str ← call (read_str p);
    assert (strstr sql_str "PRIMARY KEY");;
    call (corm_result_release res);;
    closing_test b;;
    PASSED "test_composite_primary_key").

Definition migration_tests_main : io S Z :=
  test_incremental_migration;; test_alter_table_with_reserved_word;; test_index_creation;;
  test_foreign_key;; test_alter_add_constraints;; test_composite_primary_key;; mret 0.

(** ** [test_hooks.c] and [test_full_hooks.c] *)

(** A hook that sets a flag, and the flag. *)
Definition raise_flag (off : Z) : hook S := fun _ => store_cell statics off (CBool true);; mret CORM_OK.
Definition raised (off : Z) : io S bool :=
  call (c ← load_cell statics off; match c with CBool f => mret f | _ => stuck end).

Definition hook_user_model : model S :=
  Model (Some "hook_users") 68 (Some (named_fields id_field)) 2 (head (named_fields id_field))
    (Some (raise_flag 56)) (Some (raise_flag 57)) None None None None None.

Definition test_model_hooks : io S Z :=
  with_open (fun b =>
    call (register_model (plain_model "hook_users" 68 (named_fields id_field)));;
    call (migrate [hook_user_model] b);;
    local_array [named_rec 0 "HookTester"] (fun user =>
      '(err, _) ← call (corm_create_one (Some b) (Some hook_user_model) (user, O) true);
      assert (is_ok err);;
      before ← raised 56;
      after ← raised 57;
      assert (before && after);;
      closing_test b;;
      PASSED "test_model_hooks"));;
  mret 0.

Definition full_hook_model : model S :=
  Model (Some "full_hook_records") 68 (Some (named_fields id_field)) 2 (head (named_fields id_field)) None None
    (Some (raise_flag 58)) (Some (raise_flag 59)) (Some (raise_flag 60)) (Some (raise_flag 61))
    (Some (raise_flag 62)).

(** [junk] is what the uninitialised [found_rec] holds. *)
Definition test_all_lifecycle_hooks (junk : rec) : io S Z :=
  with_open (fun b =>
    let m := Some full_hook_model in
    call (register_model (plain_model "full_hook_records" 68 (named_fields id_field)));;
    call (migrate [full_hook_model] b);;
    local_array [named_rec 0 "Initial"] (fun rec =>
      call (corm_create_one (Some b) m (rec, O) true);;
      q1 ← call (corm_query_new (Some b) m);
      local_array [junk] (fun found_rec =>
        '(err, q1) ← call (corm_first q1 (found_rec, O));
        assert (is_ok err);;
        found ← raised 62;
        assert found;;
        call (corm_query_free (Some q1));;
        q2 ← call (corm_query_new (Some b) m);
        q2 ← call (corm_query_where q2 (Some "id = 1"));
        q2 ← call (corm_query_set q2 (Some "name") (Value CORM_STRING false (UStr (PLit "Updated"))));
        '(err, q2, _) ← call (corm_update q2 true);
        assert (is_ok err);;
        before ← raised 58;
        after ← raised 59;
        assert (before && after);;
        call (corm_query_free (Some q2));;
        q3 ← call (corm_query_new (Some b) m);
        q3 ← call (corm_query_where q3 (Some "id = 1"));
        '(err, q3, _) ← call (corm_delete q3 true);
        assert (is_ok err);;
        before ← raised 60;
        after ← raised 61;
        assert (before && after);;
        call (corm_query_free (Some q3));;
        closing_test b;;
        PASSED "test_all_lifecycle_hooks")));;
  mret 0.

(** ** [test_soft_delete.c], [test_preload.c] and [test_logger.c] *)

(** [corm_find(q, &res); assert(res->row_count == n)], then both are freed. *)
Definition finds (q : option (query S)) (n : Z) : io S unit :=
  '(_, q, res) ← call (corm_find q);
  count ← call (row_count res);
  assert (count =? n);;
  call (corm_result_release res);;
  call (corm_query_free (Some q));;
  mret tt.

Definition test_soft_delete : io S Z :=
  with_open (fun b =>
    let m := Some soft_user_model in
    call (register_model soft_user_model);;
    call (migrate [soft_user_model] b);;
    local_array [{[0 := CInt 0; 4 := chars "SoftAlice" 64; 68 := chars "" 32]}] (fun u =>
      call (corm_create_one (Some b) m (u, O) true);;
      q1 ← call (corm_query_new (Some b) m);
      q1 ← call (corm_query_where q1 (Some "id = 1"));
      '(err, q1, _) ← call (corm_delete q1 true);
      assert (is_ok err);;
      call (corm_query_free (Some q1));;
      q2 ← call (corm_query_new (Some b) m);
      finds q2 0;;
      q3 ← call (corm_query_new (Some b) m);
      q3 ← call (corm_query_unscoped q3);
      finds q3 1;;
      closing_test b;;
      PASSED "test_soft_delete"));;
  mret 0.

Definition order_rec (title : string) (user_id : Z) : rec :=
  {[0 := CInt 0; 4 := chars title 64; 68 := CInt user_id]}.

Definition test_relation_preload : io S Z :=
  with_open (fun b =>
    call (register_model preload_user_model);;
    call (register_model order_model);;
    call (migrate [preload_user_model; order_model] b);;
    local_array [named_rec 0 "Alice"] (fun u =>
      '(_, uid) ← call (corm_create_one (Some b) (Some preload_user_model) (u, O) true);
      let uid := wrap_i32 (default 0 uid) in
      local_array [order_rec "Book" uid; order_rec "Pen" uid] (fun orders =>
        call (corm_create_one (Some b) (Some order_model) (orders, O) false);;
        call (corm_create_one (Some b) (Some order_model) (orders, 1%nat) false);;
        q ← call (corm_query_new (Some b) (Some preload_user_model));
        q ← call (corm_query_preload q (Some "preload_orders"));
        '(err, q, res) ← call (corm_find q);
        assert (is_ok err);;
        n ← call (row_count res);
        assert (n =? 1);;
        call (corm_result_release res);;
        call (corm_query_free (Some q));;
        closing_test b;;
        PASSED "test_relation_preload")));;
  mret 0.

(** [my_logger] sets [logger_called] when the text holds SELECT 1; the calls of
    the logger are the entries of the log. *)
Definition my_logger : positive := 1.
Definition logger_called : M S bool :=
  d ← get_db;
  mret (existsb (fun e => bool_decide (le_logger e = my_logger) && strstr (le_sql e) "SELECT 1") (p_log d)).

Definition test_logger_interceptor : io S Z :=
  with_open (fun b =>
    let db := Some (Some b) in
    call (corm_set_logger db (Some my_logger));;
    call (corm_exec db "SELECT 1");;
    called ← call logger_called;
    assert called;;
    closing_test b;;
    PASSED "test_logger_interceptor");;
  mret 0.

(** ** The tests of [test_query.c] and [test_core.c] that open a database *)

Definition with_test_users (body : backend S -> loc -> io S unit) : io S unit :=
  with_open (fun b =>
    call (register_model test_user_model);;
    call (migrate [test_user_model] b);;
    local_array [test_user "User1" 20; test_user "User2" 25; test_user "User3" 30] (fun users => body b users)).

Definition query_batch_insert : io S unit :=
  TEST "corm_create_batch inserts items in batches";;
  with_test_users (fun b users =>
    '(err, inserted) ← call (corm_create_batch (Some b) (Some test_user_model) (Some (users, O)) 3 2);
    assert (is_ok err && (default 0 inserted =? 3));;
    closing_test b;;
    PASS).

Definition query_count_users : io S unit :=
  TEST "corm_query_count returns correct row count";;
  with_test_users (fun b users =>
    for_upto 3 (fun i => call (corm_create_one (Some b) (Some test_user_model) (users, i) false);; mret tt);;
    q ← call (corm_query_new (Some b) (Some test_user_model));
    '(err, q, count) ← call (corm_query_count q true);
    assert (is_ok err && (default 0 count =? 3));;
    call (corm_query_free q);;
    closing_test b;;
    PASS).

(** [*val = z; return e;]. *)
Definition store_and_return (v : loc) (z : Z) (e : corm_err) : M S corm_err :=
  store_cell (v, O) 0 (CInt z);; mret e.

Definition core_transaction_helper : io S unit :=
  TEST "corm_transaction executes closure and commits or rolls back";;
  '(err, db) ← call (corm_open g (Some "sqlite3://:memory:") true);
  (if is_ok err then
     b ← call (deref db);
     local_array [{[0 := CInt 0]}] (fun v =>
       err ← call (corm_transaction (Some b) (Some (store_and_return v 42 CORM_OK)));
       n ← call (member_int (v, O) 0);
       assert (is_ok err && (n =? 42));;
       err ← call (corm_transaction (Some b) (Some (store_and_return v 99 CORM_ERR_GENERIC)));
       assert (eq_err err CORM_ERR_GENERIC);;
       closing_test b)
   else mret tt);;
  PASS.
End tests.
