(* ===== verification/ProgramRuns.v ===== *)
(** * The programs run

    The test programs of [TestPrograms.v] and [sqlite_full.c] on the SQLite driver
    over the database of [SmallSql.v], [mysql_example.c] on the MySQL driver over
    the same database ([SmallMysql.v]): every assertion of the tests holds, nothing
    they allocate is left, and the examples print what they promise - but for the
    places noted below. *)

From S2P Require Import Prelude Types Mem Strbuf Hash Float CLib Model Backend Query Builder.
From S2P Require Import Result Tx Exec Batch Core StmtCache Migration Stdio Examples DriverState.
From S2P Require Import Sqlite SqliteSpec SqliteSession SqliteLibrary SmallSql Mysql SmallMysql TestSuite TestPrograms.

#[local] Existing Instance sqlite_api.

Definition small_backends : list (backend sql_state) := (corm_register_sqlite3_backend []).2.

Definition small_world : world sql_state := sql_world statics_heap 2%positive.

(** What a program returns and prints last, the failures it reports, the blocks of
    memory it leaves besides the static variables, and the statements that were not
    finalized. *)
Definition verdict {A} (m : io sql_state A) : option (A * option string * list string * nat * nat) :=
  match m small_world with
  | Ret (a, out) w =>
      Some (a, last out, List.filter (fun s => starts "FAIL" s) out, size (delete 1%positive (w_heap w)),
            size (lib_stmts (p_env (w_db w))))
  | Stuck => None
  end.

(** No failure, nothing left. *)
Definition clean {A} (a : A) (text : string) : option (A * option string * list string * nat * nat) :=
  Some (a, Some (ln text), [], O, O).

Example sqlite_tests_pass :
  verdict (sqlite_tests_main small_backends) = clean 0 (NL +:+ "Results: 32 passed, 0 failed").
Proof. vm_compute. reflexivity. Qed.

Example api_tests_pass :
  verdict (api_tests_main small_backends) = clean 0 (NL +:+ "Results: 20 passed, 0 failed").
Proof. vm_compute. reflexivity. Qed.

Example migration_tests_pass :
  verdict (migration_tests_main small_backends) = clean 0 "test_composite_primary_key PASSED".
Proof. vm_compute. reflexivity. Qed.

Example hook_tests_pass :
  verdict (test_model_hooks small_backends) = clean 0 "test_model_hooks PASSED" /\
  verdict (test_all_lifecycle_hooks small_backends (named_rec 0 "")) =
    clean 0 "test_all_lifecycle_hooks PASSED".
Proof. split; vm_compute; reflexivity. Qed.

Example other_tests_pass :
  verdict (test_soft_delete small_backends) = clean 0 "test_soft_delete PASSED" /\
  verdict (test_relation_preload small_backends) = clean 0 "test_relation_preload PASSED" /\
  verdict (test_logger_interceptor small_backends) = clean 0 "test_logger_interceptor PASSED".
Proof. repeat split; vm_compute; reflexivity. Qed.

Example database_tests_pass :
  verdict (query_batch_insert small_backends;; query_count_users small_backends;;
           core_transaction_helper small_backends) = clean tt "PASS".
Proof. vm_compute. reflexivity. Qed.

(** [test_batch_hooks_receive_record] says that its records have the ids 1 and 2
    after [corm_create_batch].  They do not: the updates and deletes it then makes
    name the id 0, affect no row and succeed, and the table is what it was. *)
Definition table_rows (t : string) (w : world sql_state) : option (list row) :=
  tb_rows <$> sd_tables (lib_db (p_env (w_db w))) !! t.

Example batch_test_changes_nothing :
  match api_batch_hooks small_backends small_world with
  | Ret _ w => table_rows "batch_hook_test" w
  | Stuck => None
  end = Some [[QInt 1; QText "Alice"]; [QInt 2; QText "Bob"]].
Proof. vm_compute. reflexivity. Qed.

(** ** [sqlite_full.c] *)

(** The lines that are not titles or frames. *)
Definition report_lines (out : list string) : list string :=
  List.filter (fun s => starts "   " s) out.

Definition full_run : outcome sql_state (Z * list string) :=
  sqlite_full_main small_backends (fun _ => mret 0) (user_t 64 0 "" 0 "0")
    (replicate 10 (user_t 64 0 "" 0 "0")) small_world.

(** Bob became Eve: the batch update writes every member of the record; the article
    that was not deleted has an empty text, not NULL. *)
Example sqlite_full_output :
  match full_run with
  | Ret (code, out) w => Some (code, report_lines out, size (delete 1%positive (w_heap w)))
  | Stuck => None
  end =
  Some (0, map ln
    ["   ✓ Connected to /tmp/corm_example.db"; "   ✓ Registered 2 models"; "   ✓ Tables created/verified";
     "   Inserted 4 users"; "   Found: [1] Alice, Age: 30, Score: 95.5"; "   Total users: 4";
     "   [1] Alice — Age: 30, Score: 95.5"; "   [2] Bob — Age: 25, Score: 87.0";
     "   [3] Charlie — Age: 35, Score: 92.3"; "   [4] Diana — Age: 28, Score: 88.1";
     "   Batch inserted 3 users"; "   Updated 1 record(s)";
     "   Eve      → 99.9"; "   Alice    → 95.5"; "   Charlie  → 92.3"; "   Eve      → 91.0";
     "   Diana    → 88.1"; "   Grace    → 85.2"; "   Frank    → 79.5";
     "   Created 2 articles"; "   Soft-deleted article 1 (1 row(s) affected)";
     "   [1] Introduction to C — deleted_at=deleted"; "   [2] Advanced Memory Management — deleted_at=(none)";
     "   Transaction committed: 2 users added"; "   Inserted 'Judy' via parameterized SQL";
     "   Set isolation level to READ COMMITTED"; "   Total users: 10"; "   Total articles (raw): 2"], O).
Proof. vm_compute. reflexivity. Qed.

(** ** [mysql_example.c] *)

Definition mysql_small_backends : list (backend server_state) := (corm_register_mysql_backend []).2.
Example mysql_main_output :
  match mysql_main mysql_small_backends small_server_world with
  | Ret (code, out) w =>
      Some (code, report_lines out, last out, size (w_heap w),
            size (sv_stmts (p_env (w_db w))), size (sv_results (p_env (w_db w))))
  | Stuck => None
  end =
  Some (0,
    [ln (ln "   ✓ Connected to MySQL"); ln (ln "   ✓ Model 'users' registered"); ln (ln "   ✓ Old table dropped")] ++
    map ln
      ["   ✓ Table 'users' created"; "   ✓ Record inserted"; "   ✓ Record inserted"; "   ✓ Record inserted";
       "   Found 3 record(s):"; "   1. [1] Alice — Age: 30, Score: 95.5"; "   2. [3] Charlie — Age: 35, Score: 92.3";
       "   3. [2] Bob — Age: 25, Score: 87.0"; "   ✓ BEGIN"; "   ✓ Dave inserted"; "   ✓ COMMIT"; "   ✓ Done"],
    Some (ln "╚══════════════════════════════════╝"), O, O, O).
Proof. vm_compute. reflexivity. Qed.
